(* ===== verification/_CoqProject ===== *)
-Q . S2P
Prelude.v
GoStrings.v
NetIP.v
DataSource.v
Auth.v
JSContact.v
Types.v
Redact.v
Mapper.v
Validate.v
Search.v
Synth.v
Memory.v
LRU.v
Cache.v
Singleflight.v
CacheRun.v
CacheAlone.v
ResponseCache.v
Bootstrap.v
Http.v
Middleware.v
Float64.v
Strconv.v
Flag.v
FloatBound.v
RateLimit.v
RateBound.v
Handlers.v
SearchHandlers.v
Secrecy.v
Router.v
RouterRun.v
Jwks.v
Config.v
Server.v
Metrics.v
Pgx.v
Postgres.v
PgSchema.v
PgPool.v
PgFacts.v
PgSearch.v
PgSecrecy.v
PgSeed.v
Deploy.v
Command.v
Lifecycle.v
ProcessSecrecy.v
Stress.v
StressRun.v
StressServer.v
StressMain.v
Aggregate.v
AggregateMain.v
