(* ===== verification/Prelude.v ===== *)
(** * gordap: a verification development of the RDAP server

    gordap (Go) answers RDAP queries (RFC 9082, RFC 9083) about domains, entities,
    nameservers and IP networks.  Records come from a provider, are redacted by the tier of
    the caller and rendered as JSON.  This library models that path from the request to the
    bytes that leave the handler, the caches in between and the verifier that grants the
    tiers.  Definitions keep the names of the source and are executable; where Go's
    [error] is a result, an operation returns [res V] (the pair of a pointer and an error),
    a sum with [error], or [option] when [None] is a panic.

    ** The parts and their files

    - Prelude: tactics, 64-bit integers, [error] with [errors.Is], time as nanoseconds
      since Go's zero time, [range] over a map as any enumeration ([GoMapRange]).
    - GoStrings: package strings, strconv, base64.RawURLEncoding, fmt's [%x] and time
      formatting, on byte strings.  Case mapping outside ASCII is the class [GoUnicode].
    - NetIP: netip.Addr and Prefix; the text forms are the class [NetIPText].
    - DataSource: pkg/rdap/datasource, the records and the provider interface; the class
      [ProviderLaws] states what clients rely on.
    - Auth: pkg/rdap/auth, levels, claims, the bearer middleware ([authenticate]).
    - Jwks: pkg/rdap/auth/jwks, [Verify], the key store, the replay cache.
    - JSContact, Types: pkg/rdap/jscontact and pkg/rdap/types, cards, jCard, wire objects.
    - Redact, Mapper: pkg/rdap/mapper, [RedactContact] with its markers, and the rendering
      of records as wire objects.
    - Validate: pkg/rdap/validate and pkg/rdap/idn; UTS 46 is the class [IDNA].
    - Search, Synth, Memory: pkg/rdap/search, internal/synth and pkg/rdap/storage/memory;
      the class [IndexLaws] is the contract of an index, the store an instance of it and of
      [ProviderLaws].
    - LRU, Cache, Singleflight, CacheRun, CacheAlone: pkg/rdap/cache/cache.go.  LRU has the
      list of container/list with its heap of elements and the map into it; Cache the
      read-through cache over any provider, one call at a time; Singleflight the goroutines
      of [do] as a step relation; CacheRun the goroutines in [getOrLoad] and [refreshAsync]
      over both; CacheAlone relates CacheRun to Cache.
    - ResponseCache: pkg/rdap/cache/response.go.
    - Bootstrap: pkg/rdap/bootstrap, the IANA registries.
    - Http, Handlers, SearchHandlers: pkg/rdap/handlers.  A handler is a function from a
      request and the provider's world to the list of its writes and the next world.
    - Secrecy: sources, stores and record caches that differ only in data withheld at a
      level, and that their operations answer alike.
    - Router, RouterRun: the patterns of [NewRouter], the response-cache middleware, and the
      composition bearer middleware, cache, mux; RouterRun the requests that are in the
      router at once, as goroutines that take turns.
    - Middleware, RateLimit, RateBound: pkg/rdap/middleware.  Middleware has the gzip writer,
      CORS, the hardening headers and the request timeout, RateLimit the token buckets and
      the keys of clients, RateBound what the buckets admit over time.  Float64 is the
      binary64 arithmetic of the tokens, on the standard library's SpecFloat, and of
      Duration.Seconds, and FloatBound its rounding errors in Q.
    - Strconv, Flag: numbers and durations as text, and package flag.
    - Config, Server: internal/config, pkg/rdap/profile and cmd/gordap/main.go: the merge of
      file and flags, the profile, and the chain of handlers that is listening.
    - Metrics: pkg/rdap/metrics, audit and observability: the observed provider and its
      counters, the access log, the audit records.
    - Pgx, Postgres: pkg/rdap/storage/postgres over a pool of pgx, statement by statement and
      column by column; Pgx has the decodings of the driver, for every value that the
      schema allows.  PgSchema is a database with the tables of the migration, PgPool the
      meaning of the statements over it, PgFacts the lookups, PgSearch the searches
      and PgSecrecy databases that differ only in withheld data.
    - PgSeed: cmd/gordap-seed.
    - Deploy, Command, Lifecycle: cmd/gordap.  Deploy has what main puts together from its
      settings, Command the command line with the file and the servers, Lifecycle the life
      of the process: requests, loops, signals, the listener, the shutdown and the passing
      of time as events.  ProcessSecrecy relates two processes over two databases.
    - Stress, StressRun, StressServer, StressMain: cmd/gordap-stress.  Stress has the planned
      requests, the latencies, the atomic actions of a worker and the JSON report; StressRun
      the accounting of interleaved workers; StressServer the generator's requests on the
      server's routes; StressMain the command and the text report.
    - Aggregate, AggregateMain: cmd/gordap-stress-aggregate, the combination and the command.

    A request goes [Lifecycle.serve_request]: [AccessLog] -> [Server.handler]: [SecurityHeaders] ->
    [CORS] -> [RateLimit] -> [MaxRequestBody] -> [RequestTimeout] -> [Gzip] -> [NewRouter] -> [authenticate] (with
    [Jwks.jwks_verifier] or another [Verifier]) -> [responseCacheMiddleware] -> [mux_serve] -> a
    handler -> the provider ([Cache.cache_source] over [Memory.store_source] or
    [Postgres.postgres_source], or any other) -> [Mapper] -> writes.

    ** What the theorems show

    - Confidentiality: redaction is monotone in the tier ([Redact.redaction_monotone]); a
      rendered response is a function of what the tier may know
      ([Mapper.response_noninterference], for the relation [indist], the policy stated apart
      from the code).  The same holds of everything built on it, as a relation between two
      servers over two worlds that differ only in withheld data: the handlers
      ([Handlers.endpoint_rel], [SearchHandlers.handle_search_rel]) over the in-memory store
      ([Secrecy.store_source_rel]), Postgres ([PgSecrecy.postgres_source_rel]) and the record
      cache over either ([Secrecy.cache_source_rel]); the router with its response cache, for
      any history of requests of mixed tiers ([Router.router_noninterference]) and any
      interleaving of them ([RouterRun.concurrent_noninterference]); and the whole process,
      from main to the bytes on the wire ([ProcessSecrecy.process_confidential]).
    - Redaction markers: which are emitted, exactly ([Redact.markers_exact],
      [Mapper.domain_redacted_exact], [Mapper.entity_redacted_exact]), and that cards carry
      exactly the permitted view ([Mapper.card_carries_view]).
    - Authentication: [Jwks.Verify_accepts_iff], [Jwks.elevation_needs_valid_token],
      [Jwks.keyFor_fresh], [Jwks.replay_cache_exact], [Jwks.highestTier_max].
    - Caches: the LRU refines a list of bindings ([LRU.lru_refines]) and keeps what was used
      recently ([LRU.lru_retention]); the record cache, one call at a time, is transparent,
      bounded in staleness and does not panic ([Cache.cache_transparent],
      [Cache.cache_bounded_staleness], [Cache.getOrLoad_branches], [Cache.cache_no_panic]);
      singleflight gives every caller the result of a fetch that overlaps its call and
      terminates ([Singleflight.singleflight_correct],
      [Singleflight.singleflight_terminates]); under any interleaving of lookups, refreshes
      and evictions the answers are genuine and bounded in age, and every lookup returns, or
      panics where a call made for another kind of record is in its way
      ([CacheRun.concurrent_lookups], [CacheRun.lookups_return],
      [CacheRun.lookups_do_not_crash]), and a goroutine that is alone at its key does what
      the function of Cache says ([CacheAlone.alone_getOrLoad],
      [CacheAlone.alone_refreshAsync]); the response cache never crosses keys
      ([ResponseCache.response_cache_sound], [Router.cached_answer_replayed]).
    - In-memory storage: the store refines the log of its writes
      ([Memory.store_refines_log]); searches return the sorted matching records, page by page
      ([Memory.store_search_correct], [SearchHandlers.cursor_walk_complete],
      [Search.MatchPattern_correct]); the seeder stores what Synth predicts
      ([Memory.SeedSynthetic_predicts]).
    - Postgres: the lookups return the records of the database, and ErrNotFound exactly when
      there is none, for networks under conditions that the theorem names
      ([PgFacts.pg_lookups]); which rows that the schema allows can be decoded, value by
      value ([PgFacts.rows_decode]); the contacts of a domain and their
      multiplicities ([PgFacts.contact_once_per_role]); the searches return the matching
      rows in order, page by page ([PgSearch.pg_search_correct]), for the language that a
      client's pattern denotes, and where that is not what the in-memory store searches for
      ([PgSearch.ilikePattern_correct]), and no text of a client
      reaches a statement ([PgSearch.entity_statement_fixed]).  Seeding is complete and in
      batches ([PgSeed.seed_batches]), and a seeded database answers like the seeded store
      ([PgSeed.seeders_agree]).
    - Robustness: every request is answered with a complete RDAP response and no handler
      panics ([Router.router_answers]), under every interleaving of the requests in the
      router ([RouterRun.concurrent_answers], with [RouterRun.alone_is_NewRouter] for a
      request that nothing interrupts), by any process that main starts, its requests and
      background refreshes one at a time, for as long as it lives, and with one true line in
      the access log ([Lifecycle.process_answers]); how a process ends, and with which
      status ([Lifecycle.process_ends]); where its settings come from, and which faults of
      the command line end it ([Command.settings_precedence]); that a request's timeout does
      not reach lookups through the record cache ([Deploy.lookups_ignore_deadlines]);
      answers are compressed or not ([Middleware.gzip_transparent]) and with the notices of
      the profile ([Server.answers_carry_profile]); the limiter isolates clients, grants
      exactly the burst at once and no more than the rate over time, and keys an untrusted
      peer by its address ([RateLimit.key_isolation], [RateLimit.burst_exact],
      [RateBound.admits_at_most], [RateLimit.untrusted_peer_key]); only validated keys reach
      a provider ([Handlers.only_valid_keys_reach_source], [Validate.Handle_correct],
      [Validate.Normalize_idempotent]); self links lead back to their object
      ([Router.self_links_lead_back]); the bootstrap lookup finds the longest listed zone
      ([Bootstrap.DomainServers_longest], [Bootstrap.Refresh_loads]); metrics change no
      answer and count exactly ([Metrics.metrics_exact]).
    - The load generator: its figures are those of its requests under every interleaving of
      its workers, but for the status counts, of which less than one per worker is lost, and
      the mismatches it keeps the first ten recorded, under a base URL that parses
      ([StressRun.runStress_accounts]); percentiles are order statistics
      ([Stress.percentiles_correct]); a report combined from runs, each with settings of its
      own, has the figures of all their requests, also in the text that is printed
      ([Aggregate.aggregate_correct], [Aggregate.aggregate_of_runs],
      [AggregateMain.printed_report]); the verdict of a report is that of its requests
      ([StressMain.report_verdict]); and a server seeded with the same corpus meets every
      expectation ([StressServer.expectations_met]).
    - Behaviours that differ from what comments or standards promise are stated as theorems
      too: [Cache.errors_are_cached], [Singleflight.singleflight_type_confusion],
      [CacheRun.refresh_crash_ex], [CacheRun.late_put_ex], [RateBound.late_readings_ex],
      [Lifecycle.listen_failure_ex], [Lifecycle.refresh_interval_ex],
      [SearchHandlers.entity_search_is_oracle], [Redact.organisation_stripped_silently],
      [Mapper.deterministicUID_collisions], [Handlers.success_publicly_cacheable],
      [StressRun.lost_status_ex], [StressRun.bad_base_ex], [StressServer.corpus_ten_ex],
      [ProcessSecrecy.refresh_panic_ex], [Jwks.skew_ex], [Aggregate.aggregate_wrap_ex],
      [PgSearch.case_ex], [PgFacts.null_country_ex].

    ** Abstractions

    - Code outside the repository is a parameter: JSON text ([JSONEncoder]), Unicode tables,
      UTS 46, HTTP clients, JSON decoders, signature checks ([Jwks.JOSE]), compress/gzip
      ([GzipCodec]), the mux's redirect body, the pgx driver ([Pgx], [PgJSON]) and the pool,
      the URLs that net/http refuses ([GoRequest]), random numbers ([GoRand]), the trace of
      a request ([Tracing]), [%q] and [%v] ([GoFmt]), float-to-integer conversions out of
      range ([FloatToInt]).  The empty JSON text is that of an object which encoding/json
      refuses (a time past the year 9999); the theorems that relate bodies to contents say
      where they assume that there is none.  A law of such a class is documented behaviour;
      each theorem that uses one has a witness with a concrete instance.
    - Fuel: [LRU.evict] runs with one unit more than the list is long, and each round
      removes an element; the other recursions are structural or, like the client of
      [SearchHandlers.client_walk], are given a bound that a theorem shows to be enough.
    - Concurrency: an operation under a mutex is one step.  The interleavings of goroutines
      in the record cache (CacheRun), inside singleflight, of the requests in the router
      around the response cache (RouterRun, where a handler with its calls of the provider
      is one step) and of the load generator's workers are modelled.  The events of
      Lifecycle follow one another, a request or a background refresh as one step each: that
      lookups which overlap can panic on each other's calls is in CacheRun.  Of such panics
      Lifecycle has the one that ends the process, that of a background refresh, as an event
      of its own ([ERefreshPanic]); that of a request ends the request only, in net/http.
    - Contexts: the deadline of a context is part of the state that the provider and the
      verifier work on; what they do when it passes is theirs.
    - Memory is unbounded: allocations succeed, but for the panics of [make] on negative
      sizes.
    - Numbers: Go's [int] and [int64] wrap where the code can overflow; a theorem that needs
      counts to stay below 2^53 or 2^63 says so.
    - The clock is read from the world or is an argument of the operation.

    ** Not modelled

    The set-up of logging and tracing, YAML decoding, sockets and TLS, the handlers of expvar
    and pprof, and files and HTTP of the commands: calls into libraries.  The texts of logs,
    usage and error messages on standard error are left out.  pkg/rdap/ingest is an interface
    that nothing implements or calls. *)

From stdpp Require Export base numbers list gmap strings sorting fin_maps.

#[global] Set Default Goal Selector "!".

Declare Scope go_scope.
Delimit Scope go_scope with go.

(** ** Automation *)

(** The hint database of the development: lemmas that close the routine side
    conditions of the component files. *)
Create HintDb gordap.
Create Rewrite HintDb gordap_simpl.

(** Case analysis on every [match] or [if] in the goal, then on the hypotheses. *)
Ltac break_goal :=
  repeat match goal with
  | |- context [match ?x with _ => _ end] => destruct x eqn:?
  end.
Ltac break_in H :=
  repeat match type of H with
  | context [match ?x with _ => _ end] => destruct x eqn:?
  end.

(** Turns boolean connectives and comparisons of the hypotheses into
    propositions. *)
Ltac bool_hyps :=
  repeat match goal with
  | H : _ && _ = true |- _ => apply andb_true_iff in H as [? ?]
  | H : _ || _ = false |- _ => apply orb_false_iff in H as [? ?]
  | H : _ || _ = true |- _ => apply orb_true_iff in H
  | H : _ && _ = false |- _ => apply andb_false_iff in H
  | H : negb _ = true |- _ => apply negb_true_iff in H
  | H : negb _ = false |- _ => apply negb_false_iff in H
  | H : (_ <? _)%Z = true |- _ => apply Z.ltb_lt in H
  | H : (_ <? _)%Z = false |- _ => apply Z.ltb_ge in H
  | H : (_ <=? _)%Z = true |- _ => apply Z.leb_le in H
  | H : (_ <=? _)%Z = false |- _ => apply Z.leb_gt in H
  | H : (_ =? _)%Z = true |- _ => apply Z.eqb_eq in H
  | H : (_ =? _)%Z = false |- _ => apply Z.eqb_neq in H
  | H : (_ =? _)%string = true |- _ => apply String.eqb_eq in H
  | H : (_ =? _)%string = false |- _ => apply String.eqb_neq in H
  | H : bool_decide _ = true |- _ => apply bool_decide_eq_true in H
  | H : bool_decide _ = false |- _ => apply bool_decide_eq_false in H
  end.

(** ** Machine integers

    Go's [int] and [int64] are 64-bit two's complement: arithmetic wraps. *)
Definition int64_min : Z := - 2 ^ 63.
Definition int64_max : Z := 2 ^ 63 - 1.
Definition wrap64 (z : Z) : Z := (z + 2 ^ 63) mod 2 ^ 64 - 2 ^ 63.
Definition in_int64 (z : Z) : Prop := (int64_min ≤ z ≤ int64_max)%Z.

#[global] Instance in_int64_dec z : Decision (in_int64 z).
Proof. unfold in_int64; apply _. Defined.

Lemma wrap64_id z : in_int64 z → wrap64 z = z.
Proof.
  unfold in_int64, wrap64, int64_min, int64_max; intros H.
  rewrite Z.mod_small; lia.
Qed.

Lemma wrap64_range z : in_int64 (wrap64 z).
Proof.
  unfold in_int64, wrap64, int64_min, int64_max.
  pose proof (Z.mod_pos_bound (z + 2 ^ 63) (2 ^ 64)). lia.
Qed.
#[export] Hint Resolve wrap64_range : gordap.

Lemma wrap64_mod z : (wrap64 z mod 2 ^ 64 = z mod 2 ^ 64)%Z.
Proof.
  unfold wrap64. rewrite Zminus_mod_idemp_l. f_equal. lia.
Qed.
Lemma wrap64_add a b : wrap64 (wrap64 a + b)%Z = wrap64 (a + b)%Z.
Proof.
  unfold wrap64 at 1 3. f_equal.
  replace (wrap64 a + b + 2 ^ 63)%Z with (wrap64 a + (b + 2 ^ 63))%Z by lia.
  rewrite <-Zplus_mod_idemp_l, wrap64_mod, Zplus_mod_idemp_l. f_equal. lia.
Qed.

(** A wrapped sum is the plain sum as soon as the latter fits. *)
#[export] Hint Rewrite wrap64_id using (unfold in_int64, int64_min, int64_max; lia) : gordap_simpl.

(** [len(l) == 0] *)
Definition is_empty {A} (l : list A) : bool := match l with [] => true | _ => false end.

(** ** Errors

    Go errors as values: the sentinels of the repository, errors of code that
    is not modelled ([ErrOther]), and [fmt.Errorf] with [%w] ([Wrap]).
    [errors_Is] walks the wrap chain as [errors.Is] does. *)
Inductive error : Type :=
  | ErrNotFound            (* datasource.ErrNotFound *)
  | ErrUnauthorized        (* datasource.ErrUnauthorized *)
  | ErrNotImplemented      (* search.ErrNotImplemented *)
  | ErrTooLong             (* validate.ErrTooLong *)
  | ErrCharSet             (* validate.ErrCharSet *)
  | ErrNoRows              (* pgx.ErrNoRows *)
  | ErrOther (msg : string)
  | Wrap (msg : string) (e : error).

#[global] Instance error_eq_dec : EqDecision error.
Proof. solve_decision. Defined.

Fixpoint errors_Is (e target : error) : bool :=
  bool_decide (e = target) ||
  match e with Wrap _ e' => errors_Is e' target | _ => false end.

(** ** Time

    [time.Time] is a number of nanoseconds since Go's zero time (year 1), so
    the zero value is 0; [time.Duration] is a number of nanoseconds. *)
Definition Time := Z.
Definition Duration := Z.
Definition IsZero (t : Time) : bool := (t =? 0)%Z.
Definition Before (a b : Time) : bool := (a <? b)%Z.
Definition After (a b : Time) : bool := (b <? a)%Z.
Definition Second : Duration := 1000000000%Z.
Definition Minute : Duration := (60 * Second)%Z.

(** ** Go map iteration

    The order in which [range] visits a map is unspecified: [map_range] is any
    enumeration of the bindings, and a theorem about code that ranges over a
    map holds for every instance of this class. *)
Class GoMapRange := {
  map_range : ∀ {V : Type}, gmap string V → list (string * V);
  map_range_perm : ∀ {V : Type} (m : gmap string V), map_range m ≡ₚ map_to_list m;
}.

(** The enumeration stdpp computes is one instance; witnesses use it. *)
Definition map_range_default : GoMapRange :=
  {| map_range := λ V (m : gmap string V), map_to_list m;
     map_range_perm := λ V m, reflexivity _ |}.

Section map_range.
Context `{GoMapRange} {V : Type}.
Implicit Types (m : gmap string V).

Lemma elem_of_map_range m k v : (k, v) ∈ map_range m ↔ m !! k = Some v.
Proof. by rewrite map_range_perm, elem_of_map_to_list. Qed.

Lemma NoDup_map_range_fst m : NoDup (map_range m).*1.
Proof. rewrite map_range_perm. apply NoDup_fst_map_to_list. Qed.
End map_range.

(** ** List lemmas shared by the components *)
Section lists.
Context {A : Type}.

Lemma existsb_true (f : A → bool) (l : list A) :
  existsb f l = true ↔ ∃ x, x ∈ l ∧ f x = true.
Proof.
  rewrite existsb_exists. by setoid_rewrite list_elem_of_In.
Qed.

Lemma forallb_true (f : A → bool) (l : list A) :
  forallb f l = true ↔ ∀ x, x ∈ l → f x = true.
Proof.
  rewrite forallb_forall. by setoid_rewrite list_elem_of_In.
Qed.

Lemma forallb_Permutation (f : A → bool) (l1 l2 : list A) :
  l1 ≡ₚ l2 → forallb f l1 = forallb f l2.
Proof.
  intros Hp. apply eq_true_iff_eq. rewrite !forallb_true.
  by setoid_rewrite Hp.
Qed.

Lemma StronglySorted_sublist (R : A → A → Prop) (l1 l2 : list A) :
  l1 `sublist_of` l2 → StronglySorted R l2 → StronglySorted R l1.
Proof.
  induction 1 as [|x l1 l2 Hs IH|x l1 l2 Hs IH]; intros Hl; [done|..];
    apply StronglySorted_inv in Hl as [Hl HR]; [|by apply IH].
  constructor; [by apply IH|]. rewrite Forall_forall in HR |- *.
  intros y Hy. apply HR. by apply (sublist_subseteq _ _ Hs).
Qed.

(** Distinct keys stay distinct under any image that determines the key. *)
Lemma NoDup_fmap_fst_of {K B : Type} (g : K * A → B) (l : list (K * A)) :
  NoDup l.*1 → (∀ x y, x ∈ l → y ∈ l → g x = g y → x.1 = y.1) → NoDup (g <$> l).
Proof.
  induction l as [|x l IH]; cbn; [constructor|].
  intros [Hn Hnd]%NoDup_cons Hg. constructor.
  - intros (y & E & Hy)%list_elem_of_fmap. apply Hn, list_elem_of_fmap.
    exists y. split; [apply Hg; set_solver|done].
  - apply IH; [done|]. intros y z Hy Hz. apply Hg; set_solver.
Qed.

(** A key selects its one element. *)
Lemma filter_key {K : Type} `{EqDecision K} (f : A → K) (l : list A) (x : A) :
  NoDup (f <$> l) → x ∈ l → filter (λ y, f y = f x) l = [x].
Proof.
  induction l as [|y l IH]; [by intros _ ?%not_elem_of_nil|].
  intros [Hn Hnd]%NoDup_cons [->|Hx]%elem_of_cons.
  - rewrite filter_cons_True by done. f_equal.
    assert (Hnil : ∀ l', f y ∉ f <$> l' → filter (λ z, f z = f y) l' = []).
    { intros l' Hl. induction l' as [|z l' IHl]; [done|].
      rewrite fmap_cons, not_elem_of_cons in Hl. destruct Hl as [Hz Hl].
      rewrite filter_cons_False by (by intros E; apply Hz). by apply IHl. }
    by apply Hnil.
  - rewrite filter_cons_False; [by apply IH|]. intros E. apply Hn. rewrite E.
    by apply list_elem_of_fmap_2.
Qed.
Lemma filter_nil (P : A → Prop) `{∀ x, Decision (P x)} (l : list A) :
  (∀ x, x ∈ l → ¬ P x) → filter P l = [].
Proof.
  induction l as [|x l IH]; intros Hn; [done|].
  rewrite filter_cons_False by (apply Hn; left). apply IH. intros y Hy. apply Hn. by right.
Qed.

Lemma filter_all (P : A → Prop) `{∀ x, Decision (P x)} (l : list A) :
  (∀ x, x ∈ l → P x) → filter P l = l.
Proof.
  induction l as [|x l IH]; intros Hn; [done|].
  rewrite filter_cons_True by (apply Hn; left). f_equal. apply IH. intros y Hy. apply Hn. by right.
Qed.

Lemma filter_fmap_as {B : Type} (f : B → A) (P : A → Prop) (Q : B → Prop)
    `{∀ x, Decision (P x)} `{∀ x, Decision (Q x)} (l : list B) :
  (∀ x, P (f x) ↔ Q x) → filter P (f <$> l) = f <$> filter Q l.
Proof.
  intros HPQ. induction l as [|x l IH]; [done|]. rewrite fmap_cons.
  destruct (decide (Q x)) as [Hx|Hx].
  - rewrite !filter_cons_True by (done || by apply HPQ). by rewrite IH.
  - rewrite !filter_cons_False by (done || by rewrite HPQ). done.
Qed.
Lemma remove_dups_id `{EqDecision A} (l : list A) : NoDup l → remove_dups l = l.
Proof.
  induction 1 as [|x l Hn _ IH]; [done|]. cbn. destruct (decide_rel _ x l); [done|]. by rewrite IH.
Qed.
(** Lists selected one element at a time. *)
Lemma length_filter_bind {B : Type} (g : B → list A) (P : A → Prop) (Q : B → Prop)
    `{∀ x, Decision (P x)} `{∀ x, Decision (Q x)} (l : list B) :
  (∀ x, x ∈ l → length (filter P (g x)) = if decide (Q x) then 1 else 0)%nat →
  length (filter P (l ≫= g)) = length (filter Q l).
Proof.
  induction l as [|x l IH]; intros Hg; [done|]. cbn [mbind list_bind].
  rewrite filter_app, length_app, (Hg x) by left.
  rewrite IH by (intros y Hy; apply Hg; by right).
  destruct (decide (Q x)); [rewrite filter_cons_True|rewrite filter_cons_False]; done.
Qed.

Lemma elem_of_concat (ls : list (list A)) x : x ∈ concat ls ↔ ∃ l, l ∈ ls ∧ x ∈ l.
Proof.
  rewrite list_elem_of_In, in_concat. by setoid_rewrite list_elem_of_In.
Qed.
End lists.

(** ** Sums over a map *)
Definition map_sum {K A : Type} `{Countable K} (f : A → nat) (m : gmap K A) : nat :=
  map_fold (λ _ a n, f a + n)%nat 0%nat m.

Lemma map_sum_new {K A : Type} `{Countable K} (f : A → nat) (m : gmap K A) k a :
  m !! k = None → map_sum f (<[ k := a ]> m) = (f a + map_sum f m)%nat.
Proof.
  intros Hk. apply (map_fold_insert_L (λ (_ : K) a n, (f a + n)%nat)); [intros; lia|done].
Qed.

Lemma map_sum_insert {K A : Type} `{Countable K} (f : A → nat) (m : gmap K A) k a b :
  m !! k = Some a → (map_sum f (<[ k := b ]> m) + f a = map_sum f m + f b)%nat.
Proof.
  intros Hk. pose proof (map_sum_new f (delete k m) k a (lookup_delete_eq m k)) as H1.
  pose proof (map_sum_new f (delete k m) k b (lookup_delete_eq m k)) as H2.
  rewrite insert_delete_id in H1 by done. rewrite insert_delete_eq in H2. lia.
Qed.
