(* ===== verification/GoStrings.v ===== *)
(** * The parts of Go's [strings], [strconv] and [encoding/base64] the
    repository uses.

    A Go string is a sequence of bytes, so it is a Rocq [string] (a sequence of
    8-bit [ascii]).  Letter case and white space are exact on ASCII text; the
    Unicode case tables Go consults for a string holding a byte above 127 are
    the operations of the class [GoUnicode].  White space is exact for every
    byte string: the encodings of the Unicode [White_Space] runes are listed. *)
From S2P Require Import Prelude.
From Stdlib Require Import DecimalString DecimalZ DecimalFacts DecimalPos.
From Stdlib Require Export Ascii.

Open Scope string_scope.
Open Scope list_scope.

(** stdpp keeps [+:+] from computing; here it may, on a constructor. *)
#[global] Arguments String.append !s1 s2 / : simpl nomatch, rename.

(** ** Bytes *)
Definition byte_val (c : ascii) : N := N_of_ascii c.
Definition in_range (c lo hi : ascii) : bool :=
  (byte_val lo <=? byte_val c)%N && (byte_val c <=? byte_val hi)%N.
Definition is_digit (c : ascii) : bool := in_range c "0" "9".
Definition is_upper (c : ascii) : bool := in_range c "A" "Z".
Definition is_lower (c : ascii) : bool := in_range c "a" "z".
Definition lower_byte (c : ascii) : ascii :=
  if is_upper c then ascii_of_N (byte_val c + 32) else c.
Definition upper_byte (c : ascii) : ascii :=
  if is_lower c then ascii_of_N (byte_val c - 32) else c.
Definition is_ascii_byte (c : ascii) : bool := (byte_val c <? 128)%N.

Fixpoint str_forall (f : ascii → bool) (s : string) : bool :=
  match s with "" => true | String c s' => f c && str_forall f s' end.
Fixpoint str_map (f : ascii → ascii) (s : string) : string :=
  match s with "" => "" | String c s' => String (f c) (str_map f s') end.
Definition len (s : string) : Z := Z.of_nat (String.length s).

(** ** [HasPrefix], [HasSuffix], [Contains], [TrimPrefix], [CutPrefix] *)
Fixpoint HasPrefix (s p : string) {struct p} : bool :=
  match p, s with
  | "", _ => true
  | String a p', String b s' => Ascii.eqb a b && HasPrefix s' p'
  | _, _ => false
  end.

Fixpoint HasSuffix (s t : string) : bool :=
  (s =? t)%string || match s with "" => false | String _ s' => HasSuffix s' t end.

Fixpoint Contains (s t : string) : bool :=
  HasPrefix s t || match s with "" => false | String _ s' => Contains s' t end.

(** [s[n:]] *)
Fixpoint str_drop (n : nat) (s : string) : string :=
  match n, s with
  | S n', String _ s' => str_drop n' s'
  | _, _ => s
  end.
(** [s[:len(s)-1]] on a non-empty string *)
Fixpoint str_init (s : string) : string :=
  match s with
  | "" => ""
  | String c "" => ""
  | String c s' => String c (str_init s')
  end.
(** [s[len(s)-1]] *)
Fixpoint str_last (s : string) : option ascii :=
  match s with
  | "" => None
  | String c "" => Some c
  | String _ s' => str_last s'
  end.

Definition CutPrefix (s p : string) : string * bool :=
  if HasPrefix s p then (str_drop (String.length p) s, true) else (s, false).
Definition TrimPrefix (s p : string) : string := (CutPrefix s p).1.
Definition TrimSuffix1 (s : string) (c : ascii) : string :=
  if bool_decide (str_last s = Some c) then str_init s else s.

(** [strings.TrimRight(s, string(c))] *)
Fixpoint TrimRight (s : string) (c : ascii) : string :=
  match s with
  | "" => ""
  | String a s' =>
      match TrimRight s' c with
      | "" => if Ascii.eqb a c then "" else String a ""
      | r => String a r
      end
  end.
Fixpoint TrimLeft (s : string) (c : ascii) : string :=
  match s with
  | "" => ""
  | String a s' => if Ascii.eqb a c then TrimLeft s' c else s
  end.
Definition Trim (s : string) (c : ascii) : string := TrimRight (TrimLeft s c) c.

(** ** White space: [strings.TrimSpace], [strings.Fields] *)
Definition nb (c : ascii) : nat := nat_of_ascii c.

(** Removes one leading white-space rune, if there is one: the ASCII ones and
    the UTF-8 encodings of U+0085, U+00A0, U+1680, U+2000-200A, U+2028, U+2029,
    U+202F, U+205F and U+3000. *)
Definition space_rune (s : string) : option string :=
  match s with
  | "" => None
  | String a r1 =>
      let na := nb a in
      if ((9 <=? na)%nat && (na <=? 13)%nat) || (na =? 32)%nat then Some r1 else
      match r1 with
      | "" => None
      | String b r2 =>
          let nb' := nb b in
          if (na =? 194)%nat && ((nb' =? 133)%nat || (nb' =? 160)%nat) then Some r2 else
          match r2 with
          | "" => None
          | String c r3 =>
              let nc := nb c in
              if (na =? 225)%nat && (nb' =? 154)%nat && (nc =? 128)%nat then Some r3 else
              if (na =? 226)%nat && (nb' =? 128)%nat &&
                 (((128 <=? nc)%nat && (nc <=? 138)%nat) || (nc =? 168)%nat ||
                  (nc =? 169)%nat || (nc =? 175)%nat) then Some r3 else
              if (na =? 226)%nat && (nb' =? 129)%nat && (nc =? 159)%nat then Some r3 else
              if (na =? 227)%nat && (nb' =? 128)%nat && (nc =? 128)%nat then Some r3 else
              None
          end
      end
  end.

Fixpoint trim_left_space (fuel : nat) (s : string) : string :=
  match fuel with
  | O => s
  | S n => match space_rune s with Some r => trim_left_space n r | None => s end
  end.
Definition TrimLeftSpace (s : string) : string := trim_left_space (String.length s) s.
Fixpoint TrimRightSpace (s : string) : string :=
  if (TrimLeftSpace s =? "")%string then "" else
  match s with "" => "" | String c s' => String c (TrimRightSpace s') end.
Definition TrimSpace (s : string) : string := TrimRightSpace (TrimLeftSpace s).

(** Splits off the longest prefix without white space. *)
Fixpoint take_field (s : string) : string * string :=
  match space_rune s with
  | Some _ => ("", s)
  | None =>
      match s with
      | "" => ("", "")
      | String c s' => let '(f, r) := take_field s' in (String c f, r)
      end
  end.
Fixpoint fields (fuel : nat) (s : string) : list string :=
  match fuel with
  | O => []
  | S n =>
      match TrimLeftSpace s with
      | "" => []
      | s' => let '(f, r) := take_field s' in f :: fields n r
      end
  end.
Definition Fields (s : string) : list string := fields (S (String.length s)) s.

(** ** [Split] on a one-byte separator, [Join] *)
Fixpoint Split (s : string) (sep : ascii) : list string :=
  match s with
  | "" => [""]
  | String c s' =>
      if Ascii.eqb c sep then "" :: Split s' sep
      else match Split s' sep with
           | f :: r => String c f :: r
           | [] => [String c ""]
           end
  end.
(** [strings.SplitN(s, sep, 2)[0]] *)
Fixpoint SplitN_2_0 (s : string) (sep : ascii) : string :=
  match s with
  | "" => ""
  | String c s' => if Ascii.eqb c sep then "" else String c (SplitN_2_0 s' sep)
  end.
Fixpoint Join (l : list string) (sep : string) : string :=
  match l with
  | [] => ""
  | [s] => s
  | s :: l' => s +:+ sep +:+ Join l' sep
  end.

(** ** Letter case *)
Class GoUnicode := {
  unicode_to_lower : string → string;
  unicode_to_upper : string → string;
}.
(** A table without any letter outside ASCII, for the witnesses. *)
Definition unicode_default : GoUnicode :=
  {| unicode_to_lower := str_map lower_byte; unicode_to_upper := str_map upper_byte |}.

Definition is_ascii (s : string) : bool := str_forall is_ascii_byte s.
Definition ToLower `{GoUnicode} (s : string) : string :=
  if is_ascii s then str_map lower_byte s else unicode_to_lower s.
Definition ToUpper `{GoUnicode} (s : string) : string :=
  if is_ascii s then str_map upper_byte s else unicode_to_upper s.

(** [strings.EqualFold(s, t)] for an ASCII [t] that holds neither [k] nor [s]
    (the two letters Unicode folds with a rune outside ASCII): ASCII letter
    case is then the only folding that can happen. *)
Definition EqualFold_ascii (s t : string) : bool :=
  (str_map lower_byte s =? str_map lower_byte t)%string.

(** ** [strconv.Itoa], [strconv.Atoi] *)
Definition Itoa (z : Z) : string := NilZero.string_of_int (Z.to_int z).

Definition parse_digits (s : string) : option Z :=
  if (s =? "")%string then None else
  match NilEmpty.uint_of_string s with
  | Some u => Some (Z.of_uint u)
  | None => None
  end.
Definition Atoi (s : string) : option Z :=
  z ← match s with
      | String c r =>
          if Ascii.eqb c "-" then Z.opp <$> parse_digits r
          else if Ascii.eqb c "+" then parse_digits r
          else parse_digits s
      | "" => None
      end;
  if bool_decide (in_int64 z) then Some z else None.

(** ** [base64.RawURLEncoding] *)
Definition b64_alphabet : string :=
  "ABCDEFGHIJKLMNOPQRSTUVWXYZabcdefghijklmnopqrstuvwxyz0123456789-_".
Definition b64_char (n : N) : ascii :=
  match String.get (N.to_nat n) b64_alphabet with Some c => c | None => "000" end.
Fixpoint str_index (c : ascii) (s : string) : option N :=
  match s with
  | "" => None
  | String a s' => if Ascii.eqb a c then Some 0%N else N.succ <$> str_index c s'
  end.
Definition b64_val (c : ascii) : option N := str_index c b64_alphabet.

Fixpoint b64_encode (s : string) : string :=
  match s with
  | "" => ""
  | String a "" =>
      let n := (byte_val a * 65536)%N in
      String (b64_char (n / 262144)) (String (b64_char (n / 4096 mod 64)) "")
  | String a (String b "") =>
      let n := (byte_val a * 65536 + byte_val b * 256)%N in
      String (b64_char (n / 262144)) (String (b64_char (n / 4096 mod 64))
        (String (b64_char (n / 64 mod 64)) ""))
  | String a (String b (String c r)) =>
      let n := (byte_val a * 65536 + byte_val b * 256 + byte_val c)%N in
      String (b64_char (n / 262144)) (String (b64_char (n / 4096 mod 64))
        (String (b64_char (n / 64 mod 64)) (String (b64_char (n mod 64)) (b64_encode r))))
  end.

(** The decoder is not strict: trailing bits are dropped, and carriage returns
    and line feeds in the input are skipped before anything else. *)
Fixpoint drop_newlines (s : string) : string :=
  match s with
  | "" => ""
  | String c s' =>
      if (nb c =? 10)%nat || (nb c =? 13)%nat then drop_newlines s'
      else String c (drop_newlines s')
  end.
Fixpoint b64_groups (s : string) : option string :=
  match s with
  | "" => Some ""
  | String a (String b "") =>
      x ← b64_val a; y ← b64_val b;
      let n := (x * 262144 + y * 4096)%N in
      Some (String (ascii_of_N (n / 65536)) "")
  | String a (String b (String c "")) =>
      x ← b64_val a; y ← b64_val b; z ← b64_val c;
      let n := (x * 262144 + y * 4096 + z * 64)%N in
      Some (String (ascii_of_N (n / 65536)) (String (ascii_of_N (n / 256 mod 256)) ""))
  | String a (String b (String c (String d r))) =>
      x ← b64_val a; y ← b64_val b; z ← b64_val c; w ← b64_val d;
      let n := (x * 262144 + y * 4096 + z * 64 + w)%N in
      t ← b64_groups r;
      Some (String (ascii_of_N (n / 65536)) (String (ascii_of_N (n / 256 mod 256))
              (String (ascii_of_N (n mod 256)) t)))
  | _ => None
  end.
Definition b64_decode (s : string) : option string := b64_groups (drop_newlines s).

Example b64_ex1 : b64_encode "150" = "MTUw". Proof. reflexivity. Qed.
Example b64_ex2 : b64_decode "MTUw" = Some "150". Proof. reflexivity. Qed.
Example trim_ex : TrimSpace (" a b" +:+ String "194" (String "160" " ")) = "a b".
Proof. reflexivity. Qed.
Example fields_ex : Fields "  read  all " = ["read"; "all"]. Proof. reflexivity. Qed.
Example split_ex : Split "a.b..c" "." = ["a"; "b"; ""; "c"]. Proof. reflexivity. Qed.
Example itoa_ex : (Itoa (-50), Itoa 0, Atoi "-50", Atoi "+07", Atoi "9223372036854775808")
  = ("-50", "0", Some (-50)%Z, Some 7%Z, None). Proof. reflexivity. Qed.

(** ** Lemmas *)

Lemma str_app_nil_r s : s +:+ "" = s.
Proof. induction s as [|c s IH]; [done|]. cbn. by rewrite IH. Qed.
Lemma str_app_assoc s t u : s +:+ (t +:+ u) = (s +:+ t) +:+ u.
Proof. induction s as [|c s IH]; [done|]. cbn. by rewrite IH. Qed.
Lemma str_app_cons c s t : String c s +:+ t = String c (s +:+ t).
Proof. done. Qed.
Lemma str_length_app s t :
  String.length (s +:+ t) = (String.length s + String.length t)%nat.
Proof. induction s as [|c s IH]; [done|]. cbn. by rewrite IH. Qed.
Lemma str_app_inv_head s t u : s +:+ t = s +:+ u → t = u.
Proof. induction s as [|c s IH]; [done|]. cbn. intros [= H]. auto. Qed.
Lemma str_app_inv_tail s t u : s +:+ u = t +:+ u → s = t.
Proof.
  revert t. induction s as [|c s IH]; intros [|d t] H; cbn in H.
  - done.
  - apply (f_equal String.length) in H. cbn in H. rewrite str_length_app in H. lia.
  - apply (f_equal String.length) in H. cbn in H. rewrite str_length_app in H. lia.
  - injection H as -> H. f_equal. auto.
Qed.
#[export] Hint Rewrite str_app_nil_r : gordap_simpl.

Lemma str_drop_app s t : str_drop (String.length s) (s +:+ t) = t.
Proof. by induction s as [|c s IH]; [destruct t|]. Qed.

Lemma HasPrefix_spec s p : HasPrefix s p = true ↔ ∃ r, s = p +:+ r.
Proof.
  revert s. induction p as [|c p IH]; intros s; cbn.
  - split; [by exists s|done].
  - destruct s as [|d s]; cbn.
    + split; [done|by intros [r ?]].
    + rewrite andb_true_iff, IH. destruct (Ascii.eqb_spec c d) as [->|Hne].
      * split; [intros [_ [r ->]]; by exists r|]. intros [r [= ->]]. eauto.
      * split; [by intros [? ?]|]. intros [r [= ]]. congruence.
Qed.
Lemma HasPrefix_app p r : HasPrefix (p +:+ r) p = true.
Proof. apply HasPrefix_spec. eauto. Qed.

Lemma HasSuffix_spec s t : HasSuffix s t = true ↔ ∃ r, s = r +:+ t.
Proof.
  induction s as [|c s IH]; cbn [HasSuffix]; rewrite orb_true_iff, String.eqb_eq.
  - split; [intros [<-|[=]]; by exists ""|]. intros [[|d r] H]; cbn in H; [by left|done].
  - rewrite IH. split.
    + intros [<-|[r ->]]; [by exists ""|by exists (String c r)].
    + intros [[|d r] H]; cbn in H; [by left|]. injection H as -> H. right; eauto.
Qed.

Lemma Contains_spec s t : Contains s t = true ↔ ∃ a b, s = a +:+ t +:+ b.
Proof.
  induction s as [|c s IH]; cbn [Contains]; rewrite orb_true_iff, HasPrefix_spec.
  - split; [intros [[r H]|[=]]; by exists "", r|].
    intros ([|d a] & b & H); cbn in H; [|done]. left; eauto.
  - rewrite IH. split.
    + intros [[r H]|(a & b & ->)]; [by exists "", r|by exists (String c a), b].
    + intros ([|d a] & b & H); cbn in H; [left; eauto|]. injection H as -> H. right; eauto.
Qed.

Lemma CutPrefix_app p r : CutPrefix (p +:+ r) p = (r, true).
Proof. unfold CutPrefix. by rewrite HasPrefix_app, str_drop_app. Qed.
Lemma TrimPrefix_app p r : TrimPrefix (p +:+ r) p = r.
Proof. unfold TrimPrefix. by rewrite CutPrefix_app. Qed.

Lemma str_snoc_inv s : s = "" ∨ ∃ r c, s = r +:+ String c "".
Proof.
  induction s as [|c s [->|(r & d & ->)]]; [by left| |]; right.
  - by exists "", c.
  - by exists (String c r), d.
Qed.
Lemma str_last_snoc r c : str_last (r +:+ String c "") = Some c.
Proof. induction r as [|d r IH]; [done|]. cbn. by destruct (r +:+ String c "") eqn:E; [destruct r|]. Qed.
Lemma str_init_snoc r c : str_init (r +:+ String c "") = r.
Proof.
  induction r as [|d r IH]; [done|]. cbn.
  destruct (r +:+ String c "") eqn:E; [by destruct r|]. by rewrite IH.
Qed.

Lemma TrimRight_last s c : str_last (TrimRight s c) ≠ Some c.
Proof.
  induction s as [|a s IH]; [done|]. cbn [TrimRight].
  destruct (TrimRight s c) as [|b r] eqn:E.
  - destruct (Ascii.eqb_spec a c); [done|]. cbn. congruence.
  - by cbn [str_last].
Qed.

Lemma Split_not_nil s c : Split s c ≠ [].
Proof. destruct s; cbn; [done|]. break_goal; done. Qed.

Lemma Split_Join s c : Join (Split s c) (String c "") = s.
Proof.
  induction s as [|a s IH]; [done|]. cbn [Split].
  pose proof (Split_not_nil s c) as Hne.
  destruct (Ascii.eqb_spec a c) as [->|].
  - destruct (Split s c) as [|f r]; [done|]. cbn [Join] in *. by rewrite <-IH.
  - destruct (Split s c) as [|f [|g r]]; [done| |]; cbn [Join] in *; by rewrite <-IH.
Qed.

(** *** Decimal *)
Lemma parse_digits_uint u : u ≠ Decimal.Nil →
  parse_digits (NilEmpty.string_of_uint u) = Some (Z.of_uint u).
Proof.
  intros Hu. unfold parse_digits. rewrite NilEmpty.usu.
  destruct (String.eqb_spec (NilEmpty.string_of_uint u) "") as [E|]; [|done].
  destruct u; by try discriminate.
Qed.

Lemma string_of_uint_head u c r :
  NilEmpty.string_of_uint u = String c r → is_digit c = true.
Proof. destruct u; intros [= <- _]; reflexivity. Qed.

Lemma parse_digits_cases u : u ≠ Decimal.Nil →
  let s := NilEmpty.string_of_uint u in
  match s with
  | String c r =>
      if Ascii.eqb c "-" then Z.opp <$> parse_digits r
      else if Ascii.eqb c "+" then parse_digits r
      else parse_digits s
  | "" => None
  end = Some (Z.of_uint u).
Proof.
  intros Hu s. rewrite <-(parse_digits_uint u Hu). fold s.
  destruct s as [|c r] eqn:E; [by destruct u|].
  pose proof (string_of_uint_head u c r E) as Hd.
  destruct (Ascii.eqb_spec c "-") as [->|]; [done|].
  destruct (Ascii.eqb_spec c "+") as [->|]; [done|done].
Qed.

Lemma Atoi_Itoa z : in_int64 z → Atoi (Itoa z) = Some z.
Proof.
  intros Hz. unfold Atoi, Itoa.
  pose proof (DecimalZ.of_to z) as Hof.
  destruct (Z.to_int z) as [u|u] eqn:E; cbn [NilZero.string_of_int Z.of_int] in *.
  - unfold NilZero.string_of_uint.
    destruct u eqn:Eu; rewrite <-?Eu in *;
      [subst u z; reflexivity|..];
      (rewrite parse_digits_cases by (by subst u); cbn [mbind option_bind];
       rewrite Hof; by rewrite bool_decide_true).
  - cbn [NilZero.string_of_uint].
    destruct u eqn:Eu; rewrite <-?Eu in *;
      [subst u z; reflexivity|..];
      (replace (NilZero.string_of_uint u) with (NilEmpty.string_of_uint u)
         by (by subst u);
       cbn [mbind option_bind Ascii.eqb Bool.eqb];
       rewrite parse_digits_uint by (by subst u); cbn; rewrite Hof;
       by rewrite bool_decide_true).
Qed.

Lemma Itoa_inj a b : Itoa a = Itoa b → a = b.
Proof.
  assert (Hinv : ∀ z, NilZero.int_of_string (Itoa z) = Some (Z.to_int z)).
  { intros z. apply NilZero.isi; intros E;
      pose proof (DecimalZ.of_to z) as Hz; rewrite E in Hz; cbn in Hz; by subst z. }
  intros E. pose proof (Hinv a) as Ha. rewrite E, Hinv in Ha.
  rewrite <-(DecimalZ.of_to a), <-(DecimalZ.of_to b). congruence.
Qed.

(** *** Base64 *)
Lemma b64_char_table :
  forallb (λ n, bool_decide (b64_val (b64_char (N.of_nat n)) = Some (N.of_nat n)) &&
                negb ((nb (b64_char (N.of_nat n)) =? 10)%nat ||
                      (nb (b64_char (N.of_nat n)) =? 13)%nat)) (seq 0 64) = true.
Proof. vm_compute. reflexivity. Qed.

Lemma b64_char_spec n : (n < 64)%N →
  b64_val (b64_char n) = Some n ∧
  ((nb (b64_char n) =? 10)%nat || (nb (b64_char n) =? 13)%nat) = false.
Proof.
  intros Hn. pose proof b64_char_table as Ht. rewrite forallb_true in Ht.
  specialize (Ht (N.to_nat n)). cbv beta in Ht. rewrite N2Nat.id in Ht.
  assert (N.to_nat n ∈ seq 0 64) as Hin by (apply elem_of_seq; lia).
  specialize (Ht Hin). apply andb_true_iff in Ht as [Hv Hn'].
  apply bool_decide_eq_true in Hv. by apply negb_true_iff in Hn'.
Qed.
Lemma b64_val_char n : (n < 64)%N → b64_val (b64_char n) = Some n.
Proof. intros Hn. by destruct (b64_char_spec n Hn). Qed.

Lemma drop_newlines_char n s : (n < 64)%N →
  drop_newlines (String (b64_char n) s) = String (b64_char n) (drop_newlines s).
Proof. intros Hn. cbn [drop_newlines]. by destruct (b64_char_spec n Hn) as [_ ->]. Qed.

Lemma byte_val_bound c : (byte_val c < 256)%N.
Proof. apply N_ascii_bounded. Qed.
Lemma byte_of_val c : ascii_of_N (byte_val c) = c.
Proof. apply ascii_N_embedding. Qed.

Ltac div_lia := zify; Z.to_euclidean_division_equations; lia.

Lemma b64_sextets n : (n < 16777216)%N →
  (n / 262144 < 64 ∧ n / 4096 mod 64 < 64 ∧ n / 64 mod 64 < 64 ∧ n mod 64 < 64)%N.
Proof. intros. div_lia. Qed.
Lemma b64_join n : (n < 16777216)%N →
  (n / 262144 * 262144 + n / 4096 mod 64 * 4096 + n / 64 mod 64 * 64 + n mod 64 = n)%N.
Proof. intros. div_lia. Qed.
Lemma b64_octets a b c : (a < 256 → b < 256 → c < 256 →
  let n := a * 65536 + b * 256 + c in
  n < 16777216 ∧ n / 65536 = a ∧ n / 256 mod 256 = b ∧ n mod 256 = c)%N.
Proof. intros. unfold n. div_lia. Qed.

Section base64.
Local Ltac sextets n H :=
  let H' := fresh in
  pose proof (b64_sextets n H) as H'; destruct H' as (? & ? & ? & ?).

Lemma b64_octets_bytes a b c :
  let n := (byte_val a * 65536 + byte_val b * 256 + byte_val c)%N in
  (n < 16777216)%N ∧ ascii_of_N (n / 65536) = a ∧
  ascii_of_N (n / 256 mod 256) = b ∧ ascii_of_N (n mod 256) = c.
Proof.
  intros n. destruct (b64_octets (byte_val a) (byte_val b) (byte_val c))
    as (? & Ha & Hb & Hc); try apply byte_val_bound.
  unfold n. rewrite Ha, Hb, Hc, !byte_of_val. done.
Qed.

(** Every byte string survives the encoder and the (lenient) decoder. *)
Lemma b64_decode_encode s : b64_decode (b64_encode s) = Some s.
Proof.
  unfold b64_decode.
  induction s as [s IH] using (induction_ltof1 _ String.length).
  destruct s as [|a [|b [|c r]]]; [done| | |]; cbn [b64_encode].
  - destruct (b64_octets_bytes a "000" "000") as (Hn & Ha & _).
    rewrite !N.add_0_r in *. set (n := (byte_val a * 65536)%N) in *.
    sextets n Hn. rewrite !drop_newlines_char by done. cbn [drop_newlines b64_groups].
    rewrite !b64_val_char by done. cbn [mbind option_bind].
    replace (n / 262144 * 262144 + n / 4096 mod 64 * 4096)%N with n by div_lia.
    by rewrite Ha.
  - destruct (b64_octets_bytes a b "000") as (Hn & Ha & Hb & _).
    rewrite !N.add_0_r in *. set (n := (byte_val a * 65536 + byte_val b * 256)%N) in *.
    sextets n Hn. rewrite !drop_newlines_char by done. cbn [drop_newlines b64_groups].
    rewrite !b64_val_char by done. cbn [mbind option_bind].
    replace (n / 262144 * 262144 + n / 4096 mod 64 * 4096 + n / 64 mod 64 * 64)%N
      with n by div_lia.
    by rewrite Ha, Hb.
  - destruct (b64_octets_bytes a b c) as (Hn & Ha & Hb & Hc).
    set (n := (byte_val a * 65536 + byte_val b * 256 + byte_val c)%N) in *.
    sextets n Hn. rewrite !drop_newlines_char by done. cbn [b64_groups].
    rewrite !b64_val_char by done. cbn [mbind option_bind].
    rewrite IH by (unfold ltof; cbn; lia).
    rewrite b64_join by done. by rewrite Ha, Hb, Hc.
Qed.
End base64.

(** ** [time.Time.UTC().Format("2006-01-02T15:04:05Z")]

    The proleptic Gregorian calendar, from the day count of the zero time. *)
Definition pad (n : nat) (z : Z) : string :=
  let s := Itoa z in
  let fix zeros k := match k with O => "" | S k' => String "0" (zeros k') end in
  zeros (n - String.length s)%nat +:+ s.
Definition civil_of_days (days : Z) : Z * Z * Z :=
  let z := (days + 306)%Z in
  let era := (z / 146097)%Z in
  let doe := (z mod 146097)%Z in
  let yoe := ((doe - doe / 1460 + doe / 36524 - doe / 146096) / 365)%Z in
  let doy := (doe - (365 * yoe + yoe / 4 - yoe / 100))%Z in
  let mp := ((5 * doy + 2) / 153)%Z in
  let d := (doy - (153 * mp + 2) / 5 + 1)%Z in
  let m := (if mp <? 10 then mp + 3 else mp - 9)%Z in
  let y := (yoe + era * 400 + (if m <=? 2 then 1 else 0))%Z in
  (y, m, d).
Definition time_Format (t : Time) : string :=
  let secs := (t / Second)%Z in
  let '(y, m, d) := civil_of_days (secs / 86400)%Z in
  let r := (secs mod 86400)%Z in
  pad 4 y +:+ "-" +:+ pad 2 m +:+ "-" +:+ pad 2 d +:+ "T" +:+
  pad 2 (r / 3600)%Z +:+ ":" +:+ pad 2 (r / 60 mod 60)%Z +:+ ":" +:+ pad 2 (r mod 60)%Z +:+ "Z".

(** 2026-01-01T00:00:00Z, the instant the seeders use *)
Definition time_2026 : Time := (739616 * 86400 * Second)%Z.
Example format_ex : time_Format (time_2026 + 45296 * Second)%Z = "2026-01-01T12:34:56Z".
Proof. reflexivity. Qed.

(** ** [fmt.Sprintf("%x", bytes)] *)
Definition hex_digit (n : N) : ascii :=
  match String.get (N.to_nat n) "0123456789abcdef" with Some c => c | None => "0"%char end.
Fixpoint hex_string (s : string) : string :=
  match s with
  | "" => ""
  | String c s' =>
      String (hex_digit (byte_val c / 16)) (String (hex_digit (byte_val c mod 16)) (hex_string s'))
  end.

(** *** Slices and hexadecimal *)
Lemma str_app_inv_length s1 s2 t1 t2 :
  String.length s1 = String.length s2 → s1 +:+ t1 = s2 +:+ t2 → s1 = s2 ∧ t1 = t2.
Proof.
  revert s2. induction s1 as [|c s1 IH]; intros [|d s2]; cbn; try done.
  intros [= Hl] [= -> E]. by destruct (IH s2 Hl E) as [-> ->].
Qed.

Lemma substring_split n a b s :
  String.substring n (a + b) s = String.substring n a s +:+ String.substring (n + a) b s.
Proof.
  revert n a. induction s as [|c s IH]; intros n a.
  - by destruct n, a, b.
  - destruct n as [|n], a as [|a]; cbn; try done.
    + f_equal. apply (IH 0 a)%nat.
    + apply (IH n 0)%nat.
    + apply (IH n (S a)).
Qed.

Lemma substring_length n m s : (n + m ≤ String.length s)%nat →
  String.length (String.substring n m s) = m.
Proof.
  revert n m. induction s as [|c s IH]; intros [|n] [|m]; cbn; try lia; intros Hl.
  - rewrite IH; lia.
  - apply IH; lia.
  - apply IH; lia.
Qed.

Lemma hex_digit_inj m n : (m < 16)%N → (n < 16)%N → hex_digit m = hex_digit n → m = n.
Proof.
  intros Hm Hn E.
  assert (Hall : forallb (λ m, forallb (λ n, implb (Ascii.eqb (hex_digit m) (hex_digit n))
     (N.eqb m n)) (N.of_nat <$> seq 0 16)) (N.of_nat <$> seq 0 16) = true) by reflexivity.
  rewrite forallb_true in Hall.
  assert (Hin : ∀ k, (k < 16)%N → k ∈ (N.of_nat <$> seq 0 16)).
  { intros k Hk. apply list_elem_of_fmap. exists (N.to_nat k). rewrite elem_of_seq. lia. }
  specialize (Hall m (Hin m Hm)). rewrite forallb_true in Hall.
  specialize (Hall n (Hin n Hn)). rewrite E, Ascii.eqb_refl in Hall. by apply N.eqb_eq.
Qed.

Lemma hex_string_length s : String.length (hex_string s) = (2 * String.length s)%nat.
Proof. induction s as [|c s IH]; cbn [hex_string String.length]; lia. Qed.

Lemma hex_string_inj s t : hex_string s = hex_string t → s = t.
Proof.
  revert t. induction s as [|c s IH]; intros [|d t]; cbn [hex_string]; try done.
  intros E. injection E as E1 E2 E3.
  pose proof (byte_val_bound c); pose proof (byte_val_bound d).
  apply hex_digit_inj in E1; [|apply N.Div0.div_lt_upper_bound; lia..].
  apply hex_digit_inj in E2; [|apply N.mod_lt; lia..].
  f_equal; [|by apply IH].
  rewrite <-(byte_of_val c), <-(byte_of_val d). f_equal.
  rewrite (N.div_mod (byte_val c) 16), (N.div_mod (byte_val d) 16) by lia. congruence.
Qed.

(** *** Numbers inside names *)
(** Two texts that start with a run of digits followed by the same non-digit have the
    same run. *)
Lemma digits_split s t c r1 r2 :
  str_forall (λ d, negb (Ascii.eqb d c)) s = true →
  str_forall (λ d, negb (Ascii.eqb d c)) t = true →
  s +:+ String c r1 = t +:+ String c r2 → s = t.
Proof.
  revert t. induction s as [|a s IH]; intros [|b t]; cbn; try done.
  - intros _ Ht [= <- _]. by rewrite Ascii.eqb_refl in Ht.
  - intros Hs _ [= -> _]. by rewrite Ascii.eqb_refl in Hs.
  - intros [_ Hs]%andb_true_iff [_ Ht]%andb_true_iff [= -> E]. f_equal. by apply IH.
Qed.

(** Every character of a number is a digit or the sign. *)
Lemma Itoa_chars (P : ascii → bool) z :
  (∀ d, is_digit d = true → P d = true) → P "-"%char = true → str_forall P (Itoa z) = true.
Proof.
  intros Hd Hm. unfold Itoa.
  assert (He : ∀ u, str_forall P (NilEmpty.string_of_uint u) = true).
  { induction u; cbn [NilEmpty.string_of_uint str_forall]; rewrite ?IHu, ?Hd; done. }
  assert (Hz : ∀ u, str_forall P (NilZero.string_of_uint u) = true).
  { intros u. destruct u; try apply He. cbn [NilZero.string_of_uint str_forall]. by rewrite Hd. }
  destruct (Z.to_int z) as [u|u]; cbn [NilZero.string_of_int str_forall]; [apply Hz|].
  by rewrite Hz, Hm.
Qed.

Lemma Itoa_no_char c z :
  is_digit c = false → c ≠ "-"%char → str_forall (λ d, negb (Ascii.eqb d c)) (Itoa z) = true.
Proof.
  intros Hc Hm. apply Itoa_chars.
  - intros d Hd. apply negb_true_iff, Ascii.eqb_neq. congruence.
  - apply negb_true_iff, Ascii.eqb_neq. congruence.
Qed.

Lemma str_forall_app P s t : str_forall P (s +:+ t) = str_forall P s && str_forall P t.
Proof. induction s as [|c s IH]; [done|]. rewrite str_app_cons. cbn. by rewrite IH, andb_assoc. Qed.

(** Text that [ToLower] leaves as it is. *)
Definition lower_stable (c : ascii) : bool := is_ascii_byte c && negb (is_upper c).
Lemma lower_stable_digit d : is_digit d = true → lower_stable d = true.
Proof. by destruct d as [[] [] [] [] [] [] [] []]. Qed.

Lemma stable_ascii s :
  str_forall lower_stable s = true → is_ascii s = true ∧ str_map lower_byte s = s.
Proof.
  unfold is_ascii. induction s as [|c s IH]; cbn [str_forall str_map]; [done|].
  intros [Hc Hs]%andb_true_iff. destruct (IH Hs) as [-> ->].
  unfold lower_stable in Hc. apply andb_true_iff in Hc as [-> Hc].
  unfold lower_byte. apply negb_true_iff in Hc. by rewrite Hc.
Qed.
Lemma ToLower_stable `{GoUnicode} s : str_forall lower_stable s = true → ToLower s = s.
Proof. intros Hs. unfold ToLower. by destruct (stable_ascii s Hs) as [-> ->]. Qed.

(** *** Text without white space *)
Definition plain_byte (c : ascii) : bool := in_range c "!" "~".

Lemma space_rune_plain c s : plain_byte c = true → space_rune (String c s) = None.
Proof.
  unfold plain_byte, in_range, byte_val. intros Hc. apply andb_true_iff in Hc as [H1 H2].
  apply N.leb_le in H1, H2.
  assert (Hn : (33 ≤ nb c ≤ 126)%nat)
    by (unfold nb, nat_of_ascii; cbn in H1, H2; lia).
  cbn [space_rune].
  rewrite (leb_correct_conv 13 (nb c)), andb_false_r by lia.
  rewrite !(proj2 (Nat.eqb_neq (nb c) _)) by lia. cbn [orb andb].
  by destruct s as [|b [|d r]].
Qed.

Lemma TrimLeftSpace_plain s : str_forall plain_byte s = true → TrimLeftSpace s = s.
Proof.
  destruct s as [|c s]; [done|]. cbn [str_forall]. intros [Hc _]%andb_true_iff.
  unfold TrimLeftSpace. cbn [String.length trim_left_space]. by rewrite space_rune_plain.
Qed.

Lemma TrimSpace_plain s : str_forall plain_byte s = true → TrimSpace s = s.
Proof.
  intros Hs. unfold TrimSpace. rewrite TrimLeftSpace_plain by done.
  induction s as [|c s IH]; [done|]. cbn [TrimRightSpace].
  rewrite TrimLeftSpace_plain by done. cbn [String.eqb].
  cbn [str_forall] in Hs. apply andb_true_iff in Hs as [_ Hs]. by rewrite IH.
Qed.

Lemma TrimRight_id s c : str_last s ≠ Some c → TrimRight s c = s.
Proof.
  induction s as [|a s IH]; [done|]. intros Hl. cbn [TrimRight].
  destruct s as [|b s]; cbn [TrimRight] in *.
  - destruct (Ascii.eqb_spec a c) as [->|]; [by destruct Hl|done].
  - rewrite IH; [done|]. exact Hl.
Qed.

Lemma str_forall_impl (P Q : ascii → bool) s :
  (∀ c, P c = true → Q c = true) → str_forall P s = true → str_forall Q s = true.
Proof.
  intros HPQ. induction s as [|c s IH]; [done|]. cbn.
  intros [Hc Hs]%andb_true_iff. by rewrite HPQ, IH.
Qed.
