(* ===== verification/NetIP.v ===== *)
(** * The parts of Go's [net/netip] the repository uses.

    An address is its bit length (0 for the zero [Addr], 32 or 128), its value
    and its zone; containment in a prefix is computed on the bits.  The text
    formats ([ParseAddr], [String], [ParsePrefix]) are the operations of the
    class [NetIPText], because no theorem about the repository depends on how an
    address is written; [netip_text] is the instance that follows the standard
    library, and the witnesses evaluate it. *)
From S2P Require Import Prelude GoStrings.

Record Addr := mkAddr { addr_BitLen : Z; addr_val : Z; addr_zone : string }.
#[global] Instance Addr_eq_dec : EqDecision Addr.
Proof. solve_decision. Defined.

(** [netip.Addr{}] *)
Definition addr_zero : Addr := mkAddr 0 0 "".
Definition addr_IsValid (a : Addr) : bool := negb (addr_BitLen a =? 0)%Z.
Definition addr_Is4 (a : Addr) : bool := (addr_BitLen a =? 32)%Z.

(** The zero [Prefix] has no bit count and is not valid. *)
Record Prefix := mkPrefix { pfx_Addr : Addr; pfx_Bits : option Z }.
#[global] Instance Prefix_eq_dec : EqDecision Prefix.
Proof. solve_decision. Defined.

Definition pfx_IsValid (p : Prefix) : bool :=
  match pfx_Bits p with Some _ => true | None => false end.

(** [Prefix.Contains]: same family, no zone, and the leading bits agree. *)
Definition pfx_Contains (p : Prefix) (ip : Addr) : bool :=
  match pfx_Bits p with
  | None => false
  | Some n =>
      (addr_zone ip =? "")%string &&
      negb (addr_BitLen ip =? 0)%Z &&
      (addr_BitLen (pfx_Addr p) =? addr_BitLen ip)%Z &&
      (Z.shiftr (Z.lxor (addr_val ip) (addr_val (pfx_Addr p))) (addr_BitLen ip - n) =? 0)%Z
  end.

Class NetIPText := {
  ParseAddr : string → option Addr;
  addr_String : Addr → string;
  ParsePrefix : string → option Prefix;
}.

(** Dotted-quad helpers for examples and witnesses. *)
Definition ip4 (a b c d : Z) : Addr := mkAddr 32 (a * 2 ^ 24 + b * 2 ^ 16 + c * 2 ^ 8 + d) "".
Definition cidr4 (a b c d n : Z) : Prefix := mkPrefix (ip4 a b c d) (Some n).

Example contains_ex :
  (pfx_Contains (cidr4 192 0 2 0 24) (ip4 192 0 2 53),
   pfx_Contains (cidr4 192 0 2 0 24) (ip4 192 0 3 53),
   pfx_Contains (cidr4 0 0 0 0 0) (ip4 8 8 8 8)) = (true, false, true).
Proof. reflexivity. Qed.

(** A prefix only contains addresses of its own family. *)
Lemma pfx_Contains_family p ip :
  pfx_Contains p ip = true →
  addr_BitLen (pfx_Addr p) = addr_BitLen ip ∧ addr_IsValid ip = true.
Proof.
  unfold pfx_Contains, addr_IsValid. destruct (pfx_Bits p); [|done].
  intros H. repeat (apply andb_true_iff in H as [H ?]). bool_hyps. split; [done|].
  by apply negb_true_iff, Z.eqb_neq.
Qed.

(** ** The text formats *)
Section text.
(** [parseIPv4Fields]: four decimal octets without leading zeros. *)
Definition octet (f : string) : option Z :=
  if (String.length f =? 0)%nat || (3 <? String.length f)%nat then None
  else if HasPrefix f "0" && (1 <? String.length f)%nat then None
  else if str_forall is_digit f then
    z ← parse_digits f; if (z <=? 255)%Z then Some z else None
  else None.
Definition parseIPv4 (s : string) : option Z :=
  match mapM octet (Split s ".") with
  | Some [a; b; c; d] => Some (a * 2 ^ 24 + b * 2 ^ 16 + c * 2 ^ 8 + d)%Z
  | _ => None
  end.

Definition hex_val (c : ascii) : option Z :=
  if is_digit c then Some (Z.of_N (byte_val c) - 48)%Z
  else if in_range c "a" "f" then Some (Z.of_N (byte_val c) - 87)%Z
  else if in_range c "A" "F" then Some (Z.of_N (byte_val c) - 55)%Z
  else None.

(** The longest run of hexadecimal digits: its value, its length, the rest. *)
Fixpoint hex_run (acc : Z) (off : nat) (s : string) : Z * nat * string :=
  match s with
  | String c s' =>
      match hex_val c with
      | Some v => hex_run (acc * 16 + v) (S off) s'
      | None => (acc, off, s)
      end
  | "" => (acc, off, s)
  end.

(** The groups of [parseIPv6]: at most [fuel] more 16-bit groups; the result is the
    groups read, in order, and the number of groups before the ellipsis. *)
Fixpoint ipv6_groups (fuel : nat) (s : string) (acc : list Z) (ellipsis : option nat)
    : option (list Z * option nat) :=
  match fuel with
  | O => if (s =? "")%string then Some (acc, ellipsis) else None
  | S n =>
      let '(v, off, rest) := hex_run 0 0 s in
      if (off =? 0)%nat || (4 <? off)%nat then None
      else match rest with
      | "" => Some (acc ++ [v], ellipsis)
      | String "." _ =>
          if bool_decide (ellipsis = None) && negb (length acc =? 6)%nat then None
          else if (6 <? length acc)%nat then None
          else v4 ← parseIPv4 s;
               Some (acc ++ [(v4 / 2 ^ 16)%Z; (v4 mod 2 ^ 16)%Z], ellipsis)
      | String ":" "" => None
      | String ":" (String ":" rest') =>
          match ellipsis with
          | Some _ => None
          | None =>
              let acc' := acc ++ [v] in
              if (rest' =? "")%string then Some (acc', Some (length acc'))
              else ipv6_groups n rest' acc' (Some (length acc'))
          end
      | String ":" rest' => ipv6_groups n rest' (acc ++ [v]) ellipsis
      | _ => None
      end
  end.

Definition group_value (gs : list Z) : Z := foldl (λ v g, v * 2 ^ 16 + g)%Z 0%Z gs.

Definition parseIPv6 (s : string) : option Z :=
  if (s =? "::")%string then Some 0%Z else
  let '(body, ell) := if HasPrefix s "::" then (str_drop 2 s, Some 0%nat) else (s, None) in
  '(gs, ell) ← ipv6_groups 8 body [] ell;
  match ell with
  | None => if (length gs =? 8)%nat then Some (group_value gs) else None
  | Some e =>
      if (length gs <? 8)%nat then
        Some (group_value (take e gs ++ replicate (8 - length gs) 0%Z ++ drop e gs))
      else None
  end.

(** Which of ['.'], [':'] and ['%'] comes first. *)
Fixpoint first_mark (s : string) : option ascii :=
  match s with
  | String c s' =>
      if Ascii.eqb c "." || Ascii.eqb c ":" || Ascii.eqb c "%" then Some c else first_mark s'
  | "" => None
  end.

Definition netip_ParseAddr (s : string) : option Addr :=
  match first_mark s with
  | Some "."%char => (λ v, mkAddr 32 v "") <$> parseIPv4 s
  | Some ":"%char =>
      match Split s "%" with
      | [_] => (λ v, mkAddr 128 v "") <$> parseIPv6 s
      | body :: zone =>
          let z := Join zone "%" in
          if (z =? "")%string then None else (λ v, mkAddr 128 v z) <$> parseIPv6 body
      | [] => None
      end
  | _ => None
  end.

Definition dotted (v : Z) : string :=
  Itoa (v / 2 ^ 24 mod 256) +:+ "." +:+ Itoa (v / 2 ^ 16 mod 256) +:+ "." +:+
  Itoa (v / 2 ^ 8 mod 256) +:+ "." +:+ Itoa (v mod 256).

Definition group (v : Z) (i : nat) : Z := (v / 2 ^ (16 * (7 - Z.of_nat i)) mod 2 ^ 16)%Z.
Definition groups (v : Z) : list Z := group v <$> seq 0 8.

Fixpoint zero_run (gs : list Z) : nat :=
  match gs with 0%Z :: gs' => S (zero_run gs') | _ => 0%nat end.
(** The first of the longest runs of at least two zero groups. *)
Definition best_run (gs : list Z) : nat * nat :=
  foldl (λ b i, let l := zero_run (drop i gs) in
           if (1 <? l)%nat && (b.2 <? l)%nat then (i, l) else b) (0, 0)%nat (seq 0 8).

Fixpoint hex_trim (fuel : nat) (s : string) : string :=
  match fuel, s with
  | S n, String "0" (String c s') => hex_trim n (String c s')
  | _, _ => s
  end.
Definition hex16 (g : Z) : string :=
  hex_trim 3 (hex_string (String (ascii_of_N (Z.to_N (g / 256)))
                            (String (ascii_of_N (Z.to_N (g mod 256))) ""))).

Definition ipv6_String (v : Z) : string :=
  let gs := groups v in
  let '(i, l) := best_run gs in
  if (l =? 0)%nat then Join (hex16 <$> gs) ":"
  else Join (hex16 <$> take i gs) ":" +:+ "::" +:+ Join (hex16 <$> drop (i + l) gs) ":".

Definition netip_String (a : Addr) : string :=
  if (addr_BitLen a =? 0)%Z then "invalid IP"
  else if addr_Is4 a then dotted (addr_val a)
  else (if (addr_val a / 2 ^ 32 =? 2 ^ 16 - 1)%Z
        then "::ffff:" +:+ dotted (addr_val a mod 2 ^ 32)
        else ipv6_String (addr_val a)) +:+
       (if (addr_zone a =? "")%string then "" else "%" +:+ addr_zone a).

(** Cut at the last occurrence of a byte. *)
Definition last_cut (s : string) (c : ascii) : option (string * string) :=
  match rev (Split s c) with
  | l :: (_ :: _) as r => Some (Join (rev r) (String c ""), l)
  | _ => None
  end.

Definition netip_ParsePrefix (s : string) : option Prefix :=
  '(a, b) ← last_cut s "/";
  addr ← netip_ParseAddr a;
  if negb (addr_zone addr =? "")%string then None
  else if (1 <? String.length b)%nat && (HasPrefix b "0" || negb (str_forall is_digit b))
  then None
  else n ← Atoi b;
       if (0 <=? n)%Z && (n <=? addr_BitLen addr)%Z then Some (mkPrefix addr (Some n))
       else None.
End text.

Definition netip_text : NetIPText :=
  {| ParseAddr := netip_ParseAddr; addr_String := netip_String;
     ParsePrefix := netip_ParsePrefix |}.

Example text_ex :
  (λ s, netip_String <$> netip_ParseAddr s) <$>
    ["192.0.2.1"; "2001:DB8::0:1"; "::"; "1:2:3:4:5:6:7:8"; "::ffff:1.2.3.4"; "fe80::1%eth0";
     "1.2.3"; "01.2.3.4"; "1::2::3"; "1:2:3:4:5:6:7::8"; "12345::"; "1:0:0:2:0:0:0:3"; "256.1.1.1"]
  = [Some "192.0.2.1"; Some "2001:db8::1"; Some "::"; Some "1:2:3:4:5:6:7:8";
     Some "::ffff:1.2.3.4"; Some "fe80::1%eth0"; None; None; None; None; None;
     Some "1:0:0:2::3"; None].
Proof. vm_compute. reflexivity. Qed.

Example prefix_ex :
  netip_ParsePrefix <$> ["10.0.0.0/8"; "10.0.0.0/33"; "10.0.0.0/08"; "10.0.0.0"; "10.0.0.0/+8"]
  = [Some (cidr4 10 0 0 0 8); None; None; None; None].
Proof. vm_compute. reflexivity. Qed.
