(* ===== verification/DataSource.v ===== *)
(** * pkg/rdap/datasource: the internal records and the [DataSource] contract.

    A provider is a record of operations over a state [W]; a call returns Go's
    pair of a pointer and an error ([res]) and the next state.  [ProviderLaws]
    is the part of the contract clients rely on: a call yields exactly one of
    an object and an error. *)
From S2P Require Import Prelude GoStrings NetIP.

#[local] Set Warnings "-register-all".

(** Values of Go's [any] that the repository stores or inspects. *)
Inductive any : Type :=
  | any_nil
  | any_bool (b : bool)
  | any_number (repr : string)
  | any_string (s : string)
  | any_strings (l : list string)            (* []string *)
  | any_slice (l : list any)                 (* []any *)
  | any_map (m : list (string * any)).       (* map[string]any *)

(** types.DSData, used by the internal record too *)
Record DSData := {
  DSData_KeyTag : Z; DSData_Algorithm : Z; DSData_Digest : string; DSData_DigestType : Z }.

Record Nameserver := {
  ns_Handle : string;
  ns_LDHName : string;
  ns_UnicodeName : string;
  ns_IPv4 : list Addr;
  ns_IPv6 : list Addr }.

Record SecureDNS := { sd_DelegationSigned : bool; sd_DSData : list DSData }.

Record Phone := { ph_Number : string; ph_Kinds : list string }.

Record Address := {
  adr_Street : list string;
  adr_Locality : string;
  adr_Region : string;
  adr_PostalCode : string;
  adr_CountryCode : string }.

Record Contact := {
  c_Handle : string;
  c_Roles : list string;
  c_Kind : string;
  c_FullName : string;
  c_Organization : string;
  c_Title : string;
  c_Emails : list string;
  c_Phones : list Phone;
  c_Address : option Address;
  c_CreatedAt : Time;
  c_UpdatedAt : Time;
  c_Extras : list (string * any) }.

Record Registrar := {
  reg_Handle : string;
  reg_Name : string;
  reg_IANAID : string;
  reg_URL : string;
  reg_Abuse : option Contact }.

Record Domain := {
  d_Handle : string;
  d_LDHName : string;
  d_UnicodeName : string;
  d_Status : list string;
  d_Registered : Time;
  d_Expires : Time;
  d_LastChanged : Time;
  d_LastRDAPUpdate : Time;
  d_Nameservers : list Nameserver;
  d_SecureDNS : option SecureDNS;
  d_Contacts : list Contact;
  d_Registrar : option Registrar }.

Record IPNetwork := {
  net_Handle : string;
  net_Prefix : Prefix;
  net_Name : string;
  net_Type : string;
  net_Country : string;
  net_ParentHandle : string;
  net_Status : list string;
  net_Registered : Time;
  net_LastChanged : Time;
  net_Contacts : list Contact }.

(** ** The contract *)

(** A pointer to a [V] and an error, as a Go call returns them. *)
Definition res (V : Type) : Type := option V * option error.

Record DataSource (W : Type) := {
  GetDomain : string → W → res Domain * W;
  GetEntity : string → W → res Contact * W;
  GetNameserver : string → W → res Nameserver * W;
  GetIPNetwork : Addr → W → res IPNetwork * W }.
Arguments GetDomain {W} _ _ _.
Arguments GetEntity {W} _ _ _.
Arguments GetNameserver {W} _ _ _.
Arguments GetIPNetwork {W} _ _ _.

(** Exactly one of the object and the error is set. *)
Definition res_ok {V} (r : res V) : Prop :=
  match r with (Some _, None) | (None, Some _) => True | _ => False end.

(** At least one of them is: a client that looks at the error first does not go wrong. *)
Definition res_answers {V} (r : res V) : Prop :=
  match r with (None, None) => False | _ => True end.

Definition found {V} (v : V) : res V := (Some v, None).
Definition failed {V} (e : error) : res V := (None, Some e).

Class ProviderLaws {W} (ds : DataSource W) (I : W → Prop) := {
  law_domain k w : I w → res_ok (GetDomain ds k w).1 ∧ I (GetDomain ds k w).2;
  law_entity k w : I w → res_ok (GetEntity ds k w).1 ∧ I (GetEntity ds k w).2;
  law_nameserver k w : I w → res_ok (GetNameserver ds k w).1 ∧ I (GetNameserver ds k w).2;
  law_network k w : I w → res_ok (GetIPNetwork ds k w).1 ∧ I (GetIPNetwork ds k w).2;
}.

Lemma res_ok_found {V} (v : V) : res_ok (found v).
Proof. done. Qed.
Lemma res_ok_failed {V} e : res_ok (failed (V := V) e).
Proof. done. Qed.
Lemma res_ok_answers {V} (r : res V) : res_ok r → res_answers r.
Proof. by destruct r as [[] []]. Qed.
#[export] Hint Resolve res_ok_found res_ok_failed res_ok_answers : gordap.

(** ** [Instrument]: a fetcher that reports every call to a hook *)
Section instrument.
Context {W K V : Type}.
Definition Fetcher := K → W → res V * W.
Definition Instrument (name : string) (f : Fetcher)
    (hook : option (string → option error → W → W)) : Fetcher :=
  λ k w,
    let '(r, w1) := f k w in
    let w2 := match hook with Some h => h name r.2 w1 | None => w1 end in
    (r, w2).
End instrument.
Arguments Fetcher : clear implicits.
