(* ===== verification/Auth.v ===== *)
(** * pkg/rdap/auth: access levels, claims and the bearer middleware. *)
From S2P Require Import Prelude GoStrings.

(** [AccessLevel] is a Go [int]: three named values, and any other integer
    behaves as anonymous in [String]. *)
Definition AccessLevel := Z.
Definition AccessAnonymous : AccessLevel := 0%Z.
Definition AccessAuthenticated : AccessLevel := 1%Z.
Definition AccessPrivileged : AccessLevel := 2%Z.

Definition AccessLevel_String (a : AccessLevel) : string :=
  if (a =? AccessAuthenticated)%Z then "authenticated"
  else if (a =? AccessPrivileged)%Z then "privileged"
  else "anonymous".

Record Claims := { Subject : string; Level : AccessLevel; Scopes : list string }.
Definition anonymous : Claims :=
  {| Subject := ""; Level := AccessAnonymous; Scopes := [] |}.

(** The request context as far as [auth] uses it: the value stored under
    [ctxKey{}], if any. *)
Definition Context := option Claims.
Definition WithClaims (ctx : Context) (c : Claims) : Context := Some c.
Definition FromContext (ctx : Context) : Claims :=
  match ctx with Some c => c | None => anonymous end.

(** [Verifier.Verify] over a verifier state [W]. *)
Definition Verifier (W : Type) : Type := string → W → (Claims + error) * W.
Definition NopVerifier {W} : Verifier W := λ _ w, (inl anonymous, w).

(** [Middleware] up to the call of the next handler: the claims it stores. *)
Definition authenticate {W} (v : Verifier W) (authorization : string) (ctx : Context) (w : W)
    : Context * W :=
  let claims := anonymous in
  if (authorization =? "")%string then (WithClaims ctx claims, w) else
  let '(tok, ok) := CutPrefix authorization "Bearer " in
  if ok then
    let '(r, w') := v tok w in
    match r with
    | inl c => (WithClaims ctx c, w')
    | inr _ => (WithClaims ctx claims, w')
    end
  else (WithClaims ctx claims, w).
