(* ===== verification/JSContact.v ===== *)
(** * pkg/rdap/jscontact: the RFC 9553 card types and the jCard projection. *)
From S2P Require Import Prelude GoStrings DataSource.

Record NameComponent := { NameComponent_Type : string; NameComponent_Kind : string;
  NameComponent_Value : string }.
Record Name := { Name_Type : string; Name_Full : string; Name_Components : list NameComponent }.
Record OrgUnit := { OrgUnit_Type : string; OrgUnit_Name : string }.
Record Org := { Org_Type : string; Org_Name : string; Org_Units : list OrgUnit }.
Record Title := { Title_Type : string; Title_Name : string; Title_Kind : string }.
Record Email := { Email_Type : string; Email_Address : string;
  Email_Contexts : gmap string bool; Email_Pref : Z }.
Record Phone := { Phone_Type : string; Phone_Number : string;
  Phone_Features : gmap string bool; Phone_Contexts : gmap string bool; Phone_Pref : Z }.
Record OnlineService := { OnlineService_Type : string; OnlineService_URI : string;
  OnlineService_Service : string; OnlineService_User : string;
  OnlineService_Contexts : gmap string bool }.
Record AddressComponent := { AddressComponent_Type : string; AddressComponent_Kind : string;
  AddressComponent_Value : string }.
Record Address := { Address_Type : string; Address_Components : list AddressComponent;
  Address_CountryCode : string; Address_Coordinates : string;
  Address_Contexts : gmap string bool; Address_Full : string;
  Address_DefaultSeparator : string }.
Record Nickname := { Nickname_Type : string; Nickname_Name : string }.
Record Note := { Note_Type : string; Note_Note : string }.

Record Card := {
  Card_Version : string;
  Card_Type : string;
  Card_UID : string;
  Card_Kind : string;
  Card_Language : string;
  Card_Created : string;
  Card_Updated : string;
  Card_Name : option Name;
  Card_Organizations : gmap string Org;
  Card_Titles : gmap string Title;
  Card_Emails : gmap string Email;
  Card_Phones : gmap string Phone;
  Card_OnlineServices : gmap string OnlineService;
  Card_Addresses : gmap string Address;
  Card_Nicknames : gmap string Nickname;
  Card_Notes : gmap string Note;
  Card_ExtraMembers : list (string * any) }.

(** ** jCard parameters *)

(** [ctx[known]] on a [map[string]bool] *)
Definition flag (m : gmap string bool) (k : string) : bool := default false (m !! k).

Definition contextParams (ctx : gmap string bool) : gmap string any :=
  let types := filter (λ known, flag ctx known = true) ["work"; "home"; "private"] in
  match types with
  | [] => ∅
  | [t] => {[ "type" := any_string t ]}
  | _ => {[ "type" := any_strings types ]}
  end.

Definition appendParam (params : gmap string any) (key value : string) : gmap string any :=
  match params !! key with
  | None => <[ key := any_string value ]> params
  | Some (any_string v) => <[ key := any_strings [v; value] ]> params
  | Some (any_strings v) => <[ key := any_strings (v ++ [value]) ]> params
  | Some _ => params
  end.

Definition params_any (m : gmap string any) : any := any_map (map_to_list m).

(** ** The vCard ADR value *)
Record adr_slots := {
  pobox : string; ext : string; street : string; locality : string;
  region : string; postcode : string; country : string }.
Definition adr_empty : adr_slots := Build_adr_slots "" "" "" "" "" "" "".

Definition adr_component (s : adr_slots) (comp : AddressComponent) : adr_slots :=
  let v := AddressComponent_Value comp in
  let k := AddressComponent_Kind comp in
  let '(Build_adr_slots po ex st lo re pc co) := s in
  if (k =? "name")%string || (k =? "number")%string then
    Build_adr_slots po ex (if (st =? "")%string then v else st +:+ " " +:+ v) lo re pc co
  else if (k =? "locality")%string then Build_adr_slots po ex st v re pc co
  else if (k =? "region")%string then Build_adr_slots po ex st lo v pc co
  else if (k =? "postcode")%string then Build_adr_slots po ex st lo re v co
  else if (k =? "country")%string then Build_adr_slots po ex st lo re pc v
  else if (k =? "pobox")%string then Build_adr_slots v ex st lo re pc co
  else s.

Definition adr_value (a : Address) : list any :=
  let s := foldl adr_component adr_empty (Address_Components a) in
  let country := if (country s =? "")%string then Address_CountryCode a else country s in
  any_string <$> [pobox s; ext s; street s; locality s; region s; postcode s; country].

(** ** [ToJCard] *)
Definition prop (name : string) (params : gmap string any) (ty : string) (v : any) : list any :=
  [any_string name; params_any params; any_string ty; v].

Definition phone_params (p : Phone) : gmap string any :=
  foldl (λ params feat,
           if flag (Phone_Features p) feat then appendParam params "type" feat else params)
        (contextParams (Phone_Contexts p)) ["voice"; "fax"; "mobile"; "sms"; "video"].

Section ToJCard.
Context `{GoMapRange}.

(** [for _, v := range m { ... append ... }] *)
Definition range_props {V} (f : V → list (list any)) (m : gmap string V) : list (list any) :=
  flat_map (λ kv, f kv.2) (map_range m).

Definition org_props (o : Org) : list (list any) :=
  if (Org_Name o =? "")%string then [] else [prop "org" ∅ "text" (any_string (Org_Name o))].
Definition title_props (t : Title) : list (list any) :=
  if (Title_Name t =? "")%string then []
  else [prop "title" ∅ "text" (any_string (Title_Name t))].
Definition email_props (e : Email) : list (list any) :=
  if (Email_Address e =? "")%string then []
  else [prop "email" (contextParams (Email_Contexts e)) "text" (any_string (Email_Address e))].
Definition phone_props (p : Phone) : list (list any) :=
  if (Phone_Number p =? "")%string then []
  else [prop "tel" (phone_params p) "uri" (any_string ("tel:" +:+ Phone_Number p))].
Definition address_props (a : Address) : list (list any) :=
  [prop "adr" (contextParams (Address_Contexts a)) "text" (any_slice (adr_value a))].
Definition name_props (n : option Name) : list (list any) :=
  match n with
  | Some n => if (Name_Full n =? "")%string then []
              else [prop "fn" ∅ "text" (any_string (Name_Full n))]
  | None => []
  end.

Definition jcard_props (c : Card) : list (list any) :=
  [prop "version" ∅ "text" (any_string "4.0")] ++
  name_props (Card_Name c) ++
  range_props org_props (Card_Organizations c) ++
  range_props title_props (Card_Titles c) ++
  range_props email_props (Card_Emails c) ++
  range_props phone_props (Card_Phones c) ++
  range_props address_props (Card_Addresses c).

(** [ToJCard(nil)] is a nil slice. *)
Definition ToJCard (c : option Card) : list any :=
  match c with
  | None => []
  | Some c => [any_string "vcard"; any_slice (any_slice <$> jcard_props c)]
  end.
End ToJCard.

(** ** Lemmas *)

(** Whatever order the runtime ranges over a map in, the properties it
    contributes are the same up to permutation. *)
Lemma range_props_perm (R1 R2 : GoMapRange) {V} (f : V → list (list any)) m :
  @range_props R1 V f m ≡ₚ @range_props R2 V f m.
Proof.
  unfold range_props.
  assert (@map_range R1 V m ≡ₚ @map_range R2 V m) as Hp
    by by rewrite !map_range_perm.
  induction Hp; cbn; [done|by f_equiv|by rewrite !(assoc_L (++)), (Permutation_app_comm (f y.2))|].
  by etrans.
Qed.

Lemma jcard_props_perm (R1 R2 : GoMapRange) c :
  @jcard_props R1 c ≡ₚ @jcard_props R2 c.
Proof. unfold jcard_props. repeat apply Permutation_app; auto using range_props_perm. Qed.
