(* ===== verification/Types.v ===== *)
(** * pkg/rdap/types: the RFC 9083 wire structs.

    A pointer with [omitempty] is an [option]; an absent slice is the empty
    list (both marshal to no member).  [Entity] and [Domain] hold lists of
    themselves or of each other, so they are inductive records. *)
From S2P Require Import Prelude GoStrings DataSource JSContact.

#[local] Set Warnings "-register-all".

Definition RDAPConformance := list string.

Record Link := {
  Link_Value : string; Link_Rel : string; Link_Href : string; Link_HrefLang : list string;
  Link_Title : string; Link_Media : string; Link_Type : string }.

Record Notice := {
  Notice_Title : string; Notice_Type : string; Notice_Description : list string;
  Notice_Links : list Link }.

Record Event := {
  Event_Action : string; Event_Actor : string; Event_Date : Time; Event_Links : list Link }.

Record PublicID := { PublicID_Type : string; PublicID_Identifier : string }.

Record RedactionLabel := { Label_Description : string; Label_Type : string }.

Record Redaction := {
  Redaction_Name : RedactionLabel;
  Redaction_Reason : option RedactionLabel;
  Redaction_PrePath : string;
  Redaction_PostPath : string;
  Redaction_ReplacementPath : string;
  Redaction_PathLang : string;
  Redaction_Method : string }.

Record Common := {
  Common_RDAPConformance : RDAPConformance;
  Common_ObjectClassName : string;
  Common_Handle : string;
  Common_Links : list Link;
  Common_Notices : list Notice;
  Common_Remarks : list Notice;
  Common_Events : list Event;
  Common_Status : list string;
  Common_Port43 : string;
  Common_Lang : string;
  Common_Redacted : list Redaction }.

Record KeyData := {
  KeyData_Flags : Z; KeyData_Protocol : Z; KeyData_PublicKey : string; KeyData_Algorithm : Z }.

Record SecureDNS := {
  SecureDNS_ZoneSigned : option bool;
  SecureDNS_DelegationSigned : option bool;
  SecureDNS_MaxSigLife : Z;
  SecureDNS_DSData : list DataSource.DSData;
  SecureDNS_KeyData : list KeyData }.

Record VariantName := { VariantName_LDHName : string; VariantName_UnicodeName : string }.
Record Variant := {
  Variant_Relation : list string; Variant_IDNTable : string;
  Variant_VariantNames : list VariantName }.

Record IPAddresses := { IPAddresses_V4 : list string; IPAddresses_V6 : list string }.

Inductive Entity := mkEntity {
  Entity_Common : Common;
  Entity_Roles : list string;
  Entity_JSCard : option JSContact.Card;
  Entity_VCardArray : list any;
  Entity_PublicIDs : list PublicID;
  Entity_AsEventActor : list Event;
  Entity_Entities : list Entity }.

Record Nameserver := {
  Nameserver_Common : Common;
  Nameserver_LDHName : string;
  Nameserver_UnicodeName : string;
  Nameserver_IPAddresses : option IPAddresses;
  Nameserver_Entities : list Entity }.

Record IPNetwork := {
  IPNetwork_Common : Common;
  IPNetwork_StartAddress : string;
  IPNetwork_EndAddress : string;
  IPNetwork_IPVersion : string;
  IPNetwork_Name : string;
  IPNetwork_Type : string;
  IPNetwork_Country : string;
  IPNetwork_ParentHandle : string;
  IPNetwork_Entities : list Entity }.

Record Domain := {
  Domain_Common : Common;
  Domain_LDHName : string;
  Domain_UnicodeName : string;
  Domain_Variants : list Variant;
  Domain_Nameservers : list Nameserver;
  Domain_SecureDNS : option SecureDNS;
  Domain_Entities : list Entity;
  Domain_PublicIDs : list PublicID;
  Domain_Network : option IPNetwork }.

(** [types.Error] *)
Record ErrorResponse := {
  Error_Common : Common;
  Error_ErrorCode : Z;
  Error_Title : string;
  Error_Description : list string }.

Record PagingMetadata := {
  Paging_TotalCount : Z; Paging_PageNumber : Z; Paging_PageSize : Z; Paging_NextCursor : string }.

Record DomainSearchResults := {
  DSR_Common : Common; DSR_Domains : list Domain; DSR_Paging : option PagingMetadata }.
Record EntitySearchResults := {
  ESR_Common : Common; ESR_Entities : list Entity; ESR_Paging : option PagingMetadata }.
Record NameserverSearchResults := {
  NSR_Common : Common; NSR_Nameservers : list Nameserver; NSR_Paging : option PagingMetadata }.

Definition DefaultConformance : RDAPConformance :=
  ["rdap_level_0"; "jscontact_level_0"; "redacted"].

(** [types.Common{}] with the members a constructor sets. *)
Definition common_of (conf : RDAPConformance) (cls handle : string) (status : list string)
    (events : list Event) (notices : list Notice) (links : list Link) : Common :=
  {| Common_RDAPConformance := conf; Common_ObjectClassName := cls; Common_Handle := handle;
     Common_Links := links; Common_Notices := notices; Common_Remarks := [];
     Common_Events := events; Common_Status := status; Common_Port43 := "";
     Common_Lang := ""; Common_Redacted := [] |}.

Definition set_redacted (r : list Redaction) (c : Common) : Common :=
  {| Common_RDAPConformance := Common_RDAPConformance c;
     Common_ObjectClassName := Common_ObjectClassName c; Common_Handle := Common_Handle c;
     Common_Links := Common_Links c; Common_Notices := Common_Notices c;
     Common_Remarks := Common_Remarks c; Common_Events := Common_Events c;
     Common_Status := Common_Status c; Common_Port43 := Common_Port43 c;
     Common_Lang := Common_Lang c; Common_Redacted := r |}.

(** Sets the three envelope members of a top-level response. *)
Definition set_envelope (conf : RDAPConformance) (notices : list Notice) (links : list Link)
    (c : Common) : Common :=
  {| Common_RDAPConformance := conf;
     Common_ObjectClassName := Common_ObjectClassName c; Common_Handle := Common_Handle c;
     Common_Links := links; Common_Notices := notices;
     Common_Remarks := Common_Remarks c; Common_Events := Common_Events c;
     Common_Status := Common_Status c; Common_Port43 := Common_Port43 c;
     Common_Lang := Common_Lang c; Common_Redacted := Common_Redacted c |}.
