(* ===== verification/Redact.v ===== *)
(** * pkg/rdap/mapper/redact.go: tiered redaction and the RFC 9537 markers. *)
From S2P Require Import Prelude GoStrings DataSource Auth JSContact Types.

(** ** The post-redaction view *)
Inductive RedactionKind : Type :=
  RedactName | RedactTitle | RedactEmail | RedactPhone | RedactPostalAddress.
#[global] Instance RedactionKind_eq_dec : EqDecision RedactionKind.
Proof. solve_decision. Defined.

Record ContactView := {
  v_FullName : string;
  v_Organization : string;
  v_Title : string;
  v_Emails : list string;
  v_Phones : list DataSource.Phone;
  v_Address : option DataSource.Address;
  v_Marks : list RedactionKind }.

Definition kindDescriptions (k : RedactionKind) : string :=
  match k with
  | RedactName => "Contact full name"
  | RedactTitle => "Contact title"
  | RedactEmail => "Contact email address"
  | RedactPhone => "Contact phone number"
  | RedactPostalAddress => "Contact postal address"
  end.
Definition kindPaths (k : RedactionKind) : string :=
  match k with
  | RedactName => "$.entities[*].jscard.name.full"
  | RedactTitle => "$.entities[*].jscard.titles"
  | RedactEmail => "$.entities[*].jscard.emails"
  | RedactPhone => "$.entities[*].jscard.phones"
  | RedactPostalAddress => "$.entities[*].jscard.addresses"
  end.


(** [ContactView.Empty] *)
Definition Empty (v : ContactView) : bool :=
  (v_FullName v =? "")%string && (v_Organization v =? "")%string && (v_Title v =? "")%string &&
  is_empty (v_Emails v) && is_empty (v_Phones v) &&
  match v_Address v with None => true | Some _ => false end.

(** [&datasource.Address{CountryCode: c}] *)
Definition country_only (a : DataSource.Address) : DataSource.Address :=
  {| adr_Street := []; adr_Locality := ""; adr_Region := ""; adr_PostalCode := "";
     adr_CountryCode := adr_CountryCode a |}.

(** [if cond { marks = append(marks, k) }] *)
Definition mark_if (cond : bool) (k : RedactionKind) : list RedactionKind :=
  if cond then [k] else [].

Definition has_address (c : Contact) : bool :=
  match c_Address c with Some _ => true | None => false end.

Definition isOrg (c : Contact) : bool :=
  (c_Kind c =? "org")%string || (c_Kind c =? "organization")%string.

Definition RedactContact (c : Contact) (lvl : AccessLevel) : ContactView :=
  if (lvl =? AccessPrivileged)%Z then
    {| v_FullName := c_FullName c; v_Organization := c_Organization c; v_Title := c_Title c;
       v_Emails := c_Emails c; v_Phones := c_Phones c; v_Address := c_Address c;
       v_Marks := [] |}
  else if (lvl =? AccessAuthenticated)%Z then
    if isOrg c then
      {| v_FullName := c_FullName c; v_Organization := c_Organization c; v_Title := "";
         v_Emails := c_Emails c; v_Phones := c_Phones c; v_Address := c_Address c;
         v_Marks := [] |}
    else
      {| v_FullName := ""; v_Organization := c_Organization c; v_Title := "";
         v_Emails := c_Emails c; v_Phones := c_Phones c;
         v_Address := country_only <$> c_Address c;
         v_Marks := mark_if (negb (c_FullName c =? "")%string) RedactName ++
                    mark_if (negb (c_Title c =? "")%string) RedactTitle ++
                    mark_if (has_address c) RedactPostalAddress |}
  else
    if isOrg c then
      {| v_FullName := ""; v_Organization := c_Organization c; v_Title := "";
         v_Emails := []; v_Phones := []; v_Address := c_Address c; v_Marks := [] |}
    else
      {| v_FullName := ""; v_Organization := c_Organization c; v_Title := "";
         v_Emails := []; v_Phones := [];
         v_Address := country_only <$> c_Address c;
         v_Marks := mark_if (negb (c_FullName c =? "")%string) RedactName ++
                    mark_if (negb (c_Title c =? "")%string) RedactTitle ++
                    mark_if (negb (is_empty (c_Emails c))) RedactEmail ++
                    mark_if (negb (is_empty (c_Phones c))) RedactPhone ++
                    mark_if (has_address c) RedactPostalAddress |}.

(** ** The top-level [redacted] array *)
Definition redaction (reason : string) (k : RedactionKind) : Redaction :=
  {| Redaction_Name := {| Label_Description := kindDescriptions k; Label_Type := "" |};
     Redaction_Reason :=
       if (reason =? "")%string then None
       else Some {| Label_Description := reason; Label_Type := "" |};
     Redaction_PrePath := kindPaths k; Redaction_PostPath := "";
     Redaction_ReplacementPath := ""; Redaction_PathLang := "jsonpath";
     Redaction_Method := "removal" |}.

(** The loop of [buildRedacted]: [seen] is the map of the kinds emitted. *)
Fixpoint buildRedacted_loop (reason : string) (seen : list RedactionKind)
    (marks : list RedactionKind) : list Redaction :=
  match marks with
  | [] => []
  | k :: ks =>
      if bool_decide (k ∈ seen) then buildRedacted_loop reason seen ks
      else redaction reason k :: buildRedacted_loop reason (k :: seen) ks
  end.
Definition buildRedacted (marks : list RedactionKind) (reason : string) : list Redaction :=
  match marks with [] => [] | _ => buildRedacted_loop reason [] marks end.

(** ** The tier order

    What "sees at most as much" means for a view, independently of the policy:
    a member is withheld or equal, and an address may be cut to its country. *)
Definition str_le (a b : string) : Prop := a = "" ∨ a = b.
Definition list_le {A} (a b : list A) : Prop := a = [] ∨ a = b.
Definition addr_le (a b : option DataSource.Address) : Prop :=
  match a, b with
  | None, _ => True
  | Some x, Some y => x = y ∨ x = country_only y
  | Some _, None => False
  end.
Definition view_le (v w : ContactView) : Prop :=
  str_le (v_FullName v) (v_FullName w) ∧ str_le (v_Organization v) (v_Organization w) ∧
  str_le (v_Title v) (v_Title w) ∧ list_le (v_Emails v) (v_Emails w) ∧
  list_le (v_Phones v) (v_Phones w) ∧ addr_le (v_Address v) (v_Address w).

Lemma country_only_idemp a : country_only (country_only a) = country_only a.
Proof. done. Qed.

#[global] Instance str_le_preorder : PreOrder str_le.
Proof. split; [by right|]. intros a b c [->|Hab] [->|Hbc]; unfold str_le; subst; auto. Qed.
#[global] Instance list_le_preorder {A} : PreOrder (@list_le A).
Proof. split; [by right|]. intros a b c [->|Hab] [->|Hbc]; unfold list_le; subst; auto. Qed.
#[global] Instance addr_le_preorder : PreOrder addr_le.
Proof.
  split.
  - intros [x|]; cbn; auto.
  - intros [x|] [y|] [z|]; cbn; try done.
    intros [->| ->] [->| ->]; rewrite ?country_only_idemp; auto.
Qed.
#[global] Instance view_le_preorder : PreOrder view_le.
Proof.
  split.
  - intros v. by repeat split; reflexivity.
  - intros u v w (?&?&?&?&?&?) (?&?&?&?&?&?). by repeat split; etrans.
Qed.

(** The three named levels, and what any other integer does. *)
Definition tier (lvl : AccessLevel) : AccessLevel :=
  if (lvl =? AccessPrivileged)%Z then AccessPrivileged
  else if (lvl =? AccessAuthenticated)%Z then AccessAuthenticated else AccessAnonymous.

Lemma RedactContact_tier c lvl : RedactContact c lvl = RedactContact c (tier lvl).
Proof.
  unfold tier, RedactContact.
  destruct (lvl =? AccessPrivileged)%Z eqn:Ep; [done|].
  destruct (lvl =? AccessAuthenticated)%Z eqn:Ea; reflexivity.
Qed.

Lemma addr_le_country a : addr_le (country_only <$> a) a.
Proof. destruct a; cbn; auto. Qed.
#[export] Hint Resolve addr_le_country : gordap.

Lemma view_le_auth_priv c :
  view_le (RedactContact c AccessAuthenticated) (RedactContact c AccessPrivileged).
Proof.
  unfold RedactContact; cbn. destruct (isOrg c); unfold view_le, str_le, list_le; cbn;
    repeat split; auto with gordap; reflexivity.
Qed.
Lemma view_le_anon_auth c :
  view_le (RedactContact c AccessAnonymous) (RedactContact c AccessAuthenticated).
Proof.
  unfold RedactContact; cbn. destruct (isOrg c); unfold view_le, str_le, list_le; cbn;
    repeat split; auto with gordap; reflexivity.
Qed.

Lemma tier_cases lvl :
  tier lvl = AccessAnonymous ∨ tier lvl = AccessAuthenticated ∨ tier lvl = AccessPrivileged.
Proof. unfold tier. break_goal; auto. Qed.

(** C3: a caller of a higher tier never sees less of a contact: for any two access
    levels in order of tier, every member of the lower caller's view is withheld or
    equal to the higher caller's, and the address is absent, equal or cut to the
    country; and the privileged view is the whole record, without markers. *)
Theorem redaction_monotone c lvl1 lvl2 :
  (tier lvl1 ≤ tier lvl2)%Z →
  view_le (RedactContact c lvl1) (RedactContact c lvl2) ∧
  RedactContact c AccessPrivileged =
    {| v_FullName := c_FullName c; v_Organization := c_Organization c; v_Title := c_Title c;
       v_Emails := c_Emails c; v_Phones := c_Phones c; v_Address := c_Address c;
       v_Marks := [] |}.
Proof.
  intros Hle. split; [|done].
  rewrite (RedactContact_tier c lvl1), (RedactContact_tier c lvl2).
  destruct (tier_cases lvl1) as [E1|[E1|E1]], (tier_cases lvl2) as [E2|[E2|E2]];
    rewrite E1, E2 in Hle |- *; try (exfalso; by apply Hle);
    try reflexivity; auto using view_le_anon_auth, view_le_auth_priv.
  etrans; [apply view_le_anon_auth|apply view_le_auth_priv].
Qed.

(** ** What a caller may know

    The policy, stated apart from the code: for each personal member of a
    contact, whether a tier is shown its value, only learns whether it is
    present (a marker is emitted), or learns nothing. *)
Inductive disclosure (A : Type) := Shown (x : A) | Presence (b : bool) | Hidden.
Arguments Shown {A} _. Arguments Presence {A} _. Arguments Hidden {A}.

(** Name: privileged callers, and authenticated ones for an organisation. *)
Definition known_name (lvl : AccessLevel) (c : Contact) : disclosure string :=
  if (lvl =? AccessPrivileged)%Z then Shown (c_FullName c)
  else if isOrg c then
    if (lvl =? AccessAuthenticated)%Z then Shown (c_FullName c) else Hidden
  else Presence (negb (c_FullName c =? "")%string).
(** Title: privileged callers only. *)
Definition known_title (lvl : AccessLevel) (c : Contact) : disclosure string :=
  if (lvl =? AccessPrivileged)%Z then Shown (c_Title c)
  else if isOrg c then Hidden else Presence (negb (c_Title c =? "")%string).
(** Emails and phones: from the authenticated tier up. *)
Definition known_channel {A} (lvl : AccessLevel) (c : Contact) (l : list A)
    : disclosure (list A) :=
  if (lvl =? AccessPrivileged)%Z || (lvl =? AccessAuthenticated)%Z then Shown l
  else if isOrg c then Hidden else Presence (negb (is_empty l)).
(** Address: whole for an organisation, the country for a natural person. *)
Definition known_address (lvl : AccessLevel) (c : Contact) : option DataSource.Address :=
  if (lvl =? AccessPrivileged)%Z || isOrg c then c_Address c
  else country_only <$> c_Address c.

Definition knows (lvl : AccessLevel) (c : Contact) :=
  (c_Handle c, c_Roles c, c_Kind c, c_Organization c, c_CreatedAt c, c_UpdatedAt c,
   known_name lvl c, known_title lvl c,
   known_channel lvl c (c_Emails c), known_channel lvl c (c_Phones c),
   known_address lvl c).

(** Two records a caller at [lvl] may not tell apart. *)
Definition indist (lvl : AccessLevel) (c1 c2 : Contact) : Prop := knows lvl c1 = knows lvl c2.

#[global] Instance indist_equiv lvl : Equivalence (indist lvl).
Proof. unfold indist. split; [done|by intros ?? ->|by intros ??? -> ->]. Qed.

Lemma indist_public lvl c1 c2 : indist lvl c1 c2 →
  c_Handle c1 = c_Handle c2 ∧ c_Roles c1 = c_Roles c2 ∧ c_Kind c1 = c_Kind c2 ∧
  c_Organization c1 = c_Organization c2 ∧
  c_CreatedAt c1 = c_CreatedAt c2 ∧ c_UpdatedAt c1 = c_UpdatedAt c2.
Proof. unfold indist, knows. intros H. by simplify_eq. Qed.

(** A higher tier tells more records apart. *)
Lemma knows_tier lvl c : knows lvl c = knows (tier lvl) c.
Proof.
  unfold tier, knows, known_name, known_title, known_channel, known_address.
  destruct (lvl =? AccessPrivileged)%Z eqn:Ep; [reflexivity|].
  destruct (lvl =? AccessAuthenticated)%Z eqn:Ea; [reflexivity|]. cbn. reflexivity.
Qed.

Lemma isOrg_kind c1 c2 : c_Kind c1 = c_Kind c2 → isOrg c1 = isOrg c2.
Proof. unfold isOrg. by intros ->. Qed.

Lemma has_address_country c1 c2 :
  country_only <$> c_Address c1 = country_only <$> c_Address c2 →
  has_address c1 = has_address c2.
Proof. unfold has_address. by destruct (c_Address c1), (c_Address c2). Qed.

Lemma indist_mono lvl1 lvl2 c1 c2 :
  (tier lvl1 ≤ tier lvl2)%Z → indist lvl2 c1 c2 → indist lvl1 c1 c2.
Proof.
  intros Hle H. destruct (indist_public lvl2 c1 c2 H) as (Hh&Hr&Hk&Ho&Hc&Hu).
  pose proof (isOrg_kind c1 c2 Hk) as Hor. revert H. unfold indist.
  rewrite !(knows_tier lvl1), !(knows_tier lvl2).
  destruct (tier_cases lvl1) as [E1|[E1|E1]], (tier_cases lvl2) as [E2|[E2|E2]];
    rewrite E1, E2 in Hle |- *; try done; try (exfalso; by apply Hle);
    unfold knows, known_name, known_title, known_channel, known_address; cbn;
    rewrite <-Hor, Hh, Hr, Hk, Ho, Hc, Hu; destruct (isOrg c1); cbn; intros H; injection H; intros; congruence.
Qed.

(** Redaction factors through what the caller may know: the view, markers
    included, is the same for indistinguishable records. *)
#[global] Instance RedactContact_indist lvl :
  Proper (indist lvl ==> eq) (λ c, RedactContact c lvl).
Proof.
  intros c1 c2 H. destruct (indist_public lvl c1 c2 H) as (_&_&Hk&Ho&_&_).
  pose proof (isOrg_kind c1 c2 Hk) as Hor.
  unfold indist, knows, known_name, known_title, known_channel, known_address in H.
  unfold RedactContact. rewrite <-Hor, Ho in *.
  destruct (lvl =? AccessPrivileged)%Z; cbn [orb] in *; [by simplify_eq; congruence|].
  destruct (lvl =? AccessAuthenticated)%Z, (isOrg c1); cbn [orb] in *;
    injection H as; try congruence;
    rewrite (has_address_country c1 c2) by congruence; congruence.
Qed.

(** ** Markers *)

(** The record holds something of kind [k]. *)
Definition present (c : Contact) (k : RedactionKind) : bool :=
  match k with
  | RedactName => negb (c_FullName c =? "")%string
  | RedactTitle => negb (c_Title c =? "")%string
  | RedactEmail => negb (is_empty (c_Emails c))
  | RedactPhone => negb (is_empty (c_Phones c))
  | RedactPostalAddress => has_address c
  end.

(** The documented tiers for natural persons: contact channels open up with
    authentication, everything else only to privileged callers. *)
Definition withheld (lvl : AccessLevel) (k : RedactionKind) : bool :=
  negb (lvl =? AccessPrivileged)%Z &&
  match k with
  | RedactEmail | RedactPhone => negb (lvl =? AccessAuthenticated)%Z
  | _ => true
  end.

(** The view holds nothing of kind [k] beyond the country of an address. *)
Definition stripped (c : Contact) (v : ContactView) (k : RedactionKind) : Prop :=
  match k with
  | RedactName => v_FullName v = ""
  | RedactTitle => v_Title v = ""
  | RedactEmail => v_Emails v = []
  | RedactPhone => v_Phones v = []
  | RedactPostalAddress => v_Address v = country_only <$> c_Address c
  end.

Lemma elem_of_mark_if b k k' : k ∈ mark_if b k' ↔ k = k' ∧ b = true.
Proof. destruct b; cbn; set_solver. Qed.

(** Which markers a record yields at a level. *)
Lemma marks_spec c lvl k :
  k ∈ v_Marks (RedactContact c lvl) ↔
  isOrg c = false ∧ withheld lvl k = true ∧ present c k = true.
Proof.
  unfold RedactContact, withheld.
  destruct (lvl =? AccessPrivileged)%Z; [|destruct (lvl =? AccessAuthenticated)%Z, (isOrg c)];
    cbn [v_Marks negb andb]; rewrite ?elem_of_app, ?elem_of_mark_if, ?elem_of_nil;
    try (split; [by intros []|by intros (?&?&?)]); destruct k; cbn; naive_solver.
Qed.

Lemma marks_NoDup c lvl : NoDup (v_Marks (RedactContact c lvl)).
Proof.
  unfold RedactContact, mark_if. break_goal; cbn; repeat constructor; set_solver.
Qed.

(** C4: for a natural person the markers are exactly the kinds the tier withholds and
    the record holds, each at most once, and every withheld kind is gone from the view
    (an address keeps its country): nothing is removed silently and no marker is
    spurious. *)
Theorem markers_exact c lvl :
  isOrg c = false →
  (∀ k, k ∈ v_Marks (RedactContact c lvl) ↔ withheld lvl k = true ∧ present c k = true) ∧
  NoDup (v_Marks (RedactContact c lvl)) ∧
  (∀ k, withheld lvl k = true → stripped c (RedactContact c lvl) k).
Proof.
  intros Horg. split_and!.
  - intros k. rewrite marks_spec. naive_solver.
  - apply marks_NoDup.
  - unfold withheld, RedactContact. rewrite Horg.
    destruct (lvl =? AccessPrivileged)%Z; [|destruct (lvl =? AccessAuthenticated)%Z];
      by intros [].
Qed.

Definition person_ex : Contact :=
  {| c_Handle := "REG-1"; c_Roles := ["registrant"]; c_Kind := "individual";
     c_FullName := "Alice Muster"; c_Organization := ""; c_Title := "";
     c_Emails := ["alice@example.test"]; c_Phones := [];
     c_Address := Some {| adr_Street := ["Street 1"]; adr_Locality := "Berlin"; adr_Region := "";
                          adr_PostalCode := "10115"; adr_CountryCode := "DE" |};
     c_CreatedAt := time_2026; c_UpdatedAt := time_2026; c_Extras := [] |}.
Definition org_ex : Contact :=
  {| c_Handle := "REG-2"; c_Roles := ["registrant"]; c_Kind := "org";
     c_FullName := "Jane Doe"; c_Organization := "Example Holdings B.V."; c_Title := "CTO";
     c_Emails := ["hostmaster@example.nl"]; c_Phones := []; c_Address := None;
     c_CreatedAt := time_2026; c_UpdatedAt := time_2026; c_Extras := [] |}.

Lemma redaction_monotone_witness :
  (tier AccessAnonymous ≤ tier AccessPrivileged)%Z ∧
  view_le (RedactContact person_ex AccessAnonymous) (RedactContact person_ex AccessPrivileged).
Proof.
  split; [by vm_compute|].
  apply (redaction_monotone person_ex AccessAnonymous AccessPrivileged). by vm_compute.
Defined.

Lemma markers_exact_witness :
  isOrg person_ex = false ∧
  (RedactEmail ∈ v_Marks (RedactContact person_ex AccessAnonymous) ↔
   withheld AccessAnonymous RedactEmail = true ∧ present person_ex RedactEmail = true).
Proof.
  split; [reflexivity|].
  apply (proj1 (markers_exact person_ex AccessAnonymous eq_refl) RedactEmail).
Defined.

(** An organisation's contact loses its full name, title, emails and phones below
    the authenticated tier (and its title below the privileged one) without a single
    marker being recorded, whatever the record holds. *)
Theorem organisation_stripped_silently c lvl :
  isOrg c = true →
  v_Marks (RedactContact c lvl) = [] ∧
  (tier lvl ≠ AccessPrivileged → v_Title (RedactContact c lvl) = "") ∧
  (tier lvl = AccessAnonymous →
     v_FullName (RedactContact c lvl) = "" ∧ v_Emails (RedactContact c lvl) = [] ∧
     v_Phones (RedactContact c lvl) = []).
Proof.
  intros Horg. rewrite (RedactContact_tier c lvl). unfold RedactContact. rewrite Horg.
  destruct (tier_cases lvl) as [->|[->| ->]]; cbn; by split_and!.
Qed.

Lemma organisation_stripped_silently_witness :
  isOrg org_ex = true ∧ c_FullName org_ex = "Jane Doe" ∧
  v_Marks (RedactContact org_ex AccessAnonymous) = [].
Proof.
  split; [reflexivity|split; [reflexivity|]].
  apply (organisation_stripped_silently org_ex AccessAnonymous eq_refl).
Defined.

(** ** The aggregated array *)
Lemma buildRedacted_loop_spec reason marks seen :
  ∃ ks, buildRedacted_loop reason seen marks = redaction reason <$> ks ∧
    NoDup ks ∧ (∀ k, k ∈ ks ↔ k ∈ marks ∧ k ∉ seen) ∧ ks `sublist_of` marks.
Proof.
  revert seen. induction marks as [|k marks IH]; intros seen; cbn.
  - exists []. split_and!; [done|constructor|set_solver|constructor].
  - case_bool_decide as Hk.
    + destruct (IH seen) as (ks & -> & ? & ? & ?). exists ks.
      split_and!; [done|done|set_solver|by constructor].
    + destruct (IH (k :: seen)) as (ks & -> & ? & Hin & ?). exists (k :: ks).
      split_and!; [done|constructor; set_solver|intros k'; destruct (decide (k = k')); set_solver|].
      by constructor.
Qed.

(** One marker per kind, in the order of first occurrence, so at most five. *)
Lemma buildRedacted_dedup marks reason :
  ∃ ks, buildRedacted marks reason = redaction reason <$> ks ∧
    NoDup ks ∧ (∀ k, k ∈ ks ↔ k ∈ marks) ∧ ks `sublist_of` marks ∧ (List.length ks ≤ 5)%nat.
Proof.
  assert (∃ ks, buildRedacted marks reason = redaction reason <$> ks ∧
    NoDup ks ∧ (∀ k, k ∈ ks ↔ k ∈ marks) ∧ ks `sublist_of` marks) as (ks & Hb & Hnd & Hin & Hs).
  { destruct marks as [|m marks].
    - exists []. split_and!; [done|constructor|set_solver|constructor].
    - destruct (buildRedacted_loop_spec reason (m :: marks) []) as (ks & Hb & ? & ? & ?).
      exists ks. split_and!; [done|done|set_solver|done]. }
  exists ks. split_and!; try done.
  assert (ks ⊆+ [RedactName; RedactTitle; RedactEmail; RedactPhone; RedactPostalAddress]) as Hsub
    by (apply NoDup_submseteq; [done|]; intros []; set_solver).
  apply (submseteq_length _ _ Hsub).
Qed.
