(* ===== verification/Mapper.v ===== *)
(** * pkg/rdap/mapper/mapper.go: internal records to RFC 9083 wire objects.

    Redaction happens inside the mapping: the only way a contact reaches the
    wire is through [RedactContact].  [indist] says which contacts a caller of
    a given tier may not tell apart, and the theorems state that the mapping
    is a [Proper] function of it. *)
From S2P Require Import Prelude GoStrings NetIP DataSource Auth JSContact Types Redact.

(** ** Options *)
Record Options := {
  o_Level : AccessLevel;
  o_SelfLinkBase : string;
  o_ExtraConformance : list string;
  o_ExtraNotices : list Notice;
  o_RedactionReason : string;
  o_EmitJCard : bool;
  o_JCardOnly : bool }.

Definition conformance (opts : Options) : RDAPConformance :=
  if is_empty (o_ExtraConformance opts) then DefaultConformance
  else DefaultConformance ++ o_ExtraConformance opts.

Definition selfLinks (base path : string) : list Link :=
  if (base =? "")%string then [] else
  let href := TrimRight base "/" +:+ path in
  [{| Link_Value := href; Link_Rel := "self"; Link_Href := href; Link_HrefLang := [];
      Link_Title := ""; Link_Media := ""; Link_Type := "application/rdap+json" |}].

(** ** Status codes *)
Definition eppTable : list (string * string) := [
  ("clientHold", "client hold");
  ("clientRenewProhibited", "client renew prohibited");
  ("clientTransferProhibited", "client transfer prohibited");
  ("clientUpdateProhibited", "client update prohibited");
  ("clientDeleteProhibited", "client delete prohibited");
  ("serverHold", "server hold");
  ("serverRenewProhibited", "server renew prohibited");
  ("serverTransferProhibited", "server transfer prohibited");
  ("serverUpdateProhibited", "server update prohibited");
  ("serverDeleteProhibited", "server delete prohibited");
  ("pendingCreate", "pending create");
  ("pendingDelete", "pending delete");
  ("pendingRenew", "pending renew");
  ("pendingRestore", "pending restore");
  ("pendingTransfer", "pending transfer");
  ("pendingUpdate", "pending update");
  ("ok", "active");
  ("inactive", "inactive");
  ("linked", "associated")].

Definition eppToRDAPStatus (s : string) : string :=
  match list_find (λ kv, kv.1 = s) eppTable with
  | Some (_, (_, r)) => r
  | None => s
  end.
Definition mapStatuses (l : list string) : list string := eppToRDAPStatus <$> l.

(** ** Events, nameservers, DNSSEC *)
Definition event (action : string) (t : Time) : Event :=
  {| Event_Action := action; Event_Actor := ""; Event_Date := t; Event_Links := [] |}.
Definition event_if (action : string) (t : Time) : list Event :=
  if IsZero t then [] else [event action t].

Definition domainEvents (d : DataSource.Domain) : list Event :=
  event_if "registration" (d_Registered d) ++
  event_if "last changed" (d_LastChanged d) ++
  event_if "expiration" (d_Expires d) ++
  let dbUpdate := if IsZero (d_LastRDAPUpdate d) then d_LastChanged d else d_LastRDAPUpdate d in
  event_if "last update of RDAP database" dbUpdate.

(** [types.Common{ObjectClassName: cls, Handle: h}] *)
Definition bare (cls handle : string) : Common := common_of [] cls handle [] [] [] [].

Definition mapSecureDNS (s : option DataSource.SecureDNS) : option Types.SecureDNS :=
  (λ s, {| SecureDNS_ZoneSigned := None;
           SecureDNS_DelegationSigned := Some (sd_DelegationSigned s);
           SecureDNS_MaxSigLife := 0; SecureDNS_DSData := sd_DSData s;
           SecureDNS_KeyData := [] |}) <$> s.

Section nameserver.
Context `{NetIPText}.

Definition Nameserver (n : DataSource.Nameserver) : Types.Nameserver :=
  {| Nameserver_Common := bare "nameserver" (ns_Handle n);
     Nameserver_LDHName := ns_LDHName n;
     Nameserver_UnicodeName := ns_UnicodeName n;
     Nameserver_IPAddresses :=
       if is_empty (ns_IPv4 n ++ ns_IPv6 n) then None
       else Some {| IPAddresses_V4 := addr_String <$> ns_IPv4 n;
                    IPAddresses_V6 := addr_String <$> ns_IPv6 n |};
     Nameserver_Entities := [] |}.

Definition NameserverTopLevel (n : DataSource.Nameserver) (opts : Options) : Types.Nameserver :=
  let out := Nameserver n in
  {| Nameserver_Common :=
       set_envelope (conformance opts) (o_ExtraNotices opts)
         (selfLinks (o_SelfLinkBase opts) ("/nameserver/" +:+ ns_LDHName n))
         (Nameserver_Common out);
     Nameserver_LDHName := Nameserver_LDHName out;
     Nameserver_UnicodeName := Nameserver_UnicodeName out;
     Nameserver_IPAddresses := Nameserver_IPAddresses out;
     Nameserver_Entities := Nameserver_Entities out |}.

Definition IPNetwork (n : DataSource.IPNetwork) (opts : Options) : Types.IPNetwork :=
  let valid := pfx_IsValid (net_Prefix n) in
  let start := if valid then addr_String (pfx_Addr (net_Prefix n)) else "" in
  {| IPNetwork_Common :=
       common_of (conformance opts) "ip network" (net_Handle n) (net_Status n) []
         (o_ExtraNotices opts)
         (if valid then selfLinks (o_SelfLinkBase opts) ("/ip/" +:+ start) else []);
     IPNetwork_StartAddress := start;
     IPNetwork_EndAddress := if valid then addr_String (pfx_Addr (net_Prefix n)) else "";
     IPNetwork_IPVersion :=
       if valid then if addr_Is4 (pfx_Addr (net_Prefix n)) then "v4" else "v6" else "";
     IPNetwork_Name := net_Name n; IPNetwork_Type := net_Type n;
     IPNetwork_Country := net_Country n; IPNetwork_ParentHandle := net_ParentHandle n;
     IPNetwork_Entities := [] |}.
End nameserver.

(** ** Cards *)

(** A handle padded with ['0'] to sixteen bytes, the first sixteen in
    hexadecimal groups of 4, 2, 2, 2 and 6 bytes. *)
Fixpoint pad16 (fuel : nat) (b : string) : string :=
  match fuel with
  | O => b
  | S n => if (String.length b <? 16)%nat then pad16 n (b +:+ "0") else b
  end.
Definition slice (b : string) (lo hi : nat) : string := String.substring lo (hi - lo) b.
Definition deterministicUID (handle : string) : string :=
  let b := pad16 16 handle in
  hex_string (slice b 0 4) +:+ "-" +:+ hex_string (slice b 4 6) +:+ "-" +:+
  hex_string (slice b 6 8) +:+ "-" +:+ hex_string (slice b 8 10) +:+ "-" +:+
  hex_string (slice b 10 16).

Definition pref (i : nat) : Z := if (i =? 0)%nat then 1%Z else 0%Z.
Definition ctx_work : gmap string bool := {[ "work" := true ]}.

(** [for i, x := range l { m[fmt.Sprintf(p+"%d", i+1)] = f(i, x) }] *)
Definition numbered {A B} (p : string) (f : nat → A → B) (l : list A) : gmap string B :=
  list_to_map (imap (λ i x, (p +:+ Itoa (Z.of_nat (S i)), f i x)) l).

Definition email_card (i : nat) (addr : string) : JSContact.Email :=
  {| Email_Type := "EmailAddress"; Email_Address := addr; Email_Contexts := ctx_work;
     Email_Pref := pref i |}.

Definition phone_features (kinds : list string) : gmap string bool :=
  let features := foldl (λ m k, <[ k := true ]> m) ∅ kinds in
  if is_empty kinds then <[ "voice" := true ]> features else features.
Definition phone_card (i : nat) (p : DataSource.Phone) : JSContact.Phone :=
  {| Phone_Type := "Phone"; Phone_Number := ph_Number p;
     Phone_Features := phone_features (ph_Kinds p); Phone_Contexts := ctx_work;
     Phone_Pref := pref i |}.

Definition component (kind value : string) : AddressComponent :=
  {| AddressComponent_Type := "AddressComponent"; AddressComponent_Kind := kind;
     AddressComponent_Value := value |}.
Definition component_if (kind value : string) : list AddressComponent :=
  if (value =? "")%string then [] else [component kind value].
Definition address_card (a : DataSource.Address) : JSContact.Address :=
  {| Address_Type := "Address";
     Address_Components :=
       flat_map (λ line, component_if "name" (TrimSpace line)) (adr_Street a) ++
       component_if "locality" (adr_Locality a) ++
       component_if "region" (adr_Region a) ++
       component_if "postcode" (adr_PostalCode a);
     Address_CountryCode := adr_CountryCode a; Address_Coordinates := "";
     Address_Contexts := ctx_work; Address_Full := ""; Address_DefaultSeparator := "" |}.

Definition org_map (name : string) : gmap string Org :=
  {[ "org" := {| Org_Type := "Organization"; Org_Name := name; Org_Units := [] |} ]}.
Definition title_map (t : string) : gmap string Title :=
  {[ "title" := {| Title_Type := "Title"; Title_Name := t; Title_Kind := "title" |} ]}.

Section mapper.
Context `{GoUnicode} `{GoMapRange} `{NetIPText}.

Definition jsContactKind (k : string) : string :=
  let l := ToLower k in
  if (l =? "org")%string || (l =? "organization")%string then "org"
  else if (l =? "individual")%string || (l =? "person")%string then "individual"
  else "individual".

Definition buildCardFromView (c : Contact) (view : ContactView) : option Card :=
  if Empty view then None else
  Some {|
    Card_Version := "1.0"; Card_Type := "Card";
    Card_UID := "urn:uuid:" +:+ deterministicUID (c_Handle c);
    Card_Kind := jsContactKind (c_Kind c);
    Card_Language := "";
    Card_Created := if IsZero (c_CreatedAt c) then "" else time_Format (c_CreatedAt c);
    Card_Updated := if IsZero (c_UpdatedAt c) then "" else time_Format (c_UpdatedAt c);
    Card_Name :=
      if (v_FullName view =? "")%string then None
      else Some {| Name_Type := "Name"; Name_Full := v_FullName view; Name_Components := [] |};
    Card_Organizations :=
      if (v_Organization view =? "")%string then ∅ else org_map (v_Organization view);
    Card_Titles := if (v_Title view =? "")%string then ∅ else title_map (v_Title view);
    Card_Emails := numbered "e" email_card (v_Emails view);
    Card_Phones := numbered "p" phone_card (v_Phones view);
    Card_OnlineServices := ∅;
    Card_Addresses :=
      match v_Address view with Some a => {[ "a1" := address_card a ]} | None => ∅ end;
    Card_Nicknames := ∅; Card_Notes := ∅; Card_ExtraMembers := [] |}.

Definition buildCard (c : Contact) (lvl : AccessLevel) : option Card :=
  buildCardFromView c (RedactContact c lvl).

(** The two card members of an entity under the caller's options. *)
Definition card_members (opts : Options) (card : option Card)
    : option Card * list any :=
  match card with
  | None => (None, [])
  | Some k =>
      (if o_JCardOnly opts then None else Some k,
       if o_EmitJCard opts || o_JCardOnly opts then ToJCard (Some k) else [])
  end.

(** ** Entities *)
Definition entityWithMarks (c : Contact) (opts : Options) : Entity * list RedactionKind :=
  let view := RedactContact c (o_Level opts) in
  let '(js, vc) := card_members opts (buildCardFromView c view) in
  ({| Entity_Common := bare "entity" (c_Handle c); Entity_Roles := c_Roles c;
      Entity_JSCard := js; Entity_VCardArray := vc; Entity_PublicIDs := [];
      Entity_AsEventActor := []; Entity_Entities := [] |}, v_Marks view).

Definition Entity (c : Contact) (opts : Options) : Types.Entity := (entityWithMarks c opts).1.

Definition with_common (f : Common → Common) (e : Types.Entity) : Types.Entity :=
  {| Entity_Common := f (Entity_Common e); Entity_Roles := Entity_Roles e;
     Entity_JSCard := Entity_JSCard e; Entity_VCardArray := Entity_VCardArray e;
     Entity_PublicIDs := Entity_PublicIDs e; Entity_AsEventActor := Entity_AsEventActor e;
     Entity_Entities := Entity_Entities e |}.
Definition with_roles (r : list string) (e : Types.Entity) : Types.Entity :=
  {| Entity_Common := Entity_Common e; Entity_Roles := r;
     Entity_JSCard := Entity_JSCard e; Entity_VCardArray := Entity_VCardArray e;
     Entity_PublicIDs := Entity_PublicIDs e; Entity_AsEventActor := Entity_AsEventActor e;
     Entity_Entities := Entity_Entities e |}.

Definition entity_prefix : string := "$.entities[*]".
Definition rewriteForEntityRoot (p : string) : string :=
  if (String.length entity_prefix <? String.length p)%nat && HasPrefix p entity_prefix
  then "$" +:+ str_drop (String.length entity_prefix) p else p.
Definition retarget (r : Redaction) : Redaction :=
  {| Redaction_Name := Redaction_Name r; Redaction_Reason := Redaction_Reason r;
     Redaction_PrePath := rewriteForEntityRoot (Redaction_PrePath r);
     Redaction_PostPath := Redaction_PostPath r;
     Redaction_ReplacementPath := Redaction_ReplacementPath r;
     Redaction_PathLang := Redaction_PathLang r; Redaction_Method := Redaction_Method r |}.

Definition EntityTopLevel (c : Contact) (opts : Options) : Types.Entity :=
  let '(e, marks) := entityWithMarks c opts in
  with_common
    (λ k, set_redacted (retarget <$> buildRedacted marks (o_RedactionReason opts))
            (set_envelope (conformance opts) (o_ExtraNotices opts)
               (selfLinks (o_SelfLinkBase opts) ("/entity/" +:+ c_Handle c)) k)) e.

Definition registrarEntity (r : Registrar) (opts : Options) : Types.Entity :=
  let card :=
    if (reg_Name r =? "")%string then None else
    Some {| Card_Version := "1.0"; Card_Type := "Card";
            Card_UID := "urn:uuid:" +:+ deterministicUID (reg_Handle r);
            Card_Kind := "org"; Card_Language := ""; Card_Created := ""; Card_Updated := "";
            Card_Name := None; Card_Organizations := org_map (reg_Name r);
            Card_Titles := ∅; Card_Emails := ∅; Card_Phones := ∅; Card_OnlineServices := ∅;
            Card_Addresses := ∅; Card_Nicknames := ∅; Card_Notes := ∅;
            Card_ExtraMembers := [] |} in
  let '(js, vc) := card_members opts card in
  {| Entity_Common := bare "entity" (reg_Handle r); Entity_Roles := ["registrar"];
     Entity_JSCard := js; Entity_VCardArray := vc;
     Entity_PublicIDs :=
       if (reg_IANAID r =? "")%string then []
       else [{| PublicID_Type := "IANA Registrar ID"; PublicID_Identifier := reg_IANAID r |}];
     Entity_AsEventActor := [];
     Entity_Entities :=
       match reg_Abuse r with
       | Some a => [with_roles ["abuse"] (Entity a opts)]
       | None => []
       end |}.

(** ** Domains *)
Definition Domain (d : DataSource.Domain) (opts : Options) : Types.Domain :=
  let es := (λ c, entityWithMarks c opts) <$> d_Contacts d in
  let marks := concat (snd <$> es) in
  let registrar :=
    match d_Registrar d with Some r => [registrarEntity r opts] | None => [] end in
  {| Domain_Common :=
       set_redacted (buildRedacted marks (o_RedactionReason opts))
         (common_of (conformance opts) "domain" (d_Handle d) (mapStatuses (d_Status d))
            (domainEvents d) (o_ExtraNotices opts)
            (selfLinks (o_SelfLinkBase opts) ("/domain/" +:+ d_LDHName d)));
     Domain_LDHName := d_LDHName d; Domain_UnicodeName := d_UnicodeName d;
     Domain_Variants := []; Domain_Nameservers := Nameserver <$> d_Nameservers d;
     Domain_SecureDNS := mapSecureDNS (d_SecureDNS d);
     Domain_Entities := (fst <$> es) ++ registrar;
     Domain_PublicIDs := []; Domain_Network := None |}.
End mapper.

Example uid_ex : deterministicUID "REG-EXAMPLE" = "5245472d-4558-414d-504c-453030303030".
Proof. reflexivity. Qed.

(** * Theorems *)

(** ** Noninterference *)
Section noninterference.
Context `{GoUnicode} `{GoMapRange} `{NetIPText}.

#[global] Instance entityWithMarks_indist opts :
  Proper (indist (o_Level opts) ==> eq) (λ c, entityWithMarks c opts).
Proof.
  intros c1 c2 Hi. pose proof (indist_public _ _ _ Hi) as (Hh & Hr & Hk & _ & Hc & Hu).
  unfold entityWithMarks, buildCardFromView.
  by rewrite (RedactContact_indist _ _ _ Hi), Hh, Hr, Hk, Hc, Hu.
Qed.

#[global] Instance Entity_indist opts :
  Proper (indist (o_Level opts) ==> eq) (λ c, Entity c opts).
Proof. intros c1 c2 Hi. unfold Entity. by rewrite (entityWithMarks_indist opts _ _ Hi). Qed.

#[global] Instance EntityTopLevel_indist opts :
  Proper (indist (o_Level opts) ==> eq) (λ c, EntityTopLevel c opts).
Proof.
  intros c1 c2 Hi. unfold EntityTopLevel. rewrite (entityWithMarks_indist opts _ _ Hi).
  by destruct (indist_public _ _ _ Hi) as (-> & _).
Qed.

(** Registrars a caller may not tell apart: the abuse contact is policed as any other. *)
Definition registrar_indist (lvl : AccessLevel) (r1 r2 : Registrar) : Prop :=
  reg_Handle r1 = reg_Handle r2 ∧ reg_Name r1 = reg_Name r2 ∧
  reg_IANAID r1 = reg_IANAID r2 ∧
  match reg_Abuse r1, reg_Abuse r2 with
  | Some a, Some b => indist lvl a b
  | None, None => True
  | _, _ => False
  end.

Lemma registrarEntity_indist opts r1 r2 :
  registrar_indist (o_Level opts) r1 r2 → registrarEntity r1 opts = registrarEntity r2 opts.
Proof.
  intros (Hh & Hn & Hi & Ha). unfold registrarEntity. rewrite Hh, Hn, Hi.
  destruct (reg_Abuse r1), (reg_Abuse r2); try done. by rewrite (Entity_indist opts _ _ Ha).
Qed.

(** Domains whose contacts, one by one, a caller may not tell apart. *)
Record domain_indist (lvl : AccessLevel) (d1 d2 : DataSource.Domain) : Prop := {
  di_handle : d_Handle d1 = d_Handle d2;
  di_names : d_LDHName d1 = d_LDHName d2 ∧ d_UnicodeName d1 = d_UnicodeName d2;
  di_status : d_Status d1 = d_Status d2;
  di_events : domainEvents d1 = domainEvents d2;
  di_hosts : d_Nameservers d1 = d_Nameservers d2;
  di_dnssec : d_SecureDNS d1 = d_SecureDNS d2;
  di_contacts : Forall2 (indist lvl) (d_Contacts d1) (d_Contacts d2);
  di_registrar :
    match d_Registrar d1, d_Registrar d2 with
    | Some r1, Some r2 => registrar_indist lvl r1 r2
    | None, None => True
    | _, _ => False
    end }.

Lemma domain_indist_refl lvl d : domain_indist lvl d d.
Proof.
  split; try done. destruct (d_Registrar d) as [r|]; [|done].
  repeat (split; [done|]). by destruct (reg_Abuse r).
Qed.
Lemma registrar_indist_mono lvl1 lvl2 r1 r2 :
  (tier lvl1 ≤ tier lvl2)%Z → registrar_indist lvl2 r1 r2 → registrar_indist lvl1 r1 r2.
Proof.
  intros Hle (?&?&?&Ha). repeat (split; [done|]).
  destruct (reg_Abuse r1), (reg_Abuse r2); try done. by apply (indist_mono _ lvl2).
Qed.

Lemma domain_indist_mono lvl1 lvl2 d1 d2 :
  (tier lvl1 ≤ tier lvl2)%Z → domain_indist lvl2 d1 d2 → domain_indist lvl1 d1 d2.
Proof.
  intros Hle []. split; try done.
  - eapply Forall2_impl; [done|]. intros c1 c2. by apply indist_mono.
  - destruct (d_Registrar d1), (d_Registrar d2); try done.
    by apply (registrar_indist_mono _ lvl2).
Qed.

Lemma entities_indist opts cs1 cs2 :
  Forall2 (indist (o_Level opts)) cs1 cs2 →
  ((λ c, entityWithMarks c opts) <$> cs1) = ((λ c, entityWithMarks c opts) <$> cs2).
Proof.
  induction 1 as [|c1 c2 cs1 cs2 Hi _ IH]; [done|].
  rewrite !fmap_cons, IH. f_equal. by apply entityWithMarks_indist.
Qed.

Lemma domain_indist_wire opts d1 d2 :
  domain_indist (o_Level opts) d1 d2 → Domain d1 opts = Domain d2 opts.
Proof.
  intros [Hh [Hn Hu] Hs He Hns Hdns Hc Hr]. unfold Domain.
  rewrite Hh, Hn, Hu, Hs, He, Hns, Hdns, (entities_indist opts _ _ Hc).
  destruct (d_Registrar d1) as [r1|], (d_Registrar d2) as [r2|]; try done.
  by rewrite (registrarEntity_indist opts r1 r2 Hr).
Qed.

(** C6: a whole domain response, cards, jCard arrays, events, registrar block and
    redaction markers included, and a whole entity response are functions of what the
    caller's tier may know: two records that differ only in withheld data produce the
    same response, so nothing withheld reaches the wire by any path of the mapper. *)
Theorem response_noninterference (opts : Options) (d1 d2 : DataSource.Domain) (c1 c2 : Contact) :
  domain_indist (o_Level opts) d1 d2 → indist (o_Level opts) c1 c2 →
  Domain d1 opts = Domain d2 opts ∧ EntityTopLevel c1 opts = EntityTopLevel c2 opts.
Proof.
  intros Hd Hi. split; [by apply domain_indist_wire|by apply EntityTopLevel_indist].
Qed.

(** ** The [redacted] member *)
Lemma marks_of_domain opts cs k :
  k ∈ concat (snd <$> ((λ c, entityWithMarks c opts) <$> cs)) ↔
  ∃ c, c ∈ cs ∧ k ∈ v_Marks (RedactContact c (o_Level opts)).
Proof.
  rewrite elem_of_concat. setoid_rewrite list_elem_of_fmap.
  setoid_rewrite list_elem_of_fmap. unfold entityWithMarks. split.
  - intros (l & (x & -> & c & -> & Hc) & Hk). exists c. split; [done|].
    by destruct (card_members _ _).
  - intros (c & Hc & Hk). exists (v_Marks (RedactContact c (o_Level opts))).
    split; [|done]. eexists; split; [|by exists c]. by destruct (card_members _ _).
Qed.

(** C19: the [redacted] array of a domain response has one marker per kind of personal
    data that the tier withholds and that some natural-person contact of the domain
    holds, no other marker and no repetition, so at most five; each carries the kind's
    description and JSONPath and the configured reason.  Organisations and the
    registrar's abuse contact, although redacted, contribute nothing. *)
Theorem domain_redacted_exact d opts :
  ∃ ks, Common_Redacted (Domain_Common (Domain d opts)) =
          redaction (o_RedactionReason opts) <$> ks ∧
    NoDup ks ∧ (List.length ks ≤ 5)%nat ∧
    ∀ k, k ∈ ks ↔ ∃ c, c ∈ d_Contacts d ∧ isOrg c = false ∧
                        withheld (o_Level opts) k = true ∧ present c k = true.
Proof.
  destruct (buildRedacted_dedup
    (concat (snd <$> ((λ c, entityWithMarks c opts) <$> d_Contacts d)))
    (o_RedactionReason opts)) as (ks & Hb & Hnd & Hin & _ & Hlen).
  exists ks. split_and!; [done..|].
  intros k. rewrite Hin, marks_of_domain. by setoid_rewrite marks_spec.
Qed.

(** The JSONPaths of a response whose root is the entity. *)
Definition entityRootPath (k : RedactionKind) : string :=
  match k with
  | RedactName => "$.jscard.name.full"
  | RedactTitle => "$.jscard.titles"
  | RedactEmail => "$.jscard.emails"
  | RedactPhone => "$.jscard.phones"
  | RedactPostalAddress => "$.jscard.addresses"
  end.

Lemma retarget_redaction reason k :
  Redaction_PrePath (retarget (redaction reason k)) = entityRootPath k.
Proof. by destruct k. Qed.

Lemma EntityTopLevel_redacted c opts :
  Common_Redacted (Entity_Common (EntityTopLevel c opts)) =
  retarget <$> buildRedacted (v_Marks (RedactContact c (o_Level opts)))
                 (o_RedactionReason opts).
Proof. unfold EntityTopLevel, entityWithMarks. by destruct (card_members _ _). Qed.

(** In a standalone entity response the markers are exactly the kinds withheld from
    the one contact, and every JSONPath is rooted at the entity itself
    ([$.jscard...] instead of [$.entities[*].jscard...]). *)
Theorem entity_redacted_exact c opts :
  ∃ ks, Common_Redacted (Entity_Common (EntityTopLevel c opts)) =
          (λ k, retarget (redaction (o_RedactionReason opts) k)) <$> ks ∧
    NoDup ks ∧
    (∀ k, k ∈ ks ↔ isOrg c = false ∧ withheld (o_Level opts) k = true ∧ present c k = true) ∧
    Redaction_PrePath <$> Common_Redacted (Entity_Common (EntityTopLevel c opts)) =
      entityRootPath <$> ks.
Proof.
  rewrite EntityTopLevel_redacted.
  destruct (buildRedacted_dedup (v_Marks (RedactContact c (o_Level opts)))
    (o_RedactionReason opts)) as (ks & -> & Hnd & Hin & _ & _).
  exists ks. rewrite <-!list_fmap_compose. split_and!; [done|done| |].
  - intros k. rewrite Hin. apply marks_spec.
  - apply list_fmap_ext. intros i k _. apply retarget_redaction.
Qed.
End noninterference.

(** ** Cards *)
Lemma numbered_spec {A B} p (f : nat → A → B) l k b :
  numbered p f l !! k = Some b ↔
  ∃ i a, k = p +:+ Itoa (Z.of_nat (S i)) ∧ l !! i = Some a ∧ b = f i a.
Proof.
  unfold numbered. rewrite <-elem_of_list_to_map.
  - rewrite elem_of_lookup_imap. naive_solver.
  - rewrite fmap_imap. apply NoDup_alt. intros i j x Hi Hj.
    rewrite list_lookup_imap in Hi, Hj.
    destruct (l !! i), (l !! j); try done. cbn in *.
    assert (E : p +:+ Itoa (Z.of_nat (S i)) = p +:+ Itoa (Z.of_nat (S j))) by congruence.
    apply str_app_inv_head, Itoa_inj in E. lia.
Qed.

Section cards.
Context `{GoUnicode}.

(** A contact's card carries exactly the caller's view: there is no card iff nothing
    is left to show, the [i]-th email and phone of the view sit under the keys
    ["e<i+1>"] and ["p<i+1>"] (only the first is preferred) and those maps have no
    other key, so no channel is dropped, invented or overwritten; the address, name and
    organisation are the view's. *)
Theorem card_carries_view (c : Contact) (lvl : AccessLevel) :
  let v := RedactContact c lvl in
  (buildCard c lvl = None ↔ Empty v = true) ∧
  ∀ card, buildCard c lvl = Some card →
    (∀ k e, Card_Emails card !! k = Some e ↔
       ∃ i a, k = "e" +:+ Itoa (Z.of_nat (S i)) ∧ v_Emails v !! i = Some a ∧
              e = email_card i a) ∧
    (∀ k p, Card_Phones card !! k = Some p ↔
       ∃ i a, k = "p" +:+ Itoa (Z.of_nat (S i)) ∧ v_Phones v !! i = Some a ∧
              p = phone_card i a) ∧
    Card_Addresses card !! "a1" = address_card <$> v_Address v ∧
    default "" (Name_Full <$> Card_Name card) = v_FullName v ∧
    default "" (Org_Name <$> Card_Organizations card !! "org") = v_Organization v ∧
    default "" (Title_Name <$> Card_Titles card !! "title") = v_Title v.
Proof.
  intros v. unfold buildCard, buildCardFromView. fold v.
  split; [by destruct (Empty v)|].
  intros card. destruct (Empty v); [done|]. intros [= <-]; cbn.
  split_and!.
  - intros k e. apply numbered_spec.
  - intros k p. apply numbered_spec.
  - by destruct (v_Address v).
  - by destruct (String.eqb_spec (v_FullName v) "") as [->|].
  - by destruct (String.eqb_spec (v_Organization v) "") as [->|].
  - by destruct (String.eqb_spec (v_Title v) "") as [->|].
Qed.
End cards.

(** ** Identifiers *)

(** The sixteen bytes a UID is made of. *)
Definition uid_bytes (handle : string) : string := slice (pad16 16 handle) 0 16.

Lemma pad16_length fuel b :
  (16 ≤ String.length b + fuel)%nat → (16 ≤ String.length (pad16 fuel b))%nat.
Proof.
  revert b. induction fuel as [|n IH]; intros b; cbn [pad16]; [lia|].
  destruct (String.length b <? 16)%nat eqn:E; [|apply Nat.ltb_ge in E; lia].
  intros Hl. apply IH. rewrite str_length_app. cbn. lia.
Qed.

Lemma slice_length handle lo hi : (lo ≤ hi ≤ 16)%nat →
  String.length (hex_string (slice (pad16 16 handle) lo hi)) = (2 * (hi - lo))%nat.
Proof.
  intros Hb. rewrite hex_string_length. unfold slice.
  rewrite substring_length; [done|]. pose proof (pad16_length 16 handle). lia.
Qed.

Lemma uid_bytes_groups handle : uid_bytes handle =
  let b := pad16 16 handle in
  slice b 0 4 +:+ slice b 4 6 +:+ slice b 6 8 +:+ slice b 8 10 +:+ slice b 10 16.
Proof.
  unfold uid_bytes, slice. cbv zeta. cbn [Nat.sub].
  rewrite (substring_split 0 4 12), (substring_split 4 2 10), (substring_split 6 2 8),
    (substring_split 8 2 6). done.
Qed.

(** Two handles get the same UID exactly when they agree on their first sixteen bytes
    once padded with the digit ['0'], so UIDs are unique among handles of sixteen bytes
    and collide in general: a handle and the same handle with a zero appended, such as
    [SYN-ENT-1] and [SYN-ENT-10], share one. *)
Theorem deterministicUID_collisions h1 h2 :
  (deterministicUID h1 = deterministicUID h2 ↔ uid_bytes h1 = uid_bytes h2) ∧
  (String.length h1 = 16%nat → String.length h2 = 16%nat →
     deterministicUID h1 = deterministicUID h2 → h1 = h2) ∧
  deterministicUID "SYN-ENT-1" = deterministicUID "SYN-ENT-10".
Proof.
  assert (Heq : deterministicUID h1 = deterministicUID h2 ↔ uid_bytes h1 = uid_bytes h2).
  { rewrite !uid_bytes_groups. unfold deterministicUID. cbv zeta. split.
    - intros E.
      repeat (apply str_app_inv_length in E as [E1%hex_string_inj E];
        [rewrite E1; clear E1; f_equal; apply str_app_inv_length in E as [_ E]; [|done]
        |rewrite !slice_length by lia; done]).
      by apply hex_string_inj.
    - intros E.
      assert (Hs : ∀ lo hi, (lo ≤ hi ≤ 16)%nat →
        String.length (slice (pad16 16 h1) lo hi) = String.length (slice (pad16 16 h2) lo hi)).
      { intros lo hi Hb. unfold slice. pose proof (pad16_length 16 h1).
        pose proof (pad16_length 16 h2). rewrite !substring_length; lia. }
      repeat (apply str_app_inv_length in E as [-> E]; [|apply Hs; lia]). by rewrite E. }
  split_and!; [done| |reflexivity].
  intros H1 H2 E%Heq. unfold uid_bytes, slice in E.
  assert (Hid : ∀ h, String.length h = 16%nat → String.substring 0 (16 - 0) (pad16 16 h) = h).
  { intros h Hh. cbn [pad16]. rewrite Hh. cbn [Nat.ltb Nat.leb].
    rewrite <-Hh, Nat.sub_0_r. clear. by induction h; cbn; f_equal. }
  by rewrite !Hid in E.
Qed.

(** ** Status codes, as a whole *)

(** The status mapping is injective on the EPP codes it translates, leaves every other
    value as it is and is idempotent: applying it to a list that was already mapped
    changes nothing. *)
Theorem eppToRDAPStatus_ok :
  (∀ s t, s ∈ eppTable.*1 → t ∈ eppTable.*1 →
     eppToRDAPStatus s = eppToRDAPStatus t → s = t) ∧
  (∀ s r, (s, r) ∈ eppTable → eppToRDAPStatus s = r) ∧
  (∀ s, s ∉ eppTable.*1 → eppToRDAPStatus s = s) ∧
  (∀ l, mapStatuses (mapStatuses l) = mapStatuses l).
Proof.
  assert (Hall : Forall (λ s, Forall (λ t,
    eppToRDAPStatus s = eppToRDAPStatus t → s = t) eppTable.*1) eppTable.*1)
    by (apply (bool_decide_unpack _); by vm_compute).
  assert (Htab : Forall (λ sr : string * string, eppToRDAPStatus sr.1 = sr.2) eppTable)
    by (apply (bool_decide_unpack _); by vm_compute).
  assert (Hid : Forall (λ sr : string * string, eppToRDAPStatus sr.2 = sr.2) eppTable)
    by (apply (bool_decide_unpack _); by vm_compute).
  assert (Hout : ∀ s, s ∉ eppTable.*1 → eppToRDAPStatus s = s).
  { intros s Hs. unfold eppToRDAPStatus.
    destruct (list_find _ eppTable) as [[i [k r]]|] eqn:E; [|done].
    apply list_find_Some in E as (Hi & Hk & _). cbn in Hk. subst k. destruct Hs.
    apply list_elem_of_fmap. exists (s, r). split; [done|]. by eapply list_elem_of_lookup_2. }
  rewrite Forall_forall in Hall. rewrite Forall_forall in Htab. rewrite Forall_forall in Hid.
  split_and!.
  - intros s t Hs Ht. specialize (Hall s Hs). rewrite Forall_forall in Hall. auto.
  - intros s r Hr. apply (Htab (s, r) Hr).
  - done.
  - intros l. unfold mapStatuses. rewrite <-list_fmap_compose. apply list_fmap_ext.
    intros i s _. cbn. destruct (decide (s ∈ eppTable.*1)) as [Hin|Hn].
    + apply list_elem_of_fmap in Hin as ([s' r] & -> & Hsr).
      pose proof (Htab _ Hsr) as Ht. pose proof (Hid _ Hsr) as Hi. cbn in *.
      by rewrite Ht.
    + by rewrite !(Hout s Hn).
Qed.

(** ** A concrete pair of records *)
Definition opts_anon : Options :=
  {| o_Level := AccessAnonymous; o_SelfLinkBase := "https://rdap.example/";
     o_ExtraConformance := []; o_ExtraNotices := []; o_RedactionReason := "server policy";
     o_EmitJCard := true; o_JCardOnly := false |}.
Definition other_person : Contact :=
  {| c_Handle := "REG-1"; c_Roles := ["registrant"]; c_Kind := "individual";
     c_FullName := "Bob Muster"; c_Organization := ""; c_Title := "";
     c_Emails := ["bob@example.test"; "b@example.test"]; c_Phones := [];
     c_Address := Some {| adr_Street := ["Other Street 7"]; adr_Locality := "Bonn";
                          adr_Region := ""; adr_PostalCode := "53111";
                          adr_CountryCode := "DE" |};
     c_CreatedAt := time_2026; c_UpdatedAt := time_2026; c_Extras := [] |}.
Definition domain_of (c : Contact) : DataSource.Domain :=
  {| d_Handle := "D-1"; d_LDHName := "example.nl"; d_UnicodeName := "example.nl";
     d_Status := ["ok"]; d_Registered := time_2026; d_Expires := 0%Z; d_LastChanged := 0%Z;
     d_LastRDAPUpdate := 0%Z; d_Nameservers := []; d_SecureDNS := None; d_Contacts := [c];
     d_Registrar := Some {| reg_Handle := "R-1"; reg_Name := "Registrar"; reg_IANAID := "9999";
                            reg_URL := ""; reg_Abuse := Some c |} |}.

Lemma response_noninterference_witness :
  let A := @Domain unicode_default map_range_default netip_text in
  person_ex ≠ other_person ∧
  A (domain_of person_ex) opts_anon = A (domain_of other_person) opts_anon.
Proof.
  split; [by intros [=]|].
  apply (@response_noninterference unicode_default map_range_default netip_text opts_anon
           (domain_of person_ex) (domain_of other_person) person_ex other_person);
    [|reflexivity].
  split; try reflexivity; [split; reflexivity|repeat constructor|repeat split].
Defined.
