(* ===== verification/Validate.v ===== *)
(** * pkg/rdap/validate and pkg/rdap/idn: input hardening.

    The UTS #46 conversion ([golang.org/x/net/idna]) is not part of the
    repository: it is the operation of the class [IDNA]. *)
From S2P Require Import Prelude GoStrings.

Definition MaxDomainLength : Z := 253.
Definition MaxHandleLength : Z := 64.
Definition MaxQueryLength : Z := 512.

(** A Go [error] result: [None] is nil. *)
Definition DomainLength (ldh : string) : option error :=
  if (len ldh =? 0)%Z then Some ErrCharSet
  else if (MaxDomainLength <? len ldh)%Z then Some ErrTooLong
  else None.

Definition handle_byte (b : ascii) : bool :=
  in_range b "0" "9" || in_range b "A" "Z" || in_range b "a" "z" ||
  (Ascii.eqb b "-" || Ascii.eqb b "_" || Ascii.eqb b ".").

Definition Handle (h : string) : option error :=
  if (h =? "")%string then Some ErrCharSet
  else if (MaxHandleLength <? len h)%Z then Some ErrTooLong
  else if negb (str_forall handle_byte h) then Some ErrCharSet
  else if HasPrefix h "." || HasSuffix h "." then Some ErrCharSet
  else None.

Definition PathSegment (s : string) : option error :=
  if (MaxQueryLength <? len s)%Z then Some ErrTooLong else None.

(** ** [idn.Normalize] *)
Class IDNA := { ToASCII : string → option string }.

Section normalize.
Context `{GoUnicode} `{IDNA}.

(** [("", false)] is [None]. *)
Definition Normalize (raw : string) : option string :=
  let raw := TrimSpace raw in
  let raw := TrimRight raw "." in
  if (raw =? "")%string || (Trim raw "." =? "")%string then None else
  match ToASCII raw with
  | None => None
  | Some ascii =>
      if (Trim ascii "." =? "")%string then None
      else if negb (Contains ascii ".") then None
      else Some (ToLower ascii)
  end.
End normalize.

(** An [IDNA] that accepts the names made of letters, digits, hyphens and dots and
    maps them to lower case, for the witnesses. *)
Definition ldh_byte (b : ascii) : bool :=
  is_digit b || is_upper b || is_lower b || Ascii.eqb b "-" || Ascii.eqb b ".".
Definition idna_ldh : IDNA :=
  {| ToASCII := λ s, if str_forall ldh_byte s then Some (str_map lower_byte s) else None |}.

Example normalize_ex :
  let U := unicode_default in let I := idna_ldh in
  Normalize <$> ["Example.NL"; " example.nl.. "; "..."; ""; "localhost"; "a b.nl"; ".example.nl"]
  = [Some "example.nl"; Some "example.nl"; None; None; None; None; Some ".example.nl"].
Proof. vm_compute. reflexivity. Qed.

(** * Theorems *)

(** The documented shape of a handle: 1 to 64 letters, digits, hyphens, underscores or
    dots, with a dot at neither end. *)
Definition handle_shape (h : string) : Prop :=
  (1 ≤ len h ≤ 64)%Z ∧ str_forall handle_byte h = true ∧
  (∀ r, h ≠ String "." r) ∧ (∀ r, h ≠ r +:+ ".").

(** [Handle] accepts exactly the handles of the documented shape; it answers
    ErrTooLong exactly for those of more than 64 bytes and ErrCharSet for every other
    rejected one, the empty one included. *)
Theorem Handle_correct h :
  (Handle h = None ↔ handle_shape h) ∧
  (Handle h = Some ErrTooLong ↔ (64 < len h)%Z) ∧
  (∀ e, Handle h = Some e → e = ErrTooLong ∨ e = ErrCharSet).
Proof.
  unfold Handle, handle_shape, MaxHandleLength.
  assert (Hpre : HasPrefix h "." = false ↔ ∀ r, h ≠ String "." r).
  { rewrite <-not_true_iff_false, HasPrefix_spec. naive_solver. }
  assert (Hsuf : HasSuffix h "." = false ↔ ∀ r, h ≠ r +:+ ".").
  { rewrite <-not_true_iff_false, HasSuffix_spec. naive_solver. }
  assert (Hlen : h = "" ∨ (1 ≤ len h)%Z) by (destruct h; unfold len; cbn; [by left|right; lia]).
  destruct (String.eqb_spec h "") as [->|Hne].
  { split_and!; [split; [done|by intros [[Hl _] _]]|by split|naive_solver]. }
  destruct Hlen as [?|Hlen]; [done|].
  destruct (64 <? len h)%Z eqn:El; bool_hyps.
  { split_and!; [split; [done|lia]|done|naive_solver]. }
  destruct (str_forall handle_byte h); cbn [negb].
  2: { split_and!; [naive_solver|split; [done|lia]|naive_solver]. }
  destruct (HasPrefix h ".") eqn:Ep, (HasSuffix h ".") eqn:Es; cbn [orb];
    (split_and!; [|split; [done|lia]|naive_solver]).
  - split; [done|]. intros (_&_&Hp%Hpre&_). done.
  - split; [done|]. intros (_&_&Hp%Hpre&_). done.
  - split; [done|]. intros (_&_&_&Hs%Hsuf). done.
  - split; [|done]. intros _. split_and!; [lia..|done| |]; [by apply Hpre|by apply Hsuf].
Qed.

Lemma DomainLength_None s : DomainLength s = None ↔ (1 ≤ len s ≤ 253)%Z.
Proof.
  unfold DomainLength, MaxDomainLength. assert (0 ≤ len s)%Z by (unfold len; lia).
  break_goal; bool_hyps; split; (done || lia).
Qed.
Lemma PathSegment_None s : PathSegment s = None ↔ (len s ≤ 512)%Z.
Proof.
  unfold PathSegment, MaxQueryLength. break_goal; bool_hyps; split; (done || lia).
Qed.

(** ** Normalisation *)
Section idempotent.
Context `{GoUnicode} `{IDNA}.
(** What UTS #46 in strict mode promises: the output is made of letters, digits,
    hyphens and dots, in lower case, and converting it again changes nothing. *)
Definition lower_ldh (b : ascii) : bool :=
  is_digit b || is_lower b || Ascii.eqb b "-" || Ascii.eqb b ".".
Context (ToASCII_ldh : ∀ s a, ToASCII s = Some a → str_forall lower_ldh a = true).
Context (ToASCII_fix : ∀ s a, ToASCII s = Some a → ToASCII a = Some a).

Lemma lower_ldh_plain b : lower_ldh b = true → plain_byte b = true.
Proof. by destruct b as [[] [] [] [] [] [] [] []]. Qed.
Lemma lower_ldh_stable b : lower_ldh b = true → lower_stable b = true.
Proof. by destruct b as [[] [] [] [] [] [] [] []]. Qed.

(** A normalised name is never empty, made of dots only or without a dot, is in
    lower case and, when it does not end in a dot, is a fixed point: normalising it
    again succeeds and returns it unchanged. *)
Theorem Normalize_idempotent raw name :
  Normalize raw = Some name →
  Contains name "." = true ∧ Trim name "." ≠ "" ∧ ToLower name = name ∧
  (str_last name ≠ Some "."%char → Normalize name = Some name).
Proof.
  unfold Normalize at 1. set (r := TrimRight (TrimSpace raw) ".").
  destruct ((r =? "")%string || _); [done|].
  destruct (ToASCII r) as [a|] eqn:Ea; [|done].
  destruct (String.eqb_spec (Trim a ".") "") as [|Ht]; [done|].
  destruct (Contains a ".") eqn:Ec; cbn [negb]; [|done].
  pose proof (ToASCII_ldh r a Ea) as Hldh.
  assert (Hlow : ToLower a = a)
    by (apply ToLower_stable; eapply str_forall_impl; [apply lower_ldh_stable|done]).
  rewrite Hlow. intros [= <-]. split_and!; [done..|].
  intros Hdot. unfold Normalize.
  rewrite TrimSpace_plain by (eapply str_forall_impl; [apply lower_ldh_plain|done]).
  rewrite TrimRight_id by done.
  rewrite (proj2 (String.eqb_neq _ _) Ht), orb_false_r.
  destruct (String.eqb_spec a "") as [->|]; [done|].
  rewrite (ToASCII_fix r a Ea), (proj2 (String.eqb_neq _ _) Ht). by rewrite Ec, Hlow.
Qed.
End idempotent.

Lemma lower_ldh_map s :
  str_forall ldh_byte s = true →
  str_forall lower_ldh (str_map lower_byte s) = true ∧
  str_forall ldh_byte (str_map lower_byte s) = true ∧
  str_map lower_byte (str_map lower_byte s) = str_map lower_byte s.
Proof.
  assert (Hb : ∀ b, ldh_byte b = true → lower_ldh (lower_byte b) = true ∧
    ldh_byte (lower_byte b) = true ∧ lower_byte (lower_byte b) = lower_byte b)
    by (by intros [[] [] [] [] [] [] [] []]).
  induction s as [|b s IH]; [done|]. cbn [str_forall str_map].
  intros [Hc Hs]%andb_true_iff. destruct (Hb b Hc) as (-> & -> & ->).
  by destruct (IH Hs) as (-> & -> & ->).
Qed.

Lemma Normalize_idempotent_witness :
  let n := @Normalize unicode_default idna_ldh in
  n " Example.NL. " = Some "example.nl" ∧ n "example.nl" = Some "example.nl".
Proof.
  assert (E : @Normalize unicode_default idna_ldh " Example.NL. " = Some "example.nl")
    by (vm_compute; reflexivity).
  split; [exact E|].
  apply (@Normalize_idempotent unicode_default idna_ldh) with (raw := " Example.NL. ");
    [| |exact E|by intros [=]].
  - intros s a Ha. cbn in Ha. destruct (str_forall ldh_byte s) eqn:Es; [|done].
    injection Ha as <-. by apply lower_ldh_map.
  - intros s a Ha. cbn in Ha |- *. destruct (str_forall ldh_byte s) eqn:Es; [|done].
    injection Ha as <-. destruct (lower_ldh_map s Es) as (_ & -> & ->). done.
Defined.
