(* ===== verification/Search.v ===== *)
(** * pkg/rdap/search: the search contract, patterns and page sizes. *)
From S2P Require Import Prelude GoStrings DataSource.

(** ** The contract *)
Record Query := { Terms : gmap string string; Offset : Z; Limit : Z }.
Record Result (T : Type) := { Items : list T; Total : Z; NextCursor : string }.
Arguments Build_Result {T} _ _ _.
Arguments Items {T} _.
Arguments Total {T} _.
Arguments NextCursor {T} _.

(** [search.Index] over a state [W]. *)
Record Index (W : Type) := {
  SearchDomains : Query → W → res (Result Domain) * W;
  SearchEntities : Query → W → res (Result Contact) * W;
  SearchNameservers : Query → W → res (Result Nameserver) * W }.
Arguments SearchDomains {W} _ _ _.
Arguments SearchEntities {W} _ _ _.
Arguments SearchNameservers {W} _ _ _.

Definition Null {W} : Index W :=
  {| SearchDomains := λ _ w, (failed ErrNotImplemented, w);
     SearchEntities := λ _ w, (failed ErrNotImplemented, w);
     SearchNameservers := λ _ w, (failed ErrNotImplemented, w) |}.

(** What a handler relies on: a result or an error (Postgres may return both, when its
    rows end in an error), and the state invariant is kept. *)
Class IndexLaws {W} (ix : Index W) (I : W → Prop) := {
  law_search_domains q w :
    I w → res_answers (SearchDomains ix q w).1 ∧ I (SearchDomains ix q w).2;
  law_search_entities q w :
    I w → res_answers (SearchEntities ix q w).1 ∧ I (SearchEntities ix q w).2;
  law_search_nameservers q w :
    I w → res_answers (SearchNameservers ix q w).1 ∧ I (SearchNameservers ix q w).2;
}.

#[export] Instance Null_laws {W} (I : W → Prop) : IndexLaws (Null (W := W)) I.
Proof. by split. Qed.

(** ** Patterns *)
Definition star : ascii := "*".

Definition MatchPattern (haystack pattern : string) : bool :=
  match pattern with
  | "" => (haystack =? "")%string
  | String c rest =>
      let hasPrefix := Ascii.eqb c star in
      let hasSuffix := bool_decide (str_last pattern = Some star) in
      let core := if hasPrefix then rest else pattern in
      let core := if hasSuffix && negb (core =? "")%string then str_init core else core in
      if hasPrefix && hasSuffix then Contains haystack core
      else if hasPrefix then HasSuffix haystack core
      else if hasSuffix then HasPrefix haystack core
      else (haystack =? pattern)%string
  end.

(** [ClampLimit(requested, defaultN, max)] *)
Definition ClampLimit (requested defaultN max : Z) : Z :=
  if (requested <=? 0)%Z then defaultN
  else if (max <? requested)%Z then max else requested.

(** ** The reference semantics of a pattern

    A pattern is a literal core with an optional wildcard at either edge; the
    core may hold further ['*'] characters, but not at an edge that carries no
    wildcard. *)
Record glob := { g_pre : bool; g_core : string; g_suf : bool }.
Definition edge (b : bool) : string := if b then String star "" else "".
Definition glob_text (g : glob) : string := edge (g_pre g) +:+ g_core g +:+ edge (g_suf g).
Definition glob_ok (g : glob) : Prop :=
  (g_pre g = false → HasPrefix (g_core g) (String star "") = false) ∧
  (g_suf g = false → str_last (g_core g) ≠ Some star).
Definition glob_denotes (g : glob) (h : string) : Prop :=
  ∃ a b, h = a +:+ g_core g +:+ b ∧ (g_pre g = false → a = "") ∧ (g_suf g = false → b = "").

Lemma str_last_app s t : t ≠ "" → str_last (s +:+ t) = str_last t.
Proof.
  intros Ht. destruct (str_snoc_inv t) as [->|(r & c & ->)]; [done|].
  by rewrite str_app_assoc, !str_last_snoc.
Qed.

Lemma Contains_nil s : Contains s "" = true.
Proof. apply Contains_spec. by exists "", s. Qed.

Lemma HasSuffix_nil s : HasSuffix s "" = true.
Proof. apply HasSuffix_spec. exists s. by rewrite str_app_nil_r. Qed.

Lemma HasPrefix_star c s : HasPrefix (String c s) (String star "") = Ascii.eqb c star.
Proof.
  apply eq_true_iff_eq. rewrite HasPrefix_spec, Ascii.eqb_eq. split.
  - by intros [r [= -> _]].
  - intros ->. by exists s.
Qed.

Lemma str_last_star s : str_last (String star (s +:+ String star "")) = Some star.
Proof. apply (str_last_snoc (String star s)). Qed.

Lemma glob_edges pre suf core h :
  glob_denotes {| g_pre := pre; g_core := core; g_suf := suf |} h ↔
  match pre, suf with
  | true, true => Contains h core
  | true, false => HasSuffix h core
  | false, true => HasPrefix h core
  | false, false => (h =? core)%string
  end = true.
Proof.
  unfold glob_denotes; cbn. destruct pre, suf.
  - rewrite Contains_spec. naive_solver.
  - rewrite HasSuffix_spec. split.
    + intros (a & b & -> & _ & Hb). rewrite (Hb eq_refl), str_app_nil_r. by exists a.
    + intros [r ->]. exists r, "". by rewrite str_app_nil_r.
  - rewrite HasPrefix_spec. split.
    + intros (a & b & -> & Ha & _). rewrite (Ha eq_refl). by exists b.
    + intros [r ->]. by exists "", r.
  - rewrite String.eqb_eq. split.
    + intros (a & b & -> & Ha & Hb). by rewrite (Ha eq_refl), (Hb eq_refl), str_app_nil_r.
    + intros ->. exists "", "". by rewrite str_app_nil_r.
Qed.

Lemma MatchPattern_glob pre suf core h :
  glob_ok {| g_pre := pre; g_core := core; g_suf := suf |} →
  MatchPattern h (glob_text {| g_pre := pre; g_core := core; g_suf := suf |}) =
  match pre, suf with
  | true, true => Contains h core
  | true, false => HasSuffix h core
  | false, true => HasPrefix h core
  | false, false => (h =? core)%string
  end.
Proof.
  unfold glob_ok, glob_text; cbn [g_pre g_core g_suf edge]. intros [Hp Hs].
  destruct core as [|c core].
  { destruct pre, suf; cbn; rewrite ?bool_decide_true, ?Contains_nil, ?HasSuffix_nil by done;
      by try destruct h. }
  rewrite HasPrefix_star in Hp.
  set (cc := String c core) in *.
  destruct pre, suf; cbn [edge]; rewrite ?str_app_nil_r.
  - change (MatchPattern h (String star (cc +:+ String star "")) = Contains h cc).
    unfold MatchPattern; cbv zeta. rewrite Ascii.eqb_refl, str_last_star, bool_decide_true, str_init_snoc by done. done.
  - change (MatchPattern h (String star cc) = HasSuffix h cc).
    unfold MatchPattern; cbv zeta. rewrite bool_decide_false by (apply Hs; reflexivity). done.
  - change (MatchPattern h (String c (core +:+ String star "")) = HasPrefix h cc).
    unfold MatchPattern; cbv zeta. change (String c (core +:+ String star "")) with (cc +:+ String star "").
    rewrite (Hp eq_refl), str_last_snoc, bool_decide_true, str_init_snoc by done. done.
  - change (MatchPattern h (String c core) = (h =? cc)%string).
    unfold MatchPattern; cbv zeta. rewrite (Hp eq_refl), bool_decide_false by (apply Hs; reflexivity).
    done.
Qed.

(** [MatchPattern] implements the wildcard semantics: for every pattern made of a
    literal core with an optional wildcard at each edge, it accepts exactly the strings
    that are the core with anything in place of the wildcards (so the exact string when
    there is none), and every pattern text is of this form. *)
Theorem MatchPattern_correct :
  (∀ g h, glob_ok g → MatchPattern h (glob_text g) = true ↔ glob_denotes g h) ∧
  (∀ p, ∃ g, glob_ok g ∧ p = glob_text g).
Proof.
  split.
  - intros [pre core suf] h Hok. by rewrite MatchPattern_glob, glob_edges.
  - intros p. destruct p as [|c r]; [by exists {| g_pre := false; g_core := ""; g_suf := false |}|].
    destruct (Ascii.eqb_spec c star) as [->|Hc].
    + destruct (str_snoc_inv r) as [->|(r' & d & ->)];
        [by exists {| g_pre := true; g_core := ""; g_suf := false |}|].
      destruct (Ascii.eqb_spec d star) as [->|Hd].
      * by exists {| g_pre := true; g_core := r'; g_suf := true |}.
      * exists {| g_pre := true; g_core := r' +:+ String d ""; g_suf := false |}.
        split; [split; [done|cbn; rewrite str_last_snoc; congruence]|].
        cbn. by rewrite str_app_nil_r.
    + destruct (str_snoc_inv (String c r)) as [|(r' & d & E)]; [done|].
      destruct (Ascii.eqb_spec d star) as [->|Hd].
      * exists {| g_pre := false; g_core := r'; g_suf := true |}. split; [|done].
        split; [|done]. intros _. cbn [g_core]. destruct r' as [|c' r']; [done|].
        injection E as -> _. rewrite HasPrefix_star. by apply Ascii.eqb_neq.
      * exists {| g_pre := false; g_core := String c r; g_suf := false |}.
        split; [split; cbn [g_pre g_core g_suf]|].
        3: { unfold glob_text. cbn [g_pre g_core g_suf edge]. by rewrite str_app_nil_r. }
        -- intros _. rewrite HasPrefix_star. by apply Ascii.eqb_neq.
        -- intros _. rewrite E, str_last_snoc. congruence.
Qed.

(** ** Page sizes *)
(** The strings a pattern text stands for. *)
Definition pattern_matches (p h : string) : Prop :=
  ∃ g, glob_ok g ∧ p = glob_text g ∧ glob_denotes g h.
Lemma MatchPattern_matches h p : MatchPattern h p = true ↔ pattern_matches p h.
Proof.
  destruct MatchPattern_correct as [Hm Ht]. split.
  - destruct (Ht p) as (g & Hg & ->). intros Hp%Hm; [|done]. by exists g.
  - intros (g & Hg & -> & Hd). by apply Hm.
Qed.

Lemma ClampLimit_range requested d m :
  (0 < d ≤ m)%Z → (0 < ClampLimit requested d m ≤ m)%Z.
Proof. unfold ClampLimit. intros. break_goal; bool_hyps; lia. Qed.

Lemma ClampLimit_id requested d m :
  (0 < requested ≤ m)%Z → ClampLimit requested d m = requested.
Proof. unfold ClampLimit. intros. break_goal; bool_hyps; lia. Qed.
#[export] Hint Resolve ClampLimit_range : gordap.
