(* ===== verification/Synth.v ===== *)
(** * internal/synth: the deterministic record generators shared by the seeders and the
    stress runner.

    Indices are Go [int]s; [%] and [/] truncate ([Z.rem], [Z.quot]), and an index
    expression on a literal slice is total because the seeders only pass
    non-negative indices. *)
From S2P Require Import Prelude GoStrings.

Section synth.
#[local] Open Scope Z_scope.

Definition TLDs : list string := ["nl"; "com"; "de"; "test"].
Definition Countries : list string := ["NL"; "DE"; "BE"; "FR"; "GB"; "US"].

(** [l[i]] *)
Definition at_index (l : list string) (i : Z) : string := default "" (l !! Z.to_nat i).

Definition Kinds (i : Z) : string := if Z.rem i 5 <? 3 then "individual" else "org".
Definition DomainName (i : Z) : string := "syn-" +:+ Itoa i +:+ "." +:+ at_index TLDs (Z.rem i 4).
Definition DomainHandle (i : Z) : string := "SYN-DOM-" +:+ Itoa i.
Definition EntityHandle (i : Z) : string := "SYN-ENT-" +:+ Itoa i.
Definition NameserverName (i : Z) : string := "ns" +:+ Itoa i +:+ ".synthetic.example".
Definition NameserverHandle (i : Z) : string := "SYN-NS-" +:+ Itoa i.
Definition EntityFullName (i : Z) : string :=
let first := at_index ["Alice"; "Bob"; "Carol"; "Dave"; "Eve"; "Frank"; "Grace"; "Hank"]
               (Z.rem i 8) in
let last := at_index ["Smith"; "Doe"; "Brown"; "Jones"; "Garcia"; "Lee"; "Patel"; "Kim"]
              (Z.rem (Z.quot i 8) 8) in
first +:+ " " +:+ last.
Definition EntityOrganization (i : Z) : string :=
"Synthetic Org " +:+ Itoa (Z.quot i 10) +:+ " B.V.".
Definition EntityEmail (i : Z) : string := "contact-" +:+ Itoa i +:+ "@synthetic.example".
Definition EntityPhone (i : Z) : string := "+312000" +:+ pad 5 (Z.rem i 100000).
Definition EntityCountry (i : Z) : string := at_index Countries (Z.rem i 6).
Definition EntityStreet (i : Z) : string :=
"Synthetic Street " +:+ Itoa (Z.rem i 9999 + 1).
Definition EntityLocality (i : Z) : string :=
at_index ["Amsterdam"; "Berlin"; "Brussels"; "Paris"; "London"; "New York"] (Z.rem i 6).
Definition EntityPostalCode (i : Z) : string := pad 5 (Z.rem (wrap64 (i * 73)) 99999).
Definition NameserverForDomain (i : Z) : Z := Z.quot i 10.
Definition EntityForDomain (i : Z) : Z := i.

End synth.

Record IDNFixture := { fix_Handle : string; fix_LDH : string; fix_Unicode : string }.
Definition IDNFixtures : list IDNFixture := [
  Build_IDNFixture "SYN-IDN-1" "xn--bcher-kva.example" "bücher.example";
  Build_IDNFixture "SYN-IDN-2" "xn--mller-kva.example" "müller.example";
  Build_IDNFixture "SYN-IDN-3" "xn--hxajbheg2az3al.example" "παράδειγμα.example";
  Build_IDNFixture "SYN-IDN-4" "xn--fiqs8s.example" "中国.example";
  Build_IDNFixture "SYN-IDN-5" "xn--mxaa.example" "ñ.example"].

(** ** Names determine their index *)

Lemma DomainName_inj i j : DomainName i = DomainName j → i = j.
Proof.
  unfold DomainName. intros E%str_app_inv_head.
  apply Itoa_inj. eapply (digits_split _ _ "." _ _); [by apply Itoa_no_char..|exact E].
Qed.
Lemma NameserverName_inj i j : NameserverName i = NameserverName j → i = j.
Proof. unfold NameserverName. by intros E%str_app_inv_head%str_app_inv_tail%Itoa_inj. Qed.
Lemma EntityHandle_inj i j : EntityHandle i = EntityHandle j → i = j.
Proof. unfold EntityHandle. by intros E%str_app_inv_head%Itoa_inj. Qed.

(** ** Names are in lower case *)
Lemma DomainName_lower i : str_forall lower_stable (DomainName i) = true.
Proof.
  unfold DomainName, at_index.
  rewrite !str_forall_app, Itoa_chars by auto using lower_stable_digit.
  destruct (TLDs !! _) as [t|] eqn:E; [|done].
  apply list_elem_of_lookup_2 in E. unfold TLDs in E. set_unfold in E.
  by destruct E as [->|[->|[->| [->|[]]]]].
Qed.
Lemma NameserverName_lower i : str_forall lower_stable (NameserverName i) = true.
Proof.
  unfold NameserverName.
  rewrite !str_forall_app, Itoa_chars by auto using lower_stable_digit. done.
Qed.
Lemma DomainName_stable `{GoUnicode} i : ToLower (DomainName i) = DomainName i.
Proof. apply ToLower_stable, DomainName_lower. Qed.
Lemma NameserverName_stable `{GoUnicode} i : ToLower (NameserverName i) = NameserverName i.
Proof. apply ToLower_stable, NameserverName_lower. Qed.
