(* ===== verification/Memory.v ===== *)
(** * pkg/rdap/storage/memory: the in-memory provider, its index and its seeders.

    Each method of [Store] takes the lock for its whole body, so an operation is
    one step; the maps hold pointers, and no code of the repository writes
    through a record it has stored, so they are modelled by the records. *)
From S2P Require Import Prelude GoStrings NetIP DataSource Search Synth.

Record Store := {
  domains : gmap string Domain;
  entities : gmap string Contact;
  nameserver : gmap string Nameserver;
  networks : list IPNetwork }.

Definition New : Store :=
  {| domains := ∅; entities := ∅; nameserver := ∅; networks := [] |}.

(** [sort.Slice(l, func(i, j int) bool { return key(l[i]) < key(l[j]) })] on records of
    distinct keys, for which the sorted order is unique. *)
Definition key_le {T} (key : T → string) (a b : T) : Prop := String.le (key a) (key b).
#[global] Instance key_le_dec {T} (key : T → string) : RelDecision (key_le key).
Proof. intros a b. unfold key_le. apply _. Defined.
Definition sort_by {T} (key : T → string) (l : list T) : list T := merge_sort (key_le key) l.

(** The bounds of a slice are those of the memory, so [start + limit] does not wrap. *)
Definition paginate {T} (all : list T) (q : Query) : Result T :=
  let total := Z.of_nat (length all) in
  let limit := ClampLimit (Limit q) 50 500 in
  let start := if (Offset q <? 0)%Z then 0%Z else Offset q in
  if (total <=? start)%Z then Build_Result [] total "" else
  let end_ := if (total <? start + limit)%Z then total else (start + limit)%Z in
  Build_Result (take (Z.to_nat (end_ - start)) (drop (Z.to_nat start) all)) total "".

Section store.
Context `{GoUnicode}.

Definition PutDomain (d : Domain) (s : Store) : Store :=
  {| domains := <[ ToLower (d_LDHName d) := d ]> (domains s); entities := entities s;
     nameserver := nameserver s; networks := networks s |}.
Definition PutEntity (e : Contact) (s : Store) : Store :=
  {| domains := domains s; entities := <[ c_Handle e := e ]> (entities s);
     nameserver := nameserver s; networks := networks s |}.
Definition PutNameserver (n : Nameserver) (s : Store) : Store :=
  {| domains := domains s; entities := entities s;
     nameserver := <[ ToLower (ns_LDHName n) := n ]> (nameserver s);
     networks := networks s |}.
Definition PutNetwork (n : IPNetwork) (s : Store) : Store :=
  {| domains := domains s; entities := entities s; nameserver := nameserver s;
     networks := networks s ++ [n] |}.

Definition ok_or_notfound {V} (o : option V) : res V :=
  match o with Some v => found v | None => failed ErrNotFound end.

Definition Store_GetDomain (name : string) (s : Store) : res Domain :=
  ok_or_notfound (domains s !! ToLower name).
Definition Store_GetEntity (handle : string) (s : Store) : res Contact :=
  ok_or_notfound (entities s !! handle).
Definition Store_GetNameserver (name : string) (s : Store) : res Nameserver :=
  ok_or_notfound (nameserver s !! ToLower name).
Fixpoint first_network (ip : Addr) (l : list IPNetwork) : option IPNetwork :=
  match l with
  | [] => None
  | n :: l => if pfx_Contains (net_Prefix n) ip then Some n else first_network ip l
  end.
Definition Store_GetIPNetwork (ip : Addr) (s : Store) : res IPNetwork :=
  ok_or_notfound (first_network ip (networks s)).

Definition store_source : DataSource Store :=
  {| GetDomain := λ k s, (Store_GetDomain k s, s);
     GetEntity := λ k s, (Store_GetEntity k s, s);
     GetNameserver := λ k s, (Store_GetNameserver k s, s);
     GetIPNetwork := λ k s, (Store_GetIPNetwork k s, s) |}.

(** *** The index *)
Definition matches_fold (h p : string) : bool := MatchPattern (ToLower h) (ToLower p).

Definition anyNameserverMatches (ns : list Nameserver) (pattern : string) : bool :=
  existsb (λ n, matches_fold (ns_LDHName n) pattern) ns.

Definition domain_term (d : Domain) (k v : string) : bool :=
  if (k =? "name")%string then
    matches_fold (d_LDHName d) v || matches_fold (d_UnicodeName d) v
  else if (k =? "nsLdhName")%string then anyNameserverMatches (d_Nameservers d) v
  else false.

Definition entity_term (c : Contact) (k v : string) : bool :=
  if (k =? "fn")%string then
    let full := if (c_FullName c =? "")%string then c_Organization c else c_FullName c in
    matches_fold full v
  else if (k =? "handle")%string then MatchPattern (c_Handle c) v
  else if (k =? "email")%string then existsb (λ e, matches_fold e v) (c_Emails c)
  else if (k =? "countryCode")%string then
    match c_Address c with
    | None => false
    | Some a => MatchPattern (ToUpper (adr_CountryCode a)) (ToUpper v)
    end
  else false.

Context `{NetIPText} `{GoMapRange}.

Definition nameserver_term (n : Nameserver) (k v : string) : bool :=
  if (k =? "name")%string then matches_fold (ns_LDHName n) v
  else if (k =? "ip")%string then
    existsb (λ ip, (ip =? v)%string) ((addr_String <$> ns_IPv4 n) ++ (addr_String <$> ns_IPv6 n))
  else false.

(** [for k, v := range terms { if !... { return false } } return true] *)
Definition all_terms {T} (term : T → string → string → bool) (x : T)
    (terms : gmap string string) : bool :=
  forallb (λ kv, term x kv.1 kv.2) (map_range terms).
Definition domainMatches := all_terms domain_term.
Definition entityMatches := all_terms entity_term.
Definition nameserverMatches := all_terms nameserver_term.

Definition values {T} (m : gmap string T) : list T := (map_range m).*2.
Definition search_all {T} (key : T → string) (matches_q : T → gmap string string → bool)
    (m : gmap string T) (q : Query) : Result T :=
  paginate (filter (λ x, matches_q x (Terms q) = true) (sort_by key (values m))) q.

Definition Store_SearchDomains (q : Query) (s : Store) : res (Result Domain) :=
  found (search_all d_LDHName domainMatches (domains s) q).
Definition Store_SearchEntities (q : Query) (s : Store) : res (Result Contact) :=
  found (search_all c_Handle entityMatches (entities s) q).
Definition Store_SearchNameservers (q : Query) (s : Store) : res (Result Nameserver) :=
  found (search_all ns_LDHName nameserverMatches (nameserver s) q).

Definition store_index : Index Store :=
  {| SearchDomains := λ q s, (Store_SearchDomains q s, s);
     SearchEntities := λ q s, (Store_SearchEntities q s, s);
     SearchNameservers := λ q s, (Store_SearchNameservers q s, s) |}.
End store.

(** ** The seeders *)
Section seed.
Context `{GoUnicode}.

(** [netip.MustParseAddr] on the literals of the seeders, which all parse. *)
Definition MustParseAddr (s : string) : Addr := default addr_zero (netip_ParseAddr s).
Definition MustParsePrefix (s : string) : Prefix :=
  default (mkPrefix addr_zero None) (netip_ParsePrefix s).

(** [now.AddDate(1, 0, 0)] of 2026-01-01 *)
Definition time_2027 : Time := (time_2026 + 365 * 86400 * Second)%Z.

Definition seed_org : Contact :=
  {| c_Handle := "REG-EXAMPLE"; c_Roles := ["registrant"]; c_Kind := "org";
     c_FullName := "Jane Doe"; c_Organization := "Example Holdings B.V."; c_Title := "CTO";
     c_Emails := ["hostmaster@example.nl"];
     c_Phones := [{| ph_Number := "+31201234567"; ph_Kinds := ["voice"] |}];
     c_Address := Some {| adr_Street := ["Herengracht 1"]; adr_Locality := "Amsterdam";
                          adr_Region := ""; adr_PostalCode := "1015BA";
                          adr_CountryCode := "NL" |};
     c_CreatedAt := time_2026; c_UpdatedAt := time_2026; c_Extras := [] |}.
Definition seed_ns1 : Nameserver :=
  {| ns_Handle := "NS-1"; ns_LDHName := "ns1.example.nl"; ns_UnicodeName := "";
     ns_IPv4 := [MustParseAddr "192.0.2.53"]; ns_IPv6 := [] |}.
Definition seed_ns2 : Nameserver :=
  {| ns_Handle := "NS-2"; ns_LDHName := "ns2.example.nl"; ns_UnicodeName := "";
     ns_IPv4 := []; ns_IPv6 := [] |}.
Definition seed_idn_reg : Contact :=
  {| c_Handle := "REG-IDN"; c_Roles := ["registrant"]; c_Kind := "individual";
     c_FullName := "Alice Muster"; c_Organization := ""; c_Title := "";
     c_Emails := ["alice@example.test"]; c_Phones := [];
     c_Address := Some {| adr_Street := []; adr_Locality := ""; adr_Region := "";
                          adr_PostalCode := ""; adr_CountryCode := "DE" |};
     c_CreatedAt := time_2026; c_UpdatedAt := time_2026; c_Extras := [] |}.

(** A domain record with the members the seeders set. *)
Definition seed_domain (handle ldh uni : string) (expires : Time)
    (ns : list Nameserver) (cs : list Contact) : Domain :=
  {| d_Handle := handle; d_LDHName := ldh; d_UnicodeName := uni; d_Status := ["active"];
     d_Registered := time_2026; d_Expires := expires; d_LastChanged := time_2026;
     d_LastRDAPUpdate := time_2026; d_Nameservers := ns; d_SecureDNS := None;
     d_Contacts := cs; d_Registrar := None |}.

Definition seed_network : IPNetwork :=
  {| net_Handle := "NET-192.0.2"; net_Prefix := MustParsePrefix "192.0.2.0/24";
     net_Name := "TEST-NET-1"; net_Type := "ALLOCATED"; net_Country := "NL";
     net_ParentHandle := ""; net_Status := ["active"]; net_Registered := time_2026;
     net_LastChanged := time_2026; net_Contacts := [] |}.

(** [*mustEntity(s, h)]: the entity just stored; a missing one is a nil dereference. *)
Definition mustEntity (s : Store) (handle : string) : option Contact := entities s !! handle.

Definition Seed (s : Store) : option Store :=
  let s := PutEntity seed_org s in
  let s := PutNameserver seed_ns1 s in
  let s := PutNameserver seed_ns2 s in
  reg ← mustEntity s "REG-EXAMPLE";
  let s := PutDomain (seed_domain "DOM-EXAMPLE" "example.nl" "example.nl" time_2027
                        [seed_ns1; seed_ns2] [reg]) s in
  let s := PutEntity seed_idn_reg s in
  let s := PutDomain (seed_domain "DOM-BUCHER" "xn--bcher-kva.example" "bücher.example" 0%Z
                        [] [seed_idn_reg]) s in
  Some (PutNetwork seed_network s).

(** *** [SeedSynthetic] *)
Definition buildEntity (i : Z) : Contact :=
  {| c_Handle := EntityHandle i; c_Roles := ["registrant"]; c_Kind := Kinds i;
     c_FullName := EntityFullName i; c_Organization := EntityOrganization i; c_Title := "";
     c_Emails := [EntityEmail i];
     c_Phones := [{| ph_Number := EntityPhone i; ph_Kinds := ["voice"] |}];
     c_Address := Some {| adr_Street := [EntityStreet i]; adr_Locality := EntityLocality i;
                          adr_Region := ""; adr_PostalCode := EntityPostalCode i;
                          adr_CountryCode := EntityCountry i |};
     c_CreatedAt := time_2026; c_UpdatedAt := time_2026; c_Extras := [] |}.
Definition synth_host (i : Z) (v4 : list Addr) : Nameserver :=
  {| ns_Handle := NameserverHandle i; ns_LDHName := NameserverName i; ns_UnicodeName := "";
     ns_IPv4 := v4; ns_IPv6 := [] |}.
Definition synth_nameserver (i : Z) : Nameserver :=
  synth_host i [MustParseAddr ("192.0.2." +:+ Itoa (Z.rem i 254 + 1))].
Definition synth_domain (i : Z) : Domain :=
  seed_domain (DomainHandle i) (DomainName i) (DomainName i) time_2027
    [synth_host (NameserverForDomain i) []] [buildEntity (EntityForDomain i)].
Definition idn_domain (f : IDNFixture) : Domain :=
  seed_domain (fix_Handle f) (fix_LDH f) (fix_Unicode f) 0%Z [] [].

(** [for i := 0; i < n; i++ { s.Put(f(i)) }] *)
Definition indices (n : Z) : list Z := Z.of_nat <$> seq 0 (Z.to_nat n).
Definition nsCount (n : Z) : Z := Z.quot (wrap64 (n + 9)) 10.
Definition SeedSynthetic (s : Store) (n : Z) : Store :=
  let s := foldl (λ s i, PutEntity (buildEntity i) s) s (indices n) in
  let s := foldl (λ s i, PutNameserver (synth_nameserver i) s) s (indices (nsCount n)) in
  let s := foldl (λ s i, PutDomain (synth_domain i) s) s (indices n) in
  foldl (λ s f, PutDomain (idn_domain f) s) s IDNFixtures.
End seed.

(** * Theorems *)

(** ** The store refines its write log

    The abstract store is the log of the writes: a lookup by name or handle
    yields the last record written under that key, a lookup by address the
    first network written that contains it. *)
Inductive write :=
  | WDomain (d : Domain) | WEntity (e : Contact) | WNameserver (n : Nameserver)
  | WNetwork (n : IPNetwork).

(** The last element of the log that [f] selects. *)
Definition last_some {A B} (f : A → option B) (l : list A) : option B := last (omap f l).

Section log.
Context `{GoUnicode}.

Definition put (w : write) (s : Store) : Store :=
  match w with
  | WDomain d => PutDomain d s
  | WEntity e => PutEntity e s
  | WNameserver n => PutNameserver n s
  | WNetwork n => PutNetwork n s
  end.
Definition replay (log : list write) : Store := foldl (λ s w, put w s) New log.

Definition log_domain (name : string) (w : write) : option Domain :=
  match w with
  | WDomain d => if (ToLower (d_LDHName d) =? ToLower name)%string then Some d else None
  | _ => None
  end.
Definition log_entity (handle : string) (w : write) : option Contact :=
  match w with
  | WEntity e => if (c_Handle e =? handle)%string then Some e else None
  | _ => None
  end.
Definition log_nameserver (name : string) (w : write) : option Nameserver :=
  match w with
  | WNameserver n => if (ToLower (ns_LDHName n) =? ToLower name)%string then Some n else None
  | _ => None
  end.
Definition log_network (ip : Addr) (w : write) : option IPNetwork :=
  match w with
  | WNetwork n => if pfx_Contains (net_Prefix n) ip then Some n else None
  | _ => None
  end.

Lemma replay_snoc log w : replay (log ++ [w]) = put w (replay log).
Proof. unfold replay. by rewrite foldl_app. Qed.

Lemma last_some_snoc {A B} (f : A → option B) l x :
  last_some f (l ++ [x]) = match f x with Some b => Some b | None => last_some f l end.
Proof.
  unfold last_some. rewrite omap_app. cbn. destruct (f x); [by rewrite last_snoc|].
  by rewrite (right_id_L [] (++)).
Qed.

Lemma lookup_last {V} (m : gmap string V) k k' v :
  <[ k := v ]> m !! k' = if (k =? k')%string then Some v else m !! k'.
Proof.
  destruct (String.eqb_spec k k') as [->|].
  - by rewrite lookup_insert_eq.
  - by rewrite lookup_insert_ne.
Qed.

Lemma first_network_snoc ip l n :
  first_network ip (l ++ [n]) =
  match first_network ip l with
  | Some m => Some m
  | None => if pfx_Contains (net_Prefix n) ip then Some n else None
  end.
Proof.
  induction l as [|m l IH]; cbn; [done|]. by destruct (pfx_Contains (net_Prefix m) ip).
Qed.

(** C10: after any sequence of writes the four lookups answer from the log: the domain
    (nameserver) most recently written under a name equal up to case, the entity most
    recently written under exactly that handle, the first network written that contains
    the address, and ErrNotFound when there is none. *)
Theorem store_refines_log (log : list write) (name : string) (ip : Addr) :
  let s := replay log in
  Store_GetDomain name s = ok_or_notfound (last_some (log_domain name) log) ∧
  Store_GetEntity name s = ok_or_notfound (last_some (log_entity name) log) ∧
  Store_GetNameserver name s = ok_or_notfound (last_some (log_nameserver name) log) ∧
  Store_GetIPNetwork ip s = ok_or_notfound (head (omap (log_network ip) log)).
Proof.
  unfold Store_GetDomain, Store_GetEntity, Store_GetNameserver, Store_GetIPNetwork.
  induction log as [|w log IH] using rev_ind; [done|].
  rewrite replay_snoc, !last_some_snoc, omap_app.
  cbv zeta in IH |- *. destruct IH as (IHd & IHe & IHn & IHi).
  destruct w; cbn [put log_domain log_entity log_nameserver log_network PutDomain PutEntity
    PutNameserver PutNetwork domains entities nameserver networks omap list_omap];
    rewrite ?lookup_last, ?first_network_snoc, ?(right_id_L [] (++));
    split_and!; try done; try (by destruct (_ =? _)%string).
  destruct (first_network ip (networks (replay log))) as [m|],
    (omap (log_network ip) log) as [|m' ?]; cbn in *; try done.
  by destruct (pfx_Contains _ _).
Qed.
End log.

(** ** Invariant *)
Section invariant.
Context `{GoUnicode}.

(** Every map is keyed by (the folded form of) its record's own name. *)
Record store_wf (s : Store) : Prop := {
  wf_domains k d : domains s !! k = Some d → k = ToLower (d_LDHName d);
  wf_entities k e : entities s !! k = Some e → k = c_Handle e;
  wf_nameserver k n : nameserver s !! k = Some n → k = ToLower (ns_LDHName n) }.

Lemma New_wf : store_wf New.
Proof. by split; intros k x; cbn; rewrite lookup_empty. Qed.

Lemma put_wf w s : store_wf s → store_wf (put w s).
Proof.
  intros [Hd He Hn]. split; intros k x; destruct w; cbn; auto;
    rewrite lookup_insert_Some; naive_solver.
Qed.

Lemma replay_wf log : store_wf (replay log).
Proof.
  induction log as [|w log IH] using rev_ind; [apply New_wf|].
  rewrite replay_snoc. by apply put_wf.
Qed.

Lemma ok_or_notfound_ok {V} (o : option V) : res_ok (ok_or_notfound o).
Proof. by destruct o. Qed.

#[export] Instance store_provider : ProviderLaws store_source store_wf.
Proof. split; intros; (split; [|done]); cbn; apply ok_or_notfound_ok. Qed.
End invariant.

(** ** Search *)
Lemma sort_by_perm {T} (key : T → string) l : sort_by key l ≡ₚ l.
Proof. apply merge_sort_Permutation. Qed.

#[global] Instance key_le_trans {T} (key : T → string) : Transitive (key_le key).
Proof. intros a b c. unfold key_le. apply transitivity. Qed.
#[global] Instance key_le_total {T} (key : T → string) : base.Total (key_le key).
Proof. intros a b. unfold key_le. apply (total String.le). Qed.

Lemma sort_by_sorted {T} (key : T → string) l : StronglySorted (key_le key) (sort_by key l).
Proof. apply StronglySorted_merge_sort; apply _. Qed.

(** Sorting by a key that tells the elements apart forgets the initial order. *)
Lemma sort_by_unique {T} (key : T → string) l1 l2 :
  l1 ≡ₚ l2 → (∀ x y, x ∈ l1 → y ∈ l1 → key x = key y → x = y) →
  sort_by key l1 = sort_by key l2.
Proof.
  intros Hp Hinj. apply (StronglySorted_unique_strong (key_le key)).
  - intros x y Hx Hy Hxy Hyx. rewrite sort_by_perm in Hx. rewrite sort_by_perm, <-Hp in Hy.
    apply Hinj; [done|done|]. by apply (anti_symm String.le).
  - apply sort_by_sorted.
  - apply sort_by_sorted.
  - by rewrite !sort_by_perm.
Qed.

Lemma elem_of_values `{GoMapRange} {T} (m : gmap string T) x :
  x ∈ values m ↔ ∃ k, m !! k = Some x.
Proof.
  unfold values. rewrite list_elem_of_fmap. split.
  - intros ([k y] & -> & Hk%elem_of_map_range). by exists k.
  - intros [k Hk]. exists (k, x). by rewrite elem_of_map_range.
Qed.

Section search.
Context {T : Type} (key : T → string) (f : T → string) (term : T → string → string → bool).
Context (m : gmap string T) (Hm : ∀ k x, m !! k = Some x → k = f x).
Context (Hf : ∀ x y, key x = key y → f x = f y).

Definition selected (R : GoMapRange) (q : Query) : list T :=
  filter (λ x, all_terms term x (Terms q) = true) (sort_by key (values m)).

Lemma all_terms_spec (R : GoMapRange) x terms :
  all_terms term x terms = true ↔ ∀ k v, terms !! k = Some v → term x k v = true.
Proof.
  unfold all_terms. rewrite forallb_true. split.
  - intros Hall k v Hkv. by apply (Hall (k, v)), elem_of_map_range.
  - intros Hall [k v] Hkv%elem_of_map_range. by apply Hall.
Qed.

Lemma values_inj (R : GoMapRange) x y :
  x ∈ values m → y ∈ values m → key x = key y → x = y.
Proof.
  rewrite !elem_of_values. intros [k Hx] [k' Hy] E.
  assert (k = k') as <- by (rewrite (Hm k x Hx), (Hm k' y Hy); by apply Hf). congruence.
Qed.

Lemma selected_range (R1 R2 : GoMapRange) q : selected R1 q = selected R2 q.
Proof.
  unfold selected. rewrite (sort_by_unique key (values m) (@values R2 _ m)).
  - apply list_filter_iff. intros x. by rewrite !all_terms_spec.
  - unfold values. by rewrite !map_range_perm.
  - intros x y. apply values_inj.
Qed.

Lemma selected_spec (R : GoMapRange) q :
  StronglySorted (key_le key) (selected R q) ∧ NoDup (key <$> selected R q) ∧
  ∀ x, x ∈ selected R q ↔
    (∃ k, m !! k = Some x) ∧ ∀ k v, Terms q !! k = Some v → term x k v = true.
Proof.
  unfold selected. split_and!.
  - eapply StronglySorted_sublist; [apply sublist_filter|apply sort_by_sorted].
  - eapply sublist_NoDup; [|apply fmap_sublist, sublist_filter].
    rewrite sort_by_perm. unfold values. rewrite <-list_fmap_compose.
    apply NoDup_fmap_fst_of; [apply NoDup_map_range_fst|].
    intros [k x] [k' y] Hx%elem_of_map_range Hy%elem_of_map_range E. cbn in *.
    rewrite (Hm k x Hx), (Hm k' y Hy). by apply Hf.
  - intros x. rewrite list_elem_of_filter, all_terms_spec, sort_by_perm, elem_of_values.
    naive_solver.
Qed.
End search.

Lemma paginate_items {T} (l : list T) q :
  Items (paginate l q) =
  take (Z.to_nat (ClampLimit (Limit q) 50 500)) (drop (Z.to_nat (Offset q)) l).
Proof.
  unfold paginate. pose proof (ClampLimit_range (Limit q) 50 500).
  set (limit := ClampLimit (Limit q) 50 500) in *.
  replace (Z.to_nat (Offset q))
    with (Z.to_nat (if (Offset q <? 0)%Z then 0%Z else Offset q))
    by (destruct (Offset q <? 0)%Z eqn:E; bool_hyps; lia).
  set (start := if (Offset q <? 0)%Z then 0%Z else Offset q).
  assert (0 ≤ start)%Z by (subst start; destruct (Offset q <? 0)%Z eqn:E; bool_hyps; lia).
  destruct (Z.of_nat (length l) <=? start)%Z eqn:E; bool_hyps; cbn [Items].
  - rewrite drop_ge by lia. by rewrite take_nil.
  - destruct (Z.of_nat (length l) <? start + limit)%Z eqn:E2; bool_hyps; cbn [Items].
    + rewrite !take_ge; [done|rewrite length_drop; lia..].
    + f_equal. lia.
Qed.

Lemma paginate_total {T} (l : list T) q : Total (paginate l q) = Z.of_nat (length l).
Proof. unfold paginate. by destruct (_ <=? _)%Z. Qed.

Lemma paginate_NextCursor {T} (l : list T) q : NextCursor (paginate l q) = "".
Proof. unfold paginate. by destruct (_ <=? _)%Z. Qed.

(** The page of a query in a result list: from its offset (from the start when negative), as
    many items as its limit says (50 when it says none, at most 500), with the length of the
    whole list and no cursor. *)
Definition page_of {T} (q : Query) (l : list T) : Result T :=
  {| Items := take (Z.to_nat (if (Limit q <=? 0)%Z then 50 else Z.min (Limit q) 500))
                (drop (Z.to_nat (Offset q)) l);
     Total := Z.of_nat (length l); NextCursor := "" |}.
Lemma paginate_page {T} (l : list T) q : paginate l q = page_of q l.
Proof.
  pose proof (paginate_items l q) as Hi. pose proof (paginate_total l q) as Ht.
  pose proof (paginate_NextCursor l q) as Hc. destruct (paginate l q) as [its tot cur].
  cbn [Items Total NextCursor] in *. subst. unfold page_of. do 3 f_equal.
  unfold ClampLimit. destruct (_ <=? 0)%Z; [done|].
  destruct (Z.ltb_spec 500 (Limit q)); lia.
Qed.

(** *** The terms a record satisfies

    A term that is not listed is satisfied by no record.  Patterns and names are compared
    without case, country codes likewise, handles and addresses as they are written. *)
Section terms.
Context `{GoUnicode} `{NetIPText}.

Definition matches_nocase (v h : string) : Prop := pattern_matches (ToLower v) (ToLower h).
Inductive domain_satisfies (d : Domain) : string → string → Prop :=
  | dom_ldh v : matches_nocase v (d_LDHName d) → domain_satisfies d "name" v
  | dom_unicode v : matches_nocase v (d_UnicodeName d) → domain_satisfies d "name" v
  | dom_ns n v : n ∈ d_Nameservers d → matches_nocase v (ns_LDHName n) →
      domain_satisfies d "nsLdhName" v.
Inductive entity_satisfies (c : Contact) : string → string → Prop :=
  | ent_fn v : c_FullName c ≠ "" → matches_nocase v (c_FullName c) → entity_satisfies c "fn" v
  | ent_org v : c_FullName c = "" → matches_nocase v (c_Organization c) →
      entity_satisfies c "fn" v
  | ent_handle v : pattern_matches v (c_Handle c) → entity_satisfies c "handle" v
  | ent_email e v : e ∈ c_Emails c → matches_nocase v e → entity_satisfies c "email" v
  | ent_country a v : c_Address c = Some a →
      pattern_matches (ToUpper v) (ToUpper (adr_CountryCode a)) →
      entity_satisfies c "countryCode" v.
Inductive nameserver_satisfies (n : Nameserver) : string → string → Prop :=
  | nsv_name v : matches_nocase v (ns_LDHName n) → nameserver_satisfies n "name" v
  | nsv_v4 a : a ∈ ns_IPv4 n → nameserver_satisfies n "ip" (addr_String a)
  | nsv_v6 a : a ∈ ns_IPv6 n → nameserver_satisfies n "ip" (addr_String a).

Lemma matches_fold_spec h v : matches_fold h v = true ↔ matches_nocase v h.
Proof. apply MatchPattern_matches. Qed.

Lemma domain_term_spec d k v : domain_term d k v = true ↔ domain_satisfies d k v.
Proof.
  unfold domain_term, anyNameserverMatches. split.
  - destruct (String.eqb_spec k "name") as [->|].
    + rewrite orb_true_iff, !matches_fold_spec. intros [?|?]; by constructor.
    + destruct (String.eqb_spec k "nsLdhName") as [->|]; [|done].
      rewrite existsb_exists. intros (ns & Hns%list_elem_of_In & Hm%matches_fold_spec).
      by econstructor.
  - destruct 1 as [v Hm|v Hm|n v Hn Hm]; cbn [String.eqb Ascii.eqb Bool.eqb].
    1,2: apply orb_true_iff; rewrite !matches_fold_spec; auto.
    apply existsb_exists. exists n. by rewrite <-list_elem_of_In, matches_fold_spec.
Qed.

Lemma entity_term_spec c k v : entity_term c k v = true ↔ entity_satisfies c k v.
Proof.
  unfold entity_term. split.
  - destruct (String.eqb_spec k "fn") as [->|].
    { rewrite matches_fold_spec.
      destruct (String.eqb_spec (c_FullName c) ""); by constructor. }
    destruct (String.eqb_spec k "handle") as [->|].
    { rewrite MatchPattern_matches. by constructor. }
    destruct (String.eqb_spec k "email") as [->|].
    { rewrite existsb_exists. intros (e & He%list_elem_of_In & Hm%matches_fold_spec).
      by econstructor. }
    destruct (String.eqb_spec k "countryCode") as [->|]; [|done].
    destruct (c_Address c) eqn:Ea; [|done]. rewrite MatchPattern_matches. by econstructor.
  - destruct 1 as [v Hf Hm|v Hf Hm|v Hm|e v He Hm|a v Ha Hm];
      cbn [String.eqb Ascii.eqb Bool.eqb].
    + apply matches_fold_spec. by destruct (String.eqb_spec (c_FullName c) "").
    + apply matches_fold_spec. by rewrite Hf.
    + by apply MatchPattern_matches.
    + apply existsb_exists. exists e. by rewrite <-list_elem_of_In, matches_fold_spec.
    + rewrite Ha. by apply MatchPattern_matches.
Qed.

Lemma nameserver_term_spec n k v : nameserver_term n k v = true ↔ nameserver_satisfies n k v.
Proof.
  unfold nameserver_term. split.
  - destruct (String.eqb_spec k "name") as [->|].
    { rewrite matches_fold_spec. by constructor. }
    destruct (String.eqb_spec k "ip") as [->|]; [|done].
    rewrite existsb_exists. intros (t & Ht%list_elem_of_In & ->%String.eqb_eq).
    apply elem_of_app in Ht as [Ht|Ht]; apply list_elem_of_fmap in Ht as (a & -> & Ha);
      by constructor.
  - intros Hs. destruct Hs as [v Hm|a Ha|a Ha]; cbn [String.eqb Ascii.eqb Bool.eqb].
    + by apply matches_fold_spec.
    + apply existsb_exists. exists (addr_String a).
      rewrite <-list_elem_of_In, elem_of_app, String.eqb_eq. split; [|done].
      left. by apply list_elem_of_fmap_2.
    + apply existsb_exists. exists (addr_String a).
      rewrite <-list_elem_of_In, elem_of_app, String.eqb_eq. split; [|done].
      right. by apply list_elem_of_fmap_2.
Qed.
End terms.

(** What the answer to a query is, over the records [rec]: one page of the list of all
    the records that satisfy every term, in strict order of their key. *)
Definition search_spec {T} (key : T → string) (rec : T → Prop)
    (satisfies : T → string → string → Prop) (q : Query) (r : res (Result T)) : Prop :=
  ∃ l, r = found (page_of q l) ∧ StronglySorted (key_le key) l ∧ NoDup (key <$> l) ∧
    ∀ x, x ∈ l ↔ rec x ∧ ∀ k v, Terms q !! k = Some v → satisfies x k v.

Lemma search_all_spec {T} (key f : T → string) term satisfies (m : gmap string T) q
    (R : GoMapRange) :
  (∀ k x, m !! k = Some x → k = f x) → (∀ x y, key x = key y → f x = f y) →
  (∀ x k v, term x k v = true ↔ satisfies x k v) →
  search_spec key (λ x, ∃ k, m !! k = Some x) satisfies q
    (found (search_all key (all_terms term) m q)).
Proof.
  intros Hm Hf Hs. exists (selected key term m R q).
  destruct (selected_spec key f term m Hm Hf R q) as (? & ? & Hin).
  split_and!; [by unfold search_all; rewrite paginate_page|done|done|].
  intros x. rewrite Hin. by setoid_rewrite Hs.
Qed.

Lemma search_all_range {T} (key f : T → string) term (m : gmap string T) q (R1 R2 : GoMapRange) :
  (∀ k x, m !! k = Some x → k = f x) → (∀ x y, key x = key y → f x = f y) →
  @search_all R1 T key (@all_terms R1 T term) m q =
  @search_all R2 T key (@all_terms R2 T term) m q.
Proof. intros Hm Hf. exact (f_equal (λ l, paginate l q) (selected_range key f term m Hm Hf R1 R2 q)). Qed.

(** C11: a search over the store answers with one page of the list of all the records that
    satisfy every term of the query and no other, in strict order of name (or handle).  A
    domain satisfies [name] when the pattern stands for its ASCII or its Unicode name, and
    [nsLdhName] when it stands for the name of one of its nameservers; an entity [fn] by its
    full name or, without one, its organisation, [handle] by its handle as written, [email]
    by one of its addresses, [countryCode] by the country of the address it has; a nameserver
    [name] by its name and [ip] by the text of one of its addresses; no record satisfies any
    other term.  The page is the slice that offset and limit say, with the total and no
    cursor.  The answer does not depend on the order in which the runtime ranges over the
    maps of records and terms. *)
Theorem store_search_correct `{GoUnicode} `{NetIPText} (R1 R2 : GoMapRange) (s : Store) (q : Query) :
  store_wf s →
  (search_spec d_LDHName (λ d, ∃ k, domains s !! k = Some d) domain_satisfies q
     (@Store_SearchDomains _ R1 q s) ∧
   search_spec c_Handle (λ c, ∃ k, entities s !! k = Some c) entity_satisfies q
     (@Store_SearchEntities _ R1 q s) ∧
   search_spec ns_LDHName (λ n, ∃ k, nameserver s !! k = Some n) nameserver_satisfies q
     (@Store_SearchNameservers _ _ R1 q s)) ∧
  @Store_SearchDomains _ R1 q s = @Store_SearchDomains _ R2 q s ∧
  @Store_SearchEntities _ R1 q s = @Store_SearchEntities _ R2 q s ∧
  @Store_SearchNameservers _ _ R1 q s = @Store_SearchNameservers _ _ R2 q s.
Proof.
  intros [Hd He Hn]. unfold Store_SearchDomains, Store_SearchEntities, Store_SearchNameservers.
  split_and!.
  - eapply search_all_spec; [exact Hd|congruence|apply domain_term_spec].
  - eapply search_all_spec; [exact He|congruence|apply entity_term_spec].
  - eapply search_all_spec; [exact Hn|congruence|apply nameserver_term_spec].
  - apply (f_equal found). eapply search_all_range; [exact Hd|congruence].
  - apply (f_equal found). eapply search_all_range; [exact He|congruence].
  - apply (f_equal found). eapply search_all_range; [exact Hn|congruence].
Qed.

#[export] Instance store_index_laws `{GoUnicode} `{NetIPText} `{GoMapRange} :
  IndexLaws store_index store_wf.
Proof. split; intros; (split; [|done]); done. Qed.

(** ** Pages *)
Definition page_query (terms : gmap string string) (limit : Z) (p : nat) : Query :=
  {| Terms := terms; Offset := (Z.of_nat p * limit)%Z; Limit := limit |}.

(** Paging neither loses nor repeats a result: walking the pages of a fixed size
    between 1 and 500 by increasing offset yields, concatenated, a prefix of the result
    list, and all of it once the pages cover the total each page announces; a page never
    exceeds its size. *)
Theorem pages_cover {T} (l : list T) terms (limit : Z) (n : nat) :
  (1 ≤ limit ≤ 500)%Z →
  concat ((λ p, Items (paginate l (page_query terms limit p))) <$> seq 0 n) =
    take (n * Z.to_nat limit) l ∧
  (Total (paginate l (page_query terms limit 0)) ≤ Z.of_nat n * limit →
   concat ((λ p, Items (paginate l (page_query terms limit p))) <$> seq 0 n) = l)%Z ∧
  ∀ p, (length (Items (paginate l (page_query terms limit p))) ≤ Z.to_nat limit)%nat.
Proof.
  intros Hl.
  assert (Hpage : ∀ p, Items (paginate l (page_query terms limit p)) =
                       take (Z.to_nat limit) (drop (p * Z.to_nat limit) l)).
  { intros p. rewrite paginate_items, ClampLimit_id by (cbn; lia). cbn [Limit Offset page_query].
    do 2 f_equal. lia. }
  assert (Hpre : concat ((λ p, Items (paginate l (page_query terms limit p))) <$> seq 0 n) =
                 take (n * Z.to_nat limit) l).
  { induction n as [|n IH]; [done|].
    rewrite seq_S, fmap_app, concat_app, IH. cbn [fmap list_fmap concat].
    rewrite Hpage, app_nil_r, Nat.add_0_l, take_take_drop. f_equal. lia. }
  split_and!; [done| |].
  - intros Ht. rewrite Hpre. rewrite paginate_total in Ht. apply take_ge. lia.
  - intros p. rewrite Hpage, length_take. lia.
Qed.

(** ** The synthetic store *)
Section fold_insert.
Context {A B : Type} (k : A → string) (v : A → B).

Lemma fold_insert_lookup (l : list A) (m : gmap string B) i :
  (∀ x y, k x = k y → x = y) → i ∈ l →
  foldl (λ m x, <[ k x := v x ]> m) m l !! k i = Some (v i).
Proof.
  intros Hinj. induction l as [|x l IH] using rev_ind; [by intros ?%not_elem_of_nil|].
  rewrite foldl_app, elem_of_app, list_elem_of_singleton. cbn.
  destruct (String.eqb_spec (k x) (k i)) as [E|E].
  - intros _. apply Hinj in E as ->. by rewrite lookup_insert_eq.
  - intros [Hi| ->]; [|done]. rewrite lookup_insert_ne by done. by apply IH.
Qed.

Lemma fold_insert_other (l : list A) (m : gmap string B) s :
  (∀ x, x ∈ l → k x ≠ s) → foldl (λ m x, <[ k x := v x ]> m) m l !! s = m !! s.
Proof.
  revert m. induction l as [|x l IH]; intros m Hl; cbn; [done|].
  rewrite IH by set_solver. apply lookup_insert_ne. set_solver.
Qed.
End fold_insert.

Section synthetic.
Context `{GoUnicode}.

Lemma fold_put_entities {A} (g : A → Contact) l s :
  foldl (λ s i, PutEntity (g i) s) s l =
  {| domains := domains s;
     entities := foldl (λ m i, <[ c_Handle (g i) := g i ]> m) (entities s) l;
     nameserver := nameserver s; networks := networks s |}.
Proof. revert s. induction l as [|i l IH]; intros []; cbn; [done|]. by rewrite IH. Qed.
Lemma fold_put_nameservers {A} (g : A → Nameserver) l s :
  foldl (λ s i, PutNameserver (g i) s) s l =
  {| domains := domains s; entities := entities s;
     nameserver := foldl (λ m i, <[ ToLower (ns_LDHName (g i)) := g i ]> m) (nameserver s) l;
     networks := networks s |}.
Proof. revert s. induction l as [|i l IH]; intros []; cbn; [done|]. by rewrite IH. Qed.
Lemma fold_put_domains {A} (g : A → Domain) l s :
  foldl (λ s i, PutDomain (g i) s) s l =
  {| domains := foldl (λ m i, <[ ToLower (d_LDHName (g i)) := g i ]> m) (domains s) l;
     entities := entities s; nameserver := nameserver s; networks := networks s |}.
Proof. revert s. induction l as [|i l IH]; intros []; cbn; [done|]. by rewrite IH. Qed.

Lemma elem_of_indices n i : i ∈ indices n ↔ (0 ≤ i < n)%Z.
Proof.
  unfold indices. rewrite list_elem_of_fmap. setoid_rewrite elem_of_seq. split.
  - intros (k & -> & Hk). lia.
  - intros Hi. exists (Z.to_nat i). lia.
Qed.

Lemma IDN_names_not_synthetic i f :
  f ∈ IDNFixtures → ToLower (fix_LDH f) ≠ DomainName i.
Proof.
  unfold IDNFixtures. intros Hf. set_unfold in Hf.
  repeat destruct Hf as [->|Hf]; try done; intros E; by injection E.
Qed.

Lemma fold_indices {B} (k : Z → string) (v : Z → B) n i :
  (∀ x y, k x = k y → x = y) → (0 ≤ i)%Z →
  foldl (λ m x, <[ k x := v x ]> m) (∅ : gmap string B) (indices n) !! k i =
  if (i <? n)%Z then Some (v i) else None.
Proof.
  intros Hk Hi. destruct (i <? n)%Z eqn:E; bool_hyps.
  - apply fold_insert_lookup; [done|]. apply elem_of_indices. lia.
  - rewrite fold_insert_other, lookup_empty; [done|].
    intros x Hx%elem_of_indices Hxi%Hk. lia.
Qed.

Lemma nsCount_bound n i : (0 ≤ n ≤ 2 ^ 62)%Z → (0 ≤ i)%Z →
  (i <? nsCount n)%Z = (10 * i <? n)%Z.
Proof.
  intros Hn Hi. unfold nsCount. autorewrite with gordap_simpl.
  rewrite Z.quot_div_nonneg by lia.
  apply eq_true_iff_eq. rewrite !Z.ltb_lt. div_lia.
Qed.

(** The synthetic store holds exactly what the stress runner predicts: for every
    index below [n] the domain and the entity are found under the generated name and
    handle (the domain with its one nameserver, which is itself found), for every other
    index the answer is ErrNotFound, and there is one nameserver per ten domains. *)
Theorem SeedSynthetic_predicts (n i : Z) :
  (0 ≤ n ≤ 2 ^ 62)%Z → (0 ≤ i)%Z →
  let s := SeedSynthetic New n in
  Store_GetDomain (DomainName i) s =
    (if (i <? n)%Z then found (synth_domain i) else failed ErrNotFound) ∧
  Store_GetEntity (EntityHandle i) s =
    (if (i <? n)%Z then found (buildEntity i) else failed ErrNotFound) ∧
  Store_GetNameserver (NameserverName i) s =
    (if (10 * i <? n)%Z then found (synth_nameserver i) else failed ErrNotFound) ∧
  (i < n → Store_GetNameserver (NameserverName (NameserverForDomain i)) s =
           found (synth_nameserver (NameserverForDomain i)))%Z.
Proof.
  intros Hn Hi s.
  assert (Hns : ∀ j, (0 ≤ j)%Z → Store_GetNameserver (NameserverName j) s =
    if (10 * j <? n)%Z then found (synth_nameserver j) else failed ErrNotFound).
  { intros j Hj. unfold Store_GetNameserver, s, SeedSynthetic.
    rewrite !fold_put_domains, fold_put_nameservers, fold_put_entities.
    cbn [nameserver New ns_LDHName synth_nameserver synth_host].
    rewrite (fold_indices (λ i, ToLower (NameserverName i))), nsCount_bound by
      (try done; intros x y; rewrite !NameserverName_stable; apply NameserverName_inj).
    by destruct (_ <? _)%Z. }
  split_and!.
  - unfold Store_GetDomain, s, SeedSynthetic.
    rewrite !fold_put_domains, fold_put_nameservers, fold_put_entities.
    cbn [domains New]. rewrite fold_insert_other by
      (intros f Hf; rewrite DomainName_stable; apply (IDN_names_not_synthetic i f Hf)).
    cbn [d_LDHName synth_domain seed_domain].
    rewrite (fold_indices (λ i, ToLower (DomainName i))) by
      (try done; intros x y; rewrite !DomainName_stable; apply DomainName_inj).
    by destruct (_ <? _)%Z.
  - unfold Store_GetEntity, s, SeedSynthetic.
    rewrite !fold_put_domains, fold_put_nameservers, fold_put_entities.
    cbn [entities New c_Handle buildEntity].
    rewrite (fold_indices EntityHandle) by (try done; apply EntityHandle_inj).
    by destruct (_ <? _)%Z.
  - by apply Hns.
  - intros Hin. unfold NameserverForDomain. rewrite Z.quot_div_nonneg by lia.
    rewrite Hns by div_lia.
    replace (10 * (i / 10) <? n)%Z with true by (symmetry; apply Z.ltb_lt; div_lia). done.
Qed.
End synthetic.

(** ** Witnesses *)
Definition demo_log : list write :=
  [WEntity seed_org; WNameserver seed_ns1; WNameserver seed_ns2;
   WDomain (seed_domain "DOM-EXAMPLE" "Example.nl" "example.nl" time_2027 [seed_ns1] [seed_org]);
   WDomain (seed_domain "DOM-OTHER" "other.nl" "other.nl" time_2027 [] []);
   WNetwork seed_network].
Definition demo_query : Query :=
  {| Terms := {[ "name" := "exam*"; "nsLdhName" := "*.EXAMPLE.nl" ]}; Offset := 0; Limit := 10 |}.

Example demo_search :
  let U := unicode_default in let R := map_range_default in
  (λ r, (d_Handle <$> Items r, Total r)) <$>
    (Store_SearchDomains demo_query (replay demo_log)).1 = Some (["DOM-EXAMPLE"], 1%Z).
Proof. vm_compute. reflexivity. Qed.

Lemma store_search_correct_witness :
  let U := unicode_default in let R := map_range_default in
  let s := replay demo_log in
  store_wf s ∧
  ∃ l, Store_SearchDomains demo_query s =
         found {| Items := take 10 l; Total := Z.of_nat (length l); NextCursor := "" |} ∧
    StronglySorted (key_le d_LDHName) l ∧
    (∀ d, d ∈ l → pattern_matches "exam*" (ToLower (d_LDHName d)) ∨
                  pattern_matches "exam*" (ToLower (d_UnicodeName d))) ∧
    (seed_domain "DOM-EXAMPLE" "Example.nl" "example.nl" time_2027 [seed_ns1] [seed_org]) ∈ l.
Proof.
  assert (Hwf := @replay_wf unicode_default demo_log). intros U R s. split; [exact Hwf|].
  destruct (@store_search_correct unicode_default netip_text map_range_default map_range_default
           (@replay unicode_default demo_log) demo_query Hwf) as [[(l & Hl & Hs & _ & Hin) _] _].
  exists l. split_and!; [exact Hl|exact Hs| |].
  - intros d [_ Hd]%Hin. specialize (Hd "name" "exam*" eq_refl).
    inversion Hd; subst; [by left|by right].
  - apply Hin. split; [exists "example.nl"; by vm_compute|].
    intros k v. cbn [Terms demo_query]. rewrite lookup_insert_Some, lookup_singleton_Some.
    intros [[<- <-]|(_ & <- & <-)]; apply domain_term_spec; by vm_compute.
Defined.

Lemma pages_cover_witness :
  (1 ≤ 2 ≤ 500)%Z ∧
  concat ((λ p, Items (paginate [1; 2; 3; 4; 5] (page_query ∅ 2 p))) <$> seq 0 3) =
    [1; 2; 3; 4; 5].
Proof.
  split; [lia|].
  apply (pages_cover [1; 2; 3; 4; 5] ∅ 2 3 ltac:(lia)). by vm_compute.
Defined.

Lemma SeedSynthetic_predicts_witness :
  (0 ≤ 25 ≤ 2 ^ 62)%Z ∧ (0 ≤ 24)%Z ∧
  @Store_GetDomain unicode_default (DomainName 24) (@SeedSynthetic unicode_default New 25) =
    found (synth_domain 24).
Proof.
  split; [lia|split; [lia|]].
  apply (@SeedSynthetic_predicts unicode_default 25 24); lia.
Defined.
