(* ===== verification/LRU.v ===== *)
(** * The LRU list of pkg/rdap/cache: [lru] of cache.go.

    [container/list] is modelled with the identity of its elements: a list holds
    element pointers, front first, a heap holds their values, and the map of the
    cache points into it.  [None] as the outcome of an operation is a Go panic
    (a nil element dereferenced).  The abstract LRU is a list of bindings, most
    recently used first; [lru_refines] is the refinement between the two. *)
From S2P Require Import Prelude.

(** ** [container/list] *)
Section list.
Context {E : Type}.
Record List := { l_order : list nat; l_heap : gmap nat E; l_next : nat }.
Definition list_New : List := {| l_order := []; l_heap := ∅; l_next := 0 |}.
Definition Len (l : List) : Z := Z.of_nat (length (l_order l)).
Definition Back (l : List) : option nat := last (l_order l).
Definition Value (l : List) (el : nat) : option E := l_heap l !! el.
Definition SetValue (el : nat) (e : E) (l : List) : List :=
  {| l_order := l_order l; l_heap := <[ el := e ]> (l_heap l); l_next := l_next l |}.
Definition PushFront (e : E) (l : List) : nat * List :=
  (l_next l,
   {| l_order := l_next l :: l_order l; l_heap := <[ l_next l := e ]> (l_heap l);
      l_next := S (l_next l) |}).
Definition others (el : nat) (ids : list nat) : list nat := filter (λ i, i ≠ el) ids.
Definition MoveToFront (el : nat) (l : List) : List :=
  {| l_order := el :: others el (l_order l); l_heap := l_heap l; l_next := l_next l |}.
Definition list_Remove (el : nat) (l : List) : List :=
  {| l_order := others el (l_order l); l_heap := delete el (l_heap l); l_next := l_next l |}.
End list.
Arguments List : clear implicits.

Section lru.
Context {K V : Type} `{Countable K}.

Record lruEntry := { e_key : K; e_val : V }.
Record lru := { capacity : Z; items : gmap K nat; order : List lruEntry }.

Definition newLRU (c : Z) : lru := {| capacity := c; items := ∅; order := list_New |}.

Definition get (key : K) (l : lru) : option (option V * lru) :=
  match items l !! key with
  | Some el =>
      e ← Value (order l) el;
      Some (Some (e_val e),
            {| capacity := capacity l; items := items l; order := MoveToFront el (order l) |})
  | None => Some (None, l)
  end.

(** [for l.order.Len() > l.capacity { ... }]; an iteration removes an element, so one
    more than the length of the list is enough fuel: [Back] of an empty list is nil. *)
Fixpoint evict (fuel : nat) (l : lru) : option lru :=
  if (capacity l <? Len (order l))%Z then
    match fuel with
    | O => None
    | S n =>
        last ← Back (order l);
        e ← Value (order l) last;
        evict n {| capacity := capacity l; items := delete (e_key e) (items l);
                   order := list_Remove last (order l) |}
    end
  else Some l.

Definition put (key : K) (val : V) (l : lru) : option lru :=
  match items l !! key with
  | Some el =>
      e ← Value (order l) el;
      Some {| capacity := capacity l; items := items l;
              order := MoveToFront el
                         (SetValue el {| e_key := e_key e; e_val := val |} (order l)) |}
  | None =>
      let '(el, o) := PushFront {| e_key := key; e_val := val |} (order l) in
      evict (S (length (l_order o)))
        {| capacity := capacity l; items := <[ key := el ]> (items l); order := o |}
  end.

Definition remove (key : K) (l : lru) : lru :=
  match items l !! key with
  | Some el => {| capacity := capacity l; items := delete key (items l);
                  order := list_Remove el (order l) |}
  | None => l
  end.

Definition lru_len (l : lru) : Z := Len (order l).

(** ** The abstract LRU *)
Definition without (key : K) (a : list (K * V)) : list (K * V) := filter (λ kv, kv.1 ≠ key) a.
Fixpoint assoc (key : K) (a : list (K * V)) : option V :=
  match a with
  | [] => None
  | (k, v) :: a => if bool_decide (k = key) then Some v else assoc key a
  end.
Definition touch (key : K) (a : list (K * V)) : list (K * V) :=
  match assoc key a with Some v => (key, v) :: without key a | None => a end.
Definition abs_put (cap : Z) (key : K) (val : V) (a : list (K * V)) : list (K * V) :=
  take (Z.to_nat cap) ((key, val) :: without key a).

(** ** Invariant and abstraction *)
Definition binding (e : lruEntry) : K * V := (e_key e, e_val e).
Definition abs_order (l : List lruEntry) : list (K * V) :=
  omap (λ el, binding <$> l_heap l !! el) (l_order l).
Definition abs (l : lru) : list (K * V) := abs_order (order l).

(** The part of the invariant that also holds while [put] is evicting. *)
Record linked (l : lru) : Prop := {
  li_nodup : NoDup (l_order (order l));
  li_items k el : items l !! k = Some el →
    el ∈ l_order (order l) ∧ ∃ v, l_heap (order l) !! el = Some {| e_key := k; e_val := v |};
  li_order el : el ∈ l_order (order l) →
    ∃ e, l_heap (order l) !! el = Some e ∧ items l !! e_key e = Some el;
  li_fresh el e : l_heap (order l) !! el = Some e → (el < l_next (order l))%nat }.

Definition lru_inv (l : lru) : Prop := linked l ∧ (lru_len l ≤ capacity l)%Z.
End lru.
Arguments lru K V {_ _}.
Arguments lruEntry : clear implicits.

(** * Lemmas *)
Section facts.
Context {K V : Type} `{Countable K}.
Implicit Types (l : lru K V) (a : list (K * V)).

Lemma elem_of_others el i ids : i ∈ others el ids ↔ i ≠ el ∧ i ∈ ids.
Proof. unfold others. by rewrite list_elem_of_filter. Qed.

Lemma others_notin el ids : el ∉ ids → others el ids = ids.
Proof.
  unfold others. induction ids as [|i ids IH]; intros Hn; [done|].
  rewrite filter_cons_True by set_solver. rewrite IH by set_solver. done.
Qed.

Lemma others_snoc el ids : NoDup (ids ++ [el]) → others el (ids ++ [el]) = ids.
Proof.
  rewrite NoDup_app. intros (_ & Hn & _). unfold others. rewrite filter_app.
  rewrite filter_cons_False by (by intros []). cbn. rewrite (right_id_L [] (++)).
  apply others_notin. set_solver.
Qed.

Lemma others_Permutation el ids : NoDup ids → el ∈ ids → el :: others el ids ≡ₚ ids.
Proof.
  intros Hnd Hel. apply NoDup_Permutation; [|done|].
  - constructor; [by intros [? _]%elem_of_others|by apply NoDup_filter].
  - intros i. rewrite elem_of_cons, elem_of_others. destruct (decide (i = el)); naive_solver.
Qed.
Lemma length_others el ids : NoDup ids → el ∈ ids → S (length (others el ids)) = length ids.
Proof.
  intros Hnd Hel. apply (Permutation_length (others_Permutation el ids Hnd Hel)).
Qed.

Section linked.
Context l (Hl : linked l).

Lemma linked_iff el k e :
  el ∈ l_order (order l) → l_heap (order l) !! el = Some e →
  (items l !! k = Some el ↔ e_key e = k).
Proof.
  intros Hel He. destruct (li_order l Hl el Hel) as (e' & He' & Hit). simplify_eq.
  split.
  - intros Hk. destruct (li_items l Hl k el Hk) as (_ & v & Hv). by simplify_eq.
  - by intros <-.
Qed.

Lemma abs_order_without k el ids :
  items l !! k = Some el → ids ⊆ l_order (order l) →
  omap (λ i, binding <$> l_heap (order l) !! i) (others el ids) =
  without k (omap (λ i, binding <$> l_heap (order l) !! i) ids).
Proof.
  intros Hk. induction ids as [|i ids IH]; intros Hs; [done|].
  assert (Hi : i ∈ l_order (order l)) by set_solver.
  destruct (li_order l Hl i Hi) as (e & He & _).
  pose proof (linked_iff i k e Hi He) as Hiff. unfold others, without in *.
  cbn [omap list_omap]. rewrite He. cbn [fmap option_fmap option_map].
  destruct (decide (i = el)) as [->|Hne].
  - rewrite filter_cons_False by (by intros []).
    rewrite filter_cons_False by (cbn; apply Hiff in Hk; by intros []).
    apply IH. set_solver.
  - rewrite filter_cons_True by done. cbn [omap list_omap]. rewrite He.
    cbn [fmap option_fmap option_map].
    rewrite filter_cons_True by (cbn; intros E; apply Hiff in E; congruence).
    f_equal. apply IH. set_solver.
Qed.

Lemma abs_order_assoc k el v ids :
  items l !! k = Some el → l_heap (order l) !! el = Some {| e_key := k; e_val := v |} →
  ids ⊆ l_order (order l) → el ∈ ids →
  assoc k (omap (λ i, binding <$> l_heap (order l) !! i) ids) = Some v.
Proof.
  intros Hk Hv. induction ids as [|i ids IH]; [set_solver|]. intros Hs Hel.
  assert (Hi : i ∈ l_order (order l)) by set_solver.
  destruct (li_order l Hl i Hi) as (e & He & _).
  pose proof (linked_iff i k e Hi He) as Hiff.
  cbn [omap list_omap]. rewrite He. cbn [fmap option_fmap option_map assoc binding].
  destruct (decide (i = el)) as [->|Hne].
  - simplify_eq. cbn. by rewrite bool_decide_true.
  - cbn. rewrite bool_decide_false by (intros E; apply Hiff in E; congruence).
    apply IH; set_solver.
Qed.

Lemma abs_order_None k ids :
  items l !! k = None → ids ⊆ l_order (order l) →
  assoc k (omap (λ i, binding <$> l_heap (order l) !! i) ids) = None.
Proof.
  intros Hk. induction ids as [|i ids IH]; intros Hs; [done|].
  assert (Hi : i ∈ l_order (order l)) by set_solver.
  destruct (li_order l Hl i Hi) as (e & He & Hit).
  cbn [omap list_omap]. rewrite He. cbn [fmap option_fmap option_map assoc].
  cbn. rewrite bool_decide_false by congruence. apply IH. set_solver.
Qed.

Lemma abs_order_length ids :
  ids ⊆ l_order (order l) →
  length (omap (λ i, binding <$> l_heap (order l) !! i) ids) = length ids.
Proof.
  induction ids as [|i ids IH]; intros Hs; [done|].
  destruct (li_order l Hl i) as (e & He & _); [set_solver|].
  cbn [omap list_omap]. rewrite He. cbn. by rewrite IH by set_solver.
Qed.

Lemma abs_length : length (abs l) = length (l_order (order l)).
Proof. by apply abs_order_length. Qed.

Lemma abs_assoc k el v :
  items l !! k = Some el → l_heap (order l) !! el = Some {| e_key := k; e_val := v |} →
  assoc k (abs l) = Some v.
Proof.
  intros Hk Hv. destruct (li_items l Hl k el Hk) as (Hel & _ & _).
  by apply (abs_order_assoc k el v).
Qed.

Lemma abs_assoc_None k : items l !! k = None → assoc k (abs l) = None.
Proof. intros Hk. by apply abs_order_None. Qed.

(** Dropping an element and its key keeps the structure linked. *)
Lemma linked_unlink el e :
  el ∈ l_order (order l) → l_heap (order l) !! el = Some e →
  let l' := {| capacity := capacity l; items := delete (e_key e) (items l);
               order := list_Remove el (order l) |} in
  linked l' ∧ abs l' = without (e_key e) (abs l).
Proof.
  intros Hel He. destruct (li_order l Hl el Hel) as (e' & He' & Hit). simplify_eq.
  cbv zeta. split.
  - split; cbn.
    + apply NoDup_filter, Hl.
    + intros k i. rewrite lookup_delete_Some. intros [Hne Hi].
      destruct (li_items l Hl k i Hi) as (Hio & v & Hv).
      assert (i ≠ el) by (intros ->; simplify_eq; done).
      rewrite elem_of_others, lookup_delete_ne by done. naive_solver.
    + intros i [Hne Hi]%elem_of_others.
      destruct (li_order l Hl i Hi) as (e2 & He2 & Hi2). exists e2.
      rewrite lookup_delete_ne by done. split; [done|].
      rewrite lookup_delete_ne; [done|]. intros E. apply Hne.
      rewrite E in Hit. congruence.
    + intros i e2 [_ Hi]%lookup_delete_Some. by apply (li_fresh l Hl i e2).
  - unfold abs, abs_order. cbn [order l_order l_heap list_Remove].
    rewrite <-(abs_order_without (e_key e) el) by done.
    apply list_omap_ext, Forall_Forall2_diag, Forall_forall.
    intros i [Hne _]%elem_of_others. by rewrite lookup_delete_ne.
Qed.
End linked.

Lemma without_id k a : assoc k a = None → without k a = a.
Proof.
  unfold without. induction a as [|[k' v] a IH]; [done|]. cbn [assoc].
  case_bool_decide; [done|]. intros Ha. rewrite filter_cons_True by done. by rewrite IH.
Qed.

Lemma assoc_elem k v a : assoc k a = Some v → (k, v) ∈ a.
Proof.
  induction a as [|[k' v'] a IH]; [done|]. cbn [assoc].
  case_bool_decide as E; [intros [= <-]; subst; by left|]. intros Ha. right. by apply IH.
Qed.

(** Moving an element to the front, with a new value for its key. *)
Lemma linked_front l k el v v' : linked l →
  items l !! k = Some el → l_heap (order l) !! el = Some {| e_key := k; e_val := v |} →
  let l' := {| capacity := capacity l; items := items l;
               order := MoveToFront el (SetValue el {| e_key := k; e_val := v' |} (order l)) |} in
  linked l' ∧ abs l' = (k, v') :: without k (abs l).
Proof.
  intros Hl Hk Hv l'. destruct (li_items l Hl k el Hk) as (Hel & _ & _). split.
  - split; cbn.
    + constructor; [by intros [? _]%elem_of_others|apply NoDup_filter, Hl].
    + intros k' i Hi. destruct (li_items l Hl k' i Hi) as (Hio & w & Hw).
      destruct (decide (i = el)) as [->|Hne].
      * simplify_eq. split; [left|]. exists v'. by rewrite lookup_insert_eq.
      * split; [right; by apply elem_of_others|]. exists w. by rewrite lookup_insert_ne.
    + intros i Hi. destruct (decide (i = el)) as [->|Hne].
      * exists {| e_key := k; e_val := v' |}. by rewrite lookup_insert_eq.
      * apply elem_of_cons in Hi as [->|[_ Hi]%elem_of_others]; [done|].
        rewrite lookup_insert_ne by done. by apply (li_order l Hl).
    + intros i e [[<- _]|[_ Hi]]%lookup_insert_Some; by eapply (li_fresh l Hl).
  - unfold abs, abs_order. cbn. rewrite lookup_insert_eq. cbn. f_equal.
    rewrite <-(abs_order_without l Hl k el) by done.
    apply list_omap_ext, Forall_Forall2_diag, Forall_forall.
    intros i [Hne _]%elem_of_others. by rewrite lookup_insert_ne.
Qed.

Lemma SetValue_same el e (o : List (lruEntry K V)) :
  l_heap o !! el = Some e → SetValue el e o = o.
Proof. intros He. destruct o as [ids h n]. unfold SetValue. cbn in *. by rewrite insert_id. Qed.

Lemma get_spec k l : linked l →
  ∃ l', get k l = Some (assoc k (abs l), l') ∧ linked l' ∧ abs l' = touch k (abs l) ∧
        capacity l' = capacity l ∧ lru_len l' = lru_len l.
Proof.
  intros Hl. unfold get, touch. destruct (items l !! k) as [el|] eqn:Hk.
  - destruct (li_items l Hl k el Hk) as (Hel & v & Hv). unfold Value. rewrite Hv. cbn.
    rewrite (abs_assoc l Hl k el v) by done.
    pose proof (linked_front l k el v v Hl Hk Hv) as [Hl' Ha'].
    rewrite (SetValue_same el) in Hl', Ha' by done. eexists.
    split_and!; [done|done|exact Ha'|done|].
    assert (Hlen : length ((k, v) :: without k (abs l)) = length (abs l)); [|].
    { rewrite <-Ha', !abs_length by done. cbn. apply length_others; [apply Hl|done]. }
    unfold lru_len, Len. rewrite <-!abs_length by done. by rewrite Ha', Hlen.
  - rewrite (abs_assoc_None l Hl k Hk). by exists l.
Qed.

Lemma evict_spec fuel l : linked l → (0 ≤ capacity l)%Z →
  (length (l_order (order l)) ≤ fuel)%nat →
  ∃ l', evict fuel l = Some l' ∧ linked l' ∧ capacity l' = capacity l ∧
    abs l' = take (Z.to_nat (capacity l)) (abs l) ∧ (lru_len l' ≤ capacity l)%Z.
Proof.
  revert l. induction fuel as [|fuel IH]; intros l Hl Hc Hf; cbn [evict]; unfold Len;
    destruct (capacity l <? _)%Z eqn:E; bool_hyps; [lia|exists l|..|exists l];
    unfold lru_len, Len; rewrite <-(abs_length l Hl) in *;
    try (split_and!; [done..|rewrite take_ge; [done|lia]|lia]).
  unfold Back. destruct (l_order (order l)) as [|i0 ids0 _] eqn:Eo using rev_ind.
  { apply (f_equal length) in Eo. rewrite <-(abs_length l Hl) in Eo. cbn in Eo. lia. }
  rewrite last_snoc. cbn [mbind option_bind].
  assert (Hel : i0 ∈ l_order (order l)) by (rewrite Eo; set_solver).
  destruct (li_order l Hl i0 Hel) as (e & He & Hit). unfold Value. rewrite He.
  cbn [mbind option_bind].
  destruct (linked_unlink l Hl i0 e Hel He) as [Hl' Ha'].
  pose proof (li_nodup l Hl) as Hnd. rewrite Eo in Hnd.
  assert (Hids : length ids0 = (length (abs l) - 1)%nat)
    by (rewrite (abs_length l Hl), Eo, length_app; cbn; lia).
  destruct (IH _ Hl' Hc) as (l' & -> & ? & ? & Habs & ?).
  { cbn [order l_order list_Remove]. rewrite Eo, others_snoc by done. lia. }
  exists l'. split_and!; try done. rewrite Habs, Ha'. cbn [capacity].
  unfold abs, abs_order in *. rewrite <-(abs_order_without l Hl (e_key e) i0) by done.
  rewrite Eo, others_snoc by done. rewrite omap_app, take_app_le; [done|].
  rewrite abs_order_length by (try done; rewrite Eo; set_solver). lia.
Qed.

Lemma linked_push l k v : linked l → items l !! k = None →
  let '(el, o) := PushFront {| e_key := k; e_val := v |} (order l) in
  let l' := {| capacity := capacity l; items := <[ k := el ]> (items l); order := o |} in
  linked l' ∧ abs l' = (k, v) :: abs l.
Proof.
  intros Hl Hk. cbn.
  assert (Hfresh : ∀ i, i ∈ l_order (order l) → i ≠ l_next (order l)).
  { intros i Hi ->. destruct (li_order l Hl _ Hi) as (e & He & _).
    apply (li_fresh l Hl) in He. lia. }
  split.
  - split; cbn.
    + constructor; [intros Hi; by apply (Hfresh _ Hi)|apply Hl].
    + intros k' i [[<- <-]|[Hne Hi]]%lookup_insert_Some.
      * split; [left|]. exists v. by rewrite lookup_insert_eq.
      * destruct (li_items l Hl k' i Hi) as (Hio & w & Hw). split; [by right|].
        exists w. rewrite lookup_insert_ne; [done|]. symmetry. by apply Hfresh.
    + intros i [->|Hi]%elem_of_cons.
      * exists {| e_key := k; e_val := v |}. by rewrite !lookup_insert_eq.
      * destruct (li_order l Hl i Hi) as (e & He & Hit). exists e.
        rewrite !lookup_insert_ne; [done|congruence|]. symmetry. by apply Hfresh.
    + intros i e [[<- _]|[_ Hi]]%lookup_insert_Some; [lia|].
      apply (li_fresh l Hl) in Hi. lia.
  - unfold abs, abs_order. cbn. rewrite lookup_insert_eq. cbn. f_equal.
    apply list_omap_ext, Forall_Forall2_diag, Forall_forall.
    intros i Hi. rewrite lookup_insert_ne; [done|]. symmetry. by apply Hfresh.
Qed.

Lemma without_length k v a :
  NoDup a.*1 → assoc k a = Some v → S (length (without k a)) = length a.
Proof.
  unfold without. induction a as [|[k' v'] a IH]; [done|]. cbn [assoc].
  intros [Hn Hnd]%NoDup_cons. case_bool_decide as E.
  - intros _. subst k'. rewrite filter_cons_False by (by intros []). cbn. f_equal.
    f_equal. fold (without k a). apply without_id.
    destruct (assoc k a) as [w|] eqn:Ha; [|done]. destruct Hn.
    apply list_elem_of_fmap. exists (k, w). split; [done|]. by apply assoc_elem.
  - intros Ha. rewrite filter_cons_True by done. cbn. f_equal. by apply IH.
Qed.

Lemma put_spec k v l : linked l → (0 ≤ capacity l)%Z → (lru_len l ≤ capacity l)%Z →
  ∃ l', put k v l = Some l' ∧ linked l' ∧ abs l' = abs_put (capacity l) k v (abs l) ∧
        capacity l' = capacity l ∧ (lru_len l' ≤ capacity l)%Z.
Proof.
  intros Hl Hc Hlen. unfold put, abs_put.
  destruct (items l !! k) as [el|] eqn:Hk.
  - destruct (li_items l Hl k el Hk) as (Hel & w & Hw). unfold Value. rewrite Hw.
    cbn [mbind option_bind e_key].
    destruct (linked_front l k el w v Hl Hk Hw) as [Hl' Ha'].
    eexists. split; [done|].
    assert (Hlen' : length (l_order (MoveToFront el (order l))) = length (l_order (order l)))
      by (cbn; apply length_others; [apply Hl|done]).
    unfold lru_len, Len in *. split_and!; [done| |done|].
    + rewrite Ha', take_ge; [done|]. rewrite <-Ha', abs_length by done.
      cbn [order l_order SetValue MoveToFront] in *. lia.
    + cbn [order l_order SetValue MoveToFront] in *. lia.
  - pose proof (linked_push l k v Hl Hk) as Hp. cbn zeta in Hp.
    destruct (PushFront _ _) as [el o]. destruct Hp as [Hl' Ha'].
    destruct (evict_spec (S (length (l_order o))) _ Hl' Hc) as (l' & -> & ? & ? & Habs & ?);
      [cbn; lia|].
    exists l'. rewrite (without_id k (abs l)) by (by apply abs_assoc_None).
    split_and!; try done. by rewrite Habs, Ha'.
Qed.

Lemma remove_spec k l : linked l →
  linked (remove k l) ∧ abs (remove k l) = without k (abs l) ∧
  capacity (remove k l) = capacity l ∧ (lru_len (remove k l) ≤ lru_len l)%Z.
Proof.
  intros Hl. unfold remove. destruct (items l !! k) as [el|] eqn:Hk.
  - destruct (li_items l Hl k el Hk) as (Hel & v & Hv).
    destruct (linked_unlink l Hl el _ Hel Hv) as [Hl' Ha']. cbn [e_key] in *.
    split_and!; [done..|]. unfold lru_len, Len. cbn.
    pose proof (length_others el (l_order (order l)) (li_nodup l Hl) Hel). lia.
  - split_and!; [done| |done|done]. by rewrite without_id by (by apply abs_assoc_None).
Qed.

Lemma newLRU_linked c : linked (newLRU (K := K) (V := V) c).
Proof.
  split; cbn; [constructor| |..].
  - intros k el. by rewrite lookup_empty.
  - intros el. by intros ?%not_elem_of_nil.
  - intros el e. by rewrite lookup_empty.
Qed.

Lemma abs_keys_NoDup l : linked l → NoDup (abs l).*1.
Proof.
  intros Hl. unfold abs, abs_order. pose proof (li_nodup l Hl) as Hnd.
  assert (Hsub : l_order (order l) ⊆ l_order (order l)) by done. revert Hnd Hsub.
  generalize (l_order (order l)) at 1 2 4. intros ids.
  induction ids as [|i ids IH]; cbn; intros Hnd Hs; [constructor|].
  apply NoDup_cons in Hnd as [Hn Hnd].
  destruct (li_order l Hl i) as (e & He & Hit); [set_solver|]. rewrite He. cbn.
  constructor; [|apply IH; [done|set_solver]].
  intros ([k v] & E & Hin)%list_elem_of_fmap. apply list_elem_of_omap in Hin as (j & Hj & Hb).
  destruct (li_order l Hl j) as (e' & He' & Hit'); [set_solver|].
  rewrite He' in Hb. cbn in Hb. injection Hb as <- <-. cbn in E.
  rewrite E in Hit. simplify_eq. done.
Qed.
(** Operations bring in no other bindings. *)
Lemma elem_of_touch k (a : list (K * V)) kc : kc ∈ touch k a → kc ∈ a.
Proof.
  unfold touch. destruct (assoc k a) eqn:E; [|done].
  intros [->|[_ Hin]%list_elem_of_filter]%elem_of_cons; [by apply assoc_elem|done].
Qed.
Lemma elem_of_without k (a : list (K * V)) kc : kc ∈ without k a → kc ∈ a.
Proof. by intros [_ Hin]%list_elem_of_filter. Qed.
Lemma elem_of_abs_put cap k c (a : list (K * V)) kc :
  kc ∈ abs_put cap k c a → kc = (k, c) ∨ kc ∈ a.
Proof.
  unfold abs_put. intros Hin. apply (subseteq_take (Z.to_nat cap)) in Hin.
  apply elem_of_cons in Hin as [->|Hin%elem_of_without]; auto.
Qed.
End facts.

(** * Theorems *)
Section traces.
Context {K V : Type} `{Countable K}.

Inductive op := OGet (k : K) | OPut (k : K) (v : V) | ORemove (k : K).

(** A sequence of operations on the cache: the outcomes of the gets and the cache. *)
Fixpoint lru_run (ops : list op) (l : lru K V) : option (list (option V) * lru K V) :=
  match ops with
  | [] => Some ([], l)
  | OGet k :: ops =>
      '(o, l) ← get k l; '(os, l) ← lru_run ops l; Some (o :: os, l)
  | OPut k v :: ops => l ← put k v l; lru_run ops l
  | ORemove k :: ops => lru_run ops (remove k l)
  end.
Fixpoint abs_run (cap : Z) (ops : list op) (a : list (K * V))
    : list (option V) * list (K * V) :=
  match ops with
  | [] => ([], a)
  | OGet k :: ops =>
      let '(os, a') := abs_run cap ops (touch k a) in (assoc k a :: os, a')
  | OPut k v :: ops => abs_run cap ops (abs_put cap k v a)
  | ORemove k :: ops => abs_run cap ops (without k a)
  end.

Lemma lru_run_spec cap ops (l : lru K V) :
  (0 ≤ cap)%Z → linked l → capacity l = cap → (lru_len l ≤ cap)%Z →
  ∃ l', lru_run ops l = Some ((abs_run cap ops (abs l)).1, l') ∧
    abs l' = (abs_run cap ops (abs l)).2 ∧
    linked l' ∧ (lru_len l' ≤ cap)%Z.
Proof.
  intros Hc. revert l. induction ops as [|[k|k v|k] ops IH]; intros l Hl Hcap Hlen;
    cbn [lru_run abs_run].
  - by exists l.
  - destruct (get_spec k l Hl) as (l1 & -> & Hl1 & Ha1 & Hc1 & Hn1).
    cbn [mbind option_bind].
    destruct (IH l1 Hl1) as (l' & -> & Ha' & ? & ?); [congruence|lia|].
    rewrite Ha1 in *. destruct (abs_run cap ops (touch k (abs l))) as [os a'].
    exists l'. by split_and!.
  - destruct (put_spec k v l Hl) as (l1 & -> & Hl1 & Ha1 & Hc1 & Hn1); [lia..|].
    cbn [mbind option_bind]. rewrite <-Hcap, <-Ha1. rewrite Hcap in Hc1, Hn1.
    rewrite Hcap. by apply IH.
  - destruct (remove_spec k l Hl) as (Hl1 & Ha1 & Hc1 & Hn1). rewrite <-Ha1.
    apply IH; [done|congruence|lia].
Qed.

(** C8: the map-and-linked-list cache implements a list of bindings, most recently used
    first: any sequence of gets, puts and removals on a new cache of capacity [cap >= 0]
    runs without a nil dereference, every get answers as on the abstract list, the list
    and the map stay consistent (distinct keys, no dangling element), and the size never
    exceeds the capacity; with a negative capacity the first put panics. *)
Theorem lru_refines (cap : Z) (ops : list op) :
  ((0 ≤ cap)%Z →
   ∃ l', lru_run ops (newLRU cap) = Some ((abs_run cap ops []).1, l') ∧
     abs l' = (abs_run cap ops []).2 ∧ NoDup (abs l').*1 ∧ linked l' ∧
     (lru_len l' ≤ cap)%Z) ∧
  ((cap < 0)%Z → ∀ (k : K) (v : V), put k v (newLRU cap) = None).
Proof.
  split.
  - intros Hc. destruct (lru_run_spec cap ops (newLRU cap)) as (l' & ? & ? & ? & ?);
      [done|apply newLRU_linked|done|done|].
    exists l'. split_and!; try done. by apply abs_keys_NoDup.
  - intros Hc k v. unfold put, newLRU. cbn [items]. rewrite lookup_empty.
    cbn [PushFront order list_New l_order length evict capacity Len].
    unfold Len. cbn [order l_order length capacity].
    rewrite (proj2 (Z.ltb_lt cap _)) by lia. cbn.
    by rewrite (proj2 (Z.ltb_lt cap _)) by lia.
Qed.

(** ** Retention *)
Definition op_key (o : op) : K :=
  match o with OGet k => k | OPut k _ => k | ORemove k => k end.

(** [k] is bound to [v] behind at most the keys of [s]. *)
Definition behind (k : K) (v : V) (s : gset K) (a : list (K * V)) : Prop :=
  ∃ pre post, a = pre ++ ((k, v) :: post) ∧ ¬ (k ∈ pre.*1) ∧ NoDup (pre.*1) ∧
              ∀ x, x ∈ pre.*1 → x ∈ s.

Lemma behind_assoc k v s a : behind k v s a → assoc k a = Some v.
Proof.
  intros (pre & post & -> & Hn & _). induction pre as [|[k' v'] pre IH]; cbn.
  - by rewrite bool_decide_true.
  - rewrite bool_decide_false by set_solver. apply IH. set_solver.
Qed.

Lemma without_keys k (a : list (K * V)) x : x ∈ (without k a).*1 ↔ x ≠ k ∧ x ∈ a.*1.
Proof.
  rewrite !list_elem_of_fmap. unfold without. setoid_rewrite list_elem_of_filter.
  naive_solver.
Qed.
Lemma without_NoDup k (a : list (K * V)) : NoDup a.*1 → NoDup (without k a).*1.
Proof. intros Hnd. eapply sublist_NoDup; [exact Hnd|apply fmap_sublist, sublist_filter]. Qed.

Lemma without_split k k' v (pre post : list (K * V)) : k ≠ k' →
  without k' (pre ++ ((k, v) :: post)) = without k' pre ++ ((k, v) :: without k' post).
Proof. intros Hne. unfold without. by rewrite filter_app, filter_cons_True. Qed.

Lemma behind_without k v s a k' : k ≠ k' → behind k v s a → behind k v s (without k' a).
Proof.
  intros Hne (pre & post & -> & Hn & Hnd & Hs). rewrite without_split by done.
  exists (without k' pre), (without k' post). split_and!; [done| |by apply without_NoDup|].
  - by intros [_ ?]%without_keys.
  - intros x [_ Hx]%without_keys. by apply Hs.
Qed.

(** Bringing another key to the front. *)
Lemma behind_front k v s a k' v' : k ≠ k' → k' ∈ s → behind k v s a →
  behind k v s ((k', v') :: without k' a).
Proof.
  intros Hne Hin Hb. destruct (behind_without k v s a k' Hne Hb) as (pre & post & E & Hn & Hnd & Hs).
  destruct Hb as (pre0 & post0 & -> & Hn0 & Hnd0 & Hs0).
  rewrite without_split in * by done.
  exists ((k', v') :: without k' pre0), (without k' post0).
  split_and!; [done| | |].
  - cbn. intros [->|[_ ?]%without_keys]%elem_of_cons; done.
  - cbn. constructor; [by intros [? _]%without_keys|by apply without_NoDup].
  - cbn. intros x [->|[_ Hx]%without_keys]%elem_of_cons; [done|by apply Hs0].
Qed.

Lemma behind_take k v s a n : (size s < n)%nat → behind k v s a → behind k v s (take n a).
Proof.
  intros Hlt (pre & post & -> & Hn & Hnd & Hs).
  assert (Hpre : (length pre ≤ size s)%nat).
  { rewrite <-(length_fmap fst pre), <-(size_list_to_set (C := gset K) pre.*1) by done.
    apply subseteq_size. intros x Hx%elem_of_list_to_set. by apply Hs. }
  exists pre, (take (n - S (length pre)) post). split_and!; try done.
  rewrite take_app, take_ge by lia.
  replace (n - length pre)%nat with (S (n - S (length pre))) by lia. done.
Qed.

(** The most recently used entries are retained: after a key is put, it is found
    with its value as long as the operations since neither write nor remove it and
    touch fewer other keys than the capacity. *)
Theorem lru_retention (cap : Z) (k : K) (v : V) (a : list (K * V)) (ops : list op) :
  Forall (λ o, match o with OGet _ => True | _ => op_key o ≠ k end) ops →
  (Z.of_nat (size (list_to_set (op_key <$> ops) ∖ {[k]} : gset K)) < cap)%Z →
  assoc k (abs_run cap ops (abs_put cap k v a)).2 = Some v.
Proof.
  intros Hops Hcap. set (s := list_to_set (op_key <$> ops) ∖ {[k]} : gset K) in *.
  assert (Hlt : (size s < Z.to_nat cap)%nat) by lia.
  assert (Hs : ∀ o, o ∈ ops → op_key o ≠ k → op_key o ∈ s).
  { intros o Ho Hne. subst s. rewrite elem_of_difference, elem_of_list_to_set.
    split; [by apply list_elem_of_fmap_2|set_solver]. }
  clearbody s. apply behind_assoc with (s := s).
  assert (Hb : behind k v s (abs_put cap k v a)).
  { apply behind_take; [done|]. exists [], (without k a). split_and!; try set_solver.
    constructor. }
  revert Hb. generalize (abs_put cap k v a). clear Hcap a.
  induction ops as [|o ops IH]; [done|]. intros a Hb.
  apply Forall_cons in Hops as [Ho Hops].
  assert (IH' := IH Hops (λ o Hin, Hs o ltac:(by right))). clear IH.
  specialize (Hs o ltac:(by left)).
  destruct o as [k'|k' v'|k']; cbn [abs_run op_key] in *.
  - assert (Ht : behind k v s (touch k' a)).
    { unfold touch. destruct (assoc k' a) as [w|] eqn:Ea; [|done].
      destruct (decide (k' = k)) as [->|Hne]; [|apply behind_front; auto].
      rewrite (behind_assoc k v s a Hb) in Ea. injection Ea as <-.
      exists [], (without k a). split_and!; try set_solver. constructor. }
    specialize (IH' _ Ht). by destruct (abs_run cap ops (touch k' a)).
  - apply IH', behind_take; [done|]. apply behind_front; auto.
  - apply IH', behind_without; auto.
Qed.
End traces.
Arguments op : clear implicits.

(** ** Lists with related values *)
Section related.
Context {K V V' : Type} `{Countable K} (R : V → V' → Prop).

(** Two lists of the same shape whose entries have the same keys and related values. *)
Record lru_rel (l : lru K V) (l' : lru K V') : Prop := {
  lr_capacity : capacity l = capacity l';
  lr_items : items l = items l';
  lr_order : l_order (order l) = l_order (order l');
  lr_next : l_next (order l) = l_next (order l');
  lr_heap el : option_Forall2 (λ e e', e_key e = e_key e' ∧ R (e_val e) (e_val e'))
                 (l_heap (order l) !! el) (l_heap (order l') !! el) }.

Lemma newLRU_rel c : lru_rel (newLRU c) (newLRU c).
Proof. split; try done. intros el. cbn. rewrite !lookup_empty. constructor. Qed.

Lemma get_rel key l l' : lru_rel l l' →
  match get key l, get key l' with
  | Some (v, l1), Some (v', l1') => option_Forall2 R v v' ∧ lru_rel l1 l1'
  | None, None => True
  | _, _ => False
  end.
Proof.
  intros [Hc Hi Ho Hn Hh]. unfold get, Value. rewrite Hi. destruct (items l' !! key) as [el|]; [|by repeat constructor].
  destruct (Hh el) as [e e' [Hk Hv]|]; cbn; [|done]. split; [by constructor|].
  split; cbn; [done|done|by rewrite ?Ho|done|done].
Qed.
Lemma remove_rel key l l' : lru_rel l l' → lru_rel (remove key l) (remove key l').
Proof.
  intros [Hc Hi Ho Hn Hh]. unfold remove. rewrite Hi. destruct (items l' !! key) as [el|]; [|done].
  split; cbn; [done|by rewrite ?Hi|by rewrite ?Ho|done|]. intros el'.
  destruct (decide (el' = el)) as [->|]; [by rewrite !lookup_delete_eq; constructor|by rewrite !lookup_delete_ne].
Qed.
Lemma evict_rel n : ∀ l l', lru_rel l l' → option_Forall2 lru_rel (evict n l) (evict n l').
Proof.
  induction n as [|n IH]; intros l l' Hl; pose proof Hl as [Hc Hi Ho Hn Hh]; cbn [evict]; unfold Len, Back, Value;
    rewrite Hc, Ho; (destruct (_ <? _)%Z; [|by constructor]); [constructor|].
  destruct (last (l_order (order l'))) as [el|]; cbn; [|constructor].
  destruct (Hh el) as [e e' [Hk _]|]; cbn; [|constructor]. apply IH.
  split; cbn; [done|by rewrite ?Hi, ?Hk|by rewrite ?Ho|done|]. intros el'.
  destruct (decide (el' = el)) as [->|]; [by rewrite !lookup_delete_eq; constructor|by rewrite !lookup_delete_ne].
Qed.
Lemma put_rel key v v' l l' : lru_rel l l' → R v v' → option_Forall2 lru_rel (put key v l) (put key v' l').
Proof.
  intros Hl Hv. pose proof Hl as [Hc Hi Ho Hn Hh]. unfold put, Value. rewrite Hi.
  assert (Hins : ∀ el (e : lruEntry K V) (e' : lruEntry K V'), e_key e = e_key e' → R (e_val e) (e_val e') →
    ∀ el', option_Forall2 (λ e e', e_key e = e_key e' ∧ R (e_val e) (e_val e'))
      (<[ el := e ]> (l_heap (order l)) !! el') (<[ el := e' ]> (l_heap (order l')) !! el')).
  { intros el e e' Hk Hr el'. destruct (decide (el' = el)) as [->|].
    - rewrite !lookup_insert_eq. by repeat constructor.
    - by rewrite !lookup_insert_ne. }
  destruct (items l' !! key) as [el|].
  - destruct (Hh el) as [e e' [Hk _]|]; cbn; constructor.
    split; cbn; [done|done|by rewrite ?Ho|done|by apply Hins].
  - unfold PushFront. cbn [l_order length]. rewrite Ho. apply evict_rel.
    split; cbn; [done|by rewrite ?Hi, ?Hn|by rewrite ?Ho, ?Hn|by rewrite ?Hn|]. rewrite ?Hn. by apply Hins.
Qed.
End related.

(** ** Witnesses *)
Lemma lru_refines_witness :
  (0 ≤ 2)%Z ∧
  ∃ l', lru_run [OPut 1 "a"; OPut 2 "b"; OGet 1; OPut 3 "c"; OGet 2; OGet 1] (newLRU 2) =
    Some ([Some "a"; None; Some "a"], l').
Proof.
  split; [lia|].
  destruct (proj1 (lru_refines 2 [OPut 1 "a"; OPut 2 "b"; OGet 1; OPut 3 "c"; OGet 2; OGet 1])
              ltac:(lia)) as (l' & Hrun & _).
  exists l'. exact Hrun.
Defined.

Lemma lru_retention_witness :
  (Z.of_nat (size (list_to_set (op_key <$> [OGet 7; OPut 8 "x"; OGet 7; OPut 8 "y"]) ∖ {[5]}
                   : gset Z)) < 3)%Z ∧
  assoc 5 (abs_run 3 [OGet 7; OPut 8 "x"; OGet 7; OPut 8 "y"]
             (abs_put 3 5 "five" [(1, "a"); (7, "b"); (2, "c")])).2 = Some "five".
Proof.
  assert (Hlt : (Z.of_nat (size (list_to_set (op_key <$> [OGet 7; OPut 8 "x"; OGet 7; OPut 8 "y"])
                   ∖ {[5]} : gset Z)) < 3)%Z) by (vm_compute; reflexivity).
  split; [exact Hlt|].
  apply lru_retention; [|exact Hlt].
  repeat constructor; cbn; lia.
Defined.
