(* ===== verification/Cache.v ===== *)
(** * The record cache of pkg/rdap/cache/cache.go.

    A lookup is sequential here: [singleflight.do] calls its function (the
    interleaving of concurrent calls is the step relation of Singleflight.v), and
    the goroutine of stale-while-revalidate is a pending task that runs later
    ([run_pending]).  The clock is read from the world, [now]. *)
From S2P Require Import Prelude GoStrings NetIP DataSource LRU.

Record Config := { Size : Z; TTL : Duration; NegTTL : Duration; StaleTTL : Duration }.

(** [cached[V]] *)
Record cached (V : Type) := { ca_val : option V; ca_err : option error; ca_expires : Time }.
Arguments Build_cached {V} _ _ _.
Arguments ca_val {V} _.
Arguments ca_err {V} _.
Arguments ca_expires {V} _.
Definition ca_res {V} (c : cached V) : res V := (ca_val c, ca_err c).

Definition bucket (V : Type) : Type := lru string (cached V).

Definition ttlFor (cfg : Config) (err : option error) : Duration :=
  match err with Some _ => NegTTL cfg | None => TTL cfg end.

Section load.
Context {W V : Type} (now : W → Time) (cfg : Config).
Context (fetch : W → res V * W).

(** The tail of [getOrLoad], which is also the body of [refreshAsync]. *)
Definition load (key : string) (b : bucket V) (w : W) : option (res V * bucket V * W) :=
  let '((v, err), w) := fetch w in
  b ← put key (Build_cached v err (now w + ttlFor cfg err)%Z) b;
  Some ((v, err), b, w).

(** The boolean tells whether a refresh of the key was started. *)
Definition getOrLoad (key : string) (b : bucket V) (w : W)
    : option (res V * bool * bucket V * W) :=
  let t := now w in
  let miss b := '(r, b, w) ← load key b w; Some (r, false, b, w) in
  '(raw, b) ← get key b;
  match raw with
  | Some c =>
      if Before t (ca_expires c) then Some (ca_res c, false, b, w)
      else if (0 <? StaleTTL cfg)%Z && Before t (ca_expires c + StaleTTL cfg)%Z then
        Some (ca_res c, true, b, w)
      else miss (remove key b)
  | None => miss b
  end.

Definition refreshAsync (key : string) (b : bucket V) (w : W) : option (bucket V * W) :=
  '(r, b, w) ← load key b w; Some (b, w).
End load.

(** ** The caching [DataSource] *)
Inductive task : Type :=
  | TDomain (name : string) | TEntity (handle : string) | TNameserver (name : string)
  | TNetwork (ip : Addr).

Record Cache (W : Type) := {
  ch_cfg : Config;
  ch_domains : bucket Domain;
  ch_entities : bucket Contact;
  ch_nameserver : bucket Nameserver;
  ch_networks : bucket IPNetwork;
  ch_pending : list task;
  ch_inner : W }.
Arguments Build_Cache {W} _ _ _ _ _ _ _.
Arguments ch_cfg {W} _.
Arguments ch_domains {W} _.
Arguments ch_entities {W} _.
Arguments ch_nameserver {W} _.
Arguments ch_networks {W} _.
Arguments ch_pending {W} _.
Arguments ch_inner {W} _.

(** [New]; [None] is its panic on an unusable configuration. *)
Definition New {W} (inner : W) (cfg : Config) : option (Cache W) :=
  if (Size cfg <=? 0)%Z || (TTL cfg <=? 0)%Z then None else
  let cfg := if (NegTTL cfg <=? 0)%Z
             then {| Size := Size cfg; TTL := TTL cfg; NegTTL := Z.quot (TTL cfg) 2;
                     StaleTTL := StaleTTL cfg |}
             else cfg in
  Some (Build_Cache cfg (newLRU (Size cfg)) (newLRU (Size cfg)) (newLRU (Size cfg))
          (newLRU (Size cfg)) [] inner).

Definition spawn (started : bool) (t : task) (l : list task) : list task :=
  if started then l ++ [t] else l.

Section cache.
Context {W : Type} (now : W → Time) (ds : DataSource W) `{NetIPText}.

Definition Cache_GetDomain (name : string) (c : Cache W) : option (res Domain * Cache W) :=
  let 'Build_Cache cfg d e n i p w := c in
  '(r, s, d, w) ← getOrLoad now cfg (GetDomain ds name) name d w;
  Some (r, Build_Cache cfg d e n i (spawn s (TDomain name) p) w).
Definition Cache_GetEntity (handle : string) (c : Cache W) : option (res Contact * Cache W) :=
  let 'Build_Cache cfg d e n i p w := c in
  '(r, s, e, w) ← getOrLoad now cfg (GetEntity ds handle) handle e w;
  Some (r, Build_Cache cfg d e n i (spawn s (TEntity handle) p) w).
Definition Cache_GetNameserver (name : string) (c : Cache W)
    : option (res Nameserver * Cache W) :=
  let 'Build_Cache cfg d e n i p w := c in
  '(r, s, n, w) ← getOrLoad now cfg (GetNameserver ds name) name n w;
  Some (r, Build_Cache cfg d e n i (spawn s (TNameserver name) p) w).
Definition Cache_GetIPNetwork (ip : Addr) (c : Cache W) : option (res IPNetwork * Cache W) :=
  let 'Build_Cache cfg d e n i p w := c in
  let key := addr_String ip in
  '(r, s, i, w) ← getOrLoad now cfg (GetIPNetwork ds ip) key i w;
  Some (r, Build_Cache cfg d e n i (spawn s (TNetwork ip) p) w).

(** A pending refresh runs. *)
Definition run_task (t : task) (c : Cache W) : option (Cache W) :=
  let 'Build_Cache cfg d e n i p w := c in
  match t with
  | TDomain k => '(d, w) ← refreshAsync now cfg (GetDomain ds k) k d w;
                 Some (Build_Cache cfg d e n i p w)
  | TEntity k => '(e, w) ← refreshAsync now cfg (GetEntity ds k) k e w;
                 Some (Build_Cache cfg d e n i p w)
  | TNameserver k => '(n, w) ← refreshAsync now cfg (GetNameserver ds k) k n w;
                     Some (Build_Cache cfg d e n i p w)
  | TNetwork ip => '(i, w) ← refreshAsync now cfg (GetIPNetwork ds ip) (addr_String ip) i w;
                   Some (Build_Cache cfg d e n i p w)
  end.
Definition run_pending (idx : nat) (c : Cache W) : option (Cache W) :=
  match ch_pending c !! idx with
  | None => Some c
  | Some t =>
      let 'Build_Cache cfg d e n i p w := c in
      run_task t (Build_Cache cfg d e n i (take idx p ++ drop (S idx) p) w)
  end.

(** The clients' view: a Go panic has no value, and [cache_no_panic] shows that none
    occurs in a cache made by [New]. *)
Definition or_panic {V} (c : Cache W) (o : option (res V * Cache W)) : res V * Cache W :=
  default (failed (ErrOther "panic"), c) o.
Definition cache_source : DataSource (Cache W) :=
  {| GetDomain := λ k c, or_panic c (Cache_GetDomain k c);
     GetEntity := λ k c, or_panic c (Cache_GetEntity k c);
     GetNameserver := λ k c, or_panic c (Cache_GetNameserver k c);
     GetIPNetwork := λ k c, or_panic c (Cache_GetIPNetwork k c) |}.

Record Stats := { st_Domains : Z; st_Entities : Z; st_Nameserver : Z; st_Networks : Z }.
Definition Cache_Stats (c : Cache W) : Stats :=
  {| st_Domains := lru_len (ch_domains c); st_Entities := lru_len (ch_entities c);
     st_Nameserver := lru_len (ch_nameserver c); st_Networks := lru_len (ch_networks c) |}.
End cache.

(** * Theorems *)

Definition bucket_ok {A} (cap : Z) (b : lru string A) : Prop :=
  linked b ∧ capacity b = cap ∧ (0 ≤ cap)%Z ∧ (lru_len b ≤ cap)%Z.

Lemma newLRU_ok {A} cap : (0 ≤ cap)%Z → bucket_ok (A := A) cap (newLRU cap).
Proof. intros Hc. split_and!; [apply newLRU_linked|done..]. Qed.

(** ** The abstract cache: bindings, most recently used first *)
Section spec.
Context {W V : Type} (now : W → Time) (cfg : Config).

Definition spec_load (fetch : W → res V * W) (cap : Z) (key : string)
    (a : list (string * cached V)) (w : W) : res V * list (string * cached V) * W :=
  let '(r, w) := fetch w in
  (r, abs_put cap key (Build_cached r.1 r.2 (now w + ttlFor cfg r.2)%Z) a, w).

Definition spec_getOrLoad (fetch : W → res V * W) (cap : Z) (key : string)
    (a : list (string * cached V)) (w : W) : res V * bool * list (string * cached V) * W :=
  let miss := let '(r, a, w) := spec_load fetch cap key a w in (r, false, a, w) in
  match assoc key a with
  | Some c =>
      if Before (now w) (ca_expires c) then (ca_res c, false, touch key a, w)
      else if (0 <? StaleTTL cfg)%Z && Before (now w) (ca_expires c + StaleTTL cfg)%Z then
        (ca_res c, true, touch key a, w)
      else miss
  | None => miss
  end.

Lemma load_refines fetch cap key (b : bucket V) w : bucket_ok cap b →
  ∃ b', load now cfg fetch key b w =
          Some ((spec_load fetch cap key (abs b) w).1.1, b', (spec_load fetch cap key (abs b) w).2) ∧
        abs b' = (spec_load fetch cap key (abs b) w).1.2 ∧ bucket_ok cap b'.
Proof.
  intros (Hl & Hcap & Hc & Hlen). unfold load, spec_load.
  destruct (fetch w) as [[v err] w']. cbn [fst snd].
  destruct (put_spec key (Build_cached v err (now w' + ttlFor cfg err)%Z) b Hl)
    as (b' & -> & ? & ? & ? & ?); [congruence..|].
  exists b'. rewrite Hcap in *. cbn. split_and!; try done; congruence.
Qed.

Lemma abs_put_without cap (key : string) (c : cached V) a :
  abs_put cap key c (without key a) = abs_put cap key c a.
Proof.
  unfold abs_put, without. by rewrite list_filter_filter_l.
Qed.

Lemma abs_put_touch cap (key : string) (c : cached V) a :
  abs_put cap key c (touch key a) = abs_put cap key c a.
Proof.
  unfold touch. destruct (assoc key a) as [v|]; [|done]. unfold abs_put.
  unfold without at 1. rewrite filter_cons_False by (by intros []).
  fold (without key (without key a)). unfold without. by rewrite list_filter_filter_l.
Qed.

Lemma getOrLoad_spec fetch cap key (b : bucket V) w : bucket_ok cap b →
  let '(r, s, a', w') := spec_getOrLoad fetch cap key (abs b) w in
  ∃ b', getOrLoad now cfg fetch key b w = Some (r, s, b', w') ∧ abs b' = a' ∧
        bucket_ok cap b'.
Proof.
  intros Hb. pose proof Hb as (Hl & Hcap & Hc & Hlen).
  unfold getOrLoad, spec_getOrLoad.
  destruct (get_spec key b Hl) as (b1 & -> & Hl1 & Ha1 & Hc1 & Hn1). cbn [mbind option_bind].
  assert (Hb1 : bucket_ok cap b1) by (split_and!; try done; congruence).
  destruct (assoc key (abs b)) as [c|] eqn:Ea.
  - destruct (Before (now w) (ca_expires c)); [by exists b1|].
    destruct ((0 <? StaleTTL cfg)%Z && _); [by exists b1|].
    destruct (remove_spec key b1 Hl1) as (Hl2 & Ha2 & Hc2 & Hn2).
    assert (Hb2 : bucket_ok cap (remove key b1)) by (split_and!; try done; congruence || lia).
    destruct (load_refines fetch cap key _ w Hb2) as (b' & -> & Ha' & Hb').
    unfold spec_load in *. destruct (fetch w) as [r w']. cbn in *.
    exists b'. split_and!; try done. by rewrite Ha', Ha2, abs_put_without, Ha1, abs_put_touch.
  - destruct (load_refines fetch cap key _ w Hb1) as (b' & -> & Ha' & Hb').
    unfold spec_load in *. destruct (fetch w) as [r w']. cbn in *.
    exists b'. split_and!; try done. rewrite Ha', Ha1. unfold touch. by rewrite Ea.
Qed.

(** A cached lookup on every branch, without panic on a well-formed bucket: an
    unexpired entry is answered as it is, without consulting the provider; an expired
    one within the stale window is answered too and exactly one refresh is started;
    otherwise (no entry, or one past the window) the provider is called once, its
    answer, object or error, is returned and stored as the most recent entry with the
    expiry of its kind, evicting at most the least recently used ones. *)
Theorem getOrLoad_branches fetch cap key (b : bucket V) w :
  bucket_ok cap b →
  ∃ r s b' w', getOrLoad now cfg fetch key b w = Some (r, s, b', w') ∧ bucket_ok cap b' ∧
    let hit c started :=
      r = ca_res c ∧ s = started ∧ w' = w ∧ abs b' = touch key (abs b) in
    let fetched :=
      fetch w = (r, w') ∧ s = false ∧
      abs b' = abs_put cap key (Build_cached r.1 r.2 (now w' + ttlFor cfg r.2)%Z) (abs b) in
    match assoc key (abs b) with
    | None => fetched
    | Some c =>
        ((now w < ca_expires c)%Z → hit c false) ∧
        ((ca_expires c ≤ now w < ca_expires c + StaleTTL cfg)%Z → hit c true) ∧
        ((ca_expires c + Z.max 0 (StaleTTL cfg) ≤ now w)%Z → fetched)
    end.
Proof.
  intros Hb. pose proof (getOrLoad_spec fetch cap key b w Hb) as Hs.
  unfold spec_getOrLoad, spec_load, Before in Hs.
  destruct (assoc key (abs b)) as [c|].
  - destruct (now w <? ca_expires c)%Z eqn:E1; bool_hyps.
    { destruct Hs as (b' & ? & ? & ?). eexists _, _, b', _.
      split; [done|]. split; [done|]. cbv zeta.
      split_and!; intros; first [exfalso; lia|by split_and!]. }
    destruct ((0 <? StaleTTL cfg)%Z && _) eqn:E2; bool_hyps.
    { destruct Hs as (b' & ? & ? & ?). eexists _, _, b', _.
      split; [done|]. split; [done|]. cbv zeta.
      split_and!; intros; first [exfalso; lia|by split_and!]. }
    destruct (fetch w) as [r w']. destruct Hs as (b' & ? & ? & ?).
    eexists _, _, b', _. split; [done|]. split; [done|]. cbv zeta.
    split_and!; intros; first [exfalso; destruct E2; bool_hyps; lia|by split_and!].
  - destruct (fetch w) as [r w']. destruct Hs as (b' & ? & ? & ?). by eexists _, _, b', _.
Qed.
End spec.

(** ** Histories of one bucket *)
Section history.
Context {W V : Type} (now : W → Time) (cfg : Config) (fetch : string → W → res V * W).

(** The provider instrumented with the log of its answers: key, time and result. *)
Definition log : Type := list (string * Time * res V).
Definition logged (key : string) (wl : W * log) : res V * (W * log) :=
  let '(r, w) := fetch key wl.1 in (r, (w, (key, now w, r) :: wl.2)).
Definition now_l (wl : W * log) : Time := now wl.1.

(** Lookups, refreshes (started by a lookup or not) and arbitrary changes of the world,
    the passage of time included, in any order. *)
Inductive reach (cap : Z) : bucket V → W * log → Prop :=
  | reach_init w : reach cap (newLRU cap) (w, [])
  | reach_lookup key b wl r s b' wl' : reach cap b wl →
      getOrLoad now_l cfg (logged key) key b wl = Some (r, s, b', wl') → reach cap b' wl'
  | reach_refresh key b wl b' wl' : reach cap b wl →
      refreshAsync now_l cfg (logged key) key b wl = Some (b', wl') → reach cap b' wl'
  | reach_env b w w' l : reach cap b (w, l) → reach cap b (w', l).

(** Every binding of the bucket is an answer of the provider for that key, with the
    expiry of its kind. *)
Definition from_log (l : log) (kc : string * cached V) : Prop :=
  ∃ tf, (kc.1, tf, ca_res kc.2) ∈ l ∧
        ca_expires kc.2 = (tf + ttlFor cfg (ca_err kc.2))%Z.

Lemma from_log_mono l x kc : from_log l kc → from_log (x :: l) kc.
Proof. intros (tf & Hin & He). exists tf. split; [by right|done]. Qed.

Lemma from_log_load cap key b wl :
  Forall (from_log wl.2) (abs b) →
  let '(r, a', wl') := spec_load now_l cfg (logged key) cap key (abs b) wl in
  Forall (from_log wl'.2) a' ∧ r = (fetch key wl.1).1 ∧ ∃ tf, wl'.2 = (key, tf, r) :: wl.2.
Proof.
  intros Hb. unfold spec_load, logged. destruct (fetch key wl.1) as [r w'].
  split; [|split; [done|by exists (now w')]]. apply Forall_forall. rewrite Forall_forall in Hb.
  intros kc [->|Hin]%elem_of_abs_put.
  - exists (now w'). split; [|done]. destruct r as [v err]. left.
  - by apply from_log_mono, Hb.
Qed.

Lemma from_log_lookup cap key b wl :
  Forall (from_log wl.2) (abs b) →
  let '(r, s, a', wl') := spec_getOrLoad now_l cfg (logged key) cap key (abs b) wl in
  Forall (from_log wl'.2) a' ∧
  ∃ tf, (key, tf, r) ∈ wl'.2 ∧
    (wl'.2 = (key, tf, r) :: wl.2 ∧ r = (fetch key wl.1).1 ∨
     wl' = wl ∧ (now wl.1 < tf + ttlFor cfg r.2 + Z.max 0 (StaleTTL cfg))%Z).
Proof.
  intros Hb. pose proof (from_log_load cap key b wl Hb) as Hload.
  unfold spec_getOrLoad, Before, now_l in *.
  destruct (spec_load _ _ _ _ _ _ _) as [[r a'] wl'].
  assert (Hmiss : Forall (from_log wl'.2) a' ∧ ∃ tf, (key, tf, r) ∈ wl'.2 ∧
    (wl'.2 = (key, tf, r) :: wl.2 ∧ r = (fetch key wl.1).1 ∨
     wl' = wl ∧ (now wl.1 < tf + ttlFor cfg r.2 + Z.max 0 (StaleTTL cfg))%Z)).
  { destruct Hload as (Ha & Hr & tf & E). split; [done|]. exists tf.
    rewrite E. split; [left|by left]. }
  destruct (assoc key (abs b)) as [c|] eqn:Ea; [|done].
  assert (Hc : from_log wl.2 (key, c)) by (rewrite Forall_forall in Hb; by apply Hb, assoc_elem).
  assert (Ht : Forall (from_log wl.2) (touch key (abs b))).
  { rewrite Forall_forall in Hb |- *. intros kc Hkc%elem_of_touch. by apply Hb. }
  destruct Hc as (tf & Hin & He). cbn in Hin, He.
  destruct (now wl.1 <? ca_expires c)%Z eqn:E1; bool_hyps.
  { split; [done|]. exists tf. split; [done|]. right. split; [done|]. cbn. lia. }
  destruct ((0 <? StaleTTL cfg)%Z && _) eqn:E2; bool_hyps; [|done].
  split; [done|]. exists tf. split; [done|]. right. split; [done|]. cbn. lia.
Qed.

Lemma reach_inv cap b wl : (0 ≤ cap)%Z → reach cap b wl →
  bucket_ok cap b ∧ Forall (from_log wl.2) (abs b).
Proof.
  intros Hcap. induction 1 as [w|key b wl r s b' wl' _ [Hok Hb] Hrun|key b wl b' wl' _ [Hok Hb] Hrun
    |b w w' l _ [Hok Hb]]; [by split; [apply newLRU_ok|constructor]|..|done].
  - pose proof (getOrLoad_spec now_l cfg (logged key) cap key b wl Hok) as Hspec.
    pose proof (from_log_lookup cap key b wl Hb) as Hl.
    destruct (spec_getOrLoad _ _ _ _ _ _ _) as [[[r' s'] a'] wl''].
    destruct Hspec as (b'' & Hrun' & Ha & Hok'). rewrite Hrun in Hrun'. simplify_eq.
    split; [done|]. apply Hl.
  - unfold refreshAsync in Hrun.
    destruct (load_refines now_l cfg (logged key) cap key b wl Hok) as (b'' & E & Ha & Hok').
    pose proof (from_log_load cap key b wl Hb) as Hl. rewrite E in Hrun.
    destruct (spec_load _ _ _ _ _ _ _) as [[r a'] wl'']. cbn in *. simplify_eq.
    split; [done|]. apply Hl.
Qed.

(** Bounded staleness: in any reachable state (whatever the order of lookups,
    background refreshes and changes of the world), a lookup does not panic, and its
    answer is one the provider gave for that very key, either during the lookup or at
    a time [tf] from which no more than the time to live of its kind (NegTTL for an
    error) plus the stale window has elapsed. *)
Theorem cache_bounded_staleness cap key b w l :
  (0 ≤ cap)%Z → reach cap b (w, l) →
  ∃ r s b' w' l' tf, getOrLoad now_l cfg (logged key) key b (w, l) = Some (r, s, b', (w', l')) ∧
    (key, tf, r) ∈ l' ∧
    (l' = (key, tf, r) :: l ∨
     (now w < tf + ttlFor cfg r.2 + Z.max 0 (StaleTTL cfg))%Z).
Proof.
  intros Hcap Hr. destruct (reach_inv cap b (w, l) Hcap Hr) as [Hok Hb].
  pose proof (getOrLoad_spec now_l cfg (logged key) cap key b (w, l) Hok) as Hspec.
  pose proof (from_log_lookup cap key b (w, l) Hb) as Hl.
  destruct (spec_getOrLoad _ _ _ _ _ _ _) as [[[r s] a'] [w' l']].
  destruct Hspec as (b' & E & _ & _). destruct Hl as (_ & tf & Hin & Hcase).
  exists r, s, b', w', l', tf. split_and!; [done..|].
  destruct Hcase as [[? _]|[_ ?]]; [by left|by right].
Qed.

(** What every answer satisfies, the log and hence every later answer satisfies. *)
Lemma reach_log (P : string → res V → Prop) cap b wl :
  (0 ≤ cap)%Z → (∀ k w, P k (fetch k w).1) → reach cap b wl →
  ∀ k t r, (k, t, r) ∈ wl.2 → P k r.
Proof.
  intros Hcap HP. induction 1 as [w|key b wl r s b' wl' Hr IH Hrun|key b wl b' wl' Hr IH Hrun
    |b w w' l _ IH]; [by intros ??? ?%not_elem_of_nil|..|done];
    destruct (reach_inv cap b wl Hcap Hr) as [Hok Hb]; intros k t r0.
  - pose proof (getOrLoad_spec now_l cfg (logged key) cap key b wl Hok) as Hspec.
    pose proof (from_log_lookup cap key b wl Hb) as Hl.
    destruct (spec_getOrLoad _ _ _ _ _ _ _) as [[[r' s'] a'] wl''].
    destruct Hspec as (b'' & Hrun' & _ & _). rewrite Hrun in Hrun'. simplify_eq.
    destruct Hl as (_ & tf & _ & [[-> ->]|[-> _]]); [|by apply IH].
    intros [[= -> -> ->]|Hin]%elem_of_cons; [apply HP|by apply (IH k t)].
  - unfold refreshAsync in Hrun.
    destruct (load_refines now_l cfg (logged key) cap key b wl Hok) as (b'' & E & _ & _).
    pose proof (from_log_load cap key b wl Hb) as Hl. rewrite E in Hrun.
    destruct (spec_load _ _ _ _ _ _ _) as [[r a'] wl'']. cbn in *. simplify_eq.
    destruct Hl as (_ & -> & tf & ->).
    intros [[= -> -> ->]|Hin]%elem_of_cons; [apply HP|by apply (IH k t)].
Qed.

(** Transparency: over a provider whose answers depend on the key alone, the cache
    answers exactly as the provider does, in every reachable state. *)
Theorem cache_transparent (f : string → res V) cap key b wl r s b' wl' :
  (0 ≤ cap)%Z → (∀ k w, (fetch k w).1 = f k) → reach cap b wl →
  getOrLoad now_l cfg (logged key) key b wl = Some (r, s, b', wl') → r = f key.
Proof.
  intros Hcap Hf Hr Hrun. destruct (reach_inv cap b wl Hcap Hr) as [Hok Hb].
  pose proof (getOrLoad_spec now_l cfg (logged key) cap key b wl Hok) as Hspec.
  pose proof (from_log_lookup cap key b wl Hb) as Hl.
  destruct (spec_getOrLoad _ _ _ _ _ _ _) as [[[r' s'] a'] wl''].
  destruct Hspec as (b'' & Hrun' & _ & _). rewrite Hrun in Hrun'. simplify_eq.
  destruct Hl as (_ & tf & Hin & [[_ ->]|[-> _]]); [apply Hf|].
  by apply (reach_log (λ k r, r = f k) cap b wl Hcap Hf Hr key tf).
Qed.
End history.

(** ** Errors *)
Section errors.
Context {W V : Type} (now : W → Time) (cfg : Config).

Lemma assoc_abs_put cap (key : string) (c : cached V) a :
  (1 ≤ cap)%Z → assoc key (abs_put cap key c a) = Some c.
Proof.
  intros Hc. unfold abs_put. destruct (Z.to_nat cap) eqn:E; [lia|]. cbn.
  by rewrite bool_decide_true.
Qed.

(** Any error of the provider is cached, not only ErrNotFound: when a lookup
    misses and the provider fails with [e], every lookup of the key during NegTTL
    answers [e] without consulting the provider, whatever the provider would answer by
    then; and a background refresh that fails replaces the entry it was refreshing, so
    a good record that is still within its stale window is lost to the error. *)
Theorem errors_are_cached (fetch fetch' : W → res V * W) cap key (b : bucket V) w w1 v e :
  bucket_ok cap b → (1 ≤ cap)%Z → fetch w = ((v, Some e), w1) →
  (assoc key (abs b) = None →
   ∃ b1, getOrLoad now cfg fetch key b w = Some ((v, Some e), false, b1, w1) ∧
     ∀ w2, (now w2 < now w1 + NegTTL cfg)%Z →
     ∃ b2, getOrLoad now cfg fetch' key b1 w2 = Some ((v, Some e), false, b2, w2)) ∧
  (∃ b1, refreshAsync now cfg fetch key b w = Some (b1, w1) ∧
     ∀ w2, (now w2 < now w1 + NegTTL cfg)%Z →
     ∃ b2, getOrLoad now cfg fetch' key b1 w2 = Some ((v, Some e), false, b2, w2)).
Proof.
  intros Hb Hcap Hf.
  assert (Hnext : ∀ b1 a, bucket_ok cap b1 →
    abs b1 = abs_put cap key (Build_cached v (Some e) (now w1 + NegTTL cfg)%Z) a →
    ∀ w2, (now w2 < now w1 + NegTTL cfg)%Z →
    ∃ b2, getOrLoad now cfg fetch' key b1 w2 = Some ((v, Some e), false, b2, w2)).
  { intros b1 a Hb1 Ha w2 Hw. pose proof (getOrLoad_spec now cfg fetch' cap key b1 w2 Hb1) as Hs.
    unfold spec_getOrLoad in Hs. rewrite Ha, assoc_abs_put in Hs by done.
    unfold Before in Hs. cbn [ca_expires] in Hs. rewrite (proj2 (Z.ltb_lt _ _) Hw) in Hs.
    destruct Hs as (b2 & ? & _). by exists b2. }
  split.
  - intros Hn. pose proof (getOrLoad_spec now cfg fetch cap key b w Hb) as Hs.
    unfold spec_getOrLoad, spec_load in Hs. rewrite Hn, Hf in Hs.
    destruct Hs as (b1 & E & Ha & Hb1). exists b1. split; [done|]. by apply Hnext with (abs b).
  - unfold refreshAsync.
    destruct (load_refines now cfg fetch cap key b w Hb) as (b1 & E & Ha & Hb1).
    unfold spec_load in E, Ha. rewrite Hf in E, Ha. rewrite E. exists b1. split; [done|].
    by apply Hnext with (abs b).
Qed.
End errors.

(** ** The caching provider *)
Section provider.
Context {W : Type} (now : W → Time) (ds : DataSource W) `{NetIPText}.
Context (I : W → Prop) `{!ProviderLaws ds I}.

(** Buckets of the configured size that hold one of an object and an error per key. *)
Definition good_bucket {V} (size : Z) (b : bucket V) : Prop :=
  bucket_ok size b ∧ Forall (λ kc, res_ok (ca_res kc.2)) (abs b).
Record cache_inv (c : Cache W) : Prop := {
  ci_domains : good_bucket (Size (ch_cfg c)) (ch_domains c);
  ci_entities : good_bucket (Size (ch_cfg c)) (ch_entities c);
  ci_nameserver : good_bucket (Size (ch_cfg c)) (ch_nameserver c);
  ci_networks : good_bucket (Size (ch_cfg c)) (ch_networks c);
  ci_inner : I (ch_inner c) }.

(** The laws of one operation of a provider. *)
Definition fetch_ok {V} (fetch : W → res V * W) : Prop :=
  ∀ w, I w → res_ok (fetch w).1 ∧ I (fetch w).2.

Lemma load_good {V} cfg (fetch : W → res V * W) key (b : bucket V) w :
  fetch_ok fetch → good_bucket (Size cfg) b → I w →
  ∃ r b' w', load now cfg fetch key b w = Some (r, b', w') ∧
    res_ok r ∧ good_bucket (Size cfg) b' ∧ I w'.
Proof.
  intros Hf [Hb Hg] Hw.
  destruct (load_refines now cfg fetch (Size cfg) key b w Hb) as (b' & -> & Ha & Hb').
  unfold spec_load in *. destruct (Hf w Hw) as [Hr Hw'].
  destruct (fetch w) as [r w']. cbn in *. exists r, b', w'. split_and!; try done.
  split; [done|]. rewrite Ha. rewrite Forall_forall in Hg |- *.
  intros kc [->|Hin]%elem_of_abs_put; [by destruct r|by apply Hg].
Qed.

Lemma getOrLoad_good {V} cfg (fetch : W → res V * W) key (b : bucket V) w :
  fetch_ok fetch → good_bucket (Size cfg) b → I w →
  ∃ r s b' w', getOrLoad now cfg fetch key b w = Some (r, s, b', w') ∧
    res_ok r ∧ good_bucket (Size cfg) b' ∧ I w'.
Proof.
  intros Hf [Hb Hg] Hw. destruct (Hf w Hw) as [Hr Hw'].
  pose proof (getOrLoad_spec now cfg fetch (Size cfg) key b w Hb) as Hs.
  rewrite Forall_forall in Hg.
  assert (Ht : Forall (λ kc, res_ok (ca_res kc.2)) (touch key (abs b)))
    by (apply Forall_forall; intros kc Hkc%elem_of_touch; by apply Hg).
  unfold spec_getOrLoad, spec_load in Hs. destruct (fetch w) as [r w']. cbn in Hr, Hw'.
  assert (Hp : Forall (λ kc, res_ok (ca_res kc.2)) (abs_put (Size cfg) key
    (Build_cached r.1 r.2 (now w' + ttlFor cfg r.2)%Z) (abs b))).
  { apply Forall_forall. intros kc [->|Hin]%elem_of_abs_put; [by destruct r|by apply Hg]. }
  destruct (assoc key (abs b)) as [c|] eqn:Ea.
  - assert (Hc : res_ok (ca_res c)) by (apply (Hg (key, c)); by apply assoc_elem).
    destruct (Before (now w) (ca_expires c)); [|destruct (_ && _)];
      destruct Hs as (b' & -> & Ha & Hb'); eexists _, _, b', _; (split; [done|]);
      (split_and!; [done| |done]); (split; [done|]); by rewrite Ha.
  - destruct Hs as (b' & -> & Ha & Hb'). eexists _, _, b', _. split; [done|].
    split_and!; [done| |done]. split; [done|]. by rewrite Ha.
Qed.

Lemma New_inv w cfg c : I w → New w cfg = Some c → cache_inv c.
Proof.
  unfold New. intros Hw.
  destruct ((Size cfg <=? 0)%Z || (TTL cfg <=? 0)%Z) eqn:E; [done|]. bool_hyps.
  assert (Hn : ∀ V, good_bucket (V := V) (Size cfg) (newLRU (Size cfg)))
    by (intros V; split; [apply newLRU_ok; lia|constructor]).
  intros [= <-]. by split; cbn; destruct (NegTTL cfg <=? 0)%Z.
Qed.

Lemma New_None (w : W) cfg : New w cfg = None ↔ (Size cfg ≤ 0 ∨ TTL cfg ≤ 0)%Z.
Proof.
  unfold New. destruct ((Size cfg <=? 0)%Z || (TTL cfg <=? 0)%Z) eqn:E; bool_hyps; split;
    try done; [destruct E; bool_hyps|]; lia.
Qed.

Lemma fetch_domain_ok k : fetch_ok (GetDomain ds k).
Proof. intros w. apply law_domain. Qed.
Lemma fetch_entity_ok k : fetch_ok (GetEntity ds k).
Proof. intros w. apply law_entity. Qed.
Lemma fetch_nameserver_ok k : fetch_ok (GetNameserver ds k).
Proof. intros w. apply law_nameserver. Qed.
Lemma fetch_network_ok k : fetch_ok (GetIPNetwork ds k).
Proof. intros w. apply law_network. Qed.

Lemma run_task_good t c : cache_inv c → ∃ c', run_task now ds t c = Some c' ∧ cache_inv c'.
Proof.
  destruct c as [cfg d e n i p w]. intros [Id Ie In Ii Iw]; cbn in *.
  destruct t as [k|k|k|ip]; cbn; unfold refreshAsync.
  - destruct (load_good cfg _ k d w (fetch_domain_ok k) Id Iw) as (?&?&?& -> &_&?&?).
    by eexists.
  - destruct (load_good cfg _ k e w (fetch_entity_ok k) Ie Iw) as (?&?&?& -> &_&?&?).
    by eexists.
  - destruct (load_good cfg _ k n w (fetch_nameserver_ok k) In Iw) as (?&?&?& -> &_&?&?).
    by eexists.
  - destruct (load_good cfg _ (addr_String ip) i w (fetch_network_ok ip) Ii Iw)
      as (?&?&?& -> &_&?&?). by eexists.
Qed.

(** What a lookup of a well-formed cache does. *)
Definition answers {V} (o : option (res V * Cache W)) : Prop :=
  ∃ r c', o = Some (r, c') ∧ res_ok r ∧ cache_inv c'.

Lemma lookups_good c : cache_inv c →
  (∀ k, answers (Cache_GetDomain now ds k c)) ∧ (∀ k, answers (Cache_GetEntity now ds k c)) ∧
  (∀ k, answers (Cache_GetNameserver now ds k c)) ∧
  (∀ ip, answers (Cache_GetIPNetwork now ds ip c)).
Proof.
  destruct c as [cfg d e n i p w]. intros [Id Ie In Ii Iw]; cbn in *. split_and!; intros k.
  - destruct (getOrLoad_good cfg _ k d w (fetch_domain_ok k) Id Iw) as (r&?&?&?&E&?&?&?).
    unfold answers. cbn. rewrite E. by eexists r, _.
  - destruct (getOrLoad_good cfg _ k e w (fetch_entity_ok k) Ie Iw) as (r&?&?&?&E&?&?&?).
    unfold answers. cbn. rewrite E. by eexists r, _.
  - destruct (getOrLoad_good cfg _ k n w (fetch_nameserver_ok k) In Iw) as (r&?&?&?&E&?&?&?).
    unfold answers. cbn. rewrite E. by eexists r, _.
  - destruct (getOrLoad_good cfg _ (addr_String k) i w (fetch_network_ok k) Ii Iw)
      as (r&?&?&?&E&?&?&?). unfold answers. cbn. rewrite E. by eexists r, _.
Qed.

(** The caching provider keeps the contract of the provider it wraps, and never
    panics: a cache made by [New] (which accepts exactly the configurations with a
    positive size and time to live) answers every lookup with exactly one of an object
    and an error, whether cached, stale or fetched, runs every pending refresh, and
    stays well formed. *)
Theorem cache_no_panic (c : Cache W) :
  (∀ (w : W) cfg, New w cfg = None ↔ (Size cfg ≤ 0 ∨ TTL cfg ≤ 0)%Z) ∧
  (∀ w cfg, I w → New w cfg = Some c → cache_inv c) ∧
  (cache_inv c →
   (∀ k, answers (Cache_GetDomain now ds k c)) ∧ (∀ k, answers (Cache_GetEntity now ds k c)) ∧
   (∀ k, answers (Cache_GetNameserver now ds k c)) ∧
   (∀ ip, answers (Cache_GetIPNetwork now ds ip c)) ∧
   (∀ idx, ∃ c', run_pending now ds idx c = Some c' ∧ cache_inv c')).
Proof.
  split_and!; [apply New_None|intros; by eapply New_inv|].
  intros Hc. destruct (lookups_good c Hc) as (?&?&?&?). split_and!; try done.
  intros idx. unfold run_pending. destruct (ch_pending c !! idx) as [t|]; [|by eexists].
  destruct c as [cfg d e n i p w]. apply run_task_good. by destruct Hc.
Qed.

(** A client of the contract may use the cache in place of the provider. *)
#[export] Instance cache_provider : ProviderLaws (cache_source now ds) cache_inv.
Proof.
  split; intros k c Hc; destruct (lookups_good c Hc) as (Hd&He&Hn&Hi);
    [destruct (Hd k) as (r&c'&E&?&?)|destruct (He k) as (r&c'&E&?&?)|
     destruct (Hn k) as (r&c'&E&?&?)|destruct (Hi k) as (r&c'&E&?&?)];
    unfold cache_source, or_panic; cbn; by rewrite E.
Qed.
End provider.

(** ** Witnesses: a world that is its clock, a provider that echoes the key *)
Definition cfg_ex : Config := {| Size := 2; TTL := 60%Z; NegTTL := 5%Z; StaleTTL := 30%Z |}.
Definition echo (k : string) (w : Z) : res string * Z := (found k, w).
Definition failing (k : string) (w : Z) : res string * Z := (failed (ErrOther "boom"), w).
Definition clock (w : Z) : Time := w.

Example swr_ex :
  let b0 := newLRU 2 in
  (getOrLoad clock cfg_ex (echo "a") "a" b0 100%Z ≫=
     λ x, getOrLoad clock cfg_ex (echo "a") "a" x.1.2 170%Z) ≫= (λ x, Some x.1.1.2) = Some true.
Proof. reflexivity. Qed.

Lemma getOrLoad_branches_witness :
  bucket_ok 2 (newLRU (V := cached string) 2) ∧
  ∃ r s b' w', getOrLoad clock cfg_ex (echo "a") "a" (newLRU 2) 100%Z = Some (r, s, b', w') ∧
    echo "a" 100%Z = (r, w').
Proof.
  assert (Hb : bucket_ok 2 (newLRU (K := string) (V := cached string) 2)) by (apply newLRU_ok; lia).
  split; [exact Hb|].
  destruct (getOrLoad_branches clock cfg_ex (echo "a") 2 "a" (newLRU 2) 100%Z Hb)
    as (r & s & b' & w' & E & _ & Hf).
  exists r, s, b', w'. split; [exact E|exact (proj1 Hf)].
Defined.

Lemma cache_bounded_staleness_witness :
  (0 ≤ 2)%Z ∧ reach clock cfg_ex echo 2 (newLRU 2) (100%Z, []) ∧
  ∃ r s b' w' l' tf, getOrLoad (now_l clock) cfg_ex (logged clock echo "a") "a" (newLRU 2)
      (100%Z, []) = Some (r, s, b', (w', l')) ∧ ("a", tf, r) ∈ l'.
Proof.
  split; [lia|]. split; [constructor|].
  destruct (cache_bounded_staleness clock cfg_ex echo 2 "a" (newLRU 2) 100%Z [] ltac:(lia)
              (reach_init clock cfg_ex echo 2 100%Z)) as (r & s & b' & w' & l' & tf & E & Hin & _).
  exists r, s, b', w', l', tf. split; [exact E|exact Hin].
Defined.

Lemma cache_transparent_witness :
  (0 ≤ 2)%Z ∧ (∀ k w, (echo k w).1 = found k) ∧
  ∃ r s b' wl', getOrLoad (now_l clock) cfg_ex (logged clock echo "a") "a" (newLRU 2)
      (100%Z, []) = Some (r, s, b', wl') ∧ r = found "a".
Proof.
  split; [lia|]. split; [reflexivity|]. do 4 eexists. split; [reflexivity|].
  eapply (cache_transparent clock cfg_ex echo found 2 "a" (newLRU 2) (100%Z, []));
    [lia|reflexivity|apply reach_init|reflexivity].
Defined.

Lemma errors_are_cached_witness :
  bucket_ok 2 (newLRU (V := cached string) 2) ∧ (1 ≤ 2)%Z ∧
  failing "a" 100%Z = ((None, Some (ErrOther "boom")), 100%Z) ∧
  ∃ b1, getOrLoad clock cfg_ex (failing "a") "a" (newLRU 2) 100%Z =
          Some ((None, Some (ErrOther "boom")), false, b1, 100%Z) ∧
    ∃ b2, getOrLoad clock cfg_ex (echo "a") "a" b1 104%Z =
          Some ((None, Some (ErrOther "boom")), false, b2, 104%Z).
Proof.
  assert (Hb : bucket_ok 2 (newLRU (K := string) (V := cached string) 2)) by (apply newLRU_ok; lia).
  split; [exact Hb|]. split; [lia|]. split; [reflexivity|].
  destruct (errors_are_cached clock cfg_ex (failing "a") (echo "a") 2 "a" (newLRU 2) 100%Z 100%Z
              None (ErrOther "boom") Hb ltac:(lia) eq_refl) as [Hmiss _].
  destruct (Hmiss eq_refl) as (b1 & E & Hnext). exists b1. split; [exact E|].
  apply Hnext. by vm_compute.
Defined.

(** The contract of a provider that always fails, and a cache over it. *)
Definition down : DataSource Z :=
  {| GetDomain := λ _ w, (failed ErrNotFound, w); GetEntity := λ _ w, (failed ErrNotFound, w);
     GetNameserver := λ _ w, (failed ErrNotFound, w);
     GetIPNetwork := λ _ w, (failed ErrNotFound, w) |}.
Lemma down_laws : ProviderLaws down (λ _, True).
Proof. by split. Qed.

Lemma cache_no_panic_witness :
  ∃ c, New 100%Z cfg_ex = Some c ∧ cache_inv (λ _, True) c ∧
  answers (λ _, True) (Cache_GetDomain clock down "example.nl" c).
Proof.
  eexists. split; [reflexivity|].
  pose proof (@cache_no_panic Z clock down netip_text (λ _, True) down_laws) as Hall.
  split; [apply (proj1 (proj2 (Hall _)) 100%Z cfg_ex I eq_refl)|].
  apply (proj2 (proj2 (Hall _))). apply (proj1 (proj2 (Hall _)) 100%Z cfg_ex I eq_refl).
Defined.
