(* ===== verification/Singleflight.v ===== *)
(** * [singleflight.do] of pkg/rdap/cache/cache.go under concurrency.

    Any number of goroutines run the load path of [getOrLoad] or [refreshAsync]: they
    call [sf.do(key, fetch)], then assert that the result has the type of their own
    bucket ([v.( *V )]).  A step is what happens between two points where another
    goroutine may run: the critical sections of [sf.mu], the end of the fetch with
    [wg.Done], and the end of [wg.Wait].  The program counter of a goroutine says
    where in [do] it stands. *)
From S2P Require Import Prelude.

(** The bucket of a lookup decides the type [V] its result must have. *)
Inductive Bucket := BDomains | BEntities | BNameserver | BNetworks.
#[global] Instance Bucket_eq_dec : EqDecision Bucket.
Proof. solve_decision. Defined.

Section singleflight.
(** What a fetch returns: an answer of the provider. *)
Context {R : Type}.

(** [sfCall]: the key it was made for (ghost), and the value once [wg.Done] has run. *)
Record sfCall := { call_key : string; call_val : option (Bucket * R) }.

Inductive pc : Type :=
  | Start (b : Bucket) (key : string)             (* about to lock sf.mu *)
  | Waiting (b : Bucket) (c : nat) (key : string) (* in c.wg.Wait() *)
  | Fetching (b : Bucket) (c : nat) (key : string) (* in fn() *)
  | Deleting (b : Bucket) (c : nat) (key : string) (r : R) (* before delete(sf.calls, key) *)
  | Returned (key : string) (r : R)               (* do has returned, assertion passed *)
  | Panicked.                                     (* the type assertion failed *)

Record state := {
  calls : gmap string nat;      (* sf.calls *)
  store : gmap nat sfCall;      (* the *sfCall objects *)
  threads : gmap nat pc }.

Definition set_thread (t : nat) (p : pc) (s : state) : state :=
  {| calls := calls s; store := store s; threads := <[ t := p ]> (threads s) |}.

(** What a step shows: a goroutine enters, a fetch of the provider ends, or neither. *)
Inductive label : Type :=
  | LEnter (b : Bucket) (key : string)
  | LFetched (b : Bucket) (key : string) (r : R)
  | LTau.

Inductive step : label → state → state → Prop :=
  (** A new goroutine enters, for any bucket and key. *)
  | step_enter s t b key : threads s !! t = None →
      step (LEnter b key) s (set_thread t (Start b key) s)
  (** No call in flight for the key: become its leader. *)
  | step_lead s t b key c : threads s !! t = Some (Start b key) →
      calls s !! key = None → store s !! c = None →
      step LTau s
        {| calls := <[ key := c ]> (calls s);
           store := <[ c := {| call_key := key; call_val := None |} ]> (store s);
           threads := <[ t := Fetching b c key ]> (threads s) |}
  (** A call is in flight: wait for it. *)
  | step_join s t b key c : threads s !! t = Some (Start b key) →
      calls s !! key = Some c → step LTau s (set_thread t (Waiting b c key) s)
  (** The fetch of the leader returns; [c.val, c.err = fn(); c.wg.Done()]. *)
  | step_fetched s t b c key r : threads s !! t = Some (Fetching b c key) →
      step (LFetched b key r) s
        {| calls := calls s;
           store := <[ c := {| call_key := key; call_val := Some (b, r) |} ]> (store s);
           threads := <[ t := Deleting b c key r ]> (threads s) |}
  (** The leader removes the call and returns. *)
  | step_delete s t b c key r : threads s !! t = Some (Deleting b c key r) →
      step LTau s {| calls := delete key (calls s); store := store s;
                     threads := <[ t := Returned key r ]> (threads s) |}
  (** A waiter wakes up and asserts the type of the shared value. *)
  | step_wake s t b c key k b' r : threads s !! t = Some (Waiting b c key) →
      store s !! c = Some {| call_key := k; call_val := Some (b', r) |} →
      step LTau s (set_thread t (if decide (b = b') then Returned key r else Panicked) s).

Definition init : state := {| calls := ∅; store := ∅; threads := ∅ |}.
(** The executions, with their labels, latest first. *)
Inductive run : list label → state → Prop :=
  | run_init : run [] init
  | run_step tr s l s' : run tr s → step l s s' → run (l :: tr) s'.

(** The call a thread leads, and the value it has published. *)
Definition leads (p : pc) : option (nat * string) :=
  match p with
  | Fetching _ c key | Deleting _ c key _ => Some (c, key)
  | _ => None
  end.
Definition published (p : pc) : option (Bucket * R) :=
  match p with Deleting b _ _ r => Some (b, r) | _ => None end.

(** ** Invariant *)
Record inv (s : state) : Prop := {
  (** the call of a key in the map has a leader *)
  inv_calls key c : calls s !! key = Some c →
    ∃ t p, threads s !! t = Some p ∧ leads p = Some (c, key);
  (** a leader's call is the one of the map, and holds what the leader published *)
  inv_leads t p c key : threads s !! t = Some p → leads p = Some (c, key) →
    calls s !! key = Some c ∧
    store s !! c = Some {| call_key := key; call_val := published p |};
  (** one leader per call *)
  inv_unique t1 t2 p1 p2 c key : threads s !! t1 = Some p1 → threads s !! t2 = Some p2 →
    leads p1 = Some (c, key) → leads p2 = Some (c, key) → t1 = t2;
  (** a waiter's call is done, or in flight in the map *)
  inv_waiting t b c key : threads s !! t = Some (Waiting b c key) →
    ∃ v, store s !! c = Some {| call_key := key; call_val := v |} ∧
         (v = None → calls s !! key = Some c)
}.

Lemma init_inv : inv init.
Proof. split; intros *; cbn; by rewrite lookup_empty. Qed.

(** A thread that leads nothing before and after moves; the maps stay. *)
Lemma set_thread_inv s t p p' :
  inv s → threads s !! t = p → (∀ q, p = Some q → leads q = None) → leads p' = None →
  (∀ b c k, p' = Waiting b c k → ∃ v, store s !! c = Some {| call_key := k; call_val := v |} ∧
           (v = None → calls s !! k = Some c)) →
  inv (set_thread t p' s).
Proof.
  intros [Hc Hl Hu Hw] Ht Hp Hp' Hwait. split; cbn.
  - intros key c Hkc. destruct (Hc key c Hkc) as (t1 & p1 & Ht1 & Hl1).
    exists t1, p1. rewrite lookup_insert_ne; [done|].
    intros ->. rewrite Ht1 in Ht. subst p. specialize (Hp p1 eq_refl). congruence.
  - intros t1 p1 c key [[<- <-]|[Hne Ht1]]%lookup_insert_Some; [congruence|].
    by apply Hl with t1.
  - intros t1 t2 p1 p2 c key [[<- <-]|[Hne1 Ht1]]%lookup_insert_Some
      [[<- <-]|[Hne2 Ht2]]%lookup_insert_Some Hl1 Hl2; try congruence. by eapply Hu.
  - intros t1 b c k [[<- E]|[Hne Ht1]]%lookup_insert_Some; [by eapply Hwait|by eapply Hw].
Qed.

Lemma lead_inv s t b key c : inv s → threads s !! t = Some (Start b key) →
  calls s !! key = None → store s !! c = None →
  inv {| calls := <[ key := c ]> (calls s);
         store := <[ c := {| call_key := key; call_val := None |} ]> (store s);
         threads := <[ t := Fetching b c key ]> (threads s) |}.
Proof.
  intros [Hc Hl Hu Hw] Ht Hn Hfresh. split; cbn.
  - intros k c0 [[<- <-]|[Hne Hk]]%lookup_insert_Some.
    + exists t, (Fetching b c key). by rewrite lookup_insert_eq.
    + destruct (Hc k c0 Hk) as (t1 & p1 & Ht1 & Hl1). exists t1, p1.
      rewrite lookup_insert_ne; [done|]. intros ->. by simplify_eq.
  - intros t1 p1 c1 k1 [[<- <-]|[Hne Ht1]]%lookup_insert_Some Hl1.
    + injection Hl1 as <- <-. by rewrite !lookup_insert_eq.
    + destruct (Hl t1 p1 c1 k1 Ht1 Hl1). by rewrite !lookup_insert_ne by congruence.
  - intros t1 t2 p1 p2 c1 k1 [[<- <-]|[Hne1 Ht1]]%lookup_insert_Some
      [[<- <-]|[Hne2 Ht2]]%lookup_insert_Some Hl1 Hl2; [done| | |by eapply Hu].
    + injection Hl1 as <- <-. destruct (Hl t2 p2 c key Ht2 Hl2). congruence.
    + injection Hl2 as <- <-. destruct (Hl t1 p1 c key Ht1 Hl1). congruence.
  - intros t1 b1 c1 k [[_ [=]]|[Hne Ht1]]%lookup_insert_Some.
    destruct (Hw t1 b1 c1 k Ht1) as (v & Hst & Hv). exists v.
    rewrite lookup_insert_ne by congruence. split; [done|].
    intros ->. rewrite lookup_insert_ne; [by apply Hv|]. intros ->. by rewrite (Hv eq_refl) in Hn.
Qed.

Lemma fetched_inv s t b c key r : inv s → threads s !! t = Some (Fetching b c key) →
  inv {| calls := calls s;
         store := <[ c := {| call_key := key; call_val := Some (b, r) |} ]> (store s);
         threads := <[ t := Deleting b c key r ]> (threads s) |}.
Proof.
  intros [Hc Hl Hu Hw] Ht. destruct (Hl t _ c key Ht eq_refl) as [Hck Hst]. split; cbn.
  - intros k c0 Hk. destruct (Hc k c0 Hk) as (t1 & p1 & Ht1 & Hl1).
    destruct (decide (t1 = t)) as [->|Hne].
    + simplify_eq. exists t, (Deleting b c key r). by rewrite lookup_insert_eq.
    + exists t1, p1. by rewrite lookup_insert_ne.
  - intros t1 p1 c1 k1 [[<- <-]|[Hne Ht1]]%lookup_insert_Some Hl1.
    + injection Hl1 as <- <-. by rewrite lookup_insert_eq.
    + destruct (Hl t1 p1 c1 k1 Ht1 Hl1) as [Hck1 Hst1].
      rewrite lookup_insert_ne; [done|]. intros <-. destruct Hne.
      eapply (Hu t t1 _ p1 c key); [done..|]. rewrite Hl1. congruence.
  - intros t1 t2 p1 p2 c1 k1 [[<- <-]|[Hne1 Ht1]]%lookup_insert_Some
      [[<- <-]|[Hne2 Ht2]]%lookup_insert_Some Hl1 Hl2; [done| | |by eapply Hu].
    + injection Hl1 as <- <-. eapply (Hu t t2 _ p2 c key); done.
    + injection Hl2 as <- <-. eapply (Hu t1 t p1 _ c key); done.
  - intros t1 b1 c1 k [[_ [=]]|[Hne Ht1]]%lookup_insert_Some.
    destruct (Hw t1 b1 c1 k Ht1) as (v & Hst1 & Hv).
    destruct (decide (c1 = c)) as [->|Hcc].
    + simplify_eq. exists (Some (b, r)). by rewrite lookup_insert_eq.
    + exists v. by rewrite lookup_insert_ne.
Qed.

Lemma delete_inv s t b c key r : inv s → threads s !! t = Some (Deleting b c key r) →
  inv {| calls := delete key (calls s); store := store s;
         threads := <[ t := Returned key r ]> (threads s) |}.
Proof.
  intros [Hc Hl Hu Hw] Ht. destruct (Hl t _ c key Ht eq_refl) as [Hck Hst]. split; cbn.
  - intros k c0 [Hne Hk]%lookup_delete_Some. destruct (Hc k c0 Hk) as (t1 & p1 & Ht1 & Hl1).
    exists t1, p1. rewrite lookup_insert_ne; [done|]. intros ->. simplify_eq. cbn in Hl1. congruence.
  - intros t1 p1 c1 k1 [[<- <-]|[Hne Ht1]]%lookup_insert_Some Hl1; [done|].
    destruct (Hl t1 p1 c1 k1 Ht1 Hl1) as [Hck1 Hst1].
    rewrite lookup_delete_ne; [done|]. intros <-. destruct Hne.
    eapply (Hu t t1 _ p1 c key); [done..|]. rewrite Hl1. congruence.
  - intros t1 t2 p1 p2 c1 k1 [[<- <-]|[Hne1 Ht1]]%lookup_insert_Some
      [[<- <-]|[Hne2 Ht2]]%lookup_insert_Some Hl1 Hl2; try done. by eapply Hu.
  - intros t1 b1 c1 k [[_ [=]]|[Hne Ht1]]%lookup_insert_Some.
    destruct (Hw t1 b1 c1 k Ht1) as (v & Hst1 & Hv). exists v. split; [done|].
    intros ->. rewrite lookup_delete_ne; [by apply Hv|]. intros ->.
    specialize (Hv eq_refl). simplify_eq.
Qed.

Lemma step_inv l s s' : inv s → step l s s' → inv s'.
Proof.
  intros Hi Hs. pose proof Hi as [Hc Hl Hu Hw].
  destruct Hs as [s t b key Ht|s t b key c Ht Hn Hfresh|s t b key c Ht Hk|s t b c key r Ht
    |s t b c key r Ht|s t b c key k b' r Ht Hst].
  - by eapply set_thread_inv.
  - by apply lead_inv.
  - eapply set_thread_inv; [done..| |done|]; [by intros q [= <-]|].
    intros b0 c0 k0 [= <- <- <-]. destruct (Hc key c Hk) as (t1 & p1 & Ht1 & Hl1).
    destruct (Hl t1 p1 c key Ht1 Hl1) as [_ Hst]. by exists (published p1).
  - by apply fetched_inv.
  - by eapply delete_inv.
  - eapply set_thread_inv; [done..| |by destruct (decide _)|]; [by intros q [= <-]|].
    by destruct (decide (b = b')).
Qed.

Lemma run_inv tr s : run tr s → inv s.
Proof. induction 1 as [|tr s l s' _ IH Hs]; [apply init_inv|by eapply step_inv]. Qed.

(** ** Answers come from fetches *)
Record answered (tr : list label) (s : state) : Prop := {
  an_store c k b r : store s !! c = Some {| call_key := k; call_val := Some (b, r) |} →
    LFetched b k r ∈ tr;
  an_deleting t b c k r : threads s !! t = Some (Deleting b c k r) → LFetched b k r ∈ tr;
  an_returned t k r : threads s !! t = Some (Returned k r) → ∃ b, LFetched b k r ∈ tr }.

Lemma run_answered tr s : run tr s → answered tr s.
Proof.
  induction 1 as [|tr s l s' Hrun [Ha Hd Hr] Hs].
  { split; intros *; cbn; by rewrite lookup_empty. }
  pose proof (run_inv tr s Hrun) as [_ Hl _ Hw].
  assert (Hd' : ∀ t b c k r, threads s !! t = Some (Deleting b c k r) → LFetched b k r ∈ l :: tr)
    by (intros; right; by eapply Hd).
  assert (Hr' : ∀ t k r, threads s !! t = Some (Returned k r) → ∃ b, LFetched b k r ∈ l :: tr)
    by (intros t k r Ht; destruct (Hr t k r Ht) as [b ?]; exists b; by right).
  assert (Ha' : ∀ c k b r, store s !! c = Some {| call_key := k; call_val := Some (b, r) |} →
    LFetched b k r ∈ l :: tr) by (intros; right; by eapply Ha).
  clear Ha Hd Hr.
  destruct Hs as [s t b key Ht|s t b key c Ht Hn Hfresh|s t b key c Ht Hk|s t b c key r Ht
    |s t b c key r Ht|s t b c key k b' r Ht Hst];
    (split; cbn; [intros c0 k0 b0 r0|intros t0 b0 c0 k0 r0|intros t0 k0 r0]);
    rewrite ?lookup_insert_Some;
    try (first [apply Ha'|intros [[<- [=]]|[_ Ht0]]; by eauto]).
  - intros [[<- [= <- <- <-]]|[_ Hc0]]; [left|by eapply Ha'].
  - intros [[<- [= <- <- <- <-]]|[_ Ht0]]; [left|by eapply Hd'].
  - intros [[<- [= <- <-]]|[_ Ht0]]; [by eexists; eapply Hd'|by eapply Hr'].
  - intros [[<- E]|[_ Ht0]]; [by destruct (decide (b = b'))|by eapply Hd'].
  - intros [[<- E]|[_ Ht0]]; [|by eapply Hr'].
    destruct (decide (b = b')); [|done]. injection E as -> ->.
    destruct (Hw t b c k0 Ht) as (v & Hst' & _). simplify_eq. exists b'. by eapply Ha'.
Qed.

(** ** Termination *)
Definition weight (p : pc) : nat :=
  match p with
  | Start _ _ => 3 | Fetching _ _ _ => 2 | Waiting _ _ _ => 1 | Deleting _ _ _ _ => 1
  | Returned _ _ => 0 | Panicked => 0
  end.
Definition work (s : state) : nat := map_sum weight (threads s).
Definition final (p : pc) : Prop := weight p = 0.

Lemma step_work l s s' : step l s s' → (∀ b key, l ≠ LEnter b key) → (work s' < work s)%nat.
Proof.
  intros Hs Hl. unfold work.
  destruct Hs as [s t b key Ht|s t b key c Ht Hn Hfresh|s t b key c Ht Hk|s t b c key r Ht
    |s t b c key r Ht|s t b c key k b' r Ht Hst]; cbn.
  - by destruct (Hl b key).
  - pose proof (map_sum_insert weight (threads s) t _ (Fetching b c key) Ht) as E. cbn in E. lia.
  - pose proof (map_sum_insert weight (threads s) t _ (Waiting b c key) Ht) as E. cbn in E. lia.
  - pose proof (map_sum_insert weight (threads s) t _ (Deleting b c key r) Ht) as E. cbn in E. lia.
  - pose proof (map_sum_insert weight (threads s) t _ (Returned key r) Ht) as E. cbn in E. lia.
  - pose proof (map_sum_insert weight (threads s) t _ (if decide (b = b') then Returned key r else Panicked) Ht) as E.
    destruct (decide (b = b')); cbn in E; lia.
Qed.

(** A goroutine that has not returned can move, or the leader it waits for can; [f] says what
    a fetch that ends returns. *)
Lemma progress s (f : Bucket → string → R) t p :
  inv s → threads s !! t = Some p → ¬ final p →
  ∃ l s', step l s s' ∧
    match l with LEnter _ _ => False | LFetched b key r => r = f b key | LTau => True end.
Proof.
  intros [Hc Hl Hu Hw] Ht Hp. destruct p as [b key|b c key|b c key|b c key r0| |]; try done.
  - destruct (calls s !! key) as [c|] eqn:Ek.
    + do 2 eexists. split; [by eapply step_join|done].
    + do 2 eexists. split; [eapply (step_lead s t b key (fresh (dom (store s))))|done]; try done.
      apply not_elem_of_dom, is_fresh.
  - destruct (Hw t b c key Ht) as ([[b' r']|] & Hst & Hv).
    + do 2 eexists. split; [by eapply step_wake|done].
    + destruct (Hc key c (Hv eq_refl)) as (t1 & p1 & Ht1 & Hl1).
      destruct p1; try done; injection Hl1 as -> ->; do 2 eexists;
        (split; [(by eapply (step_fetched s t1 _ _ _ (f _ _))) || by eapply step_delete|done]).
  - do 2 eexists. split; [by eapply (step_fetched s t b c key (f b key))|done].
  - do 2 eexists. split; [by eapply step_delete|done].
Qed.

(** ** Keys of one bucket *)
(** The buckets and keys of the goroutines that have entered are in [S]; one that has panicked
    met a call of another bucket for its key. *)
Definition entered_pc (S : Bucket → string → Prop) (p : pc) : Prop :=
  match p with
  | Start b k | Waiting b _ k | Fetching b _ k | Deleting b _ k _ => S b k
  | Returned _ _ => True
  | Panicked => ∃ b b' k, b ≠ b' ∧ S b k ∧ S b' k
  end.
Record entered (S : Bucket → string → Prop) (s : state) : Prop := {
  en_threads t p : threads s !! t = Some p → entered_pc S p;
  en_store c k b r : store s !! c = Some {| call_key := k; call_val := Some (b, r) |} → S b k }.

Lemma run_entered S tr s : run tr s → (∀ b key, LEnter b key ∈ tr → S b key) → entered S s.
Proof.
  induction 1 as [|tr s l s' Hrun IH Hs]; intros Hen.
  { split; intros *; cbn; by rewrite lookup_empty. }
  destruct IH as [Hty Hst]; [by intros; apply Hen; right|].
  pose proof (run_inv tr s Hrun) as [_ Hl _ Hw].
  destruct Hs as [s t b key Ht|s t b key c Ht Hn Hfresh|s t b key c Ht Hk|s t b c key r Ht
    |s t b c key r Ht|s t b c key k b' r Ht Hsc];
    try (pose proof (Hty t _ Ht) as Hb; cbn in Hb);
    (split; cbn; [intros t0 p0 [[<- <-]|[_ Ht0]]%lookup_insert_Some; [|by apply (Hty t0)]|]);
    try exact Hst; try done.
  - apply Hen. left.
  - intros c0 k0 b0 r0 [[_ [=]]|[_ Hc0]]%lookup_insert_Some. by eapply Hst.
  - intros c0 k0 b0 r0 [[_ [= <- <- <-]]|[_ Hc0]]%lookup_insert_Some; [done|by eapply Hst].
  - destruct (Hw t b c key Ht) as (v & Hst' & _). simplify_eq. apply Hst in Hsc.
    destruct (decide (b = b')); [done|]. by exists b, b', k.
Qed.

(** A panic is that of a waiter whose call was made for another bucket. *)
Lemma step_panicked S tr l s s' t : run tr s → (∀ b key, LEnter b key ∈ tr → S b key) →
  step l s s' → threads s' !! t = Some Panicked →
  threads s !! t = Some Panicked ∨
  ∃ b c key b', threads s !! t = Some (Waiting b c key) ∧ b' ≠ b ∧ S b' key.
Proof.
  intros Hrun Hen Hs Ht'. pose proof (run_entered S tr s Hrun Hen) as [_ Hst].
  pose proof (run_inv tr s Hrun) as [_ _ _ Hw].
  destruct Hs as [s t0 b key Ht|s t0 b key c Ht Hn Hfresh|s t0 b key c Ht Hk|s t0 b c key r Ht
    |s t0 b c key r Ht|s t0 b c key k b' r Ht Hsc]; cbn in Ht';
    apply lookup_insert_Some in Ht' as [[<- E]|[_ Ht']]; try done; try by left.
  right. exists b, c, key, b'. destruct (Hw t0 b c key Ht) as (v & Hst' & _). simplify_eq.
  apply Hst in Hsc. destruct (decide (b = b')); by split_and!.
Qed.

Lemma run_one_fetch tr s : run tr s →
  ∀ t1 t2 b1 b2 c1 c2 key, threads s !! t1 = Some (Fetching b1 c1 key) →
    threads s !! t2 = Some (Fetching b2 c2 key) → t1 = t2.
Proof.
  intros Hrun t1 t2 b1 b2 c1 c2 key H1 H2. destruct (run_inv tr s Hrun) as [_ Hl Hu _].
  destruct (Hl t1 _ c1 key H1 eq_refl) as [E1 _], (Hl t2 _ c2 key H2 eq_refl) as [E2 _].
  simplify_eq. by eapply Hu.
Qed.

(** * Theorems *)

(** C9: in every execution of any number of goroutines at most one fetch per key is in
    flight, and whatever a goroutine returns for a key is an answer that a fetch for
    that very key produced during the execution: waiters share, they never get another
    key's answer or an unset one. *)
Theorem singleflight_correct tr s :
  run tr s →
  (∀ t1 t2 b1 b2 c1 c2 key, threads s !! t1 = Some (Fetching b1 c1 key) →
     threads s !! t2 = Some (Fetching b2 c2 key) → t1 = t2) ∧
  (∀ t key r, threads s !! t = Some (Returned key r) → ∃ b, LFetched b key r ∈ tr).
Proof.
  intros Hrun. split; [by apply (run_one_fetch tr)|apply (an_returned _ _ (run_answered tr s Hrun))].
Qed.

(** A step of the goroutines that are already there. *)
Definition internal (s s' : state) : Prop :=
  ∃ l, step l s s' ∧ ∀ b key, l ≠ LEnter b key.

Lemma internal_run tr s s' : run tr s → internal s s' → ∃ tr', run tr' s'.
Proof. intros Hrun (l & Hs & _). exists (l :: tr). by eapply run_step. Qed.

(** No goroutine is left waiting: in every reachable state every step of the
    goroutines present uses up work, of which there are at most three units per
    goroutine, and as long as one of them has not returned one can move; so, if fetches
    return, every execution without new arrivals ends with all of them returned. *)
Theorem singleflight_terminates tr s (r : R) :
  run tr s →
  (∀ s', internal s s' → (work s' < work s)%nat) ∧
  ((∃ t p, threads s !! t = Some p ∧ ¬ final p) → ∃ s', internal s s') ∧
  ∃ s', rtc internal s s' ∧ ∀ t p, threads s' !! t = Some p → final p.
Proof.
  intros Hrun. split_and!.
  - intros s' (l & Hs & Hl). by eapply step_work.
  - intros (t & p & Ht & Hp).
    destruct (progress s (λ _ _, r) t p (run_inv tr s Hrun) Ht Hp) as (l & s' & ? & Hl).
    exists s', l. split; [done|]. by intros b key ->.
  - remember (work s) as n eqn:En. revert tr s En Hrun.
    induction (lt_wf n) as [n _ IH]. intros tr s -> Hrun.
    destruct (decide (map_Forall (λ _ p, weight p = 0) (threads s))) as [Hf|Hn].
    { exists s. split; [done|]. intros t p Ht. by apply (Hf t p). }
    apply map_not_Forall in Hn as (t & p & Ht & Hp); [|apply _].
    destruct (progress s (λ _ _, r) t p (run_inv tr s Hrun) Ht Hp) as (l & s1 & Hs & Hl').
    assert (Hl : ∀ b key, l ≠ LEnter b key) by (by intros b key ->).
    destruct (IH (work s1) ltac:(by eapply step_work) (l :: tr) s1 eq_refl)
      as (s' & Hr' & Hf'); [by eapply run_step|].
    exists s'. split; [|done]. eapply rtc_l; [by exists l|done].
Qed.

(** The calls of all four buckets share one key space, and the type assertion on a
    shared answer is exactly as safe as the keys are disjoint: when every key is used by
    one bucket only, no goroutine ever panics; and for any two buckets and any key there
    is an execution of two lookups of that key, one per bucket, in which the waiter
    panics on the type of the leader's answer. *)
Theorem singleflight_type_confusion :
  (∀ f tr s t, run tr s → (∀ b key, LEnter b key ∈ tr → b = f key) →
     threads s !! t ≠ Some Panicked) ∧
  (∀ b1 b2 key (r : R), b1 ≠ b2 →
     ∃ tr s, run tr s ∧ threads s !! 1 = Some Panicked ∧
       tr = [LTau; LFetched b1 key r; LTau; LEnter b2 key; LTau; LEnter b1 key]).
Proof.
  split.
  - intros f tr s t Hrun Hen Ht.
    by destruct (en_threads _ s (run_entered (λ b k, b = f k) tr s Hrun Hen) t Panicked Ht)
      as (b & b' & k & Hne & -> & ->).
  - intros b1 b2 key r Hne. do 2 eexists. split_and!; [|..|done].
    { eapply run_step; [eapply run_step; [eapply run_step; [eapply run_step;
        [eapply run_step; [eapply run_step; [apply run_init|]|]|]|]|]|].
      - eapply (step_enter _ 0 b1 key); cbn; by simplify_map_eq.
      - eapply (step_lead _ 0 b1 key 0); cbn; by simplify_map_eq.
      - eapply (step_enter _ 1 b2 key); cbn; by simplify_map_eq.
      - eapply (step_join _ 1 b2 key 0); cbn; by simplify_map_eq.
      - eapply (step_fetched _ 0 b1 0 key r); cbn; by simplify_map_eq.
      - eapply (step_wake _ 1 b2 0 key key b1 r); cbn; by simplify_map_eq. }
    cbn. by destruct (decide (b2 = b1)).
Qed.
End singleflight.
Arguments state : clear implicits.
Arguments pc : clear implicits.

(** ** Witnesses: one goroutine, through its whole life *)
Definition solo_trace : list (label (R := nat)) :=
  [LTau; LFetched BDomains "a" 7%nat; LTau; LEnter BDomains "a"].
Lemma solo_run : ∃ s, run solo_trace s ∧ threads s !! 0%nat = Some (Returned "a" 7%nat).
Proof.
  eexists. split.
  { eapply run_step; [eapply run_step; [eapply run_step; [eapply run_step; [apply run_init|]|]|]|].
    - by eapply (step_enter _ 0 BDomains "a").
    - by eapply (step_lead _ 0 BDomains "a" 0).
    - by eapply (step_fetched _ 0 BDomains 0 "a" 7%nat).
    - by eapply (step_delete _ 0 BDomains 0 "a" 7%nat). }
  reflexivity.
Qed.

Lemma singleflight_correct_witness :
  ∃ s, run solo_trace s ∧ threads s !! 0%nat = Some (Returned "a" 7%nat) ∧
       ∃ b, LFetched b "a" 7%nat ∈ solo_trace.
Proof.
  destruct solo_run as (s & Hrun & Ht). exists s. split; [exact Hrun|]. split; [exact Ht|].
  exact (proj2 (singleflight_correct _ s Hrun) 0%nat "a" 7%nat Ht).
Defined.

Lemma singleflight_terminates_witness :
  run (R := nat) [LEnter BDomains "a"] (set_thread 0%nat (Start BDomains "a") init) ∧
  ∃ s', internal (R := nat) (set_thread 0%nat (Start BDomains "a") init) s'.
Proof.
  assert (Hrun : run (R := nat) [LEnter BDomains "a"] (set_thread 0%nat (Start BDomains "a") init))
    by (eapply run_step; [apply run_init|by eapply (step_enter _ 0 BDomains "a")]).
  split; [exact Hrun|].
  apply (singleflight_terminates _ _ 7%nat Hrun).
  exists 0%nat, (Start BDomains "a"). split; [reflexivity|by intros [=]].
Defined.
