(* ===== verification/CacheRun.v ===== *)
(** * The record cache of pkg/rdap/cache/cache.go under concurrency.

    Any number of goroutines are in [getOrLoad] and [refreshAsync], over any of the four
    buckets.  A step is what happens between two points where another goroutine may run: a
    reading of the clock, a critical section of an [lru], a step of [singleflight.do]
    (Singleflight.v), a start of a refresh.  What the provider answers is any relation of
    the time, the bucket, the key and the answer.  Ghost state: an answer carries the time
    at which it was fetched, a call the time at which it was made. *)
From S2P Require Import Prelude DataSource LRU Singleflight Cache.

(** What a fetch returns, [any]: the answer of one of the four methods of the provider. *)
Inductive answer : Type :=
  | ADomain (r : res Domain) | AEntity (r : res Contact)
  | ANameserver (r : res Nameserver) | ANetwork (r : res IPNetwork).
Definition ans_bucket (a : answer) : Bucket :=
  match a with
  | ADomain _ => BDomains | AEntity _ => BEntities
  | ANameserver _ => BNameserver | ANetwork _ => BNetworks
  end.
Definition ans_err (a : answer) : option error :=
  match a with ADomain r => r.2 | AEntity r => r.2 | ANameserver r => r.2 | ANetwork r => r.2 end.

(** An answer and the time of its fetch. *)
Definition stamped : Type := answer * Time.

(** [cached[V]] *)
Record entry := { en_ans : stamped; en_expires : Time }.

(** A call of [getOrLoad], or of [refreshAsync] when [cl_refresh] is set. *)
Record call := { cl_bucket : Bucket; cl_key : string; cl_start : Time; cl_refresh : bool }.

(** Where a goroutine stands in [getOrLoad]. *)
Inductive point : Type :=
  | Entered (c : call)                          (* before now := d.now() *)
  | Looking (c : call) (now : Time)             (* before bucket.get(key) *)
  | Expired (c : call)                          (* before bucket.remove(key) *)
  | Loading (c : call)                          (* in d.sf.do *)
  | Loaded (c : call) (r : stamped)             (* before expires: d.now().Add(...) *)
  | Storing (c : call) (r : stamped) (t : Time) (* before bucket.put, t is expires *)
  | Done (c : call) (r : stamped)
  | Crashed (c : call).                         (* a type assertion failed *)

Record state := {
  st_clock : Time;
  st_buckets : Bucket → lru string entry;
  st_sf : Singleflight.state stamped;
  st_gor : gmap nat point }.

Section run.
Context (cfg : Config).
(** The answers that a fetch of a key for a bucket may have at a time. *)
Context (answers : Time → Bucket → string → answer → Prop).

(** The goroutine [t] gets to the point [p]; a call of [sf.do] starts there. *)
Definition move (t : nat) (p : point) (s : state) : state :=
  {| st_clock := st_clock s; st_buckets := st_buckets s;
     st_sf := match p with
              | Loading c => set_thread t (Start (cl_bucket c) (cl_key c)) (st_sf s)
              | _ => st_sf s
              end;
     st_gor := <[ t := p ]> (st_gor s) |}.
Definition with_bucket (b : Bucket) (l : lru string entry) (s : state) : state :=
  {| st_clock := st_clock s;
     st_buckets := λ b', if decide (b' = b) then l else st_buckets s b';
     st_sf := st_sf s; st_gor := st_gor s |}.
Definition with_sf (sf : Singleflight.state stamped) (s : state) : state :=
  {| st_clock := st_clock s; st_buckets := st_buckets s; st_sf := sf; st_gor := st_gor s |}.
Definition with_clock (t : Time) (s : state) : state :=
  {| st_clock := t; st_buckets := st_buckets s; st_sf := st_sf s; st_gor := st_gor s |}.

(** The lookup of [getOrLoad] at the time it has read: where it goes on, and whether it
    starts a refresh. *)
Definition look (c : call) (now : Time) (l : lru string entry)
    : option (point * bool * lru string entry) :=
  '(raw, l) ← get (cl_key c) l;
  Some (match raw with
        | Some e =>
            if decide (ans_bucket (en_ans e).1 = cl_bucket c) then
              if Before now (en_expires e) then (Done c (en_ans e), false)
              else if (0 <? StaleTTL cfg)%Z && Before now (en_expires e + StaleTTL cfg)%Z then
                (Done c (en_ans e), true)
              else (Expired c, false)
            else (Crashed c, false)
        | None => (Loading c, false)
        end, l).
Definition refresh_of (c : call) (now : Time) : call :=
  {| cl_bucket := cl_bucket c; cl_key := cl_key c; cl_start := now; cl_refresh := true |}.
(** [go refreshAsync]: a new goroutine, in its call of [sf.do]. *)
Definition go_refresh (started : bool) (t : nat) (c : call) (s : state) : state :=
  if started then move t (Loading (refresh_of c (st_clock s))) s else s.

(** What a step shows. *)
Inductive label : Type :=
  | LCall (b : Bucket) (key : string)
  | LTick
  | LExpiry (fetched now : Time)   (* the clock is read for an answer fetched earlier *)
  | LInternal.

(** The steps inside [sf.do]: the answer of a fetch is one of the provider's. *)
Definition sf_allowed (now : Time) (l : Singleflight.label (R := stamped)) : Prop :=
  match l with
  | LEnter _ _ => False
  | LFetched b key r => r.2 = now ∧ ans_bucket r.1 = b ∧ answers now b key r.1
  | LTau => True
  end.

Inductive step : label → state → state → Prop :=
  | step_call s t b key : st_gor s !! t = None →
      step (LCall b key) s
        (move t (Entered {| cl_bucket := b; cl_key := key; cl_start := st_clock s;
                            cl_refresh := false |}) s)
  | step_tick s t : (st_clock s ≤ t)%Z → step LTick s (with_clock t s)
  | step_now s t c : st_gor s !! t = Some (Entered c) →
      step LInternal s (move t (Looking c (st_clock s)) s)
  | step_look s t c now p started l t' : st_gor s !! t = Some (Looking c now) →
      st_gor s !! t' = None → look c now (st_buckets s (cl_bucket c)) = Some (p, started, l) →
      step LInternal s (go_refresh started t' c (with_bucket (cl_bucket c) l (move t p s)))
  | step_remove s t c : st_gor s !! t = Some (Expired c) →
      step LInternal s (with_bucket (cl_bucket c) (remove (cl_key c) (st_buckets s (cl_bucket c)))
                          (move t (Loading c) s))
  | step_do s l sf : Singleflight.step l (st_sf s) sf → sf_allowed (st_clock s) l →
      step LInternal s (with_sf sf s)
  | step_loaded s t c key r : st_gor s !! t = Some (Loading c) →
      threads (st_sf s) !! t = Some (Returned key r) → step LInternal s (move t (Loaded c r) s)
  | step_panic s t c : st_gor s !! t = Some (Loading c) →
      threads (st_sf s) !! t = Some Panicked → step LInternal s (move t (Crashed c) s)
  | step_expiry s t c r : st_gor s !! t = Some (Loaded c r) →
      step (LExpiry r.2 (st_clock s)) s
        (move t (Storing c r (st_clock s + ttlFor cfg (ans_err r.1))%Z) s)
  | step_put s t c r expires l : st_gor s !! t = Some (Storing c r expires) →
      put (cl_key c) {| en_ans := r; en_expires := expires |} (st_buckets s (cl_bucket c)) = Some l →
      step LInternal s (with_bucket (cl_bucket c) l (move t (Done c r) s)).

(** A new cache. *)
Definition init (now : Time) : state :=
  {| st_clock := now; st_buckets := λ _, newLRU (Size cfg); st_sf := Singleflight.init;
     st_gor := ∅ |}.
(** The executions from a new cache, with their labels, latest first. *)
Inductive run : list label → state → Prop :=
  | run_init now : run [] (init now)
  | run_step tr s l s' : run tr s → step l s s' → run (l :: tr) s'.

(** No goroutine takes longer than [D] from the end of the fetch of its answer to the reading
    of the clock for the entry. *)
Definition lag_within (D : Duration) (l : label) : Prop :=
  match l with LExpiry fetched now => (now ≤ fetched + D)%Z | _ => True end.

(** What [New] makes of a configuration it accepts. *)
Record usable : Prop := {
  us_size : (0 ≤ Size cfg)%Z; us_ttl : (0 ≤ TTL cfg)%Z; us_neg : (0 ≤ NegTTL cfg)%Z }.
Lemma ttlFor_nonneg err : usable → (0 ≤ ttlFor cfg err)%Z.
Proof. intros [_ Ht Hn]. by destruct err. Qed.

(** ** What holds in every state *)
Section inv.
Context (D : Duration).

(** An answer that the provider gave for the key in the past. *)
Record genuine (now : Time) (b : Bucket) (key : string) (r : stamped) : Prop := {
  ge_bucket : ans_bucket r.1 = b;
  ge_answers : answers r.2 b key r.1;
  ge_past : (r.2 ≤ now)%Z }.
Definition stale_window : Duration := Z.max 0 (StaleTTL cfg).
(** Not older, for a call made at [start], than the time to live and the stale window. *)
Definition recent (start : Time) (r : stamped) : Prop :=
  (start ≤ r.2 + D + ttlFor cfg (ans_err r.1) + stale_window)%Z.

Definition point_ok (now : Time) (p : point) : Prop :=
  match p with
  | Entered c => (cl_start c ≤ now)%Z
  | Looking c t => (cl_start c ≤ t ≤ now)%Z
  | Expired c | Loading c => (cl_start c ≤ now)%Z
  | Loaded c r => (cl_start c ≤ now)%Z ∧ genuine now (cl_bucket c) (cl_key c) r
  | Storing c r e => genuine now (cl_bucket c) (cl_key c) r ∧
      (cl_start c + ttlFor cfg (ans_err r.1) ≤ e ≤ r.2 + D + ttlFor cfg (ans_err r.1))%Z
  | Done c r => genuine now (cl_bucket c) (cl_key c) r ∧ recent (cl_start c) r
  | Crashed _ => True
  end.
Definition entry_ok (now : Time) (b : Bucket) (key : string) (e : entry) : Prop :=
  genuine now b key (en_ans e) ∧
  (en_expires e ≤ (en_ans e).2 + D + ttlFor cfg (ans_err (en_ans e).1))%Z.

(** The goroutine of a call, inside [sf.do]. *)
Definition pc_of (c : call) (p : pc stamped) : Prop :=
  match p with
  | Start b k | Waiting b _ k | Fetching b _ k | Deleting b _ k _ =>
      b = cl_bucket c ∧ k = cl_key c
  | Returned k r => k = cl_key c ∧ ans_bucket r.1 = cl_bucket c
  | Panicked => True
  end.
Definition link_ok (o : option point) (q : option (pc stamped)) : Prop :=
  match o with
  | None | Some (Entered _ | Looking _ _ | Expired _) => q = None
  | Some (Loading c) => ∃ p, q = Some p ∧ pc_of c p
  | Some _ => True
  end.

(** The singleflight group is in a state it can be in, and has only seen genuine answers. *)
Definition sf_ok (s : state) : Prop :=
  ∃ tr, Singleflight.run tr (st_sf s) ∧
        ∀ b k r, LFetched b k r ∈ tr → genuine (st_clock s) b k r.

Record inv (s : state) : Prop := {
  in_sf : sf_ok s;
  in_link t : link_ok (st_gor s !! t) (threads (st_sf s) !! t);
  in_points t p : st_gor s !! t = Some p → point_ok (st_clock s) p;
  in_buckets b : bucket_ok (Size cfg) (st_buckets s b);
  in_entries b key e : (key, e) ∈ abs (st_buckets s b) → entry_ok (st_clock s) b key e }.

(** ** Time passes *)
Lemma genuine_mono now now' b key r : (now ≤ now')%Z → genuine now b key r → genuine now' b key r.
Proof. intros Hn [Hb Ha Hp]. split; [done..|lia]. Qed.
Lemma point_ok_mono now now' p : (now ≤ now')%Z → point_ok now p → point_ok now' p.
Proof.
  intros Hn. pose proof (λ c r, genuine_mono now now' (cl_bucket c) (cl_key c) r Hn) as Hg.
  destruct p; cbn; try lia; try (intros [? ?]; split; eauto; lia); done.
Qed.
Lemma entry_ok_mono now now' b key e : (now ≤ now')%Z → entry_ok now b key e → entry_ok now' b key e.
Proof. intros Hn [Hg He]. split; [by eapply genuine_mono|done]. Qed.

(** ** The operations of a bucket *)
Definition good_bucket (now : Time) (b : Bucket) (l : lru string entry) : Prop :=
  bucket_ok (Size cfg) l ∧ ∀ key e, (key, e) ∈ abs l → entry_ok now b key e.

Lemma good_get now b key l : good_bucket now b l →
  ∃ l', get key l = Some (assoc key (abs l), l') ∧ good_bucket now b l'.
Proof.
  intros [(Hl & Hcap & Hc & Hlen) He]. destruct (get_spec key l Hl) as (l' & E & Hl' & Ha & Hc' & Hn').
  exists l'. split; [done|]. split.
  - split_and!; [done|congruence|done|congruence].
  - intros k e Hin. rewrite Ha in Hin. by apply He, (elem_of_touch key).
Qed.
Lemma good_remove now b key l : good_bucket now b l → good_bucket now b (remove key l).
Proof.
  intros [(Hl & Hcap & Hc & Hlen) He]. destruct (remove_spec key l Hl) as (Hl' & Ha & Hc' & Hn').
  split.
  - split_and!; [done|congruence|done|lia].
  - intros k e Hin. rewrite Ha in Hin. by apply He, (elem_of_without key).
Qed.
Lemma good_put now b key e l : good_bucket now b l → entry_ok now b key e →
  ∃ l', put key e l = Some l' ∧ good_bucket now b l'.
Proof.
  intros [(Hl & Hcap & Hc & Hlen) Hb] He.
  destruct (put_spec key e l Hl) as (l' & E & Hl' & Ha & Hc' & Hn'); [congruence..|].
  exists l'. split; [done|]. split.
  - split_and!; [done|congruence|done|congruence].
  - intros k e' Hin. rewrite Ha in Hin. apply elem_of_abs_put in Hin as [[= -> ->]|Hin]; auto.
Qed.

Lemma inv_good s b : inv s → good_bucket (st_clock s) b (st_buckets s b).
Proof. intros Hi. split; [apply (in_buckets s Hi)|apply (in_entries s Hi)]. Qed.

(** ** The steps inside [sf.do] *)
Lemma do_pc tr l sf sf' now t p c : Singleflight.run tr sf →
  (∀ b k r, LFetched b k r ∈ tr → genuine now b k r) →
  Singleflight.step l sf sf' → sf_allowed now l →
  threads sf !! t = Some p → pc_of c p → ∃ p', threads sf' !! t = Some p' ∧ pc_of c p'.
Proof.
  intros Hrun Hg Hs Hl Ht Hp. pose proof (run_inv tr sf Hrun) as [_ _ _ Hw].
  pose proof (run_answered tr sf Hrun) as [Hst Hdel _].
  destruct Hs as [sf t0 b key Ht0|sf t0 b key c0 Ht0 Hn Hfresh|sf t0 b key c0 Ht0 Hk|sf t0 b c0 key r Ht0
    |sf t0 b c0 key r Ht0|sf t0 b c0 key k b' r Ht0 Hsc]; [done|..];
    (destruct (decide (t = t0)) as [->|Hne];
     [cbn; rewrite lookup_insert_eq; eexists; (split; [done|]); simplify_eq; cbn in Hp |- *
     |cbn; rewrite lookup_insert_ne by done; by exists p]).
  - done.
  - done.
  - done.
  - split; [apply Hp|]. rewrite <-(proj1 Hp). by apply (Hg b key r), (Hdel t0 _ c0).
  - destruct (Hw t0 b c0 key Ht0) as (v & Hv & _). simplify_eq.
    destruct (decide (b = b')) as [->|]; [|done]. destruct Hp as [-> ->]. split; [done|].
    by apply (Hg (cl_bucket c) (cl_key c) r), (Hst c0).
Qed.

Lemma do_none l sf sf' now t : Singleflight.step l sf sf' → sf_allowed now l →
  threads sf !! t = None → threads sf' !! t = None.
Proof. intros Hs Hl Ht. destruct Hs; [done|..]; cbn; (rewrite lookup_insert_ne; [done|congruence]). Qed.

(** ** Preservation *)

(** The singleflight group after a move. *)
Lemma move_sf_ok t p s : sf_ok s → threads (st_sf s) !! t = None ∨ (∀ c, p ≠ Loading c) →
  sf_ok (move t p s).
Proof.
  intros (tr & Hrun & Hg) Hnew. unfold sf_ok, move. cbn.
  destruct p as [c|c now|c|c|c r|c r e|c r|c]; try (by exists tr).
  destruct Hnew as [Ht|Hn]; [|by destruct (Hn c)].
  exists (LEnter (cl_bucket c) (cl_key c) :: tr). split.
  - eapply Singleflight.run_step; [done|by constructor].
  - intros b k r [?|Hin]%elem_of_cons; [done|by apply Hg].
Qed.

Lemma move_link t p s : (∀ t, link_ok (st_gor s !! t) (threads (st_sf s) !! t)) →
  match p with
  | Entered _ | Looking _ _ | Expired _ => threads (st_sf s) !! t = None
  | _ => True
  end →
  ∀ t', link_ok (st_gor (move t p s) !! t') (threads (st_sf (move t p s)) !! t').
Proof.
  intros Hl Hp t'. cbn. destruct (decide (t' = t)) as [->|Hne].
  - rewrite lookup_insert_eq. destruct p; cbn; try done.
    rewrite lookup_insert_eq. by eexists.
  - rewrite lookup_insert_ne by done. specialize (Hl t').
    destruct p; cbn; rewrite ?lookup_insert_ne by done; exact Hl.
Qed.

(** A goroutine moves on: to a point that is right, from one where [sf.do] is not running
    when it is about to start. *)
Lemma move_inv t p s : inv s → point_ok (st_clock s) p →
  match p with
  | Entered _ | Looking _ _ | Expired _ | Loading _ => threads (st_sf s) !! t = None
  | _ => True
  end → inv (move t p s).
Proof.
  intros [Hsf Hl Hp Hb He] Hok Hn. split.
  - apply move_sf_ok; [done|]. destruct p; (by left) || (by right).
  - apply move_link; [done|]. by destruct p.
  - intros t' p'. cbn. intros [[<- <-]|[_ Ht']]%lookup_insert_Some; [done|by eapply Hp].
  - exact Hb.
  - exact He.
Qed.

Lemma with_bucket_inv b l s : inv s → good_bucket (st_clock s) b l → inv (with_bucket b l s).
Proof.
  intros [Hsf Hl Hp Hb He] [Hbl Hel]. split; [done..| |]; cbn.
  - intros b'. by destruct (decide (b' = b)).
  - intros b' key e. destruct (decide (b' = b)) as [->|]; [apply Hel|apply He].
Qed.

Lemma with_clock_inv t s : inv s → (st_clock s ≤ t)%Z → inv (with_clock t s).
Proof.
  intros [(tr & Hrun & Hg) Hl Hp Hb He] Ht. split; [|done| |done|]; cbn.
  - exists tr. split; [done|]. intros b k r Hin. by eapply genuine_mono; [|apply Hg].
  - intros t' p' Hp'. by eapply point_ok_mono; [|eapply Hp].
  - intros b key e Hin. by eapply entry_ok_mono; [|apply He].
Qed.

Lemma with_sf_inv l sf s : inv s → Singleflight.step l (st_sf s) sf → sf_allowed (st_clock s) l →
  inv (with_sf sf s).
Proof.
  intros [(tr & Hrun & Hg) Hl Hp Hb He] Hs Ha. split; [| |done..]; cbn.
  - exists (l :: tr). split; [by eapply Singleflight.run_step|].
    intros b k r [<-|Hin]%elem_of_cons; [|by apply Hg]. destruct Ha as (Hr & Hab & Han).
    split; [done|by rewrite Hr|by apply Z.eq_le_incl].
  - intros t. specialize (Hl t). destruct (st_gor s !! t) as [p|]; [|by eapply do_none].
    destruct p; cbn in *; try done; try by eapply do_none.
    destruct Hl as (q & Hq & Hc). by eapply do_pc.
Qed.

Lemma go_refresh_inv started t c s : inv s → st_gor s !! t = None →
  inv (go_refresh started t c s).
Proof.
  intros Hi Ht. unfold go_refresh. destruct started; [|done]. apply move_inv; [done|apply Z.le_refl|].
  pose proof (in_link s Hi t) as Hl. by rewrite Ht in Hl.
Qed.

Lemma look_point now l c t p started l' : good_bucket now (cl_bucket c) l →
  (cl_start c ≤ t ≤ now)%Z → (0 ≤ D)%Z →
  look c t l = Some (p, started, l') → point_ok now p ∧ good_bucket now (cl_bucket c) l' ∧
    match p with Done _ _ => True | Expired _ | Loading _ => started = false | _ => False end.
Proof.
  intros Hg Ht HD. unfold look. destruct (good_get now (cl_bucket c) (cl_key c) l Hg) as (l1 & -> & Hg1).
  cbn [mbind option_bind]. intros [= Hp <-]. destruct (assoc (cl_key c) (abs l)) as [e|] eqn:Ea.
  - destruct (proj2 Hg _ _ (assoc_elem _ _ _ Ea)) as [Hge Hexp].
    rewrite decide_True in Hp by apply Hge. unfold Before in Hp.
    destruct (Z.ltb_spec t (en_expires e)).
    { simplify_eq/=. split_and!; [done| |done|done]. unfold recent, stale_window. lia. }
    destruct (Z.ltb_spec 0 (StaleTTL cfg)); cbn [andb] in Hp;
      [destruct (Z.ltb_spec t (en_expires e + StaleTTL cfg))|]; simplify_eq/=;
      (split_and!; try done; try lia). unfold recent, stale_window. lia.
  - simplify_eq/=. split_and!; [lia|apply Hg1..|done].
Qed.

Lemma step_sound l s s' : usable → (0 ≤ D)%Z → inv s → step l s s' → lag_within D l → inv s'.
Proof.
  intros Hcfg HD Hi Hs Hlag. pose proof (in_points s Hi) as Hp. pose proof (in_link s Hi) as Hl.
  destruct Hs as [s t b key Ht|s t Ht|s t c Ht|s t c now p started l t' Ht Ht' Hlook|s t c Ht
    |s l sf Hs Ha|s t c key r Ht Hr|s t c Ht Hr|s t c r Ht|s t c r expires l Ht Hput].
  - apply move_inv; [done|apply Z.le_refl|]. specialize (Hl t). by rewrite Ht in Hl.
  - by apply with_clock_inv.
  - specialize (Hl t). rewrite Ht in Hl. specialize (Hp _ _ Ht). cbn in Hp.
    apply move_inv; [done|cbn; lia|done].
  - pose proof (Hl t) as Hlt. rewrite Ht in Hlt. pose proof (Hp _ _ Ht) as Hpt.
    destruct (look_point _ _ _ _ _ _ _ (inv_good s (cl_bucket c) Hi) Hpt HD Hlook) as (Hok & Hg & Hc).
    apply go_refresh_inv.
    + apply with_bucket_inv; [|done]. apply move_inv; [done|done|]. by destruct p.
    + cbn. rewrite lookup_insert_ne; [done|]. intros ->. congruence.
  - specialize (Hl t). rewrite Ht in Hl. apply with_bucket_inv; [|by apply good_remove, (inv_good s)].
    apply move_inv; [done|by apply (Hp t (Expired c))|done].
  - by eapply with_sf_inv.
  - apply move_inv; [done| |done]. split; [by apply (Hp t (Loading c))|].
    specialize (Hl t). rewrite Ht in Hl. destruct Hl as (q & Hq & Hc). rewrite Hr in Hq.
    injection Hq as <-. destruct Hc as [-> Hb].
    destruct (in_sf s Hi) as (tr & Hrun & Hg).
    destruct (an_returned _ _ (run_answered _ _ Hrun) _ _ _ Hr) as [b Hin].
    apply Hg in Hin as Hgen. rewrite <-Hb. by rewrite (ge_bucket _ _ _ _ Hgen).
  - by apply move_inv.
  - destruct (Hp t _ Ht) as [Hst Hgen]. cbn in Hlag. apply move_inv; [done| |done].
    cbn. split; [done|lia].
  - destruct (Hp t _ Ht) as [Hgen He].
    assert (Hok : entry_ok (st_clock s) (cl_bucket c) (cl_key c) {| en_ans := r; en_expires := expires |})
      by (split; [done|apply He]).
    destruct (good_put _ _ _ _ _ (inv_good s (cl_bucket c) Hi) Hok) as (l' & E & Hg).
    rewrite Hput in E. injection E as <-. apply with_bucket_inv; [|done].
    apply move_inv; [done| |done]. split; [done|]. unfold recent, stale_window.
    pose proof (ttlFor_nonneg (ans_err r.1) Hcfg). lia.
Qed.

Lemma init_sound now : usable → inv (init now).
Proof.
  intros Hcfg. split; cbn.
  - exists []. split; [constructor|]. by intros b k r ?%not_elem_of_nil.
  - intros t. by rewrite !lookup_empty.
  - intros t p. by rewrite lookup_empty.
  - intros b. apply newLRU_ok, Hcfg.
  - intros b key e ?%not_elem_of_nil. done.
Qed.

Lemma run_inv_all tr s : usable → (0 ≤ D)%Z → run tr s → Forall (lag_within D) tr → inv s.
Proof.
  intros Hcfg HD. induction 1 as [now|tr s l s' _ IH Hs]; [by intros; apply init_sound|].
  intros [Hl Htr]%Forall_cons. by eapply step_sound; [..|apply IH|exact Hs|].
Qed.
End inv.

(** For any execution there is a bound on the time its goroutines took. *)
Lemma lag_exists tr : ∃ D, (0 ≤ D)%Z ∧ Forall (lag_within D) tr.
Proof.
  induction tr as [|l tr (D & HD & Htr)]; [by exists 0%Z|].
  exists (match l with LExpiry fetched now => Z.max D (now - fetched) | _ => D end).
  split; [destruct l; lia|]. constructor; [destruct l; cbn; lia|].
  eapply Forall_impl; [exact Htr|]. intros [] ?; destruct l; cbn in *; lia.
Qed.
Lemma run_some_inv tr s : usable → run tr s → ∃ D, (0 ≤ D)%Z ∧ inv D s.
Proof.
  intros Hcfg Hrun. destruct (lag_exists tr) as (D & HD & Htr). exists D. split; [done|].
  by eapply run_inv_all.
Qed.

(** ** Termination *)
Definition weight_of (p : point) : nat :=
  match p with
  | Entered _ => 9 | Looking _ _ => 8 | Expired _ => 7 | Loading _ => 3
  | Loaded _ _ => 2 | Storing _ _ _ => 1 | Done _ _ | Crashed _ => 0
  end.
(** A goroutine has returned, or it has stopped in one way or the other. *)
Definition returned (p : point) : Prop := match p with Done _ _ => True | _ => False end.
Definition stopped (p : point) : Prop := weight_of p = 0%nat.
Definition all_work (s : state) : nat := (map_sum weight_of (st_gor s) + work (st_sf s))%nat.

(** A step of the goroutines that are there, not a new call or the passage of time. *)
Definition works (s s' : state) : Prop :=
  ∃ l, step l s s' ∧ match l with LCall _ _ | LTick => False | _ => True end.

Lemma move_work t p p' s : st_gor s !! t = Some p →
  (∀ c, p' = Loading c → threads (st_sf s) !! t = None) →
  (all_work (move t p' s) + weight_of p =
   all_work s + weight_of p' + match p' with Loading _ => 3 | _ => 0 end)%nat.
Proof.
  intros Ht Hn. unfold all_work. pose proof (map_sum_insert weight_of (st_gor s) t p p' Ht) as E.
  destruct p'; cbn [move st_gor st_sf]; try lia.
  unfold work. cbn [set_thread threads]. rewrite (map_sum_new weight) by (by eapply Hn). cbn [weight]. lia.
Qed.

Lemma refresh_work started t c s : st_gor s !! t = None → threads (st_sf s) !! t = None →
  (all_work (go_refresh started t c s) ≤ all_work s + 6)%nat.
Proof.
  intros Ht Hn. unfold go_refresh. destruct started; [|lia].
  unfold all_work, work. cbn [move st_gor st_sf set_thread threads].
  rewrite (map_sum_new weight_of), (map_sum_new weight) by done. cbn [weight weight_of]. lia.
Qed.

Lemma step_all_work D s s' : (0 ≤ D)%Z → inv D s → works s s' → (all_work s' < all_work s)%nat.
Proof.
  intros HD Hi (l & Hs & Hl). pose proof (in_link D s Hi) as Hlk. pose proof (in_points D s Hi) as Hp.
  destruct Hs as [s t b key Ht|s t Ht|s t c Ht|s t c now p started l t' Ht Ht' Hlook|s t c Ht
    |s l sf Hs Ha|s t c key r Ht Hr|s t c Ht Hr|s t c r Ht|s t c r expires l Ht Hput]; try done;
    try (pose proof (Hlk t) as Hn; rewrite Ht in Hn).
  - pose proof (move_work t _ (Looking c (st_clock s)) s Ht ltac:(done)). cbn [weight_of] in *. lia.
  - pose proof (move_work t _ p s Ht (λ _ _, Hn)) as E. specialize (Hp _ _ Ht).
    destruct (look_point D (st_clock s) _ c now p started l (inv_good D s _ Hi) Hp HD Hlook) as (_ & _ & Hc).
    pose proof (Hlk t') as Hn'. rewrite Ht' in Hn'.
    assert (Hne : t' ≠ t) by congruence.
    assert (Hr : (all_work (go_refresh started t' c (with_bucket (cl_bucket c) l (move t p s))) ≤
      all_work (with_bucket (cl_bucket c) l (move t p s)) + 6)%nat).
    { apply refresh_work; cbn; [by rewrite lookup_insert_ne|].
      destruct p; cbn; rewrite ?lookup_insert_ne by done; exact Hn'. }
    change (all_work (with_bucket (cl_bucket c) l (move t p s))) with (all_work (move t p s)) in *.
    destruct p; try done; cbn [weight_of] in *; [subst started; cbn [go_refresh] in *..|lia];
      change (all_work (with_bucket ?b ?l ?s)) with (all_work s); lia.
  - pose proof (move_work t _ (Loading c) s Ht (λ _ _, Hn)) as E. cbn [weight_of] in E.
    change (all_work (with_bucket (cl_bucket c) _ (move t (Loading c) s))) with (all_work (move t (Loading c) s)). lia.
  - unfold all_work. cbn [with_sf st_gor st_sf].
    enough (work sf < work (st_sf s))%nat by lia. eapply step_work; [done|]. by intros b key ->.
  - pose proof (move_work t _ (Loaded c r) s Ht ltac:(done)). cbn [weight_of] in *. lia.
  - pose proof (move_work t _ (Crashed c) s Ht ltac:(done)). cbn [weight_of] in *. lia.
  - pose proof (move_work t _ (Storing c r (st_clock s + ttlFor cfg (ans_err r.1))%Z) s Ht ltac:(done)).
    cbn [weight_of] in *. lia.
  - pose proof (move_work t _ (Done c r) s Ht ltac:(done)) as E. cbn [weight_of] in E.
    change (all_work (with_bucket (cl_bucket c) l (move t (Done c r) s))) with (all_work (move t (Done c r) s)). lia.
Qed.

Lemma look_total D now c t l : good_bucket D now (cl_bucket c) l → ∃ p started l', look c t l = Some (p, started, l').
Proof.
  intros Hg. unfold look. destruct (good_get D now (cl_bucket c) (cl_key c) l Hg) as (l' & -> & _).
  cbn [mbind option_bind]. destruct (match assoc (cl_key c) (abs l) with Some _ => _ | None => _ end) as [p started].
  by exists p, started, l'.
Qed.

(** A goroutine that has not stopped can move, or one that it waits for can, if fetches
    return. *)
Lemma lookup_progress D (f : Time → Bucket → string → answer) s t p :
  (∀ now b key, ans_bucket (f now b key) = b ∧ answers now b key (f now b key)) →
  inv D s → st_gor s !! t = Some p → ¬ stopped p → ∃ s', works s s'.
Proof.
  intros Hf Hi Ht Hp. pose proof (in_link D s Hi t) as Hl. rewrite Ht in Hl.
  destruct p as [c|c now|c|c|c r|c r e|c r|c]; try done.
  - eexists _, LInternal. split; [by eapply step_now|done].
  - destruct (look_total D (st_clock s) c now (st_buckets s (cl_bucket c)) (inv_good D s _ Hi))
      as (p & started & l & E).
    eexists _, LInternal. split; [eapply (step_look s t c now p started l (fresh (dom (st_gor s)))); [done| |done]|done].
    apply not_elem_of_dom, is_fresh.
  - eexists _, LInternal. split; [by eapply step_remove|done].
  - destruct Hl as (q & Hq & Hc). destruct (decide (weight q = 0%nat)) as [Hw|Hw].
    + destruct q; try done; eexists _, LInternal; (split; [|done]); [by eapply step_loaded|by eapply step_panic].
    + destruct (in_sf D s Hi) as (tr & Hrun & _).
      destruct (Singleflight.progress (st_sf s) (λ b k, (f (st_clock s) b k, st_clock s)) t q (Singleflight.run_inv tr _ Hrun) Hq Hw)
        as (l & sf & Hs & Hls).
      eexists _, LInternal. split; [eapply step_do; [exact Hs|]|done].
      destruct l as [|b k r|]; [done| |done]. subst r. cbn. by split; [|apply Hf].
  - eexists _, (LExpiry _ _). split; [by eapply step_expiry|done].
  - pose proof (in_points D s Hi t _ Ht) as [Hg He].
    destruct (good_put D (st_clock s) (cl_bucket c) (cl_key c) {| en_ans := r; en_expires := e |}
      (st_buckets s (cl_bucket c)) (inv_good D s _ Hi)) as (l & E & _); [split; [done|apply He]|].
    eexists _, LInternal. split; [by eapply step_put|done].
Qed.

(** Without new lookups, all goroutines stop. *)
Lemma all_stop (f : Time → Bucket → string → answer) tr s :
  usable → (∀ now b key, ans_bucket (f now b key) = b ∧ answers now b key (f now b key)) →
  run tr s → ∃ s' tr', rtc works s s' ∧ run tr' s' ∧ (∀ b key, LCall b key ∈ tr' → LCall b key ∈ tr) ∧
    ∀ t p, st_gor s' !! t = Some p → stopped p.
Proof.
  intros Hcfg Hf Hrun. remember (all_work s) as n eqn:En. revert tr s En Hrun.
  induction (lt_wf n) as [n _ IH]. intros tr s -> Hrun.
  destruct (run_some_inv tr s Hcfg Hrun) as (D & HD & Hi).
  destruct (decide (map_Forall (λ _ p, weight_of p = 0%nat) (st_gor s))) as [Hq|Hn].
  { exists s, tr. split_and!; [done..|]. intros t p Ht. by apply (Hq t p). }
  apply map_not_Forall in Hn as (t & p & Ht & Hp); [|apply _].
  destruct (lookup_progress D f s t p Hf Hi Ht Hp) as (s1 & Hs).
  pose proof (step_all_work D s s1 HD Hi Hs) as Hlt. destruct Hs as (l & Hs & Hl).
  destruct (IH (all_work s1) Hlt (l :: tr) s1 eq_refl) as (s' & tr' & Hr' & Hrun' & Htr & Hq);
    [by eapply run_step|].
  exists s', tr'. split_and!; [eapply rtc_l; [by exists l|done]|done| |done].
  intros b key Hin. apply Htr, elem_of_cons in Hin as [<-|Hin]; done.
Qed.

Definition call_of (p : point) : call :=
  match p with
  | Entered c | Looking c _ | Expired c | Loading c | Loaded c _ | Storing c _ _ | Done c _
  | Crashed c => c
  end.
Definition crashed (p : point) : bool := match p with Crashed _ => true | _ => false end.

(** The lookup keeps the call. *)
Lemma look_call c now l p started l' : look c now l = Some (p, started, l') → call_of p = c.
Proof. unfold look. destruct (get _ _) as [[raw l1]|]; [|done]. cbn. repeat case_match; by intros; simplify_eq. Qed.

(** * Theorems *)

(** C7: concurrent lookups.  In every state that any number of goroutines can reach, looking up
    any keys of any buckets while refreshes run and entries are evicted: what a lookup returns
    is an answer of its own bucket's method, given by the provider for its own key at a time
    [T] that is not in the future and from which, when the lookup was made, no more had elapsed
    than the time to live of the kind of answer, the stale window, and the longest time [D]
    that a goroutine took from the end of the fetch of its answer to the reading of the clock
    for its entry; no two fetches of a key are in flight; and the lists and maps of the four
    buckets stay consistent and within the capacity. *)
Theorem concurrent_lookups D tr s :
  usable → (0 ≤ D)%Z → run tr s → Forall (lag_within D) tr →
  (∀ t c a T, st_gor s !! t = Some (Done c (a, T)) →
     ans_bucket a = cl_bucket c ∧ answers T (cl_bucket c) (cl_key c) a ∧ (T ≤ st_clock s)%Z ∧
     (cl_start c ≤ T + D + ttlFor cfg (ans_err a) + Z.max 0 (StaleTTL cfg))%Z) ∧
  (∀ t1 t2 b1 b2 c1 c2 key, threads (st_sf s) !! t1 = Some (Fetching b1 c1 key) →
     threads (st_sf s) !! t2 = Some (Fetching b2 c2 key) → t1 = t2) ∧
  (∀ b, linked (st_buckets s b) ∧ (lru_len (st_buckets s b) ≤ Size cfg)%Z).
Proof.
  intros Hcfg HD Hrun Hlag. pose proof (run_inv_all D tr s Hcfg HD Hrun Hlag) as Hi. split_and!.
  - intros t c a T Ht. destruct (in_points D s Hi t _ Ht) as [[Hb Ha Hp] Hr]. by split_and!.
  - destruct (in_sf D s Hi) as (tr' & Hrun' & _). by apply (run_one_fetch tr').
  - intros b. destruct (in_buckets D s Hi b) as (Hl & _ & _ & Hlen). by split.
Qed.

(** ** Calls of other buckets *)
Section told.
(** The buckets and keys that are looked up. *)
Context (S : Bucket → string → Prop).

(** The key of the call is looked up in another bucket too. *)
Definition rival (c : call) : Prop := ∃ b, b ≠ cl_bucket c ∧ S b (cl_key c).

(** Every goroutine works for a lookup, and has met a rival when a type assertion failed. *)
Record told (s : state) : Prop := {
  to_sf : ∃ tr, Singleflight.run tr (st_sf s) ∧ ∀ b key, LEnter b key ∈ tr → S b key;
  to_points t p : st_gor s !! t = Some p →
    S (cl_bucket (call_of p)) (cl_key (call_of p)) ∧ (crashed p = true → rival (call_of p));
  to_panicked t c : st_gor s !! t = Some (Loading c) → threads (st_sf s) !! t = Some Panicked →
    rival c }.

Lemma move_told t p s : told s → S (cl_bucket (call_of p)) (cl_key (call_of p)) →
  (crashed p = true → rival (call_of p)) →
  (∀ c, p = Loading c → threads (st_sf s) !! t = None) → told (move t p s).
Proof.
  intros [(tr & Hrun & Hen) Hp Hpan] Hc Hcr Hn. split.
  - destruct p as [c|c now|c|c|c r|c r e|c r|c]; try by exists tr.
    exists (LEnter (cl_bucket c) (cl_key c) :: tr). split.
    + eapply Singleflight.run_step; [done|]. constructor. by eapply Hn.
    + intros b key [[= -> ->]|Hin]%elem_of_cons; [done|by apply Hen].
  - intros t' p'. cbn. intros [[<- <-]|[_ Ht']]%lookup_insert_Some; [done|by eapply Hp].
  - intros t' c. cbn. intros [[<- ->]|[Hne Ht']]%lookup_insert_Some.
    + cbn. by rewrite lookup_insert_eq.
    + intros Hq. apply (Hpan t'); [done|]. destruct p; cbn in Hq; try done.
      by rewrite lookup_insert_ne in Hq.
Qed.

Lemma step_told D l s s' : (0 ≤ D)%Z → inv D s → told s → step l s s' →
  (∀ b key, l = LCall b key → S b key) → told s'.
Proof.
  intros HD Hi Hse Hs Hl. pose proof (in_link D s Hi) as Hlk.
  pose proof Hse as [(tr & Hrun & Hen) Hp Hpan].
  destruct Hs as [s t b key Ht|s t Ht|s t c Ht|s t c now p started l t' Ht Ht' Hlook|s t c Ht
    |s l sf Hs Ha|s t c key r Ht Hr|s t c Ht Hr|s t c r Ht|s t c r expires l Ht Hput];
    try (destruct (Hp _ _ Ht) as [Hc Hcr]; cbn in Hc; pose proof (Hlk t) as Hn; rewrite Ht in Hn).
  - apply move_told; [done|by apply Hl|done..].
  - by split; [exists tr|..].
  - by apply move_told.
  - destruct (look_point D (st_clock s) _ c now p started l (inv_good D s _ Hi)
      (in_points D s Hi _ _ Ht) HD Hlook) as (_ & _ & Hk).
    assert (Hc' : call_of p = c) by (by eapply look_call).
    assert (Hse2 : told (with_bucket (cl_bucket c) l (move t p s))).
    { assert (Hse' : told (move t p s)) by (apply move_told; [done|by rewrite Hc'|by destruct p|done]).
      by destruct Hse'. }
    destruct started; [|done]. cbn [go_refresh]. apply move_told; [done|done|done|].
    intros c0 _. assert (Hne : t' ≠ t) by congruence. pose proof (Hlk t') as Hn'. rewrite Ht' in Hn'.
    destruct p; cbn; rewrite ?lookup_insert_ne by done; exact Hn'.
  - assert (Hse' : told (move t (Loading c) s)) by by apply move_told. by destruct Hse'.
  - split; [|done|].
    + exists (l :: tr). split; [by eapply Singleflight.run_step|].
      intros b key [<-|Hin]%elem_of_cons; [done|by apply Hen].
    + cbn. intros t c Ht Hq. pose proof (Hlk t) as Hn. rewrite Ht in Hn. destruct Hn as (q & Hq0 & Hc).
      destruct (step_panicked S tr l _ _ t Hrun Hen Hs Hq) as [Hold|(b & c0 & key & b' & Hw & Hne & HS)];
        [by eapply Hpan|]. rewrite Hw in Hq0. injection Hq0 as <-. destruct Hc as [-> ->]. by exists b'.
  - by apply move_told.
  - apply move_told; [done|done| |done]. intros _. by eapply Hpan.
  - by apply move_told.
  - assert (Hse' : told (move t (Done c r) s)) by by apply move_told. by destruct Hse'.
Qed.

Lemma run_told tr s : usable → run tr s → (∀ b key, LCall b key ∈ tr → S b key) → told s.
Proof.
  intros Hcfg Hrun. induction Hrun as [now|tr s l s' Hrun IH Hs]; intros HS.
  - split; [|intros t p|intros t c]; cbn; [|by rewrite lookup_empty..].
    exists []. split; [constructor|]. by intros b key ?%not_elem_of_nil.
  - destruct (run_some_inv tr s Hcfg Hrun) as (D & HD & Hi).
    eapply (step_told D); [done|done|apply IH; intros; apply HS; by right|done|].
    intros b key ->. apply HS. left.
Qed.
End told.

(** Every goroutine stays, with its call. *)
Lemma works_calls s s' t p : works s s' → st_gor s !! t = Some p →
  ∃ p', st_gor s' !! t = Some p' ∧ call_of p' = call_of p.
Proof.
  intros (l & Hs & _) Hp.
  destruct Hs as [s t0 b key Ht|s t0 Ht|s t0 c Ht|s t0 c now p0 started l t' Ht Ht' Hlook|s t0 c Ht
    |s l sf Hs Ha|s t0 c key r Ht Hr|s t0 c Ht Hr|s t0 c r Ht|s t0 c r expires l Ht Hput];
    try (by exists p);
    try (destruct (decide (t = t0)) as [->|Hne];
      [eexists; cbn; rewrite lookup_insert_eq; split; [done|]; by simplify_eq
      |exists p; cbn; by rewrite lookup_insert_ne]).
  assert (Hgo : ∃ p', st_gor (move t0 p0 s) !! t = Some p' ∧ call_of p' = call_of p).
  { destruct (decide (t = t0)) as [->|Hne].
    - exists p0. cbn. rewrite lookup_insert_eq. split; [done|]. simplify_eq. by eapply look_call.
    - exists p. cbn. by rewrite lookup_insert_ne. }
  destruct started; [|exact Hgo]. cbn [go_refresh move with_bucket st_gor] in Hgo |- *.
  rewrite lookup_insert_ne; [exact Hgo|]. intros ->. congruence.
Qed.

(** When every key is looked up in one bucket only, no type assertion fails: no lookup panics
    and no refresh takes the process down. *)
Theorem lookups_do_not_crash f tr s t c :
  usable → run tr s → (∀ b key, LCall b key ∈ tr → b = f key) →
  st_gor s !! t ≠ Some (Crashed c).
Proof.
  intros Hcfg Hrun Hf Ht. destruct (to_points _ s (run_told _ tr s Hcfg Hrun Hf) t _ Ht) as [Hc Hr].
  destruct (Hr eq_refl) as (b & Hne & ->). cbn in Hc, Hne. congruence.
Qed.


(** ** Schedules

    [exec] is the step of one action of a schedule, for a provider that may answer anything. *)
Inductive action : Type :=
  | DoCall (t : nat) (b : Bucket) (key : string) | DoTick (now : Time) | DoNow (t : nat)
  | DoLook (t t' : nat) | DoRemove (t : nat) | DoLead (t c : nat) | DoJoin (t : nat)
  | DoFetched (t : nat) (a : answer) | DoDelete (t : nat) | DoWake (t : nat)
  | DoLoaded (t : nat) | DoExpiry (t : nat) | DoPut (t : nat).

(** The steps inside [sf.do]. *)
Definition sf_exec (now : Time) (a : action) (sf : Singleflight.state stamped)
    : option (Singleflight.state stamped) :=
  match a with
  | DoLead t c =>
      match threads sf !! t with
      | Some (Start b key) =>
          match calls sf !! key, store sf !! c with
          | None, None => Some
              {| calls := <[ key := c ]> (calls sf);
                 store := <[ c := {| call_key := key; call_val := None |} ]> (store sf);
                 threads := <[ t := Fetching b c key ]> (threads sf) |}
          | _, _ => None
          end
      | _ => None
      end
  | DoJoin t =>
      match threads sf !! t with
      | Some (Start b key) => c ← calls sf !! key; Some (set_thread t (Waiting b c key) sf)
      | _ => None
      end
  | DoFetched t a =>
      match threads sf !! t with
      | Some (Fetching b c key) => if decide (ans_bucket a = b) then Some
          {| calls := calls sf;
             store := <[ c := {| call_key := key; call_val := Some (b, (a, now)) |} ]> (store sf);
             threads := <[ t := Deleting b c key (a, now) ]> (threads sf) |} else None
      | _ => None
      end
  | DoDelete t =>
      match threads sf !! t with
      | Some (Deleting b c key r) => Some
          {| calls := delete key (calls sf); store := store sf;
             threads := <[ t := Returned key r ]> (threads sf) |}
      | _ => None
      end
  | DoWake t =>
      match threads sf !! t with
      | Some (Waiting b c key) =>
          match store sf !! c with
          | Some {| call_key := _; call_val := Some (b', r) |} =>
              Some (set_thread t (if decide (b = b') then Returned key r else Panicked) sf)
          | _ => None
          end
      | _ => None
      end
  | _ => None
  end.

Definition exec (a : action) (s : state) : option (label * state) :=
  match a with
  | DoCall t b key =>
      match st_gor s !! t with
      | None => Some (LCall b key, move t (Entered {| cl_bucket := b; cl_key := key;
                  cl_start := st_clock s; cl_refresh := false |}) s)
      | Some _ => None
      end
  | DoTick now => if (st_clock s <=? now)%Z then Some (LTick, with_clock now s) else None
  | DoNow t =>
      match st_gor s !! t with
      | Some (Entered c) => Some (LInternal, move t (Looking c (st_clock s)) s)
      | _ => None
      end
  | DoLook t t' =>
      match st_gor s !! t, st_gor s !! t' with
      | Some (Looking c now), None =>
          '(p, started, l) ← look c now (st_buckets s (cl_bucket c));
          Some (LInternal, go_refresh started t' c (with_bucket (cl_bucket c) l (move t p s)))
      | _, _ => None
      end
  | DoRemove t =>
      match st_gor s !! t with
      | Some (Expired c) => Some (LInternal, with_bucket (cl_bucket c)
          (remove (cl_key c) (st_buckets s (cl_bucket c))) (move t (Loading c) s))
      | _ => None
      end
  | DoLoaded t =>
      match st_gor s !! t, threads (st_sf s) !! t with
      | Some (Loading c), Some (Returned _ r) => Some (LInternal, move t (Loaded c r) s)
      | Some (Loading c), Some Panicked => Some (LInternal, move t (Crashed c) s)
      | _, _ => None
      end
  | DoExpiry t =>
      match st_gor s !! t with
      | Some (Loaded c r) => Some (LExpiry r.2 (st_clock s),
          move t (Storing c r (st_clock s + ttlFor cfg (ans_err r.1))%Z) s)
      | _ => None
      end
  | DoPut t =>
      match st_gor s !! t with
      | Some (Storing c r e) =>
          l ← put (cl_key c) {| en_ans := r; en_expires := e |} (st_buckets s (cl_bucket c));
          Some (LInternal, with_bucket (cl_bucket c) l (move t (Done c r) s))
      | _ => None
      end
  | _ => sf ← sf_exec (st_clock s) a (st_sf s); Some (LInternal, with_sf sf s)
  end.

(** A schedule, with the labels of its steps, latest first. *)
Fixpoint exec_all (acts : list action) (tr : list label) (s : state) : option (list label * state) :=
  match acts with
  | [] => Some (tr, s)
  | a :: acts => '(l, s) ← exec a s; exec_all acts (l :: tr) s
  end.

Lemma sf_exec_step now a sf sf' : (∀ T b k a, answers T b k a) → sf_exec now a sf = Some sf' →
  ∃ l, Singleflight.step l sf sf' ∧ sf_allowed now l.
Proof.
  intros Hall. destruct a; cbn [sf_exec]; intros E; try done; destruct (threads sf !! t) as [[]|] eqn:Ht; try done.
  - destruct (calls sf !! key) eqn:Ek, (store sf !! c) eqn:Ec; try done. simplify_eq.
    exists LTau. split; [by eapply step_lead|done].
  - destruct (calls sf !! key) eqn:Ek; [|done]. cbn in E. simplify_eq.
    exists LTau. split; [by eapply step_join|done].
  - destruct (decide (ans_bucket a = b)) as [<-|]; [|done]. simplify_eq.
    exists (LFetched (ans_bucket a) key (a, now)). split; [by eapply step_fetched|by auto].
  - simplify_eq. exists LTau. split; [by eapply step_delete|done].
  - destruct (store sf !! c) as [[k [[b' r]|]]|] eqn:Ec; try done. simplify_eq.
    exists LTau. split; [by eapply step_wake|done].
Qed.

Lemma exec_step a s l s' : (∀ T b k a, answers T b k a) → exec a s = Some (l, s') → step l s s'.
Proof.
  intros Hall. destruct a; cbn [exec]; intros E;
    try (destruct (sf_exec _ _ _) eqn:Hsf; [|done]; cbn in E; simplify_eq;
         destruct (sf_exec_step _ _ _ _ Hall Hsf) as (l & ? & ?); by econstructor);
    repeat case_match; simplify_eq; try (by econstructor).
  - econstructor. by apply Z.leb_le.
  - destruct (look _ _ _) as [[[p st] l0]|] eqn:El; [|done]. cbn in E. simplify_eq. by econstructor.
  - destruct (put _ _ _) eqn:Ep; [|done]. cbn in E. simplify_eq. by econstructor.
Qed.

Lemma exec_all_run acts : ∀ tr s tr' s', (∀ T b k a, answers T b k a) → run tr s →
  exec_all acts tr s = Some (tr', s') → run tr' s'.
Proof.
  induction acts as [|a acts IH]; intros tr s tr' s' Hall Hrun E; cbn [exec_all] in E; [by simplify_eq|].
  destruct (exec a s) as [[l s1]|] eqn:Ea; [|done]. cbn in E.
  eapply IH; [done| |exact E]. eapply run_step; [exact Hrun|by eapply exec_step].
Qed.
End run.

(** [New] accepts usable configurations only. *)
Lemma New_usable {W} (w : W) cfg c : New w cfg = Some c → usable (ch_cfg c).
Proof.
  unfold New. destruct (_ || _) eqn:E; [done|]. intros [= <-]. bool_hyps. cbn.
  destruct (NegTTL cfg <=? 0)%Z eqn:En; bool_hyps; split; cbn; try lia.
  by apply Z.quot_pos; lia.
Qed.

(** ** Schedules of a cache of two entries per bucket *)
Definition cfg_ex : Config := {| Size := 2; TTL := 60; NegTTL := 30; StaleTTL := 30 |}%Z.
Definition anything (_ : Time) (_ : Bucket) (_ : string) (_ : answer) : Prop := True.
Definition schedule (acts : list action) : list label * state :=
  default ([], init cfg_ex 0%Z) (exec_all cfg_ex acts [] (init cfg_ex 0%Z)).

Lemma schedule_run acts : is_Some (exec_all cfg_ex acts [] (init cfg_ex 0%Z)) →
  run cfg_ex anything (schedule acts).1 (schedule acts).2.
Proof.
  intros [[tr s] E]. unfold schedule. rewrite E. eapply exec_all_run; [done|by constructor|exact E].
Qed.

(** A lookup that misses and is alone. *)
Definition miss (t c : nat) (b : Bucket) (key : string) (a : answer) : list action :=
  [DoCall t b key; DoNow t; DoLook t 100; DoLead t c; DoFetched t a; DoDelete t; DoLoaded t].
Definition store_it (t : nat) : list action := [DoExpiry t; DoPut t].
(** A lookup that finds an entry, and the goroutine of the refresh it may start. *)
Definition hit (t t' : nat) (b : Bucket) (key : string) : list action :=
  [DoCall t b key; DoNow t; DoLook t t'].

Definition no_domain : answer := ADomain (failed ErrNotFound).
Definition no_nameserver : answer := ANameserver (failed ErrNotFound).

(** A name that is looked up as a domain and as a nameserver, twice each, the second time
    within the stale window: the two refreshes meet in [sf.do], and the one that waits
    panics on the type of the answer, in a goroutine of its own, which ends the process. *)
Example refresh_crash_ex :
  let acts := miss 0 0 BDomains "ns1.example" no_domain ++ store_it 0 ++
    miss 1 1 BNameserver "ns1.example" no_nameserver ++ store_it 1 ++ [DoTick 40%Z] ++
    hit 2 3 BDomains "ns1.example" ++ hit 4 5 BNameserver "ns1.example" ++
    [DoLead 3 2; DoJoin 5; DoFetched 3 no_domain; DoWake 5; DoLoaded 5] in
  run cfg_ex anything (schedule acts).1 (schedule acts).2 ∧
  st_gor (schedule acts).2 !! 5%nat =
    Some (Crashed {| cl_bucket := BNameserver; cl_key := "ns1.example"; cl_start := 40%Z; cl_refresh := true |}).
Proof. cbv zeta. split; [apply schedule_run; vm_compute; eauto|vm_compute; reflexivity]. Qed.

(** A goroutine that is slow to store an answer overwrites a newer one: the lookup at 70 gets
    the answer of 0, although the provider's answer of 50 was in the cache for another 40. *)
Example late_put_ex (d : Domain) :
  let acts := miss 0 0 BDomains "a.example" no_domain ++ [DoTick 50%Z] ++
    miss 1 1 BDomains "a.example" (ADomain (found d)) ++ store_it 1 ++ store_it 0 ++ [DoTick 70%Z] ++
    hit 2 3 BDomains "a.example" in
  run cfg_ex anything (schedule acts).1 (schedule acts).2 ∧
  st_gor (schedule acts).2 !! 2%nat =
    Some (Done {| cl_bucket := BDomains; cl_key := "a.example"; cl_start := 70%Z; cl_refresh := false |}
            (no_domain, 0%Z)).
Proof. cbv zeta. split; [apply schedule_run; vm_compute; eauto|vm_compute; reflexivity]. Qed.

(** ** Witnesses *)
Definition two_lookups : list action :=
  miss 0 0 BDomains "a.example" no_domain ++ [DoTick 2%Z] ++ store_it 0 ++ hit 1 2 BDomains "a.example".

Lemma concurrent_lookups_witness :
  usable cfg_ex ∧ run cfg_ex anything (schedule two_lookups).1 (schedule two_lookups).2 ∧
  Forall (lag_within 2%Z) (schedule two_lookups).1 ∧
  ∃ c, st_gor (schedule two_lookups).2 !! 1%nat = Some (Done c (no_domain, 0%Z)) ∧
       (cl_start c ≤ 0 + 2 + NegTTL cfg_ex + 30)%Z.
Proof.
  assert (Hu : usable cfg_ex) by (split; discriminate).
  assert (Hr : run cfg_ex anything (schedule two_lookups).1 (schedule two_lookups).2)
    by (apply schedule_run; vm_compute; eauto).
  assert (Hl : Forall (lag_within 2%Z) (schedule two_lookups).1)
    by (vm_compute; repeat constructor; discriminate).
  split; [exact Hu|]. split; [exact Hr|]. split; [exact Hl|].
  eexists. split; [vm_compute; reflexivity|].
  destruct (concurrent_lookups cfg_ex anything 2%Z _ _ Hu ltac:(discriminate) Hr Hl) as [H1 _].
  apply (H1 1%nat _ no_domain 0%Z). vm_compute. reflexivity.
Defined.

Definition always_missing (_ : Time) (b : Bucket) (_ : string) : answer :=
  match b with
  | BDomains => ADomain (failed ErrNotFound) | BEntities => AEntity (failed ErrNotFound)
  | BNameserver => ANameserver (failed ErrNotFound) | BNetworks => ANetwork (failed ErrNotFound)
  end.

