(* ===== verification/CacheAlone.v ===== *)
(** * The record cache, one call at a time and under concurrency.

    Cache.v runs a lookup as one function of the bucket and the world, CacheRun.v as the
    steps of a goroutine.  A goroutine that nobody disturbs does what the function says. *)
From S2P Require Import Prelude DataSource LRU Singleflight Cache CacheRun.

Section alone.
Context {W V : Type} (now : W → Time) (cfg : Config) (fetch : W → res V * W).
Context (b : Bucket) (wrap : res V → answer).
Context (Hbucket : ∀ r, ans_bucket (wrap r) = b) (Herr : ∀ r, ans_err (wrap r) = r.2).

(** The entry of Cache.v and the one of CacheRun.v, which also knows when it was fetched. *)
Definition same_entry (c : cached V) (e : entry) : Prop :=
  (en_ans e).1 = wrap (ca_res c) ∧ en_expires e = ca_expires c.

(** The goroutine, and the one it may start, are new, and no call for the key is in flight. *)
Record undisturbed (t t' c : nat) (key : string) (s : state) : Prop := {
  un_new : st_gor s !! t = None;
  un_new' : st_gor s !! t' = None;
  un_two : t ≠ t';
  un_calls : calls (st_sf s) !! key = None;
  un_store : store (st_sf s) !! c = None }.

(** The actions of the goroutine: a lookup that is answered from the bucket, or one that
    leads the fetch of its key. *)
Definition answered (t t' : nat) (key : string) : list action := [DoCall t b key; DoNow t; DoLook t t'].
Definition loading (t c : nat) (then_ : Time) (a : answer) : list action :=
  [DoLead t c; DoTick then_; DoFetched t a; DoDelete t; DoLoaded t; DoExpiry t; DoPut t].

Definition the_call (key : string) (t0 : Time) (refresh : bool) : call :=
  {| cl_bucket := b; cl_key := key; cl_start := t0; cl_refresh := refresh |}.

(** What a call leaves of the rest of the state: the other buckets, the other goroutines, and
    the calls in flight. *)
Definition same_rest (ts : list nat) (s s' : state) : Prop :=
  (∀ b', b' ≠ b → st_buckets s' b' = st_buckets s b') ∧
  (∀ i, i ∉ ts → st_gor s' !! i = st_gor s !! i ∧ threads (st_sf s') !! i = threads (st_sf s) !! i) ∧
  calls (st_sf s') = calls (st_sf s).

Lemma exec_all_app acts1 acts2 : ∀ tr s,
  exec_all cfg (acts1 ++ acts2) tr s = '(tr, s) ← exec_all cfg acts1 tr s; exec_all cfg acts2 tr s.
Proof.
  induction acts1 as [|a acts1 IH]; intros tr s; cbn [exec_all app]; [done|].
  destruct (exec cfg a s) as [[l s1]|]; [|done]. apply IH.
Qed.

#[local] Ltac advance := cbn -[put get remove]; rewrite ?lookup_insert_eq.

(** The fetch, and what follows it. *)
Lemma exec_loading t c key t0 r0 bt lt w r b' w' s tr :
  st_gor s !! t = Some (Loading (the_call key t0 r0)) →
  threads (st_sf s) !! t = Some (Start b key) →
  calls (st_sf s) !! key = None → store (st_sf s) !! c = None →
  st_buckets s b = lt → lru_rel same_entry bt lt → (st_clock s ≤ now w')%Z →
  load now cfg fetch key bt w = Some (r, b', w') →
  ∃ tr' s', exec_all cfg (loading t c (now w') (wrap r)) tr s = Some (tr', s') ∧
    st_gor s' !! t = Some (Done (the_call key t0 r0) (wrap r, now w')) ∧
    lru_rel same_entry b' (st_buckets s' b) ∧ st_clock s' = now w' ∧ same_rest [t] s s'.
Proof using Hbucket Herr.
  intros Hg Ht Hc Hst El Hl Hw Ho. unfold load in Ho. destruct (fetch w) as [[v e] w1] eqn:Ef.
  destruct (put _ _ bt) as [b1|] eqn:Ep; [|done]. cbn in Ho. injection Ho as <- <- <-.
  pose proof (put_rel same_entry key (Build_cached v e (now w1 + ttlFor cfg e)%Z)
    {| en_ans := (wrap (v, e), now w1); en_expires := (now w1 + ttlFor cfg e)%Z |} bt lt Hl (conj eq_refl eq_refl)) as Hp.
  rewrite Ep in Hp. inversion Hp as [? lt' Hrel E1 E2|]; subst.
  unfold loading. advance. rewrite Ht, Hc, Hst. advance.
  destruct (Z.leb_spec (st_clock s) (now w1)); [|lia]. advance. rewrite decide_True by apply Hbucket.
  repeat (advance; rewrite ?Hg).
  rewrite Herr. cbn [snd]. rewrite <-E2.
  eexists _, _. split; [cbn [mbind option_bind]; reflexivity|].
  split_and!; cbn; [by rewrite lookup_insert_eq|by rewrite decide_True|done|].
  split_and!; cbn; [| |by rewrite delete_insert_id].
  - intros b' Hb. by rewrite decide_False.
  - intros i Hi%not_elem_of_cons. by rewrite !lookup_insert_ne by naive_solver.
Qed.

(** The goroutine up to its look into the bucket. *)
Lemma exec_answered t t' c key w s p (st : bool) l :
  undisturbed t t' c key s → st_clock s = now w →
  look cfg (the_call key (now w) false) (now w) (st_buckets s b) = Some (p, st, l) →
  p = Loading (the_call key (now w) false) ∨ (∀ c, p ≠ Loading c) →
  ∃ tr s1, exec_all cfg (answered t t' key) [] s = Some (tr, s1) ∧
    st_gor s1 !! t = Some p ∧
    st_gor s1 !! t' = (if st then Some (Loading (the_call key (now w) true)) else None) ∧
    st_clock s1 = now w ∧ st_buckets s1 b = l ∧ same_rest [t; t'] s s1 ∧
    store (st_sf s1) = store (st_sf s) ∧
    match p with Loading _ => threads (st_sf s1) !! t = Some (Start b key) | _ => True end.
Proof.
  intros [Hn Hn' Hne Hc Hst] Hclk E Hp.
  unfold answered. advance. rewrite Hn. advance. rewrite Hclk. advance.
  rewrite !lookup_insert_ne, Hn' by done. change (look _ _ _ _) with (look cfg (the_call key (now w) false) (now w) (st_buckets s b)).
  rewrite E. cbn [mbind option_bind]. eexists _, _. split; [reflexivity|].
  assert (Hrest : ∀ s2, (∀ b', st_buckets s2 b' = if decide (b' = b) then l else st_buckets s b') →
    (∀ i, i ≠ t → i ≠ t' → st_gor s2 !! i = st_gor s !! i ∧ threads (st_sf s2) !! i = threads (st_sf s) !! i) →
    calls (st_sf s2) = calls (st_sf s) → st_buckets s2 b = l ∧ same_rest [t; t'] s s2).
  { intros s2 Hb Hi Hcs. split; [by rewrite Hb, decide_True|]. split_and!; [|intros i; set_solver|done].
    intros b2 Hne2. by rewrite Hb, decide_False. }
  match goal with |- _ ∧ _ ∧ st_clock ?s2 = _ ∧ _ => assert (Hs2 : st_buckets s2 b = l ∧ same_rest [t; t'] s s2) end.
  { apply Hrest; (destruct Hp as [->|Hp]; [|destruct p; try (by destruct (Hp _ eq_refl))]); destruct st; cbn; try done;
      intros i Hi Hi'; by rewrite !lookup_insert_ne by done. }
  destruct Hs2 as [Hs2 Hs2'].
  destruct Hp as [->|Hp]; [|destruct p; try (by destruct (Hp _ eq_refl))]; destruct st; cbn -[same_rest] in Hs2, Hs2' |- *;
    rewrite ?Hclk in Hs2' |- *; split_and!; try done;
    by repeat first [rewrite lookup_insert_eq|rewrite lookup_insert_ne by done].
Qed.

Lemma same_rest_trans ts s s1 s2 t : t ∈ ts → same_rest ts s s1 → same_rest [t] s1 s2 → same_rest ts s s2.
Proof.
  intros Ht (Hb1 & Hi1 & Hc1) (Hb2 & Hi2 & Hc2). split_and!.
  - intros b2 Hb. by rewrite Hb2, Hb1.
  - intros i Hi. destruct (Hi1 i Hi) as [<- <-]. apply Hi2. set_solver.
  - by rewrite Hc2.
Qed.
Lemma load_world key l w r b' w' : load now cfg fetch key l w = Some (r, b', w') → w' = (fetch w).2.
Proof. unfold load. destruct (fetch w) as [[v e] w1]. destruct (put _ _ l); [|done]. by intros [= _ _ <-]. Qed.

(** From [s], the goroutine can go on to return [r], with the outcome of a call of Cache.v. *)
Definition returns (t t' : nat) (key : string) (t0 : Time) (s : state) (o : res V * bool * bucket V * W) : Prop :=
  let '(r, started, b', w') := o in
  ∃ acts tr s' T, exec_all cfg acts [] s = Some (tr, s') ∧
    st_gor s' !! t = Some (Done (the_call key t0 false) (wrap r, T)) ∧
    st_gor s' !! t' = (if started : bool then Some (Loading (the_call key t0 true)) else None) ∧
    lru_rel same_entry b' (st_buckets s' b) ∧ st_clock s' = now w' ∧ same_rest [t; t'] s s'.

(** The goroutine that has missed, once it is about to call [sf.do]. *)
Lemma exec_miss t t' c key w s acts tr s1 lt o :
  undisturbed t t' c key s → (now w ≤ now (fetch w).2)%Z → exec_all cfg acts [] s = Some (tr, s1) →
  st_gor s1 !! t = Some (Loading (the_call key (now w) false)) → st_gor s1 !! t' = None →
  threads (st_sf s1) !! t = Some (Start b key) → st_clock s1 = now w →
  store (st_sf s1) = store (st_sf s) → same_rest [t; t'] s s1 → lru_rel same_entry lt (st_buckets s1 b) →
  ('(r, b, w) ← load now cfg fetch key lt w; Some (r, false, b, w)) = Some o →
  returns t t' key (now w) s o.
Proof using Hbucket Herr.
  intros [Hn Hn' Hne Hc Hst] Hmono E1 H1 H1' Hth Hc1 Ht1 Hs1 Hr1 Hm.
  destruct (load now cfg fetch key lt w) as [[[r b'] w1]|] eqn:El; [|done]. cbn in Hm. injection Hm as <-.
  pose proof (load_world _ _ _ _ _ _ El) as ->.
  destruct (exec_loading t c key (now w) false lt (st_buckets s1 b) w r b' (fetch w).2 s1 tr)
    as (tr2 & s2 & E2 & H2 & Hr2 & Hc2 & Hs2); [done|done|by rewrite (proj2 (proj2 Hs1))|by rewrite Ht1|done|done|lia|done|].
  exists (acts ++ loading t c (now (fetch w).2) (wrap r)), tr2, s2, (now (fetch w).2).
  split; [by rewrite exec_all_app, E1|].
  split_and!; [done| |done|done|by eapply same_rest_trans, Hs2; [left|]].
  destruct Hs2 as (_ & Hi2 & _). by rewrite (proj1 (Hi2 t' ltac:(set_solver))).
Qed.

(** A goroutine that looks a key up while nobody else is at the key can go on to do what
    [getOrLoad] of Cache.v says, given the answer that the provider has for it: it returns
    that result, starts a refresh exactly then, and leaves that bucket and that time, and
    everything else as it was. *)
Theorem alone_getOrLoad t t' c key bt w o s :
  undisturbed t t' c key s → lru_rel same_entry bt (st_buckets s b) → st_clock s = now w →
  (now w ≤ now (fetch w).2)%Z →
  getOrLoad now cfg fetch key bt w = Some o → returns t t' key (now w) s o.
Proof using Hbucket Herr.
  intros Hund Hl Hclk Hmono Ho. pose proof Hund as [_ _ Hne _ _]. unfold getOrLoad in Ho. cbv zeta in Ho.
  pose proof (get_rel same_entry key bt (st_buckets s b) Hl) as Hg.
  destruct (get key bt) as [[v l1]|]; [|done]. destruct (get key (st_buckets s b)) as [[v' l1']|] eqn:Eg; [|done].
  destruct Hg as [Hv Hl1]. cbn [mbind option_bind] in Ho.
  pose proof (exec_answered t t' c key w s) as Hlook.
  unfold look in Hlook. cbn [the_call cl_key cl_bucket] in Hlook. rewrite Eg in Hlook. cbn [mbind option_bind] in Hlook.
  destruct Hv as [x e [He Hexp]|].
  2: { destruct (Hlook _ _ _ Hund Hclk eq_refl (or_introl eq_refl)) as (tr & s1 & E1 & H1 & H1' & Hc1 & Hb1 & Hs1 & Ht1 & Hth).
       by eapply (exec_miss t t' c key w s _ tr s1 l1); rewrite ?Hb1. }
  rewrite He, Hexp, decide_True in Hlook by apply Hbucket.
  assert (Hans : en_ans e = (wrap (ca_res x), (en_ans e).2)) by (rewrite <-He; by destruct (en_ans e)).
  destruct (Before (now w) (ca_expires x)); [|destruct ((0 <? StaleTTL cfg)%Z && _)].
  1,2: destruct (Hlook _ _ _ Hund Hclk eq_refl ltac:(by right)) as (tr & s1 & E1 & H1 & H1' & Hc1 & Hb1 & Hs1 & Ht1 & Hth);
    injection Ho as <-; exists (answered t t' key), tr, s1, (en_ans e).2;
    rewrite <-Hans, Hb1; by split_and!.
  destruct (Hlook _ _ _ Hund Hclk eq_refl ltac:(by right)) as (tr & s1 & E1 & H1 & H1' & Hc1 & Hb1 & Hs1 & Ht1 & Hth).
  eapply (exec_miss t t' c key w s (answered t t' key ++ [DoRemove t]) (LInternal :: tr)
    (with_bucket b (remove key (st_buckets s1 b)) (move t (Loading (the_call key (now w) false)) s1)) (remove key l1)); [done|done|..|exact Ho].
  - rewrite exec_all_app, E1. cbn -[remove]. by rewrite H1.
  - cbn. by rewrite lookup_insert_eq.
  - cbn. by rewrite lookup_insert_ne.
  - cbn. by rewrite lookup_insert_eq.
  - done.
  - done.
  - destruct Hs1 as (Hb2 & Hi2 & Hc2). split_and!; cbn; [| |done].
    + intros b2 Hb3. rewrite decide_False by done. by apply Hb2.
    + intros i Hi. rewrite !lookup_insert_ne by set_solver. by apply Hi2.
  - cbn. rewrite decide_True, Hb1 by done. by apply remove_rel.
Qed.

(** The goroutine of a refresh, once it is about to call [sf.do], does what [refreshAsync] says. *)
Theorem alone_refreshAsync t c key t0 bt w b' w' s :
  st_gor s !! t = Some (Loading (the_call key t0 true)) → threads (st_sf s) !! t = Some (Start b key) →
  calls (st_sf s) !! key = None → store (st_sf s) !! c = None →
  lru_rel same_entry bt (st_buckets s b) → (st_clock s ≤ now (fetch w).2)%Z →
  refreshAsync now cfg fetch key bt w = Some (b', w') →
  ∃ acts tr s', exec_all cfg acts [] s = Some (tr, s') ∧
    lru_rel same_entry b' (st_buckets s' b) ∧ st_clock s' = now w' ∧ same_rest [t] s s'.
Proof using Hbucket Herr.
  intros Hg Ht Hc Hst Hl Hmono Ho. unfold refreshAsync in Ho.
  destruct (load now cfg fetch key bt w) as [[[r b1] w1]|] eqn:El; [|done]. cbn in Ho. injection Ho as <- <-.
  pose proof (load_world _ _ _ _ _ _ El) as ->.
  destruct (exec_loading t c key t0 true bt (st_buckets s b) w r b1 (fetch w).2 s [])
    as (tr & s' & E & _ & Hr & Hclk & Hs); [done..|]. by eexists _, tr, s'.
Qed.
End alone.

(** The first lookup of a new cache is one of them. *)
Example alone_ex t0 :
  undisturbed 0 1 0 "a.example" (init cfg_ex t0) ∧
  lru_rel (same_entry ADomain) (newLRU (Size cfg_ex)) (st_buckets (init cfg_ex t0) BDomains) ∧
  (∀ r, ans_bucket (ADomain r) = BDomains ∧ ans_err (ADomain r) = r.2).
Proof. split_and!; [by split|apply newLRU_rel|done]. Qed.
