(* ===== verification/ResponseCache.v ===== *)
(** * The response cache of pkg/rdap/cache/response.go.

    Rendered bodies keyed by object class, identifier and access tier.  The code
    repeats the map-and-list structure of the record cache, so its operations are
    written over the structure of LRU.v; the clock is read once per operation and
    is an argument. *)
From S2P Require Import Prelude LRU.

Definition key : Type := string * string * string.

Record entry := { en_body : string; en_status : Z; en_headers : gmap string string;
                  en_expires : Time }.

Record ResponseCache := { rc_lru : lru key entry; rc_ttl : Duration }.

Definition NewResponseCache (size : Z) (ttl : Duration) : ResponseCache :=
  {| rc_lru := newLRU size; rc_ttl := ttl |}.

Definition with_lru (l : lru key entry) (r : ResponseCache) : ResponseCache :=
  {| rc_lru := l; rc_ttl := rc_ttl r |}.

(** A hit: body, status and headers. *)
Definition payload : Type := string * Z * gmap string string.
Definition payload_of (e : entry) : payload := (en_body e, en_status e, en_headers e).

(** The outer option is a panic, the inner one a miss. *)
Definition rc_Get (now : Time) (k : key) (r : ResponseCache)
    : option (option payload * ResponseCache) :=
  let l := rc_lru r in
  if (capacity l =? 0)%Z then Some (None, r) else
  match items l !! k with
  | None => Some (None, r)
  | Some el =>
      e ← Value (order l) el;
      if After now (en_expires (e_val e)) then
        Some (None, with_lru {| capacity := capacity l; items := delete k (items l);
                                order := list_Remove el (order l) |} r)
      else
        Some (Some (payload_of (e_val e)),
              with_lru {| capacity := capacity l; items := items l;
                          order := MoveToFront el (order l) |} r)
  end.

Definition rc_Put (now : Time) (k : key) (p : payload) (r : ResponseCache)
    : option ResponseCache :=
  let l := rc_lru r in
  if (capacity l =? 0)%Z then Some r else
  let '(body, status, headers) := p in
  let e := {| en_body := body; en_status := status; en_headers := headers;
              en_expires := (now + rc_ttl r)%Z |} in
  match items l !! k with
  | Some el =>
      Some (with_lru {| capacity := capacity l; items := items l;
                        order := MoveToFront el
                                   (SetValue el {| e_key := k; e_val := e |} (order l)) |} r)
  | None =>
      let '(el, o) := PushFront {| e_key := k; e_val := e |} (order l) in
      l ← evict (S (length (l_order o)))
            {| capacity := capacity l; items := <[ k := el ]> (items l); order := o |};
      Some (with_lru l r)
  end.

Definition rc_Len (r : ResponseCache) : Z := lru_len (rc_lru r).

(** * Theorems *)
Definition rc_inv (size : Z) (r : ResponseCache) : Prop :=
  linked (rc_lru r) ∧ capacity (rc_lru r) = size ∧ (0 ≤ size)%Z ∧ (rc_Len r ≤ size)%Z.

Lemma rc_Put_spec size now k p r : rc_inv size r → (0 < size)%Z →
  ∃ r', rc_Put now k p r = Some r' ∧ rc_inv size r' ∧ rc_ttl r' = rc_ttl r ∧
    abs (rc_lru r') = abs_put size k {| en_body := p.1.1; en_status := p.1.2; en_headers := p.2;
      en_expires := (now + rc_ttl r)%Z |} (abs (rc_lru r)).
Proof.
  intros (Hl & Hcap & Hc & Hlen) Hpos. unfold rc_Put, rc_Len in *.
  destruct (Z.eqb_spec (capacity (rc_lru r)) 0); [lia|].
  destruct p as [[body status] headers]; cbn [fst snd].
  set (e := {| en_body := body |}).
  destruct (put_spec k e (rc_lru r) Hl) as (l' & Hput & ? & ? & ? & ?); [lia..|].
  unfold put in Hput.
  destruct (items (rc_lru r) !! k) as [el|] eqn:Hk.
  - destruct (li_items _ Hl k el Hk) as (_ & v & Hv). unfold Value in Hput.
    rewrite Hv in Hput. cbn in Hput. injection Hput as Hput.
    rewrite Hput. eexists. split; [done|].
    rewrite Hcap in *. split_and!; try done; cbn; congruence || lia.
  - destruct (PushFront _ _) as [el o]. rewrite Hput. cbn.
    eexists. split; [done|]. rewrite Hcap in *. split_and!; try done; cbn; congruence || lia.
Qed.

Lemma rc_Get_spec size now k r : rc_inv size r → (0 < size)%Z →
  ∃ r', rc_inv size r' ∧ rc_ttl r' = rc_ttl r ∧
  match assoc k (abs (rc_lru r)) with
  | None => rc_Get now k r = Some (None, r') ∧ abs (rc_lru r') = abs (rc_lru r)
  | Some e =>
      if After now (en_expires e)
      then rc_Get now k r = Some (None, r') ∧ abs (rc_lru r') = without k (abs (rc_lru r))
      else rc_Get now k r = Some (Some (payload_of e), r') ∧
           abs (rc_lru r') = touch k (abs (rc_lru r))
  end.
Proof.
  intros (Hl & Hcap & Hc & Hlen) Hpos. unfold rc_Get, rc_Len in *.
  destruct (Z.eqb_spec (capacity (rc_lru r)) 0); [lia|].
  destruct (items (rc_lru r) !! k) as [el|] eqn:Hk.
  - destruct (li_items _ Hl k el Hk) as (Hel & v & Hv). unfold Value. rewrite Hv. cbn.
    rewrite (abs_assoc _ Hl k el v) by done.
    destruct (get_spec k (rc_lru r) Hl) as (l' & Hget & ? & ? & ? & ?).
    destruct (remove_spec k (rc_lru r) Hl) as (? & ? & ? & ?).
    unfold get, Value in Hget. rewrite Hk, Hv in Hget. cbn in Hget. injection Hget as _ Hget.
    assert (Hrem : remove k (rc_lru r) =
      {| capacity := capacity (rc_lru r); items := delete k (items (rc_lru r));
         order := list_Remove el (order (rc_lru r)) |}) by (unfold remove; by rewrite Hk).
    rewrite Hget, <-Hrem. destruct (After now (en_expires v)).
    + exists (with_lru (remove k (rc_lru r)) r). unfold rc_inv, rc_Len; cbn.
      split_and!; try done; congruence || lia.
    + exists (with_lru l' r). unfold rc_inv, rc_Len; cbn.
      split_and!; try done; congruence || lia.
  - rewrite (abs_assoc_None _ Hl k Hk). by exists r.
Qed.

Lemma NewResponseCache_inv size ttl : (0 ≤ size)%Z → rc_inv size (NewResponseCache size ttl).
Proof. intros Hs. split_and!; [apply newLRU_linked|done..]. Qed.

(** The puts of a history, latest first, and the latest one of a key. *)
Definition puts : Type := list (Time * key * payload).
Fixpoint latest (k : key) (l : puts) : option (Time * payload) :=
  match l with
  | [] => None
  | (t, k', p) :: l => if bool_decide (k' = k) then Some (t, p) else latest k l
  end.

Inductive rc_reach (size : Z) (ttl : Duration) : puts → ResponseCache → Prop :=
  | rc_init : rc_reach size ttl [] (NewResponseCache size ttl)
  | rc_put now k p l r r' : rc_reach size ttl l r → rc_Put now k p r = Some r' →
      rc_reach size ttl ((now, k, p) :: l) r'
  | rc_get now k l r o r' : rc_reach size ttl l r → rc_Get now k r = Some (o, r') →
      rc_reach size ttl l r'.

Definition from_puts (ttl : Duration) (l : puts) (ke : key * entry) : Prop :=
  ∃ t0, latest ke.1 l = Some (t0, payload_of ke.2) ∧ en_expires ke.2 = (t0 + ttl)%Z.

Lemma rc_reach_inv size ttl l r : (0 < size)%Z → rc_reach size ttl l r →
  rc_inv size r ∧ rc_ttl r = ttl ∧ Forall (from_puts ttl l) (abs (rc_lru r)).
Proof.
  intros Hpos. induction 1 as [|now k p l r r' _ (Hi & Ht & Hf) Hrun|now k l r o r' _ (Hi & Ht & Hf) Hrun].
  - split_and!; [apply NewResponseCache_inv; lia|done|constructor].
  - destruct (rc_Put_spec size now k p r Hi Hpos) as (r1 & E & Hi' & Ht' & Ha).
    rewrite Hrun in E. injection E as <-. split_and!; [done|congruence|].
    rewrite Ha. rewrite Forall_forall in Hf |- *. unfold abs_put.
    intros ke Hin. apply (subseteq_take (Z.to_nat size)) in Hin.
    apply elem_of_cons in Hin as [->|[Hne Hin]%list_elem_of_filter].
    + exists now. cbn. rewrite bool_decide_true, Ht by done. by destruct p as [[??]?].
    + destruct (Hf ke Hin) as (t0 & Hl & He). exists t0. cbn.
      by rewrite bool_decide_false.
  - destruct (rc_Get_spec size now k r Hi Hpos) as (r1 & Hi' & Ht' & Hcase).
    rewrite Forall_forall in Hf. rewrite Hrun in Hcase.
    destruct (assoc k (abs (rc_lru r))) as [e|] eqn:Ea; [destruct (After now (en_expires e))|];
      destruct Hcase as [[= _ ->] Ha]; split_and!; try done; try congruence;
      rewrite Ha; apply Forall_forall; intros ke Hin; apply Hf; [| |done].
    + by apply list_elem_of_filter in Hin as [_ ?].
    + unfold touch in Hin. rewrite Ea in Hin.
      apply elem_of_cons in Hin as [->|[_ ?]%list_elem_of_filter]; [by apply assoc_elem|done].
Qed.

(** C20: the response cache never crosses keys and never serves an expired body: in every
    history of a cache of positive size no operation panics and the size is never
    exceeded; a hit for an object class, identifier and tier is the body, status and
    headers of the latest put for exactly that triple, made at most [ttl] ago; right
    after a put, and until its expiry, the entry is a hit, and past it a miss.  A cache of
    size 0 never stores anything. *)
Theorem response_cache_sound size ttl l r now k :
  (0 < size)%Z → rc_reach size ttl l r →
  (rc_Len r ≤ size)%Z ∧
  (∃ o r', rc_Get now k r = Some (o, r') ∧
     ∀ p, o = Some p → ∃ t0, latest k l = Some (t0, p) ∧ (now ≤ t0 + ttl)%Z) ∧
  (∀ t0 p, ∃ r1, rc_Put t0 k p r = Some r1 ∧
     ∃ r2, rc_Get now k r1 = Some (if (now <=? t0 + ttl)%Z then Some p else None, r2)) ∧
  (∀ t0 p, rc_Put t0 k p (NewResponseCache 0 ttl) = Some (NewResponseCache 0 ttl) ∧
     rc_Get now k (NewResponseCache 0 ttl) = Some (None, NewResponseCache 0 ttl)).
Proof.
  intros Hpos Hr. destruct (rc_reach_inv size ttl l r Hpos Hr) as (Hi & Ht & Hf).
  split; [apply Hi|]. split; [|split; [|done]].
  - destruct (rc_Get_spec size now k r Hi Hpos) as (r1 & _ & _ & Hcase).
    destruct (assoc k (abs (rc_lru r))) as [e|] eqn:Ea.
    + rewrite Forall_forall in Hf. destruct (Hf (k, e) (assoc_elem _ _ _ Ea)) as (t0 & Hl & He).
      unfold After in Hcase. destruct (en_expires e <? now)%Z eqn:Ex; bool_hyps;
        destruct Hcase as [E _]; eexists _, r1; (split; [exact E|]); [done|].
      intros p [= <-]. exists t0. split; [done|]. cbn in He. lia.
    + destruct Hcase as [E _]. by exists None, r1.
  - intros t0 p. destruct (rc_Put_spec size t0 k p r Hi Hpos) as (r1 & E1 & Hi1 & Ht1 & Ha1).
    exists r1. split; [done|].
    destruct (rc_Get_spec size now k r1 Hi1 Hpos) as (r2 & _ & _ & Hcase).
    rewrite Ha1 in Hcase. unfold abs_put in Hcase.
    destruct (Z.to_nat size) eqn:En; [lia|]. cbn [take assoc] in Hcase.
    rewrite bool_decide_true in Hcase by done. unfold After in Hcase. cbn [en_expires] in Hcase.
    rewrite Ht, Z.ltb_antisym in Hcase. exists r2.
    destruct (now <=? t0 + ttl)%Z; destruct Hcase as [E2 _]; [|done].
    rewrite E2. by destruct p as [[??]?].
Qed.

Lemma response_cache_sound_witness :
  (0 < 2)%Z ∧ rc_reach 2 60%Z [] (NewResponseCache 2 60%Z) ∧
  ∃ r1, rc_Put 100%Z ("domain", "example.nl", "anonymous") ("{}", 200%Z, ∅)
          (NewResponseCache 2 60%Z) = Some r1 ∧
  ∃ r2, rc_Get 150%Z ("domain", "example.nl", "anonymous") r1 = Some (Some ("{}", 200%Z, ∅), r2).
Proof.
  split; [lia|]. split; [constructor|].
  apply (response_cache_sound 2 60%Z [] (NewResponseCache 2 60%Z) 150%Z
           ("domain", "example.nl", "anonymous") ltac:(lia) (rc_init 2 60%Z)).
Defined.
