(* ===== verification/Bootstrap.v ===== *)
(** * pkg/rdap/bootstrap: the RFC 7484 redirect registry.

    The HTTP client and the JSON decoder are not part of the repository: a fetch is
    the operation [http_Do] over a world, and [decode_json] its decoder. *)
From S2P Require Import Prelude GoStrings NetIP.

Definition DNSRegistryURL : string := "https://data.iana.org/rdap/dns.json".
Definition IPv4URL : string := "https://data.iana.org/rdap/ipv4.json".
Definition IPv6URL : string := "https://data.iana.org/rdap/ipv6.json".
Definition ASNURL : string := "https://data.iana.org/rdap/asn.json".

(** [fileFormat.Services]: each service is a list of lists, keys first, URLs second. *)
Definition services : Type := list (list (list string)).

Record ipEntry := { ip_prefix : Prefix; ip_urls : list string }.
Record Registry := {
  tldServers : gmap string (list string);
  ipv4Prefixes : list ipEntry;
  ipv6Prefixes : list ipEntry }.

Definition New : Registry := {| tldServers := ∅; ipv4Prefixes := []; ipv6Prefixes := [] |}.

Record response := { StatusCode : Z; Body : string }.

Section registry.
Context `{GoUnicode} `{NetIPText}.

(** The key and value lists of a service with at least two members. *)
Definition service_pairs (svc : list (list string)) : list (string * list string) :=
  match svc with
  | keys :: urls :: _ => (λ k, (k, urls)) <$> keys
  | _ => []
  end.

Definition parsePrefixes (svcs : services) : list ipEntry :=
  flat_map (λ svc, omap (λ kv, match ParsePrefix kv.1 with
                               | Some p => Some {| ip_prefix := p; ip_urls := kv.2 |}
                               | None => None
                               end) (service_pairs svc)) svcs.

Definition tld_map (svcs : services) : gmap string (list string) :=
  foldl (λ m kv, <[ ToLower kv.1 := kv.2 ]> m) ∅ (flat_map service_pairs svcs).

Section refresh.
Context {W : Type} (http_Do : string → W → (response + error) * W).
Context (decode_json : string → services + error).

Definition fetch (url : string) (w : W) : (services + error) * W :=
  let '(r, w) := http_Do url w in
  match r with
  | inr e => (inr e, w)
  | inl resp =>
      if negb (StatusCode resp =? 200)%Z
      then (inr (ErrOther ("status " +:+ Itoa (StatusCode resp))), w)
      else (decode_json (Body resp), w)
  end.

Definition Refresh (r : Registry) (w : W) : option error * Registry * W :=
  let '(dns, w) := fetch DNSRegistryURL w in
  match dns with
  | inr e => (Some (Wrap "bootstrap dns: " e), r, w)
  | inl dns =>
      let '(v4, w) := fetch IPv4URL w in
      match v4 with
      | inr e => (Some (Wrap "bootstrap ipv4: " e), r, w)
      | inl v4 =>
          let '(v6, w) := fetch IPv6URL w in
          match v6 with
          | inr e => (Some (Wrap "bootstrap ipv6: " e), r, w)
          | inl v6 =>
              (None, {| tldServers := tld_map dns; ipv4Prefixes := parsePrefixes v4;
                        ipv6Prefixes := parsePrefixes v6 |}, w)
          end
      end
  end.
End refresh.

(** [for i := range labels]: the zones of the name, longest first. *)
Fixpoint walk (m : gmap string (list string)) (labels : list string) : list string :=
  match labels with
  | [] => []
  | _ :: rest =>
      match m !! Join labels "." with
      | Some srv => srv
      | None => walk m rest
      end
  end.
Definition DomainServers (name : string) (r : Registry) : list string :=
  walk (tldServers r) (Split (ToLower (TrimSuffix1 name ".")) ".").

Fixpoint first_entry (ip : Addr) (l : list ipEntry) : list string :=
  match l with
  | [] => []
  | e :: l => if pfx_Contains (ip_prefix e) ip then ip_urls e else first_entry ip l
  end.
Definition IPServers (ip : Addr) (r : Registry) : list string :=
  let pool := if addr_Is4 ip then ipv4Prefixes r else ipv6Prefixes r in
  first_entry ip pool.
End registry.

(** * Theorems *)

(** [z] is a zone of the name [s]: [s] itself or what follows one of its dots. *)
Definition zone_of (z s : string) : Prop := z = s ∨ ∃ p, s = p +:+ String "." z.

Definition dot : ascii := ".".
Definition dot_free (l : string) : Prop := str_forall (λ c, negb (Ascii.eqb c dot)) l = true.

Lemma Split_dot_free s : Forall dot_free (Split s dot).
Proof.
  induction s as [|c s IH]; cbn [Split]; [by repeat constructor|].
  destruct (Ascii.eqb c dot) eqn:E; [by constructor|].
  destruct (Split s dot) as [|f r]; [by repeat constructor; unfold dot_free; cbn; rewrite E|].
  apply Forall_cons in IH as [Hf Hr]. constructor; [|done].
  unfold dot_free in *. cbn. by rewrite E.
Qed.

(** The first dot of a text with a dot-free label in front is the one after the label. *)
Lemma label_split l j p z : dot_free l →
  l +:+ String dot j = p +:+ String dot z →
  z = j ∨ ∃ p', j = p' +:+ String dot z.
Proof.
  unfold dot_free. revert p. induction l as [|a l IH]; intros [|b p]; cbn [str_forall].
  - intros _ [= ->]. by left.
  - intros _ E. injection E as <- E. right. by exists p.
  - intros Hl E. injection E as -> E. by rewrite Ascii.eqb_refl in Hl.
  - intros [_ Hl]%andb_true_iff E. injection E as <- E. by apply (IH p).
Qed.

Lemma zone_of_cons l j z : dot_free l →
  zone_of z (l +:+ String dot j) ↔ z = l +:+ String dot j ∨ zone_of z j.
Proof.
  intros Hl. unfold zone_of. split.
  - intros [->|[p E]]; [by left|]. right.
    destruct (label_split l j p z Hl E) as [->|[p' ->]]; [by left|right; by exists p'].
  - intros [->|[->|[p ->]]]; [by left|right; by exists l|].
    right. exists (l +:+ String dot p). by rewrite <-str_app_assoc.
Qed.

Lemma zone_of_label l z : dot_free l → zone_of z l ↔ z = l.
Proof.
  intros Hl. split; [|by left]. intros [->|[p ->]]; [done|].
  unfold dot_free in Hl. rewrite str_forall_app in Hl. apply andb_true_iff in Hl as [_ Hl].
  cbn in Hl. done.
Qed.

Lemma zone_of_length z s : zone_of z s → (String.length z ≤ String.length s)%nat.
Proof. intros [->|[p ->]]; [done|]. rewrite str_length_app. cbn. lia. Qed.

(** The outcome of a search for the longest registered zone. *)
Definition longest_zone (m : gmap string (list string)) (s : string) (o : list string) : Prop :=
  (∃ z, zone_of z s ∧ m !! z = Some o ∧
        ∀ z', zone_of z' s → m !! z' ≠ None → (String.length z' ≤ String.length z)%nat) ∨
  (o = [] ∧ ∀ z, zone_of z s → m !! z = None).

Lemma walk_longest m labels : labels ≠ [] → Forall dot_free labels →
  longest_zone m (Join labels (String dot "")) (walk m labels).
Proof.
  induction labels as [|l labels IH]; [done|]. intros _ [Hl Hls]%Forall_cons.
  cbn [walk]. change "." with (String dot "").
  destruct (m !! Join (l :: labels) (String dot "")) as [srv|] eqn:Em.
  - left. eexists. split_and!; [by left|exact Em|]. intros z' Hz' _. by apply zone_of_length.
  - destruct labels as [|l2 labels]; cbn [Join walk] in *.
    + right. split; [done|]. intros z Hz. by apply zone_of_label in Hz as ->.
    + specialize (IH ltac:(done) Hls). set (j := Join (l2 :: labels) (String dot "")) in *.
      change (l +:+ String dot "" +:+ j) with (l +:+ String dot j) in *.
      destruct IH as [(z & Hz & Hm & Hmax)|[-> Hnone]].
      * left. exists z. split_and!; [apply zone_of_cons; [done|by right]|done|].
        intros z' [->|Hz']%zone_of_cons Hne; [destruct Hne; exact Em|by apply Hmax|done].
      * right. split; [done|]. intros z [->|Hz]%zone_of_cons; [done|by apply Hnone|done].
Qed.

Section theorems.
Context `{GoUnicode} `{NetIPText}.

(** C39: the redirect servers of a name are those of its longest registered zone: of the
    name itself (without a final dot, in lower case) or of the part after one of its
    dots, the longest one that the registry lists; none when no zone is listed. *)
Theorem DomainServers_longest name r :
  longest_zone (tldServers r) (ToLower (TrimSuffix1 name dot)) (DomainServers name r).
Proof.
  unfold DomainServers. change "."%char with dot. set (s := ToLower (TrimSuffix1 name dot)).
  rewrite <-(Split_Join s dot) at 1. apply walk_longest; [apply Split_not_nil|].
  apply Split_dot_free.
Qed.

Lemma first_entry_cases ip l :
  (∃ e, e ∈ l ∧ pfx_Contains (ip_prefix e) ip = true ∧ first_entry ip l = ip_urls e) ∨
  (first_entry ip l = [] ∧ ∀ e, e ∈ l → pfx_Contains (ip_prefix e) ip = false).
Proof.
  induction l as [|e l IH]; cbn; [right; by split; [|intros e ?%not_elem_of_nil]|].
  destruct (pfx_Contains (ip_prefix e) ip) eqn:E; [left; exists e; set_solver|].
  destruct IH as [(e' & ? & ? & ?)|[? ?]]; [left; exists e'; set_solver|right; set_solver].
Qed.

Lemma elem_of_parsePrefixes e svcs :
  e ∈ parsePrefixes svcs ↔
  ∃ svc k, svc ∈ svcs ∧ (k, ip_urls e) ∈ service_pairs svc ∧ ParsePrefix k = Some (ip_prefix e).
Proof.
  unfold parsePrefixes. rewrite list_elem_of_In, in_flat_map. split.
  - intros (svc & Hs%list_elem_of_In & He%list_elem_of_In).
    apply list_elem_of_omap in He as ([k urls] & Hk & He).
    exists svc, k. cbn in He. destruct (ParsePrefix k) as [p|] eqn:Ep; [|done].
    injection He as <-. done.
  - intros (svc & k & Hs & Hk & Ep). exists svc. rewrite <-!list_elem_of_In. split; [done|].
    apply list_elem_of_omap. exists (k, ip_urls e). split; [done|]. cbn. rewrite Ep. by destruct e.
Qed.

(** The last of the pairs of a file whose key is [k] up to case. *)
Definition last_listed (svcs : services) (k : string) : option (list string) :=
  last (omap (λ kv : string * list string, if (ToLower kv.1 =? k)%string then Some kv.2 else None)
          (flat_map service_pairs svcs)).

Lemma tld_map_lookup svcs k : tld_map svcs !! k = last_listed svcs k.
Proof.
  unfold tld_map, last_listed. induction (flat_map service_pairs svcs) as [|kv l IH] using rev_ind;
    [done|].
  rewrite foldl_app, omap_app. cbn.
  destruct (String.eqb_spec (ToLower kv.1) k) as [<-|Hne].
  - by rewrite lookup_insert_eq, last_snoc.
  - rewrite lookup_insert_ne by done. by rewrite (right_id_L [] (++)).
Qed.

(** A refresh is all or nothing and loads what the files list: when a fetch fails
    (transport, a status other than 200, or the decoder) it reports an error and the
    registry keeps its data; otherwise every zone maps to the URLs of the last service
    that lists it (up to case), and the servers of an address are the URLs of a listed
    prefix of its family file that contains it, none when no listed prefix does. *)
Theorem Refresh_loads {W} (http_Do : string → W → (response + error) * W) decode r w :
  match Refresh http_Do decode r w with
  | (Some _, r', _) => r' = r
  | (None, r', w') => ∃ dns v4 v6 w1 w2,
      fetch http_Do decode DNSRegistryURL w = (inl dns, w1) ∧
      fetch http_Do decode IPv4URL w1 = (inl v4, w2) ∧
      fetch http_Do decode IPv6URL w2 = (inl v6, w') ∧
      (∀ k, tldServers r' !! k = last_listed dns k) ∧
      (∀ ip, let file := if addr_Is4 ip then v4 else v6 in
         (∃ svc k urls p, svc ∈ file ∧ (k, urls) ∈ service_pairs svc ∧
            ParsePrefix k = Some p ∧ pfx_Contains p ip = true ∧ IPServers ip r' = urls) ∨
         (IPServers ip r' = [] ∧ ∀ svc k urls p, svc ∈ file → (k, urls) ∈ service_pairs svc →
            ParsePrefix k = Some p → pfx_Contains p ip = false))
  end.
Proof.
  unfold Refresh. destruct (fetch http_Do decode DNSRegistryURL w) as [[dns|e] w1] eqn:E1; [|done].
  destruct (fetch http_Do decode IPv4URL w1) as [[v4|e] w2] eqn:E2; [|done].
  destruct (fetch http_Do decode IPv6URL w2) as [[v6|e] w3] eqn:E3; [|done].
  exists dns, v4, v6, w1, w2. split_and!; try done; [apply tld_map_lookup|].
  intros ip. unfold IPServers; cbn.
  replace (if addr_Is4 ip then parsePrefixes v4 else parsePrefixes v6)
    with (parsePrefixes (if addr_Is4 ip then v4 else v6)) by (by destruct (addr_Is4 ip)).
  set (file := if addr_Is4 ip then v4 else v6).
  destruct (first_entry_cases ip (parsePrefixes file)) as [(e & He & Hc & Hf)|[Hf Hn]].
  - left. apply elem_of_parsePrefixes in He as (svc & k & ? & ? & ?).
    by exists svc, k, (ip_urls e), (ip_prefix e).
  - right. split; [done|]. intros svc k urls p Hs Hk Hp.
    apply (Hn {| ip_prefix := p; ip_urls := urls |}), elem_of_parsePrefixes. by exists svc, k.
Qed.
End theorems.
