(* ===== verification/Http.v ===== *)
(** * The part of net/http the handlers use.

    A handler is a function of the request that yields what it does to its
    [http.ResponseWriter], in order, and the next state of the world: no handler
    of the repository reads from the writer it is given, so the same operations
    can be replayed on the server's writer or on a wrapping one.  [serve] is the
    server's writer. *)
From S2P Require Import Prelude GoStrings NetIP Auth Types.

Record Request := {
  r_Method : string;
  r_EscapedPath : string;               (* r.URL.EscapedPath() *)
  r_Query : list (string * string);     (* r.URL.Query(), in order *)
  r_RequestURI : string;                (* r.URL.RequestURI() *)
  r_Header : gmap string string;        (* canonical keys, first values *)
  r_ContentLength : Z;
  r_RemoteAddr : string;                (* host:port of the peer *)
  r_Context : Context }.

(** [h.Get(k)], [vals.Get(k)]: the empty string when there is no value. *)
Definition header_Get (k : string) (h : gmap string string) : string := default "" (h !! k).
Fixpoint query_Get (k : string) (q : list (string * string)) : string :=
  match q with
  | [] => ""
  | (k', v) :: q => if (k' =? k)%string then v else query_Get k q
  end.

(** [url.PathUnescape]; [None] on a malformed escape. *)
Fixpoint PathUnescape (s : string) : option string :=
  match s with
  | "" => Some ""
  | String "%" (String a (String b s')) =>
      x ← hex_val a; y ← hex_val b; t ← PathUnescape s';
      Some (String (ascii_of_N (Z.to_N (x * 16 + y))) t)
  | String "%" _ => None
  | String c s' => t ← PathUnescape s'; Some (String c t)
  end.
(** [r.URL.Path]: the server only accepts requests whose path unescapes. *)
Definition r_Path (r : Request) : string :=
  default (r_EscapedPath r) (PathUnescape (r_EscapedPath r)).
(** A path value: the unescaped segment, or the segment itself. *)
Definition path_value (seg : string) : string := default seg (PathUnescape seg).

Definition StatusOK : Z := 200.
Definition StatusFound : Z := 302.
Definition StatusNotModified : Z := 304.
Definition StatusBadRequest : Z := 400.
Definition StatusForbidden : Z := 403.
Definition StatusNotFound : Z := 404.
Definition StatusMethodNotAllowed : Z := 405.
Definition StatusNotAcceptable : Z := 406.
Definition StatusTooManyRequests : Z := 429.
Definition StatusInternalServerError : Z := 500.
Definition StatusNotImplemented : Z := 501.

(** ** Writers *)
Inductive wop : Type :=
  | HeaderSet (k v : string)        (* w.Header().Set(k, v) *)
  | HeaderAdd (k v : string)        (* w.Header().Add(k, v) *)
  | HeaderDel (k : string)          (* w.Header().Del(k) *)
  | WriteHeader (code : Z)
  | Write (p : string).

Record ResponseWriter := {
  rw_header : gmap string string;            (* the live header map *)
  rw_status : option Z;                      (* the status line, once sent *)
  rw_sent : gmap string string;              (* the headers that were sent with it *)
  rw_body : string }.
Definition rw_new : ResponseWriter :=
  {| rw_header := ∅; rw_status := None; rw_sent := ∅; rw_body := "" |}.

Definition rw_set_header (h : gmap string string) (w : ResponseWriter) : ResponseWriter :=
  {| rw_header := h; rw_status := rw_status w; rw_sent := rw_sent w; rw_body := rw_body w |}.
(** Only the first call has an effect. *)
Definition rw_WriteHeader (code : Z) (w : ResponseWriter) : ResponseWriter :=
  match rw_status w with
  | Some _ => w
  | None => {| rw_header := rw_header w; rw_status := Some code; rw_sent := rw_header w;
               rw_body := rw_body w |}
  end.
(** An implicit 200 when no status was written. *)
Definition rw_Write (p : string) (w : ResponseWriter) : ResponseWriter :=
  let w := rw_WriteHeader StatusOK w in
  {| rw_header := rw_header w; rw_status := rw_status w; rw_sent := rw_sent w;
     rw_body := rw_body w +:+ p |}.
(** Several values of a key are joined here, which is how they are read back. *)
Definition header_Add (k v : string) (h : gmap string string) : gmap string string :=
  match h !! k with
  | Some old => <[ k := old +:+ ", " +:+ v ]> h
  | None => <[ k := v ]> h
  end.

Definition apply_op (w : ResponseWriter) (o : wop) : ResponseWriter :=
  match o with
  | HeaderSet k v => rw_set_header (<[ k := v ]> (rw_header w)) w
  | HeaderAdd k v => rw_set_header (header_Add k v (rw_header w)) w
  | HeaderDel k => rw_set_header (delete k (rw_header w)) w
  | WriteHeader code => rw_WriteHeader code w
  | Write p => rw_Write p w
  end.
Definition serve (ops : list wop) (w : ResponseWriter) : ResponseWriter := foldl apply_op w ops.

(** The live header map after some operations on a writer whose headers are [h]. *)
Definition live_headers (h : gmap string string) (ops : list wop) : gmap string string :=
  rw_header (serve ops (rw_set_header h rw_new)).

Definition Handler (W : Type) : Type := Request → W → list wop * W.

(** ** Response bodies

    The wire objects a handler encodes; their text is [encoding/json]'s, and no
    theorem depends on it. *)
Record versioningEntry := { ve_Version : string; ve_Description : string;
                            ve_Extensions : list string }.
Inductive content : Type :=
  | CDomain (d : Types.Domain)
  | CEntity (e : Types.Entity)
  | CNameserver (n : Types.Nameserver)
  | CIPNetwork (n : Types.IPNetwork)
  | CError (e : ErrorResponse)
  | CHelp (c : Common) (v : list versioningEntry)
  | CDomainSearch (r : DomainSearchResults)
  | CEntitySearch (r : EntitySearchResults)
  | CNameserverSearch (r : NameserverSearchResults).

(** encoding/json on these objects.  The empty text stands for an object it refuses (a time
    past the year 9999): the handlers drop that error and nothing is written. *)
Class JSONEncoder := { json_Encode : content → string }.

Lemma serve_app a b w : serve (a ++ b) w = serve b (serve a w).
Proof. unfold serve. apply foldl_app. Qed.

Lemma serve_status_kept ops w s : rw_status w = Some s →
  rw_status (serve ops w) = Some s ∧ rw_sent (serve ops w) = rw_sent w.
Proof.
  revert w. induction ops as [|o ops IH]; intros w Hs; [done|].
  change (serve (o :: ops) w) with (serve ops (apply_op w o)).
  destruct (IH (apply_op w o)) as [-> ->].
  - destruct o; cbn; try done; unfold rw_WriteHeader; by rewrite Hs.
  - split; [done|]. destruct o; cbn; try done; unfold rw_Write, rw_WriteHeader; by rewrite Hs.
Qed.

(** ** Facts about writers *)
Lemma serve_header ops w : rw_header (serve ops w) = live_headers (rw_header w) ops.
Proof.
  unfold live_headers. assert (Hg : ∀ w1 w2, rw_header w1 = rw_header w2 →
    rw_header (serve ops w1) = rw_header (serve ops w2)).
  { induction ops as [|o ops IH]; intros w1 w2 Hw; [done|]. cbn. apply IH.
    destruct o; cbn; unfold rw_Write, rw_WriteHeader; repeat case_match; cbn; congruence. }
  by apply Hg.
Qed.

Lemma live_headers_app h a b : live_headers h (a ++ b) = live_headers (live_headers h a) b.
Proof.
  change (live_headers h (a ++ b)) with (rw_header (serve (a ++ b) (rw_set_header h rw_new))).
  by rewrite serve_app, !serve_header.
Qed.

Definition is_header (o : wop) : Prop :=
  match o with HeaderSet _ _ | HeaderAdd _ _ | HeaderDel _ => True | _ => False end.

Lemma serve_headers hs w : Forall is_header hs →
  serve hs w = rw_set_header (live_headers (rw_header w) hs) w.
Proof.
  revert w. induction hs as [|o hs IH]; intros w Hh; [by destruct w|].
  apply Forall_cons in Hh as [Ho Hh]. change (serve (o :: hs) w) with (serve hs (apply_op w o)).
  rewrite IH by done.
  change (o :: hs) with ([o] ++ hs). rewrite live_headers_app.
  destruct o; try done; destruct w; reflexivity.
Qed.

(** The responses a handler of this server writes: headers, a status, a body. *)
Definition concat_str (l : list string) : string := foldr (λ a b, a +:+ b) "" l.
Definition plain_ops (hs : list wop) (code : Z) (bs : list string) : list wop :=
  hs ++ WriteHeader code :: map Write bs.

Lemma serve_writes bs w : is_Some (rw_status w) →
  serve (map Write bs) w =
  {| rw_header := rw_header w; rw_status := rw_status w; rw_sent := rw_sent w;
     rw_body := rw_body w +:+ concat_str bs |}.
Proof.
  revert w. induction bs as [|b bs IH]; intros w Hw; cbn [map concat_str foldr].
  - rewrite str_app_nil_r. by destruct w.
  - destruct Hw as [c Hc].
    change (serve (Write b :: map Write bs) w) with (serve (map Write bs) (rw_Write b w)).
    assert (E : rw_Write b w = {| rw_header := rw_header w; rw_status := rw_status w;
      rw_sent := rw_sent w; rw_body := rw_body w +:+ b |})
      by (destruct w as [? st ? ?]; cbn in Hc; subst st; reflexivity).
    rewrite E, IH by (by exists c). cbn. by rewrite str_app_assoc.
Qed.

Lemma serve_plain hs code bs h : Forall is_header hs →
  serve (plain_ops hs code bs) (rw_set_header h rw_new) =
  {| rw_header := live_headers h hs; rw_status := Some code; rw_sent := live_headers h hs;
     rw_body := concat_str bs |}.
Proof.
  intros Hh. unfold plain_ops. rewrite serve_app, (serve_headers hs) by done.
  change (WriteHeader code :: map Write bs) with ([WriteHeader code] ++ map Write bs).
  rewrite serve_app, serve_writes by (exists code; reflexivity). reflexivity.
Qed.

Lemma live_headers_write h ops bs code :
  live_headers h (ops ++ WriteHeader code :: map Write bs) = live_headers h ops.
Proof.
  rewrite live_headers_app. set (h' := live_headers h ops).
  change (live_headers h' (WriteHeader code :: map Write bs)) with
    (rw_header (serve ([WriteHeader code] ++ map Write bs) (rw_set_header h' rw_new))).
  rewrite serve_app, serve_writes by (exists code; reflexivity). reflexivity.
Qed.

(** The keys a handler of the server may set. *)
Definition own_key (k : string) : Prop :=
  k ∈ ["Content-Type"; "Cache-Control"; "Location"; "X-Gordap-Cache"; "Connection"].
#[global] Instance own_key_dec k : Decision (own_key k).
Proof. unfold own_key. apply _. Defined.
Definition own_header (o : wop) : Prop :=
  match o with HeaderSet k _ => own_key k | _ => False end.
(** A response: headers of these keys, a status, then the body. *)
Definition tame (ops : list wop) : Prop :=
  ∃ hs code bs, ops = plain_ops hs code bs ∧ Forall own_header hs.

Lemma own_is_header hs : Forall own_header hs → Forall is_header hs.
Proof. intros Hh. eapply Forall_impl; [exact Hh|]. by intros []. Qed.

Lemma live_headers_other h hs k :
  Forall own_header hs → ¬ own_key k → live_headers h hs !! k = h !! k.
Proof.
  intros Hh Hk. induction hs as [|o hs IH] using rev_ind; [done|].
  apply Forall_app in Hh as [Hh Ho]. apply Forall_cons in Ho as [Ho _].
  rewrite live_headers_app. destruct o as [k' v| | | |]; try done. cbn.
  rewrite lookup_insert_ne by (by intros ->). by apply IH.
Qed.

Lemma live_headers_own h1 h2 hs k :
  Forall own_header hs → h1 !! k = h2 !! k → live_headers h1 hs !! k = live_headers h2 hs !! k.
Proof.
  intros Hh Hk. induction hs as [|o hs IH] using rev_ind; [done|].
  apply Forall_app in Hh as [Hh Ho]. apply Forall_cons in Ho as [Ho _].
  rewrite !live_headers_app. destruct o as [k' v| | | |]; try done. cbn.
  destruct (decide (k' = k)) as [->|Hne]; [by rewrite !lookup_insert_eq|].
  rewrite !lookup_insert_ne by done. by apply IH.
Qed.

Example unescape_ex :
  PathUnescape <$> ["/domain/b%C3%BCcher.example"; "a%2Fb"; "%4"; "%zz"] =
  [Some "/domain/bücher.example"; Some "a/b"; None; None].
Proof. vm_compute. reflexivity. Qed.
