(* ===== verification/Middleware.v ===== *)
(** * pkg/rdap/middleware: compression, CORS and hardening.

    A middleware turns a handler into a handler.  One that looks at the response
    headers is given the header map of the writer it is handed, [h]; what it writes
    is again a list of operations on that writer, and [None] is a panic.  Compression itself is the class
    [GzipCodec]. *)
From S2P Require Import Prelude GoStrings NetIP Auth Types Http.

Definition Middleware (W : Type) : Type :=
  gmap string string → Request → W → option (list wop * W).

Definition StatusNoContent : Z := 204.
Definition StatusRequestEntityTooLarge : Z := 413.

(** [http.Error] *)
Definition http_Error (msg : string) (code : Z) : list wop :=
  [HeaderDel "Content-Length"; HeaderSet "Content-Type" "text/plain; charset=utf-8";
   HeaderSet "X-Content-Type-Options" "nosniff"; WriteHeader code;
   Write (msg +:+ String "010" "")].

(** ** gzip.go *)
Class GzipCodec := {
  gzip_compress : string → string;
  gzip_decompress : string → option string;
  gzip_roundtrip : ∀ s, gzip_decompress (gzip_compress s) = Some s }.

Definition acceptsGzip (r : Request) : bool :=
  existsb (λ v, EqualFold_ascii (TrimSpace (SplitN_2_0 v ";")) "gzip")
    (Split (header_Get "Accept-Encoding" (r_Header r)) ",").

Definition alreadyCompressible `{GoUnicode} (ct : string) : bool :=
  let ct := ToLower (TrimSpace (SplitN_2_0 ct ";")) in
  if (ct =? "")%string then true
  else HasPrefix ct "text/" || HasPrefix ct "application/json" ||
       HasPrefix ct "application/rdap+json" || HasPrefix ct "application/xml" ||
       HasPrefix ct "application/javascript".

(** [g_header] and [g_out] are the writer [w]: its live headers and what was written to
    it; [g_gz] is the text given to the [gzip.Writer] in use. *)
Record gzipWriter := {
  g_header : gmap string string; g_out : list wop;
  g_minSize : Z; g_buf : string; g_status : Z; g_gz : option string;
  g_committed : bool; g_plain : bool }.

Definition newGzipWriter (h : gmap string string) (minSize : Z) : gzipWriter :=
  {| g_header := h; g_out := []; g_minSize := minSize; g_buf := ""; g_status := StatusOK;
     g_gz := None; g_committed := false; g_plain := false |}.

(** An operation on the underlying writer. *)
Definition emit (o : wop) (g : gzipWriter) : gzipWriter :=
  {| g_header := live_headers (g_header g) [o]; g_out := g_out g ++ [o];
     g_minSize := g_minSize g; g_buf := g_buf g; g_status := g_status g; g_gz := g_gz g;
     g_committed := g_committed g; g_plain := g_plain g |}.
Definition g_set (buf : string) (status : Z) (gz : option string) (committed plain : bool)
    (g : gzipWriter) : gzipWriter :=
  {| g_header := g_header g; g_out := g_out g; g_minSize := g_minSize g; g_buf := buf;
     g_status := status; g_gz := gz; g_committed := committed; g_plain := plain |}.

Section gzip.
Context `{GzipCodec} `{GoUnicode}.

Definition commit (g : gzipWriter) : gzipWriter :=
  let ct := header_Get "Content-Type" (g_header g) in
  if alreadyCompressible ct && (g_minSize g <=? len (g_buf g))%Z then
    let g' := emit (WriteHeader (g_status g))
                (emit (HeaderDel "Content-Length") (emit (HeaderSet "Content-Encoding" "gzip") g)) in
    g_set "" (g_status g) (Some (g_buf g)) true false g'
  else
    let g' := emit (Write (g_buf g)) (emit (WriteHeader (g_status g)) g) in
    g_set "" (g_status g) None true true g'.

Definition gzip_Write (p : string) (g : gzipWriter) : gzipWriter :=
  if g_committed g then
    if g_plain g then emit (Write p) g
    else match g_gz g with
         | Some s => g_set (g_buf g) (g_status g) (Some (s +:+ p)) true false g
         | None => g
         end
  else
    let g := g_set (g_buf g +:+ p) (g_status g) (g_gz g) false (g_plain g) g in
    if (len (g_buf g) <? g_minSize g)%Z then g else commit g.

(** What the wrapped handler does to the gzip writer. *)
Definition gzip_op (g : gzipWriter) (o : wop) : gzipWriter :=
  match o with
  | WriteHeader code => g_set (g_buf g) code (g_gz g) (g_committed g) (g_plain g) g
  | Write p => gzip_Write p g
  | _ => emit o g
  end.

(** The compressed text reaches the writer by [Close] at the latest. *)
Definition Close (g : gzipWriter) : gzipWriter :=
  if negb (g_committed g) then
    emit (Write (g_buf g)) (emit (WriteHeader (g_status g))
      (g_set (g_buf g) (g_status g) (g_gz g) (g_committed g) true g))
  else match g_gz g with
       | Some s => emit (Write (gzip_compress s)) g
       | None => g
       end.

Definition gzip_ops (minSize : Z) (h : gmap string string) (ops : list wop) : list wop :=
  g_out (Close (foldl gzip_op (newGzipWriter h minSize) ops)).

Definition Gzip {W} (minSize : Z) (next : Middleware W) : Middleware W := λ h r w,
  let minSize := if (minSize <? 0)%Z then 0%Z else minSize in
  let vary := HeaderAdd "Vary" "Accept-Encoding" in
  let h := live_headers h [vary] in
  '(ops, w) ← next h r w;
  Some (vary :: (if negb (acceptsGzip r) then ops else gzip_ops minSize h ops), w).
End gzip.

(** ** cors.go *)
Definition cors_headers : list wop := [
  HeaderSet "Access-Control-Allow-Origin" "*";
  HeaderSet "Access-Control-Allow-Methods" "GET, HEAD, OPTIONS";
  HeaderSet "Access-Control-Allow-Headers" "Authorization, Accept, Accept-Language";
  HeaderSet "Access-Control-Max-Age" "86400";
  HeaderSet "Vary" "Origin"].
Definition CORS {W} (next : Middleware W) : Middleware W := λ h r w,
  if (r_Method r =? "OPTIONS")%string then Some (cors_headers ++ [WriteHeader StatusNoContent], w)
  else '(ops, w) ← next (live_headers h cors_headers) r w; Some (cors_headers ++ ops, w).

(** ** hardening.go *)
Definition security_headers : list wop := [
  HeaderSet "Strict-Transport-Security" "max-age=15552000";
  HeaderSet "Referrer-Policy" "no-referrer";
  HeaderSet "X-Content-Type-Options" "nosniff"].
Definition SecurityHeaders {W} (next : Middleware W) : Middleware W := λ h r w,
  '(ops, w) ← next (live_headers h security_headers) r w; Some (security_headers ++ ops, w).

(** The body reader the handler gets is left out: no handler reads the body. *)
Definition MaxRequestBody {W} (maxBytes : Z) (next : Middleware W) : Middleware W := λ h r w,
  if (maxBytes <? r_ContentLength r)%Z
  then Some (http_Error "request too large" StatusRequestEntityTooLarge, w)
  else next h r w.

(** The deadline of a request's context, as the state of what serves it holds it:
    [ctx_WithDeadline] is the state in which the operations of the request run. *)
Record RequestContext (W : Type) := {
  ctx_Deadline : W → option Time; ctx_WithDeadline : option Time → W → W }.
Arguments ctx_Deadline {W} _ _.
Arguments ctx_WithDeadline {W} _ _ _.

(** [context.WithTimeout]: an earlier deadline of the parent stays. *)
Definition earlier (parent : option Time) (t : Time) : Time :=
  match parent with Some p => Z.min p t | None => t end.
Definition WithTimeout {W} (ctx : RequestContext W) (now : W → Time) (d : Duration) (w : W) : W :=
  ctx_WithDeadline ctx (Some (earlier (ctx_Deadline ctx w) (now w + d)%Z)) w.
(** The context ends with the request. *)
Definition RequestTimeout {W} (ctx : RequestContext W) (now : W → Time) (d : Duration)
    (next : Middleware W) : Middleware W := λ h r w,
  '(ops, w') ← next h r (WithTimeout ctx now d w);
  Some (ops, ctx_WithDeadline ctx (ctx_Deadline ctx w) w').

(** * Theorems *)

Section gzip_facts.
Context `{GzipCodec} `{GoUnicode}.

(** The gzip writer after the headers [hs] and the status, with [buf] buffered. *)
Definition buffering (minSize : Z) (h : gmap string string) (hs : list wop) (code : Z)
    (buf : string) : gzipWriter :=
  {| g_header := live_headers h hs; g_out := hs; g_minSize := minSize; g_buf := buf;
     g_status := code; g_gz := None; g_committed := false; g_plain := false |}.

Lemma gzip_headers minSize h hs code : Forall is_header hs →
  foldl gzip_op (newGzipWriter h minSize) (hs ++ [WriteHeader code]) =
  buffering minSize h hs code "".
Proof.
  intros Hh. rewrite foldl_app. cbn [foldl gzip_op].
  assert (E : foldl gzip_op (newGzipWriter h minSize) hs = buffering minSize h hs StatusOK "").
  { induction hs as [|o hs IH] using rev_ind; [done|].
    apply Forall_app in Hh as [Hh Ho]. apply Forall_cons in Ho as [Ho _].
    rewrite foldl_app, (IH Hh).
    unfold buffering. rewrite live_headers_app. destruct o; done. }
  by rewrite E.
Qed.

(** Once a writer is committed, the rest of the body follows its first part. *)
Definition decided (compressed : bool) (minSize : Z) (h : gmap string string) (hs : list wop)
    (code : Z) (chunks : list string) (text : string) : gzipWriter :=
  if compressed then
    let out := hs ++ [HeaderSet "Content-Encoding" "gzip"; HeaderDel "Content-Length";
                      WriteHeader code] in
    {| g_header := live_headers h out; g_out := out; g_minSize := minSize; g_buf := "";
       g_status := code; g_gz := Some text; g_committed := true; g_plain := false |}
  else
    {| g_header := live_headers h hs; g_out := hs ++ WriteHeader code :: map Write chunks;
       g_minSize := minSize; g_buf := ""; g_status := code; g_gz := None;
       g_committed := true; g_plain := true |}.

Lemma commit_buffering minSize h hs code buf : (minSize ≤ len buf)%Z →
  commit (buffering minSize h hs code buf) =
  decided (alreadyCompressible (header_Get "Content-Type" (live_headers h hs)))
    minSize h hs code [buf] buf.
Proof.
  intros Hlen. unfold commit, decided, buffering. cbn [g_header g_minSize g_buf g_status].
  rewrite (proj2 (Z.leb_le minSize (len buf)) Hlen), andb_true_r.
  destruct (alreadyCompressible _).
  - unfold g_set, emit. cbn [g_header g_out g_minSize]. rewrite !live_headers_app.
    rewrite <-!(app_assoc hs). cbn [app]. reflexivity.
  - unfold g_set, emit. cbn [g_header g_out g_minSize].
    rewrite <-!app_assoc. cbn [app map]. reflexivity.
Qed.

Lemma decided_writes c minSize h hs code chunks text bs :
  concat_str chunks = text →
  foldl gzip_op (decided c minSize h hs code chunks text) (map Write bs) =
  decided c minSize h hs code (chunks ++ bs) (text +:+ concat_str bs).
Proof.
  revert chunks text. induction bs as [|b bs IH]; intros chunks text Hc; cbn [map foldl concat_str foldr].
  - by rewrite (right_id_L [] (++)), str_app_nil_r.
  - assert (Hsnoc : concat_str (chunks ++ [b]) = text +:+ b).
    { rewrite <-Hc. clear. induction chunks as [|a l IH]; cbn; [by rewrite str_app_nil_r|].
      unfold concat_str in *. by rewrite IH, str_app_assoc. }
    assert (E : gzip_op (decided c minSize h hs code chunks text) (Write b) =
                decided c minSize h hs code (chunks ++ [b]) (text +:+ b)).
    { destruct c; [reflexivity|]. unfold decided. cbn [gzip_op gzip_Write g_committed g_plain].
      unfold gzip_Write, emit. cbn [g_committed g_plain g_header g_out g_minSize g_buf g_status g_gz].
      f_equal. rewrite map_app, <-app_assoc. reflexivity. }
    rewrite E, IH by done. by rewrite <-app_assoc, str_app_assoc.
Qed.

(** Whether the body of a response is compressed. *)
Definition compresses (minSize : Z) (h : gmap string string) (hs : list wop) (bs : list string)
    : bool :=
  negb (bool_decide (bs = [])) && (minSize <=? len (concat_str bs))%Z &&
  alreadyCompressible (header_Get "Content-Type" (live_headers h hs)).

Lemma gzip_writes minSize h hs code bs buf :
  ∃ chunks, concat_str chunks = buf +:+ concat_str bs ∧
  foldl gzip_op (buffering minSize h hs code buf) (map Write bs) =
    if negb (bool_decide (bs = [])) && (minSize <=? len (buf +:+ concat_str bs))%Z
    then decided (alreadyCompressible (header_Get "Content-Type" (live_headers h hs)))
           minSize h hs code chunks (buf +:+ concat_str bs)
    else buffering minSize h hs code (buf +:+ concat_str bs).
Proof.
  revert buf. induction bs as [|b bs IH]; intros buf; cbn [map foldl concat_str foldr].
  { exists [buf]. cbn. rewrite !str_app_nil_r. by split. }
  fold (concat_str bs). rewrite bool_decide_false by done. cbn [negb andb].
  assert (E : gzip_op (buffering minSize h hs code buf) (Write b) =
    if (len (buf +:+ b) <? minSize)%Z then buffering minSize h hs code (buf +:+ b)
    else commit (buffering minSize h hs code (buf +:+ b))) by reflexivity.
  rewrite E. clear E. destruct (Z.ltb_spec (len (buf +:+ b)) minSize) as [Hlt|Hge].
  - destruct (IH (buf +:+ b)) as (chunks & Hc & ->). exists chunks. rewrite str_app_assoc.
    split; [done|]. destruct (Z.leb_spec minSize (len ((buf +:+ b) +:+ concat_str bs))) as [Hle|];
      [|by rewrite andb_false_r].
    case_bool_decide as Hb; [|done]. subst bs. cbn in Hle. rewrite str_app_nil_r in Hle. lia.
  - rewrite commit_buffering, decided_writes by (cbn; rewrite ?str_app_nil_r; done || lia).
    exists ([buf +:+ b] ++ bs). rewrite str_app_assoc. split; [done|].
    rewrite (proj2 (Z.leb_le _ _)); [done|].
    unfold len in *. rewrite (str_length_app (buf +:+ b)). lia.
Qed.

(** What the client is sent when the body is compressed. *)
Definition compressed_headers (h : gmap string string) : gmap string string :=
  delete "Content-Length" (<[ "Content-Encoding" := "gzip" ]> h).

(** The response a writer of the gzip middleware receives, from any headers [h], for a
    handler that sets headers, writes one status and then a body in any pieces: the same
    status; the same headers and body when the body is empty, shorter than [minSize] or of
    another type; otherwise the same headers but for the two of the encoding, and a body
    that decompresses to the same. *)
Lemma gzip_serve minSize h hs code bs :
  Forall is_header hs →
  let out := serve (gzip_ops minSize h (plain_ops hs code bs)) (rw_set_header h rw_new) in
  let plain := serve (plain_ops hs code bs) (rw_set_header h rw_new) in
  rw_status out = rw_status plain ∧
  if compresses minSize h hs bs
  then rw_sent out = compressed_headers (rw_sent plain) ∧
       rw_body out = gzip_compress (rw_body plain)
  else rw_sent out = rw_sent plain ∧ rw_body out = rw_body plain.
Proof.
  intros Hh out plain. subst plain. rewrite serve_plain by done. cbn [rw_status rw_sent rw_body].
  subst out. unfold gzip_ops, plain_ops.
  change (WriteHeader code :: map Write bs) with ([WriteHeader code] ++ map Write bs).
  rewrite app_assoc, foldl_app, gzip_headers by done.
  destruct (gzip_writes minSize h hs code bs "") as (chunks & Hc & ->). cbn [String.append] in *.
  change ("" +:+ concat_str bs) with (concat_str bs) in *. unfold compresses.
  destruct (negb _ && _); cbn [andb].
  - unfold decided. destruct (alreadyCompressible _).
    + unfold Close, emit. cbn [g_committed g_gz g_out negb].
      rewrite <-app_assoc. cbn [app].
      replace (hs ++ _) with (plain_ops (hs ++ [HeaderSet "Content-Encoding" "gzip";
        HeaderDel "Content-Length"]) code [gzip_compress (concat_str bs)])
        by (unfold plain_ops; by rewrite <-app_assoc).
      rewrite serve_plain by (apply Forall_app; split; [done|by repeat constructor]).
      cbn [rw_status rw_sent rw_body concat_str foldr]. rewrite str_app_nil_r, live_headers_app.
      by split_and!.
    + unfold Close. cbn [g_committed g_gz negb g_out].
      change (hs ++ WriteHeader code :: map Write chunks) with (plain_ops hs code chunks).
      rewrite serve_plain by done. cbn [rw_status rw_sent rw_body]. by rewrite Hc.
  - unfold Close, buffering, emit, g_set. cbn [g_committed g_out g_buf g_status negb].
    rewrite <-app_assoc. cbn [app].
    change (hs ++ [WriteHeader code; Write (concat_str bs)]) with
      (plain_ops hs code [concat_str bs]).
    rewrite serve_plain by done. cbn [rw_status rw_sent rw_body concat_str foldr].
    by rewrite str_app_nil_r.
Qed.
End gzip_facts.

(** *** The middleware *)
Section transparent.
Context `{GzipCodec} `{GoUnicode}.

(** A response as a client that decodes it reads it: the status, the headers that are
    not about the encoding, and the decoded body. *)
Definition decoded (compressed : bool) (out plain : ResponseWriter) : Prop :=
  rw_status out = rw_status plain ∧
  if compressed
  then rw_sent out = compressed_headers (rw_sent plain) ∧
       gzip_decompress (rw_body out) = Some (rw_body plain)
  else rw_sent out = rw_sent plain ∧ rw_body out = rw_body plain.

Lemma Gzip_answer {W} minSize (next : Middleware W) h r w hs code bs w' :
  let h' := live_headers h [HeaderAdd "Vary" "Accept-Encoding"] in
  next h' r w = Some (plain_ops hs code bs, w') → Forall is_header hs →
  ∃ ops, Gzip minSize next h r w = Some (ops, w') ∧
    decoded (acceptsGzip r && compresses (Z.max 0 minSize) h' hs bs)
      (serve ops (rw_set_header h rw_new))
      (serve (plain_ops hs code bs) (rw_set_header h' rw_new)).
Proof.
  intros h' Hn Hh. unfold Gzip. fold h'. rewrite Hn. cbn [mbind option_bind].
  eexists. split; [reflexivity|].
  assert (Es : ∀ ops, serve (HeaderAdd "Vary" "Accept-Encoding" :: ops) (rw_set_header h rw_new) =
                      serve ops (rw_set_header h' rw_new)) by reflexivity.
  rewrite Es. destruct (acceptsGzip r); cbn [negb andb]; [|by split].
  replace (if (minSize <? 0)%Z then 0%Z else minSize) with (Z.max 0 minSize)
    by (destruct (Z.ltb_spec minSize 0); lia).
  destruct (gzip_serve (Z.max 0 minSize) h' hs code bs Hh) as [E1 E2]. split; [exact E1|].
  destruct (compresses _ _ _ _); [|exact E2]. destruct E2 as [-> ->].
  by rewrite gzip_roundtrip.
Qed.

(** C26: compression is transparent.  Around a handler that sets headers, writes one
    status and then a body in any number of writes, the gzip middleware yields the same
    status.  The body is compressed exactly when the client accepts gzip, something was
    written, the body is at least as long as the configured minimum and its media type is
    one worth compressing; then the response has Content-Encoding gzip and no
    Content-Length, and decompressing the body gives what the handler wrote.  Otherwise
    headers and body are the handler's.  In both cases the handler is run exactly once,
    on headers in which Vary names Accept-Encoding. *)
Theorem gzip_transparent {W} minSize (next : Middleware W) h r w hs code bs w' :
  let h' := live_headers h [HeaderAdd "Vary" "Accept-Encoding"] in
  next h' r w = Some (plain_ops hs code bs, w') → Forall is_header hs →
  ∃ ops, Gzip minSize next h r w = Some (ops, w') ∧
    let out := serve ops (rw_set_header h rw_new) in
    let plain := serve (plain_ops hs code bs) (rw_set_header h' rw_new) in
    rw_status out = Some code ∧
    if acceptsGzip r && compresses (Z.max 0 minSize) h' hs bs
    then rw_sent out = <[ "Content-Encoding" := "gzip" ]>
                         (delete "Content-Length" (rw_sent plain)) ∧
         gzip_decompress (rw_body out) = Some (concat_str bs)
    else rw_sent out = rw_sent plain ∧ rw_body out = concat_str bs.
Proof.
  intros h' Hn Hh. destruct (Gzip_answer minSize next h r w hs code bs w' Hn Hh) as (ops & E & D).
  exists ops. split; [exact E|]. intros out plain. fold h' in D. fold out plain in D.
  destruct D as [E1 E2]. unfold plain in E1, E2 |- *. rewrite serve_plain in E1, E2 |- * by done.
  split; [exact E1|]. destruct (_ && _); [|exact E2].
  destruct E2 as [-> E2]. split; [|exact E2]. unfold compressed_headers.
  by rewrite delete_insert_ne.
Qed.
End transparent.

(** * Witnesses *)
#[local] Existing Instance unicode_default.
(** A codec that marks the text. *)
Definition gzip_mark : GzipCodec := {|
  gzip_compress := λ s, "z" +:+ s;
  gzip_decompress := λ s, match s with String "z" s => Some s | _ => None end;
  gzip_roundtrip := λ s, eq_refl |}.
#[local] Existing Instance gzip_mark.

Definition gzip_request : Request :=
  {| r_Method := "GET"; r_EscapedPath := "/"; r_Query := []; r_RequestURI := "/";
     r_Header := {[ "Accept-Encoding" := "br, GZIP;q=0.5" ]}; r_ContentLength := 0;
     r_RemoteAddr := "192.0.2.1:4711"; r_Context := None |}.
Definition two_writes : Middleware unit := λ _ _ w,
  Some (plain_ops [HeaderSet "Content-Type" "application/rdap+json"] 200 ["abc"; "def"], w).

Lemma gzip_transparent_witness :
  acceptsGzip gzip_request && compresses (Z.max 0 5)
    (live_headers ∅ [HeaderAdd "Vary" "Accept-Encoding"])
    [HeaderSet "Content-Type" "application/rdap+json"] ["abc"; "def"] = true ∧
  ∃ ops, Gzip 5 two_writes ∅ gzip_request tt = Some (ops, tt) ∧
    let out := serve ops (rw_set_header ∅ rw_new) in
    rw_status out = Some 200%Z ∧ gzip_decompress (rw_body out) = Some "abcdef".
Proof.
  split; [vm_compute; reflexivity|].
  destruct (gzip_transparent 5 two_writes ∅ gzip_request tt
    [HeaderSet "Content-Type" "application/rdap+json"] 200 ["abc"; "def"] tt)
    as (ops & E & Es & Ed); [reflexivity|by repeat constructor|].
  exists ops. split; [exact E|]. split; [exact Es|].
  change (acceptsGzip gzip_request && _) with true in Ed. exact (proj2 Ed).
Defined.
