(* ===== verification/Float64.v ===== *)
(** * float64: binary floating point at 53 bits.

    The operations are those of the standard library's specification of IEEE 754; the
    lemmas are about whole numbers of units, which is what counting down needs. *)
From Stdlib Require Export Floats.SpecFloat.
From S2P Require Import Prelude.

Definition float64 : Type := spec_float.
Definition float_Z (z : Z) : float64 := binary_normalize 53 1024 z 0 false.
Definition fadd : float64 → float64 → float64 := SFadd 53 1024.
Definition fsub : float64 → float64 → float64 := SFsub 53 1024.
Definition fmul : float64 → float64 → float64 := SFmul 53 1024.
Definition fdiv : float64 → float64 → float64 := SFdiv 53 1024.
Definition flt : float64 → float64 → bool := SFltb.
Definition fle : float64 → float64 → bool := SFleb.

(** The integer part of a float that is not negative. *)
Definition float_floor (x : float64) : Z :=
  match x with S754_finite false m e => Z.shiftl (Z.pos m) e | _ => 0%Z end.

(** The integer part of a finite float, towards zero. *)
Definition float_trunc (x : float64) : option Z :=
  match x with
  | S754_zero _ => Some 0%Z
  | S754_finite s m e => Some ((if s then -1 else 1) * Z.shiftl (Z.pos m) e)%Z
  | _ => None
  end.
(** [time.Duration.Seconds] *)
Definition Seconds (d : Duration) : float64 :=
  fadd (float_Z (Z.quot d Second)) (fdiv (float_Z (Z.rem d Second)) (float_Z 1000000000)).

(** Floats from 0 up to 2^53. *)
Definition small_float (x : float64) : Prop :=
  match x with
  | S754_zero _ => True
  | S754_finite false m e => bounded 53 1024 m e = true ∧ (e ≤ 0)%Z
  | _ => False
  end.
#[global] Instance small_float_dec x : Decision (small_float x).
Proof. unfold small_float. destruct x as [| | |[] m e]; apply _. Defined.

(** * Theorems *)

(** ** Digits and shifts *)
Lemma digits_log2 p : Z.pos (digits2_pos p) = (Z.log2 (Z.pos p) + 1)%Z.
Proof.
  induction p as [p IH|p IH|]; [| |done]; cbn [digits2_pos]; rewrite Pos2Z.inj_succ, IH.
  - rewrite (Pos2Z.inj_xI p), Z.log2_succ_double by lia. lia.
  - rewrite (Pos2Z.inj_xO p), Z.log2_double by lia. lia.
Qed.

Lemma iter_xO p d : Z.pos (Pos.iter xO p d) = (Z.pos p * 2 ^ Z.pos d)%Z.
Proof.
  induction d as [|d IH] using Pos.peano_ind; [cbn; lia|].
  rewrite Pos.iter_succ, Pos2Z.inj_xO, IH, Pos2Z.inj_succ, Z.pow_succ_r by lia. lia.
Qed.

Lemma iter_shr_1 p : ∀ k, (0 ≤ k)%Z →
  SpecFloat.iter_pos shr_1 p (Build_shr_record (k * 2 ^ Z.pos p) false false) = Build_shr_record k false false.
Proof.
  assert (H1 : ∀ k, (0 ≤ k)%Z →
    shr_1 (Build_shr_record (k * 2) false false) = Build_shr_record k false false).
  { intros k Hk. destruct k as [|k|]; [done| |lia]. by rewrite Z.mul_comm, <-Pos2Z.inj_xO. }
  induction p as [p IH|p IH|]; intros k Hk; cbn [SpecFloat.iter_pos].
  - replace (k * 2 ^ Z.pos p~1)%Z with (k * 2 ^ Z.pos p * 2 ^ Z.pos p * 2)%Z.
    2: { rewrite (Pos2Z.inj_xI p), Z.pow_add_r, Z.pow_twice_r by lia. lia. }
    rewrite H1 by (apply Z.mul_nonneg_nonneg; lia). rewrite !IH by lia. done.
  - replace (k * 2 ^ Z.pos p~0)%Z with (k * 2 ^ Z.pos p * 2 ^ Z.pos p)%Z.
    2: { rewrite (Pos2Z.inj_xO p), Z.pow_twice_r. lia. }
    rewrite !IH by lia. done.
  - by apply H1.
Qed.

(** ** Results that need no rounding *)
Lemma fexp_normal d e : (-1074 ≤ d + e - 53)%Z → fexp 53 1024 (d + e) = (d + e - 53)%Z.
Proof. unfold fexp, emin. lia. Qed.

Lemma shr_fexp_done m e : fexp 53 1024 (Zdigits2 m + e) = e →
  shr_fexp 53 1024 m e loc_Exact = (Build_shr_record m false false, e).
Proof. intros E. unfold shr_fexp. by rewrite E, Z.sub_diag. Qed.

Lemma round_aux_done m e : fexp 53 1024 (Zdigits2 (Z.pos m) + e) = e → (e ≤ 971)%Z →
  binary_round_aux 53 1024 false (Z.pos m) e loc_Exact = S754_finite false m e.
Proof.
  intros Ef He. unfold binary_round_aux. rewrite shr_fexp_done by done.
  cbn [shr_m loc_of_shr_record round_nearest_even]. rewrite shr_fexp_done by done.
  cbn [shr_m]. by rewrite (proj2 (Z.leb_le e (1024 - 53))).
Qed.

Lemma round_aux_shift n k p e :
  Z.pos n = (Z.pos k * 2 ^ Z.pos p)%Z →
  fexp 53 1024 (Zdigits2 (Z.pos n) + e) = (e + Z.pos p)%Z → (e + Z.pos p ≤ 971)%Z →
  binary_round_aux 53 1024 false (Z.pos n) e loc_Exact = S754_finite false k (e + Z.pos p).
Proof.
  intros En Ef He. unfold binary_round_aux.
  assert (Es : shr_fexp 53 1024 (Z.pos n) e loc_Exact =
               (Build_shr_record (Z.pos k) false false, (e + Z.pos p)%Z)).
  { unfold shr_fexp, shr. rewrite Ef. replace (e + Z.pos p - e)%Z with (Z.pos p) by lia.
    cbn [shr_record_of_loc]. by rewrite En, iter_shr_1. }
  rewrite Es. cbn [shr_m loc_of_shr_record round_nearest_even].
  rewrite shr_fexp_done.
  - cbn [shr_m]. by rewrite (proj2 (Z.leb_le _ (1024 - 53))).
  - rewrite <-Ef at 2. f_equal. cbn [Zdigits2]. rewrite !digits_log2, En.
    rewrite Z.log2_mul_pow2 by lia. lia.
Qed.

(** A whole multiple of a power of two whose bits fit is represented exactly. *)
Lemma round_exact n e M : let l := Z.log2 (Z.pos n) in
  (Z.pos M * 2 ^ Z.max 0 (l - 52) = Z.pos n * 2 ^ Z.max 0 (52 - l))%Z →
  (-1074 ≤ l + e - 52 ≤ 971)%Z →
  binary_round 53 1024 false n e = S754_finite false M (l + e - 52).
Proof.
  intros l HM He. unfold binary_round, shl_align.
  assert (Ef : fexp 53 1024 (Z.pos (digits2_pos n) + e) = (l + e - 52)%Z)
    by (rewrite digits_log2; fold l; rewrite fexp_normal; lia).
  rewrite Ef. destruct (l + e - 52 - e)%Z as [|p|d] eqn:Ed.
  - assert (Hl : l = 52%Z) by lia. rewrite Hl in HM.
    change (2 ^ Z.max 0 (52 - 52))%Z with 1%Z in HM.
    assert (HMn : M = n) by lia. subst M.
    replace (l + e - 52)%Z with e in * by lia. by rewrite round_aux_done by (done || lia).
  - replace (Z.max 0 (l - 52)) with (Z.pos p) in HM by lia.
    replace (Z.max 0 (52 - l)) with 0%Z in HM by lia. rewrite Z.pow_0_r, Z.mul_1_r in HM.
    replace (l + e - 52)%Z with (e + Z.pos p)%Z in * by lia.
    by apply round_aux_shift; [|cbn [Zdigits2]|lia].
  - replace (Z.max 0 (l - 52)) with 0%Z in HM by lia.
    replace (Z.max 0 (52 - l)) with (Z.pos d) in HM by lia. rewrite Z.pow_0_r, Z.mul_1_r in HM.
    assert (EM : Pos.iter xO n d = M) by (apply Pos2Z.inj; by rewrite iter_xO).
    rewrite EM. apply round_aux_done; [|lia]. cbn [Zdigits2].
    rewrite digits_log2, HM, Z.log2_mul_pow2, fexp_normal by lia. fold l. lia.
Qed.

(** ** Counting down *)
Lemma float_one : float_Z 1 = S754_finite false 4503599627370496 (-52).
Proof. vm_compute. reflexivity. Qed.
Lemma float_zero : float_Z 0 = S754_zero false.
Proof. reflexivity. Qed.

(** The mantissa of a canonical float is full unless its exponent is the least. *)
Lemma bounded_log2 m e : bounded 53 1024 m e = true →
  (-1074 ≤ e)%Z ∧ (Z.log2 (Z.pos m) ≤ 52)%Z ∧ ((-1074 < e)%Z → Z.log2 (Z.pos m) = 52%Z).
Proof.
  unfold bounded, canonical_mantissa, fexp, emin. intros [Hc He]%andb_true_iff.
  apply Z.eqb_eq in Hc. rewrite digits_log2 in Hc. lia.
Qed.

Lemma shiftl_div m e : (e ≤ 0)%Z → Z.shiftl m e = (m / 2 ^ (- e))%Z.
Proof. intros He. rewrite <-Z.shiftr_opp_r, Z.shiftr_div_pow2 by lia. done. Qed.

Lemma small_lt_one x : small_float x → flt x (float_Z 1) = (float_floor x <? 1)%Z.
Proof.
  rewrite float_one. destruct x as [s| | |[] m e]; [by destruct s|done..|].
  intros [Hb He]. apply bounded_log2 in Hb as (Hmin & Hl & Hf).
  unfold flt, SFltb, SFcompare. cbn [float_floor]. rewrite shiftl_div by done.
  assert (Hm : (2 ^ Z.log2 (Z.pos m) ≤ Z.pos m < 2 ^ Z.succ (Z.log2 (Z.pos m)))%Z)
    by (by apply Z.log2_spec).
  destruct (Z.compare_spec e (-52)) as [->|Hlt|Hgt].
  - rewrite Hf in Hm by lia. destruct Hm as [Hm _].
    change (2 ^ 52)%Z with (Z.pos 4503599627370496) in Hm.
    assert (E1 : Pos.compare_cont Eq m 4503599627370496 ≠ Lt)
      by (intros Hc%Pos.compare_lt_iff; exact (proj1 (Pos.lt_nle _ _) Hc Hm)).
    assert (E2 : (Z.pos m / 2 ^ (- (-52)) <? 1)%Z = false).
    { apply Z.ltb_ge. apply Z.div_le_lower_bound; [done|]. exact Hm. }
    rewrite E2. by destruct (Pos.compare_cont Eq m 4503599627370496).
  - symmetry. apply Z.ltb_lt. rewrite Z.div_small; [done|]. split; [done|].
    eapply Z.lt_le_trans; [apply Hm|]. apply Z.pow_le_mono_r; lia.
  - symmetry. apply Z.ltb_ge. rewrite Hf in Hm by lia. apply Z.div_le_lower_bound.
    + apply Z.pow_pos_nonneg; lia.
    + rewrite Z.mul_1_r. etrans; [|apply Hm]. apply Z.pow_le_mono_r; lia.
Qed.

(** A float of at least one, in units of 2^-52. *)
Lemma small_units x : small_float x → (1 ≤ float_floor x)%Z →
  ∃ m e, x = S754_finite false m e ∧ (-52 ≤ e ≤ 0)%Z ∧ Z.log2 (Z.pos m) = 52%Z ∧
    float_floor x = (Z.pos m * 2 ^ (e + 52) / 2 ^ 52)%Z.
Proof.
  destruct x as [s| | |[] m e]; try done. intros [Hb He] Hx. exists m, e.
  apply bounded_log2 in Hb as (Hmin & Hl & Hf). cbn [float_floor] in *.
  rewrite shiftl_div in * by done.
  assert (He' : (-52 ≤ e)%Z).
  { destruct (Z.le_gt_cases (-52) e) as [|Hlt]; [done|]. rewrite Z.div_small in Hx; [done|].
    split; [done|]. eapply Z.lt_le_trans; [by apply Z.log2_spec|]. apply Z.pow_le_mono_r; lia. }
  split_and!; [done|lia|lia|apply Hf; lia|].
  assert (E : (2 ^ 52 = 2 ^ (- e) * 2 ^ (e + 52))%Z)
    by (rewrite <-Z.pow_add_r by lia; f_equal; lia).
  rewrite E, Z.div_mul_cancel_r; [done| |]; apply Z.pow_nonzero; lia.
Qed.

Lemma sub_one m e : (-52 ≤ e)%Z →
  fsub (S754_finite false m e) (float_Z 1) =
  binary_normalize 53 1024 (Z.pos m * 2 ^ (e + 52) - 2 ^ 52) (-52) false.
Proof.
  intros He. rewrite float_one. unfold fsub, SFsub. rewrite Z.min_r by done.
  cbn [cond_Zopp]. unfold shl_align. do 2 f_equal.
  destruct (-52 - e)%Z as [|d|d] eqn:Ed; [| |]; cbn [fst].
  - replace (e + 52)%Z with 0%Z by lia. by rewrite Z.mul_1_r.
  - lia.
  - rewrite iter_xO. by replace (e + 52)%Z with (Z.pos d) by lia.
Qed.

(** A number with enough trailing zeros has a mantissa of 53 bits. *)
Lemma mantissa_exists n j : let l := Z.log2 (Z.pos n) in
  (2 ^ j | Z.pos n)%Z → (l - 52 ≤ j)%Z →
  ∃ M, (Z.pos M * 2 ^ Z.max 0 (l - 52) = Z.pos n * 2 ^ Z.max 0 (52 - l))%Z.
Proof.
  intros l Hdiv Hj. destruct (Z.le_gt_cases l 52) as [Hc|Hc].
  - exists (Z.to_pos (Z.pos n * 2 ^ (52 - l))).
    rewrite Z2Pos.id by (apply Z.mul_pos_pos; [done|apply Z.pow_pos_nonneg; lia]).
    rewrite (Z.max_l 0 (l - 52)), (Z.max_r 0 (52 - l)) by lia. lia.
  - assert (Hd : (2 ^ (l - 52) | Z.pos n)%Z).
    { etrans; [|exact Hdiv]. exists (2 ^ (j - (l - 52)))%Z.
      rewrite <-Z.pow_add_r by lia. f_equal. lia. }
    destruct Hd as [k Hk]. assert (0 < k)%Z.
    { apply (Z.mul_pos_cancel_r k (2 ^ (l - 52))); [apply Z.pow_pos_nonneg; lia|lia]. }
    exists (Z.to_pos k). rewrite Z2Pos.id by done.
    rewrite (Z.max_r 0 (l - 52)), (Z.max_l 0 (52 - l)) by lia. lia.
Qed.

(** One less than a float between 1 and 2^53, in units of 2^-52: zero, or a mantissa of 53 bits
    that loses nothing. *)
Lemma sub_one_form m e : (-52 ≤ e ≤ 0)%Z → Z.log2 (Z.pos m) = 52%Z →
  (2 ^ 52 ≤ Z.pos m * 2 ^ (e + 52))%Z →
  let r := fsub (S754_finite false m e) (float_Z 1) in
  match (Z.pos m * 2 ^ (e + 52) - 2 ^ 52)%Z with
  | Z0 => r = S754_zero false
  | Z.pos n => let l := Z.log2 (Z.pos n) in
      (0 ≤ l < e + 105)%Z ∧ ∃ M, r = S754_finite false M (l - 104) ∧ Z.log2 (Z.pos M) = 52%Z ∧
      (Z.pos M * 2 ^ Z.max 0 (l - 52) = Z.pos n * 2 ^ Z.max 0 (52 - l))%Z
  | Z.neg _ => False
  end.
Proof.
  intros He Hlm Hx r. subst r. rewrite sub_one by lia. set (u := (Z.pos m * 2 ^ (e + 52))%Z) in *.
  assert (Hdiv : (2 ^ (e + 52) | u - 2 ^ 52)%Z).
  { apply Z.divide_sub_r; [by exists (Z.pos m)|]. exists (2 ^ (- e))%Z.
    rewrite <-Z.pow_add_r by lia. f_equal. lia. }
  assert (Hu : (u < 2 ^ (e + 105))%Z).
  { pose proof (Z.log2_spec (Z.pos m) ltac:(done)) as Hm. rewrite Hlm in Hm.
    replace (e + 105)%Z with (53 + (e + 52))%Z by lia. rewrite Z.pow_add_r by lia.
    apply Z.mul_lt_mono_pos_r; [apply Z.pow_pos_nonneg; lia|apply Hm]. }
  destruct (u - 2 ^ 52)%Z as [|n|n] eqn:En; [done| |lia]. cbv zeta.
  cbn [binary_normalize]. set (l := Z.log2 (Z.pos n)).
  assert (Hln : (2 ^ l ≤ Z.pos n < 2 ^ Z.succ l)%Z) by (by apply Z.log2_spec).
  assert (Hl0 : (0 ≤ l)%Z) by apply Z.log2_nonneg.
  assert (Hle : (l < e + 105)%Z) by (apply Z.log2_lt_pow2; lia).
  destruct (mantissa_exists n (e + 52) Hdiv ltac:(lia)) as [M HM]. fold l in HM.
  split; [lia|]. exists M. rewrite (round_exact n (-52) M HM) by (fold l; lia). fold l.
  replace (l + -52 - 52)%Z with (l - 104)%Z by lia. split_and!; [done| |done].
  assert (E : Z.log2 (Z.pos M * 2 ^ Z.max 0 (l - 52)) = Z.log2 (Z.pos n * 2 ^ Z.max 0 (52 - l)))
    by (by rewrite HM).
  rewrite !Z.log2_mul_pow2 in E by lia. fold l in E. lia.
Qed.

(** Taking one from a float between 1 and 2^53 is exact. *)
Lemma small_pred x : small_float x → (1 ≤ float_floor x)%Z →
  small_float (fsub x (float_Z 1)) ∧ float_floor (fsub x (float_Z 1)) = (float_floor x - 1)%Z.
Proof.
  intros Hs Hx. destruct (small_units x Hs Hx) as (m & e & -> & He & Hl & Ef).
  rewrite Ef in Hx |- *.
  assert (Hu : (2 ^ 52 ≤ Z.pos m * 2 ^ (e + 52))%Z).
  { destruct (Z.le_gt_cases (2 ^ 52) (Z.pos m * 2 ^ (e + 52))); [done|].
    rewrite Z.div_small in Hx; [lia|split; [|done]]. apply Z.mul_nonneg_nonneg; lia. }
  pose proof (sub_one_form m e He Hl Hu) as Hform. cbv zeta in Hform.
  set (u := (Z.pos m * 2 ^ (e + 52))%Z) in *.
  assert (Ed : (u / 2 ^ 52 - 1 = (u - 2 ^ 52) / 2 ^ 52)%Z).
  { replace (u - 2 ^ 52)%Z with (u + (-1) * 2 ^ 52)%Z by lia. rewrite Z.div_add by done. lia. }
  rewrite Ed. destruct (u - 2 ^ 52)%Z as [|n|n] eqn:En; [by rewrite Hform| |done].
  set (l := Z.log2 (Z.pos n)) in *. destruct Hform as (Hln & M & -> & HlM & HM). split.
  - cbn [small_float]. split; [|lia]. unfold bounded, canonical_mantissa.
    rewrite digits_log2, HlM, fexp_normal by lia.
    apply andb_true_iff. split; [apply Z.eqb_eq|apply Z.leb_le]; lia.
  - cbn [float_floor]. rewrite shiftl_div by lia.
    transitivity (Z.pos M * 2 ^ Z.max 0 (l - 52) / 2 ^ (52 + Z.max 0 (52 - l)))%Z.
    + replace (52 + Z.max 0 (52 - l))%Z with (- (l - 104) + Z.max 0 (l - 52))%Z by lia.
      rewrite Z.pow_add_r, Z.div_mul_cancel_r by (lia || apply Z.pow_nonzero; lia). done.
    + rewrite HM, Z.pow_add_r, Z.div_mul_cancel_r by (lia || apply Z.pow_nonzero; lia). done.
Qed.
