(* ===== verification/Strconv.v ===== *)
(** * Numbers and durations as text: what package flag parses and what package fmt prints.

    [strconv.ParseBool], [strconv.ParseInt] in base 0, [strconv.ParseFloat], and
    [time.ParseDuration]; [time.Duration]'s [String] and the verb [%.nf].  A float is the
    binary64 nearest to the decimal, computed from the exact ratio. *)
From S2P Require Import Prelude GoStrings Float64.

(** ** [strconv.ParseBool] *)
Definition ParseBool (s : string) : option bool :=
  if bool_decide (s ∈ ["1"; "t"; "T"; "true"; "TRUE"; "True"]) then Some true
  else if bool_decide (s ∈ ["0"; "f"; "F"; "false"; "FALSE"; "False"]) then Some false
  else None.

(** ** [strconv.ParseInt(s, 0, 64)] *)
Definition is_hex_digit (c : ascii) : bool := is_digit c || in_range (lower_byte c) "a" "f".
Definition digit_val (c : ascii) : option Z :=
  if is_digit c then Some (Z.of_N (byte_val c) - 48)%Z
  else if in_range (lower_byte c) "a" "z" then Some (Z.of_N (byte_val (lower_byte c)) - 87)%Z
  else None.
Definition sign (s : string) : bool * string :=
  match s with
  | String "-" r => (true, r)
  | String "+" r => (false, r)
  | _ => (false, s)
  end.
(** The base that a prefix announces, and what follows it. *)
Definition base_of (s : string) : Z * string :=
  match s with
  | String "0" (String c r as s') =>
      if (lower_byte c =? "b")%char && negb (r =? "")%string then (2, r)%Z
      else if (lower_byte c =? "o")%char && negb (r =? "")%string then (8, r)%Z
      else if (lower_byte c =? "x")%char && negb (r =? "")%string then (16, r)%Z
      else (8, s')%Z
  | String "0" "" => (8, "")%Z
  | _ => (10, s)%Z
  end.
Fixpoint digits_in (base : Z) (acc : Z) (s : string) : option Z :=
  match s with
  | "" => Some acc
  | String c r =>
      if (c =? "_")%char then digits_in base acc r
      else d ← digit_val c;
           if (d <? base)%Z then digits_in base (acc * base + d) r else None
  end.
(** [underscoreOK]: the last character seen is none, a digit, an underscore or another. *)
Inductive saw := SawNone | SawDigit | SawUnderscore | SawOther.
Fixpoint underscores_ok (hex : bool) (last : saw) (s : string) : bool :=
  match s with
  | "" => match last with SawUnderscore => false | _ => true end
  | String c r =>
      if is_digit c || (hex && is_hex_digit c) then underscores_ok hex SawDigit r
      else if (c =? "_")%char then
        match last with SawDigit => underscores_ok hex SawUnderscore r | _ => false end
      else match last with SawUnderscore => false | _ => underscores_ok hex SawOther r end
  end.
Definition underscoreOK (s : string) : bool :=
  match (sign s).2 with
  | String "0" (String c r) =>
      if bool_decide (lower_byte c ∈ ["b"; "o"; "x"]%char)
      then underscores_ok (lower_byte c =? "x")%char SawDigit r
      else underscores_ok false SawNone (sign s).2
  | r => underscores_ok false SawNone r
  end.
Definition has_underscore (s : string) : bool := negb (str_forall (λ c, negb (c =? "_")%char) s).
Definition ParseInt (s : string) : option Z :=
  let '(neg, r) := sign s in
  if (r =? "")%string then None else
  let '(base, digits) := base_of r in
  n ← digits_in base 0 digits;
  if has_underscore r && negb (underscoreOK r) then None else
  let z := (if neg then - n else n)%Z in
  if bool_decide (in_int64 z) then Some z else None.

(** ** [strconv.ParseFloat(s, 64)] *)

(** The float nearest to [num / den], ties to even: 66 bits of the quotient and a sticky bit. *)
Definition float_ratio (neg : bool) (num den : Z) : float64 :=
  if (num =? 0)%Z then S754_zero neg else
  let k := (66 + Z.log2 den - Z.log2 num)%Z in
  let n := (num * 2 ^ Z.max 0 k)%Z in
  let d := (den * 2 ^ Z.max 0 (- k))%Z in
  let m := (2 * (n / d) + (if n mod d =? 0 then 0 else 1))%Z in
  binary_normalize 53 1024 (if neg then - m else m)%Z (- k - 1)%Z neg.
(** The digits of a mantissa, the number of them after the point, whether any was seen, and the rest. *)
Fixpoint mantissa (hex dot : bool) (m scale : Z) (seen : bool) (s : string) : Z * Z * bool * string :=
  match s with
  | String c r =>
      if (c =? "_")%char then mantissa hex dot m scale seen r
      else if (c =? ".")%char then if dot then (m, scale, seen, s) else mantissa hex true m scale seen r
      else if is_digit c || (hex && is_hex_digit c) then
        mantissa hex dot (m * (if hex then 16 else 10) + default 0 (digit_val c))%Z
          (if dot then scale + 1 else scale)%Z true r
      else (m, scale, seen, s)
  | "" => (m, scale, seen, s)
  end.
Fixpoint exp_digits (e : Z) (s : string) : Z * string :=
  match s with
  | String c r =>
      if (c =? "_")%char then exp_digits e r
      else if is_digit c then exp_digits (if (e <? 10000)%Z then e * 10 + default 0 (digit_val c) else e)%Z r
      else (e, s)
  | "" => (e, s)
  end.
Definition exponent (s : string) : option (Z * string) :=
  let '(neg, r) := sign s in
  match r with
  | String c _ =>
      if is_digit c then let '(e, r) := exp_digits 0 r in Some ((if neg then - e else e)%Z, r) else None
  | "" => None
  end.
Definition special_float (neg signed : bool) (r : string) : option float64 :=
  let l := str_map lower_byte r in
  if bool_decide (l ∈ ["inf"; "infinity"]) then Some (S754_infinity neg)
  else if (l =? "nan")%string && negb signed then Some S754_nan else None.
Definition ParseFloat (s : string) : option float64 :=
  let '(neg, r) := sign s in
  match special_float neg (negb (r =? s)%string) r with
  | Some x => Some x
  | None =>
      let '(hex, r') :=
        match r with
        | String "0" (String c (String _ _ as r')) => if (lower_byte c =? "x")%char then (true, r') else (false, r)
        | _ => (false, r)
        end in
      let '(m, scale, seen, rest) := mantissa hex false 0 0 false r' in
      if negb seen then None else
      e ← match rest with
          | "" => if hex then None else Some 0%Z
          | String c rest =>
              if (lower_byte c =? if hex then "p" else "e")%char then
                '(e, rest) ← exponent rest; if (rest =? "")%string then Some e else None
              else None
          end;
      if has_underscore s && negb (underscoreOK s) then None else
      let e := (e - (if hex then 4 * scale else scale))%Z in
      let base := (if hex then 2 else 10)%Z in
      let x := float_ratio neg (m * base ^ Z.max 0 e) (base ^ Z.max 0 (- e)) in
      match x with S754_infinity _ => None | _ => Some x end
  end.

(** ** [time.ParseDuration] *)
Definition uint64 (z : Z) : Z := (z mod 2 ^ 64)%Z.
Fixpoint leadingInt (x : Z) (s : string) : option (Z * string) :=
  match s with
  | String c r =>
      if is_digit c then
        if (2 ^ 63 / 10 <? x)%Z then None else
        let x := (x * 10 + default 0 (digit_val c))%Z in
        if (2 ^ 63 <? x)%Z then None else leadingInt x r
      else Some (x, s)
  | "" => Some (x, s)
  end.
Fixpoint leadingFraction (overflow : bool) (x : Z) (scale : float64) (s : string) : Z * float64 * string :=
  match s with
  | String c r =>
      if is_digit c then
        let y := (x * 10 + default 0 (digit_val c))%Z in
        if overflow || ((2 ^ 63 - 1) / 10 <? x)%Z || (2 ^ 63 <? y)%Z then leadingFraction true x scale r
        else leadingFraction false y (fmul scale (float_Z 10)) r
      else (x, scale, s)
  | "" => (x, scale, s)
  end.
Fixpoint unit_text (s : string) : string * string :=
  match s with
  | String c r => if (c =? ".")%char || is_digit c then ("", s)
                  else let '(u, r) := unit_text r in (String c u, r)
  | "" => ("", "")
  end.
Definition unitMap : list (string * Z) := [
  ("ns", 1%Z); ("us", 1000%Z); ("µs", 1000%Z); ("μs", 1000%Z); ("ms", 1000000%Z);
  ("s", Second); ("m", Minute); ("h", (60 * Minute)%Z)].
(** One number with its unit. *)
Definition duration_part (s : string) : option (Z * string) :=
  '(v, r) ← leadingInt 0 s;
  let pre := negb (r =? s)%string in
  let '(f, scale, r, post) :=
    match r with
    | String "." r1 => let '(f, scale, r2) := leadingFraction false 0 (float_Z 1) r1 in
                       (f, scale, r2, negb (r2 =? r1)%string)
    | _ => (0%Z, float_Z 1, r, false)
    end in
  if negb pre && negb post then None else
  let '(u, r) := unit_text r in
  '(_, unit) ← list_find (λ p : string * Z, p.1 = u) unitMap ≫= λ p, Some p.2;
  if (2 ^ 63 / unit <? v)%Z then None else
  let v := (v * unit)%Z in
  let v := if (0 <? f)%Z then uint64 (v + float_floor (fmul (float_Z f) (fdiv (float_Z unit) scale))) else v in
  if (0 <? f)%Z && (2 ^ 63 <? v)%Z then None else Some (v, r).
Fixpoint duration_parts (fuel : nat) (d : Z) (s : string) : option Z :=
  match fuel with
  | O => None
  | S fuel =>
      if (s =? "")%string then Some d else
      '(v, r) ← duration_part s;
      let d := uint64 (d + v) in
      if (2 ^ 63 <? d)%Z then None else duration_parts fuel d r
  end.
Definition ParseDuration (s : string) : option Duration :=
  let '(neg, r) := sign s in
  if (r =? "0")%string then Some 0%Z else
  if (r =? "")%string then None else
  d ← duration_parts (S (String.length r)) 0 r;
  if neg then Some (wrap64 (- d)) else if (2 ^ 63 - 1 <? d)%Z then None else Some d.

(** ** package fmt *)
Fixpoint spaces (n : nat) : string := match n with O => "" | S n => String " " (spaces n) end.
(** The runes of valid UTF-8. *)
Fixpoint rune_count (s : string) : nat :=
  match s with
  | "" => O
  | String c r => (if (nb c <? 128)%nat || (192 <=? nb c)%nat then 1 else 0) + rune_count r
  end.
(** A width, and a width with the flag [-]. *)
Definition pad_left (w : nat) (s : string) : string := spaces (w - rune_count s) +:+ s.
Definition pad_right (w : nat) (s : string) : string := s +:+ spaces (w - rune_count s).

(** [%.nf]: the exact value rounded to [n] decimals, ties to even. *)
Definition round_even (num den : Z) : Z :=
  let q := (num / den)%Z in let r := (num mod den)%Z in
  if (2 * r <? den)%Z then q else if (den <? 2 * r)%Z then (q + 1)%Z
  else if Z.even q then q else (q + 1)%Z.
Definition decimals (n : nat) (z : Z) : string :=
  match n with
  | O => Itoa z
  | _ => Itoa (z / 10 ^ Z.of_nat n) +:+ "." +:+ pad n (z mod 10 ^ Z.of_nat n)
  end%Z.
Definition fmt_f (n : nat) (x : float64) : string :=
  match x with
  | S754_zero s => (if s then "-" else "") +:+ decimals n 0
  | S754_infinity s => if s then "-Inf" else "+Inf"
  | S754_nan => "NaN"
  | S754_finite s m e =>
      (if s then "-" else "") +:+
      decimals n (round_even (Z.pos m * 2 ^ Z.max 0 e * 10 ^ Z.of_nat n) (2 ^ Z.max 0 (- e)))
  end%Z.

(** ** [time.Duration.String] *)

(** [fmtFrac]: the last [prec] digits behind a point, without trailing zeros. *)
Definition fmtFrac (prec : nat) (u : Z) : string :=
  let frac := TrimRight (pad prec (u mod 10 ^ Z.of_nat prec)%Z) "0" in
  Itoa (u / 10 ^ Z.of_nat prec)%Z +:+ (if (frac =? "")%string then "" else "." +:+ frac).
Definition Duration_String (d : Duration) : string :=
  let u := Z.abs d in
  (if (d <? 0)%Z then "-" else "") +:+
  if (u <? Second)%Z then
    (if u =? 0 then "0s" else if u <? 1000 then Itoa u +:+ "ns"
     else if u <? 1000000 then fmtFrac 3 u +:+ "µs" else fmtFrac 6 u +:+ "ms")%Z
  else
    let secs := (u / Second)%Z in
    let s := fmtFrac 9 (secs mod 60 * Second + u mod Second)%Z +:+ "s" in
    let mins := (secs / 60)%Z in
    if (0 <? mins)%Z then
      let m := Itoa (mins mod 60)%Z +:+ "m" +:+ s in
      if (0 <? mins / 60)%Z then Itoa (mins / 60)%Z +:+ "h" +:+ m else m
    else s.

Example parse_ex :
  (ParseInt "10_000", ParseInt "0x1F", ParseInt "-017", ParseInt "1__0", ParseInt "9223372036854775808", ParseInt "0") =
    (Some 10000, Some 31, Some (-15), None, None, Some 0)%Z ∧
  (ParseDuration "1h30m", ParseDuration "1.5s", ParseDuration "-250ms", ParseDuration "5", ParseDuration "0") =
    (Some (5400 * Second), Some 1500000000, Some (-250000000), None, Some 0)%Z ∧
  (ParseFloat "50", ParseFloat "2.5e1", ParseFloat "0x1p4", ParseFloat "1e400", ParseFloat "-inf") =
    (Some (float_Z 50), Some (float_Z 25), Some (float_Z 16), None, Some (S754_infinity true)) ∧
  ParseFloat "0.1" = Some (fdiv (float_Z 1) (float_Z 10)).
Proof. vm_compute. done. Qed.

Example print_ex :
  (Duration_String <$> [1500000000; 90 * Minute; 1234567; -42; 1500]%Z) =
    ["1.5s"; "1h30m0s"; "1.234567ms"; "-42ns"; "1.5µs"] ∧
  (fmt_f 2 (float_Z 5), fmt_f 0 (fdiv (float_Z 5) (float_Z 2)), fmt_f 1 (fdiv (float_Z 1) (float_Z 8)),
   fmt_f 2 (fdiv (float_Z 0) (float_Z 0)), pad_left 8 (fmt_f 1 (float_Z (-3))), pad_right 6 "1.5µs") =
    ("5.00", "2", "0.1", "NaN", "    -3.0", "1.5µs ").
Proof. vm_compute. done. Qed.
