(* ===== verification/Flag.v ===== *)
(** * Package flag, as the commands use it: [flag.CommandLine] and [flag.Parse].

    A flag set is the list of its flags with their defaults; parsing gives the flags that
    were set with their values, and the arguments that are left, or the status with which
    the process exits.  Usage and error texts, which go to standard error, are left out. *)
From S2P Require Import Prelude GoStrings Float64 Strconv.

(** The value of a flag, by its type. *)
Inductive flag_value : Type :=
  | FString (s : string) | FBool (b : bool) | FInt (z : Z) | FInt64 (z : Z) | FFloat (x : float64)
  | FDuration (d : Duration).
(** A flag's name and default. *)
Definition flags : Type := list (string * flag_value).
Definition formal (fs : flags) (name : string) : option flag_value := snd <$> (snd <$> list_find (λ f, f.1 = name) fs).

(** [Value.Set] of a flag whose value is [v]. *)
Definition Set_value (v : flag_value) (s : string) : option flag_value :=
  match v with
  | FString _ => Some (FString s)
  | FBool _ => FBool <$> ParseBool s
  | FInt _ => FInt <$> ParseInt s
  | FInt64 _ => FInt64 <$> ParseInt s
  | FFloat _ => FFloat <$> ParseFloat s
  | FDuration _ => FDuration <$> ParseDuration s
  end.
Definition IsBoolFlag (v : flag_value) : bool := match v with FBool _ => true | _ => false end.

(** An argument before and after its first [=], which cannot be its first byte. *)
Fixpoint cut_eq (s : string) : string * option string :=
  match s with
  | "" => ("", None)
  | String c r => if (c =? "=")%char then ("", Some r) else let '(n, v) := cut_eq r in (String c n, v)
  end.
(** The name and value that an argument gives, after its dashes; [None] is a syntax error. *)
Definition flag_text (s : string) : option (string * option string) :=
  match s with
  | "" => None
  | String c r => if (c =? "-")%char || (c =? "=")%char then None
                  else let '(n, v) := cut_eq r in Some (String c n, v)
  end.
(** What follows the dashes of an argument: [None] when it is not a flag, and [Some None]
    for the argument that ends the flags. *)
Definition dashes (s : string) : option (option string) :=
  match s with
  | String "-" (String "-" "") => Some None
  | String "-" (String "-" r) => Some (Some r)
  | String "-" (String _ _ as r) => Some (Some r)
  | _ => None
  end.

(** The exit statuses of [flag.ExitOnError]: asked for help, and an error. *)
Definition exit_help : Z := 0.
Definition exit_usage : Z := 2.

(** [FlagSet.Parse], over [FlagSet.parseOne]. *)
Fixpoint Parse (fs : flags) (actual : gmap string flag_value) (args : list string)
    : (gmap string flag_value * list string) + Z :=
  match args with
  | [] => inl (actual, [])
  | s :: args' =>
      match dashes s with
      | None => inl (actual, args)
      | Some None => inl (actual, args')
      | Some (Some text) =>
          match flag_text text with
          | None => inr exit_usage
          | Some (name, given) =>
              match formal fs name with
              | None => inr (if bool_decide (name ∈ ["help"; "h"]) then exit_help else exit_usage)
              | Some v =>
                  match (if IsBoolFlag v then Some (default "true" given) else given) with
                  | Some s =>
                      match Set_value v s with
                      | Some v' => Parse fs (<[ name := v' ]> actual) args'
                      | None => inr exit_usage
                      end
                  | None =>
                      match args' with
                      | [] => inr exit_usage
                      | s :: args' =>
                          match Set_value v s with
                          | Some v' => Parse fs (<[ name := v' ]> actual) args'
                          | None => inr exit_usage
                          end
                      end
                  end
              end
          end
      end
  end.

(** The variables of the flags after parsing. *)
Definition lookup_flag (fs : flags) (actual : gmap string flag_value) (name : string) : option flag_value :=
  match actual !! name with Some v => Some v | None => formal fs name end.
Definition get_string fs actual name : string := match lookup_flag fs actual name with Some (FString s) => s | _ => "" end.
Definition get_bool fs actual name : bool := match lookup_flag fs actual name with Some (FBool b) => b | _ => false end.
Definition get_int fs actual name : Z :=
  match lookup_flag fs actual name with Some (FInt z) | Some (FInt64 z) => z | _ => 0%Z end.
Definition get_duration fs actual name : Duration :=
  match lookup_flag fs actual name with Some (FDuration d) => d | _ => 0%Z end.
Definition get_float fs actual name : float64 :=
  match lookup_flag fs actual name with Some (FFloat x) => x | _ => float_Z 0 end.
(** The names that [flag.Visit] enumerates: those that were set. *)
Definition Visit (actual : gmap string flag_value) : list string := (map_to_list actual).*1.

(** * Theorems *)

(** ** Command lines

    A command line as its user thinks of it: settings, each with one dash or two, and its
    value behind an equals sign or, but for booleans, in the next argument. *)
Inductive spelling := SEquals | SNext | SBare.
Record setting := { se_two : bool; se_spelling : spelling; se_name : string; se_text : string }.

Definition spell (s : setting) : list string :=
  let flag := (if se_two s then "--" else "-") +:+ se_name s in
  match se_spelling s with
  | SEquals => [flag +:+ String "=" (se_text s)]
  | SNext => [flag; se_text s]
  | SBare => [flag]
  end.

(** A name of a flag: not empty, no dash or equals sign in front, no equals sign inside. *)
Definition plain_name (n : string) : Prop :=
  match n with "" => False | String c _ => c ≠ "-"%char end ∧ str_forall (λ c, negb (c =? "=")%char) n = true.

(** What a setting sets its flag to: bare booleans are set to true, and only booleans are
    bare or have no next argument. *)
Definition setting_value (fs : flags) (s : setting) : option flag_value :=
  v ← formal fs (se_name s);
  match se_spelling s with
  | SEquals => Set_value v (se_text s)
  | SNext => if IsBoolFlag v then None else Set_value v (se_text s)
  | SBare => if IsBoolFlag v then Some (FBool true) else None
  end.
Definition valid (fs : flags) (s : setting) : Prop := plain_name (se_name s) ∧ is_Some (setting_value fs s).
(** The last setting of a name wins. *)
Fixpoint given (fs : flags) (l : list setting) (name : string) : option flag_value :=
  match l with
  | [] => None
  | s :: l =>
      match given fs l name with
      | Some v => Some v
      | None => if decide (se_name s = name) then setting_value fs s else None
      end
  end.

Lemma cut_eq_plain n t : str_forall (λ c, negb (c =? "=")%char) n = true →
  cut_eq (n +:+ String "=" t) = (n, Some t) ∧ cut_eq n = (n, None).
Proof.
  induction n as [|c n IH]; cbn; [done|]. intros [Hc Hn]%andb_true_iff. apply negb_true_iff in Hc.
  rewrite Hc. by destruct (IH Hn) as [-> ->].
Qed.
Lemma flag_text_plain n t : plain_name n →
  flag_text (n +:+ String "=" t) = Some (n, Some t) ∧ flag_text n = Some (n, None).
Proof.
  destruct n as [|c n]; [by intros []|]. intros [Hd Hn]. cbn in Hn. apply andb_true_iff in Hn as [Hc Hn].
  apply negb_true_iff in Hc. cbn. rewrite Hc. destruct (Ascii.eqb_spec c "-") as [->|_]; [done|].
  cbn. by destruct (cut_eq_plain n t Hn) as [-> ->].
Qed.
Lemma dashes_plain (two : bool) n t : plain_name n →
  dashes ((if two then "--" else "-") +:+ n +:+ t) = Some (Some (n +:+ t)).
Proof.
  destruct n as [|c n]; [by intros []|]. intros [Hd _]. unfold dashes. destruct two; [done|]. cbn.
  destruct c as [[] [] [] [] [] [] [] []]; done.
Qed.

(** A valid setting is parsed to its value. *)
Lemma Parse_setting fs s actual args : valid fs s →
  ∃ v, setting_value fs s = Some v ∧
    Parse fs actual (spell s ++ args) = Parse fs (<[ se_name s := v ]> actual) args.
Proof.
  destruct s as [two sp n t]. intros [Hn [v Hv]]. cbn in Hn. exists v. split; [done|].
  unfold setting_value in Hv. cbn in Hv. destruct (formal fs n) as [v0|] eqn:Ef; [|done]. cbn in Hv.
  pose proof (flag_text_plain n t Hn) as [He Hb].
  pose proof (dashes_plain two n "" Hn) as Hd0. rewrite !str_app_nil_r in Hd0.
  unfold spell. cbn [se_two se_spelling se_name se_text]. destruct sp; cbn [app].
  - rewrite <-str_app_assoc. cbn [Parse]. rewrite (dashes_plain two n (String "=" t) Hn), He. cbn.
    rewrite Ef. cbn. destruct (IsBoolFlag v0); by rewrite Hv.
  - cbn [Parse]. rewrite Hd0, Hb. cbn. rewrite Ef. destruct (IsBoolFlag v0) eqn:Eb; [done|]. by rewrite Hv.
  - cbn [Parse]. rewrite Hd0, Hb. cbn. rewrite Ef. destruct (IsBoolFlag v0) eqn:Eb; [|done].
    destruct v0; try done. cbn. by injection Hv as <-.
Qed.

(** The settings of a command line, one after the other, and what follows them. *)
Lemma Parse_settings fs l : Forall (valid fs) l → ∀ actual rest,
  ∃ actual', Parse fs actual ((l ≫= spell) ++ rest) = Parse fs actual' rest ∧
    ∀ name, actual' !! name = match given fs l name with Some v => Some v | None => actual !! name end.
Proof.
  induction 1 as [|s l Hs _ IH]; intros actual rest; [by exists actual|].
  destruct (Parse_setting fs s actual ((l ≫= spell) ++ rest) Hs) as (v & Ev & E).
  destruct (IH (<[ se_name s := v ]> actual) rest) as (actual' & E' & Ha). exists actual'. split.
  - cbn [mbind list_bind]. rewrite <-app_assoc. by rewrite E.
  - intros name. rewrite Ha. cbn [given]. destruct (given fs l name); [done|].
    destruct (decide (se_name s = name)) as [<-|Hne]; [by rewrite lookup_insert_eq, Ev|by rewrite lookup_insert_ne].
Qed.

(** A setting that cannot be parsed, before the arguments [rest]: its flag is unknown, its value
    is not one of the flag's, or it has none and nothing follows. *)
Inductive faulty (fs : flags) (s : setting) : list string → Prop :=
  | faulty_unknown rest : formal fs (se_name s) = None → faulty fs s rest
  | faulty_equals v rest : formal fs (se_name s) = Some v → se_spelling s = SEquals →
      Set_value v (se_text s) = None → faulty fs s rest
  | faulty_next v rest : formal fs (se_name s) = Some v → se_spelling s = SNext →
      IsBoolFlag v = false → Set_value v (se_text s) = None → faulty fs s rest
  | faulty_missing v : formal fs (se_name s) = Some v → se_spelling s = SBare →
      IsBoolFlag v = false → faulty fs s [].

(** It ends the parsing, whatever follows. *)
Lemma Parse_bad fs s actual args : plain_name (se_name s) → faulty fs s args →
  Parse fs actual (spell s ++ args) =
  inr (match formal fs (se_name s) with
       | None => if bool_decide (se_name s ∈ ["help"; "h"]) then exit_help else exit_usage
       | Some _ => exit_usage
       end).
Proof.
  destruct s as [two sp n x]. cbn [se_name]. intros Hn Hf.
  pose proof (flag_text_plain n x Hn) as [He Hb].
  pose proof (dashes_plain two n "" Hn) as Hd0. rewrite !str_app_nil_r in Hd0.
  unfold spell. cbn [se_two se_spelling se_name se_text].
  destruct Hf as [rest Ef|v rest Ef Hsp Hv|v rest Ef Hsp Hbool Hv|v Ef Hsp Hbool];
    cbn [se_name se_spelling se_text] in *; rewrite Ef; [destruct sp|subst sp..]; cbn [app];
    rewrite <-?str_app_assoc; cbn [Parse];
    rewrite ?(dashes_plain two n (String "=" x) Hn), ?Hd0, ?He, ?Hb; cbn; rewrite Ef; try done.
  - destruct (IsBoolFlag v); cbn; by rewrite Hv.
  - by rewrite Hbool, Hv.
  - by rewrite Hbool.
Qed.
(** So does an argument that is no setting at all: three dashes, or a name that is empty. *)
Lemma Parse_malformed fs actual a text args : dashes a = Some (Some text) → flag_text text = None →
  Parse fs actual (a :: args) = inr exit_usage.
Proof. intros Hd Ht. cbn [Parse]. by rewrite Hd, Ht. Qed.
