(* ===== verification/FloatBound.v ===== *)
(** * float64 from above: what rounding can add.

    The value of a float is rational.  For results that are not negative, each operation is at
    most the exact result plus a relative error of 2^-52 and an absolute one of 2^-1074, and it
    is a canonical float again.  The lemmas follow the rounding of SpecFloat: a truncating
    shift, an increment, and a second shift when the increment overflows the mantissa.  Here
    too are the seconds of a duration as a float, and what they can be off by. *)
From Stdlib Require Import QArith Qpower Lqa Lia.
From S2P Require Import Prelude Float64.
#[local] Open Scope Q_scope.
#[export] Instance Qle_Transitive : Transitive Qle := Qle_trans.

Definition pow2 (e : Z) : Q := 2 ^ e.
Definition fval (x : float64) : Q :=
  match x with
  | S754_finite false m e => inject_Z (Z.pos m) * pow2 e
  | S754_finite true m e => - (inject_Z (Z.pos m) * pow2 e)
  | _ => 0
  end.
(** Zero, or positive, finite and canonical. *)
Definition pos_float (x : float64) : Prop :=
  match x with
  | S754_zero _ => True
  | S754_finite false m e => bounded 53 1024 m e = true
  | _ => False
  end.

(** ** Powers of two *)
Lemma pow2_add a b : pow2 (a + b) == pow2 a * pow2 b.
Proof. by apply Qpower_plus. Qed.
Lemma pow2_pos e : 0 < pow2 e.
Proof. by apply Qpower_0_lt. Qed.
Lemma pow2_le a b : (a ≤ b)%Z → pow2 a <= pow2 b.
Proof. intros. by apply Qpower_le_compat_l. Qed.
Lemma pow2_lt_inv a b : pow2 a < pow2 b → (a < b)%Z.
Proof. intros. by apply (Qpower_lt_compat_l_inv 2). Qed.
Lemma pow2_Z n : (0 ≤ n)%Z → inject_Z (2 ^ n) == pow2 n.
Proof. intros. by apply Zpower_Qpower. Qed.
(** Whole numbers in units of a power of two. *)
Lemma pow2_shift m n e : (0 ≤ n)%Z → inject_Z (m * 2 ^ n) * pow2 e == inject_Z m * pow2 (e + n).
Proof. intros Hn. rewrite inject_Z_mult, pow2_Z, pow2_add by done. ring. Qed.
Lemma inject_le_pow2 a b e : (a ≤ b)%Z → inject_Z a * pow2 e <= inject_Z b * pow2 e.
Proof.
  intros Hab. apply Qmult_le_compat_r; [by rewrite <-Zle_Qle|apply Qlt_le_weak, pow2_pos].
Qed.

(** ** Shifts truncate *)
Lemma shr_1_div r : (0 ≤ shr_m r)%Z → shr_m (shr_1 r) = (shr_m r / 2)%Z.
Proof.
  destruct r as [[|[p|p|]|p] rr s]; cbn; intros Hr; try done.
  - rewrite Pos2Z.inj_xI, Z.mul_comm, Z.div_add_l by done. change (1 / 2)%Z with 0%Z. lia.
  - rewrite Pos2Z.inj_xO, Z.mul_comm, Z.div_mul by done. done.
Qed.

Lemma iter_shr_div p : ∀ r, (0 ≤ shr_m r)%Z →
  shr_m (SpecFloat.iter_pos shr_1 p r) = (shr_m r / 2 ^ Z.pos p)%Z.
Proof.
  assert (Hp : ∀ q, (0 < 2 ^ Z.pos q)%Z) by (intros q; by apply Z.pow_pos_nonneg).
  induction p as [p IH|p IH|]; intros r Hr; cbn [SpecFloat.iter_pos].
  - assert (H1 : (0 ≤ shr_m (shr_1 r))%Z) by (rewrite shr_1_div by done; by apply Z.div_pos).
    rewrite !IH, shr_1_div; [|done|done|rewrite IH by done; by apply Z.div_pos].
    rewrite !Z.div_div by (specialize (Hp p); lia). f_equal.
    rewrite (Pos2Z.inj_xI p), Z.pow_add_r, Z.pow_twice_r by lia. lia.
  - rewrite !IH; [|done|rewrite IH by done; by apply Z.div_pos].
    rewrite Z.div_div by (specialize (Hp p); lia). f_equal.
    by rewrite (Pos2Z.inj_xO p), Z.pow_twice_r.
  - by apply shr_1_div.
Qed.

Lemma shr_fexp_div m e l : (0 ≤ m)%Z → (e ≤ fexp 53 1024 (Zdigits2 m + e))%Z →
  let n := (fexp 53 1024 (Zdigits2 m + e) - e)%Z in
  ∃ r, shr_fexp 53 1024 m e l = (r, e + n)%Z ∧ shr_m r = (m / 2 ^ n)%Z.
Proof.
  intros Hm He n. unfold shr_fexp. fold n.
  assert (E : shr_m (shr_record_of_loc m l) = m) by by destruct l as [|[]].
  destruct n as [|p|p] eqn:En; [| |lia]; cbn [shr].
  - eexists. rewrite Z.add_0_r, E, Z.pow_0_r, Z.div_1_r. done.
  - eexists. split; [done|]. by rewrite iter_shr_div, E by by rewrite E.
Qed.

Lemma round_even_bounds m l : (m ≤ round_nearest_even m l ≤ m + 1)%Z.
Proof. unfold round_nearest_even. destruct l as [|[]]; [lia| |lia|lia]. destruct (Z.even m); lia. Qed.

(** ** One rounding *)
Lemma Zdigits2_log2 m : (0 < m)%Z → Zdigits2 m = (Z.log2 m + 1)%Z.
Proof. destruct m as [|p|p]; [lia| |lia]. intros _. apply digits_log2. Qed.

(** The truncated mantissa has at most 53 bits, and 53 when the exponent is above the least. *)
Lemma truncated_range m e : (0 < m)%Z →
  let e1 := fexp 53 1024 (Zdigits2 m + e) in let m1 := (m / 2 ^ (e1 - e))%Z in
  (e ≤ e1)%Z → (-1074 ≤ e1)%Z ∧ (0 ≤ m1 < 2 ^ 53)%Z ∧ ((-1074 < e1)%Z → (2 ^ 52 ≤ m1)%Z).
Proof.
  intros Hm e1 m1 He. pose proof (Z.log2_spec m Hm) as [Hlo Hhi]. subst m1.
  assert (He1 : e1 = Z.max (Z.log2 m + e - 52) (-1074))
    by (subst e1; unfold fexp, emin; rewrite Zdigits2_log2 by done; lia).
  assert (Hp : (0 < 2 ^ (e1 - e))%Z) by (apply Z.pow_pos_nonneg; lia).
  assert (Hl0 : (0 ≤ Z.log2 m)%Z) by apply Z.log2_nonneg.
  split; [lia|]. split; [split|].
  - apply Z.div_pos; lia.
  - apply Z.div_lt_upper_bound; [done|]. rewrite <-Z.pow_add_r by lia.
    eapply Z.lt_le_trans; [exact Hhi|]. apply Z.pow_le_mono_r; lia.
  - intros Hlt. apply Z.div_le_lower_bound; [done|]. rewrite <-Z.pow_add_r by lia.
    etrans; [|exact Hlo]. apply Z.pow_le_mono_r; lia.
Qed.

(** The second shift: none, or by one when the mantissa has become 2^53. *)
Lemma normalize m e l : (-1074 ≤ e ≤ 970)%Z → (0 ≤ m ≤ 2 ^ 53)%Z → ((-1074 < e)%Z → (2 ^ 52 ≤ m)%Z) →
  ∃ r e2, shr_fexp 53 1024 m e loc_Exact = (r, e2) ∧
    let z := match shr_m r with
             | Z0 => S754_zero false
             | Z.pos m2 => if (e2 <=? 1024 - 53)%Z then S754_finite false m2 e2 else S754_infinity false
             | _ => l
             end in
    pos_float z ∧ fval z == inject_Z m * pow2 e.
Proof.
  intros He Hm Hn. destruct (decide (m = 2 ^ 53)%Z) as [->|Hne].
  - assert (Ef : fexp 53 1024 (Zdigits2 (2 ^ 53) + e) = (e + 1)%Z)
      by (change (Zdigits2 (2 ^ 53)) with 54%Z; unfold fexp, emin; lia).
    unfold shr_fexp. rewrite Ef. replace (e + 1 - e)%Z with 1%Z by lia.
    do 2 eexists. split; [done|]. change (shr_m _) with 4503599627370496%Z. cbv zeta iota.
    rewrite (proj2 (Z.leb_le _ _)) by lia. split.
    + cbn [pos_float]. unfold bounded, canonical_mantissa.
      change (Z.pos (digits2_pos 4503599627370496)) with 53%Z. unfold fexp, emin.
      apply andb_true_iff. split; [apply Z.eqb_eq|apply Z.leb_le]; lia.
    + cbn [fval]. rewrite pow2_add. change (pow2 1) with 2. change (inject_Z (2 ^ 53)) with (inject_Z 4503599627370496 * 2). ring.
  - destruct m as [|m|m]; [| |lia].
    + unfold shr_fexp. assert (Ef : (fexp 53 1024 (Zdigits2 0 + e) - e ≤ 0)%Z) by (cbn; unfold fexp, emin; lia).
      destruct (_ - e)%Z; try lia; do 2 eexists; (split; [done|]); cbn; split; try done; ring.
    + assert (Hl : (Z.log2 (Z.pos m) < 53)%Z) by (apply Z.log2_lt_pow2; lia).
      assert (Hl2 : (-1074 < e)%Z → Z.log2 (Z.pos m) = 52%Z).
      { intros H. specialize (Hn H). enough (H52 : (52 ≤ Z.log2 (Z.pos m))%Z) by lia.
        apply Z.log2_le_pow2; lia. }
      assert (Ef : fexp 53 1024 (Zdigits2 (Z.pos m) + e) = e)
        by (rewrite Zdigits2_log2 by done; unfold fexp, emin; lia).
      rewrite shr_fexp_done by done. do 2 eexists. split; [done|]. cbn [shr_m]. cbv zeta.
      rewrite (proj2 (Z.leb_le _ _)) by lia. split; [|done]. cbn [pos_float].
      unfold bounded, canonical_mantissa. cbn [Zdigits2] in Ef. rewrite Ef.
      apply andb_true_iff. split; [by apply Z.eqb_eq|apply Z.leb_le; lia].
Qed.

(** What is at most [x], but for the rounding. *)
Definition eps : Q := pow2 (-52).
Definition eta : Q := pow2 (-1074).
Definition rounds (z : float64) (x : Q) : Prop := pos_float z ∧ fval z <= x + x * eps + eta.

Lemma round_bound m e l x : (0 < m)%Z → (e ≤ fexp 53 1024 (Zdigits2 m + e))%Z →
  inject_Z m * pow2 e <= x → x < pow2 1000 → rounds (binary_round_aux 53 1024 false m e l) x.
Proof.
  intros Hm He Hx Hlt. pose proof (truncated_range m e Hm He) as (Hmin & Hr & Hfull).
  destruct (shr_fexp_div m e l ltac:(lia) He) as (r & Er & Emr).
  set (e1 := fexp 53 1024 (Zdigits2 m + e)) in *. replace (e + (e1 - e))%Z with e1 in Er by lia.
  set (m1 := (m / 2 ^ (e1 - e))%Z) in *. pose proof (round_even_bounds m1 (loc_of_shr_record r)) as Hm1.
  assert (Hlog : pow2 (Z.log2 m + e) <= x).
  { rewrite pow2_add, <-pow2_Z by apply Z.log2_nonneg. etrans; [|exact Hx].
    apply inject_le_pow2, Z.log2_spec, Hm. }
  assert (He1 : e1 = Z.max (Z.log2 m + e - 52) (-1074))
    by (subst e1; unfold fexp, emin; rewrite Zdigits2_log2 by done; lia).
  assert (Hb : (Z.log2 m + e < 1000)%Z) by (apply pow2_lt_inv; lra).
  unfold binary_round_aux. rewrite Er, Emr. fold m1.
  set (m2 := round_nearest_even m1 _) in *.
  destruct (normalize m2 e1 S754_nan ltac:(lia) ltac:(lia) ltac:(intros Hg; specialize (Hfull Hg); lia)) as (r2 & e2 & -> & Hz).
  destruct Hz as [Hpos Hval]. split; [exact Hpos|]. rewrite Hval.
  assert (H2 : inject_Z m2 * pow2 e1 <= inject_Z m * pow2 e + pow2 e1).
  { transitivity (inject_Z (m1 + 1) * pow2 e1); [apply inject_le_pow2; lia|].
    rewrite inject_Z_plus. change (inject_Z 1) with 1. enough (inject_Z m1 * pow2 e1 <= inject_Z m * pow2 e) by lra.
    replace e1 with (e + (e1 - e))%Z at 1 by lia. rewrite <-pow2_shift by lia.
    apply inject_le_pow2. subst m1. rewrite Z.mul_comm. apply Z.mul_div_le, Z.pow_pos_nonneg; lia. }
  assert (H3 : pow2 e1 <= x * eps + eta).
  { pose proof (pow2_pos (Z.log2 m + e - 52)) as P1. pose proof (pow2_pos (-1074)) as P2. unfold eta.
    assert (E : pow2 (Z.log2 m + e - 52) == pow2 (Z.log2 m + e) * eps) by apply pow2_add.
    assert (pow2 (Z.log2 m + e) * eps <= x * eps)
      by (apply Qmult_le_compat_r; [done|apply Qlt_le_weak, pow2_pos]).
    rewrite He1. destruct (Z.max_spec (Z.log2 m + e - 52) (-1074)) as [[_ ->]|[_ ->]]; lra. }
  lra.
Qed.

(** ** The operations *)
Lemma shl_align_value m e e' : let '(m', e1) := shl_align m e e' in
  inject_Z (Z.pos m') * pow2 e1 == inject_Z (Z.pos m) * pow2 e ∧
  (Z.log2 (Z.pos m') + e1 = Z.log2 (Z.pos m) + e)%Z ∧ (e1 ≤ e')%Z ∧ e1 = Z.min e e'.
Proof.
  unfold shl_align. destruct (e' - e)%Z as [|p|p] eqn:E; [split; [done|lia]..|].
  rewrite iter_xO. split; [|split; [|lia]].
  - rewrite pow2_shift by done. by replace (e' + Z.pos p)%Z with e by lia.
  - rewrite Z.log2_mul_pow2 by lia. lia.
Qed.

Lemma normalize_bound z e x : (0 < z)%Z → inject_Z z * pow2 e <= x → x < pow2 1000 →
  rounds (binary_normalize 53 1024 z e false) x.
Proof.
  destruct z as [|m|m]; try lia. intros _ Hx Hlt. cbn [binary_normalize]. unfold binary_round.
  pose proof (shl_align_value m e (fexp 53 1024 (Z.pos (digits2_pos m) + e))) as Ha.
  destruct (shl_align _ _ _) as [m' e1]. destruct Ha as (Hv & Hl & He & _).
  apply round_bound; [done| |by rewrite Hv|done].
  rewrite Zdigits2_log2 by done. rewrite digits_log2 in He. by replace (_ + e1)%Z with (Z.log2 (Z.pos m) + 1 + e)%Z by lia.
Qed.

Lemma float_Z_bound z : (0 ≤ z)%Z → inject_Z z < pow2 1000 → rounds (float_Z z) (inject_Z z).
Proof.
  intros Hz Hlt. unfold float_Z. destruct (decide (z = 0%Z)) as [->|Hne].
  - split; [done|]. by vm_compute.
  - apply normalize_bound; [lia| |done]. change (pow2 0) with 1. lra.
Qed.

Lemma eps_pos : 0 < eps.
Proof. apply pow2_pos. Qed.
Lemma eta_pos : 0 < eta.
Proof. apply pow2_pos. Qed.
Lemma rounds_exact z x : pos_float z → 0 <= x → fval z <= x → rounds z x.
Proof.
  intros Hz Hx Hv. split; [done|]. pose proof eta_pos.
  assert (0 <= x * eps) by (apply Qmult_le_0_compat; [done|apply Qlt_le_weak, eps_pos]). lra.
Qed.
Lemma fval_nonneg x : pos_float x → 0 <= fval x.
Proof.
  destruct x as [| | |[] m e]; try done. intros _. cbn.
  apply Qmult_le_0_compat; [done|apply Qlt_le_weak, pow2_pos].
Qed.

Lemma fadd_bound x y : pos_float x → pos_float y → fval x + fval y < pow2 1000 →
  rounds (fadd x y) (fval x + fval y).
Proof.
  intros Hx Hy Hlt. pose proof (fval_nonneg x Hx) as Hx0. pose proof (fval_nonneg y Hy) as Hy0.
  unfold fadd, SFadd.
  destruct x as [s1| | |[] m1 e1]; try done; destruct y as [s2| | |[] m2 e2]; try done.
  - apply rounds_exact; [by destruct s1, s2|lra|by destruct s1, s2].
  - apply rounds_exact; [done|lra|cbn [fval]; lra].
  - apply rounds_exact; [done|lra|cbn [fval]; lra].
  - cbn [cond_Zopp]. pose proof (shl_align_value m1 e1 (Z.min e1 e2)) as H1.
    pose proof (shl_align_value m2 e2 (Z.min e1 e2)) as H2.
    destruct (shl_align m1 _ _) as [n1 f1], (shl_align m2 _ _) as [n2 f2].
    destruct H1 as (V1 & _ & _ & E1), H2 as (V2 & _ & _ & E2). cbn [fst fval] in *.
    apply normalize_bound; [lia| |done]. rewrite inject_Z_plus, <-V1, <-V2.
    replace f1 with (Z.min e1 e2) by lia. replace f2 with (Z.min e1 e2) by lia. lra.
Qed.

(** The exponent of a canonical float, from its digits. *)
Lemma bounded_exp m e : bounded 53 1024 m e = true →
  (e = Z.max (Z.log2 (Z.pos m) + e - 52) (-1074))%Z ∧ (e ≤ 971)%Z.
Proof.
  unfold bounded, canonical_mantissa, fexp, emin. intros [Hc He]%andb_true_iff.
  apply Z.eqb_eq in Hc. apply Z.leb_le in He. rewrite digits_log2 in Hc. lia.
Qed.

Lemma fmul_bound x y : pos_float x → pos_float y → fval x * fval y < pow2 1000 →
  rounds (fmul x y) (fval x * fval y).
Proof.
  intros Hx Hy Hlt. pose proof (fval_nonneg x Hx) as Hx0. pose proof (fval_nonneg y Hy) as Hy0.
  unfold fmul, SFmul.
  destruct x as [s1| | |[] m1 e1]; try done; destruct y as [s2| | |[] m2 e2]; try done;
    try (apply rounds_exact; [by destruct s1 || by destruct s2|cbn [fval]; lra|cbn [fval]; lra]).
  cbn [xorb]. cbn [pos_float fval] in *. apply bounded_exp in Hx as [Ex _], Hy as [Ey _].
  apply round_bound; [done| | |done].
  - rewrite Zdigits2_log2 by done. unfold fexp, emin. rewrite Pos2Z.inj_mul.
    pose proof (Z.log2_mul_below (Z.pos m1) (Z.pos m2) ltac:(done) ltac:(done)).
    pose proof (Z.log2_nonneg (Z.pos m1)). pose proof (Z.log2_nonneg (Z.pos m2)). lia.
  - rewrite Pos2Z.inj_mul, inject_Z_mult, pow2_add. lra.
Qed.

Lemma bounded_intro m e : e = Z.max (Z.log2 (Z.pos m) + e - 52) (-1074) → (e ≤ 971)%Z →
  bounded 53 1024 m e = true.
Proof.
  intros E He. unfold bounded, canonical_mantissa, fexp, emin. rewrite digits_log2.
  apply andb_true_iff. split; [apply Z.eqb_eq|apply Z.leb_le]; lia.
Qed.

(** Whole numbers below 2^53 are floats. *)
Lemma float_Z_finite z : (0 < z < 2 ^ 53)%Z → ∃ m e, float_Z z = S754_finite false m e ∧
  bounded 53 1024 m e = true ∧ (Z.log2 (Z.pos m) + e = Z.log2 z)%Z ∧
  fval (S754_finite false m e) == inject_Z z.
Proof.
  intros Hz. destruct z as [|n|n]; try lia. set (l := Z.log2 (Z.pos n)).
  assert (Hl : (0 ≤ l < 53)%Z) by (split; [apply Z.log2_nonneg|apply Z.log2_lt_pow2; lia]).
  destruct (mantissa_exists n 0) as [M HM]; [apply Z.divide_1_l|fold l; lia|]. fold l in HM.
  unfold float_Z. cbn [binary_normalize]. rewrite (round_exact n 0 M HM) by (fold l; lia).
  assert (HlM : Z.log2 (Z.pos M) = 52%Z).
  { assert (E : Z.log2 (Z.pos M * 2 ^ Z.max 0 (l - 52)) = Z.log2 (Z.pos n * 2 ^ Z.max 0 (52 - l)))
      by (by rewrite HM).
    rewrite !Z.log2_mul_pow2 in E by lia. fold l in E. lia. }
  fold l. exists M, (l - 52)%Z. replace (l + 0 - 52)%Z with (l - 52)%Z by lia.
  split_and!; [done|apply bounded_intro; lia|lia|]. cbn [fval].
  replace (Z.max 0 (l - 52)) with 0%Z in HM by lia. rewrite Z.mul_1_r in HM.
  rewrite HM, pow2_shift by lia. replace (l - 52 + Z.max 0 (52 - l))%Z with 0%Z by lia.
  change (pow2 0) with 1. ring.
Qed.

Lemma fdiv_bound m1 e1 m2 e2 q : bounded 53 1024 m1 e1 = true → bounded 53 1024 m2 e2 = true →
  (-1000 ≤ Z.log2 (Z.pos m1) + e1 - (Z.log2 (Z.pos m2) + e2))%Z →
  fval (S754_finite false m1 e1) == q * fval (S754_finite false m2 e2) → q < pow2 1000 →
  rounds (fdiv (S754_finite false m1 e1) (S754_finite false m2 e2)) q.
Proof.
  intros Hb1 Hb2 Hd Hq Hlt. unfold fdiv, SFdiv, SFdiv_core_binary.
  set (l1 := Z.log2 (Z.pos m1)) in *. set (l2 := Z.log2 (Z.pos m2)) in *.
  assert (Ee : Z.min (fexp 53 1024 (Zdigits2 (Z.pos m1) + e1 - (Zdigits2 (Z.pos m2) + e2))) (e1 - e2) =
               Z.min (l1 + e1 - (l2 + e2) - 53) (e1 - e2))
    by (rewrite !Zdigits2_log2 by done; unfold fexp, emin; fold l1 l2; lia).
  rewrite Ee. set (e := Z.min _ _). set (s := (e1 - e2 - e)%Z).
  assert (Hs : (0 ≤ s ∧ l2 + 53 ≤ l1 + s)%Z) by lia.
  assert (Em : (match s with Z0 => Z.pos m1 | Z.pos _ => Z.shiftl (Z.pos m1) s | Z.neg _ => 0 end =
                Z.pos m1 * 2 ^ s)%Z).
  { rewrite <-Z.shiftl_mul_pow2 by lia. destruct s; [by rewrite Z.shiftl_0_r|done|lia]. }
  rewrite Em. set (n := (Z.pos m1 * 2 ^ s)%Z).
  assert (Hn : (2 ^ (l2 + 53) ≤ n)%Z).
  { etrans; [apply (Z.pow_le_mono_r 2 (l2 + 53) (l1 + s)); lia|]. unfold n.
    rewrite Z.pow_add_r by (lia || apply Z.log2_nonneg). apply Z.mul_le_mono_nonneg_r;
      [apply Z.pow_nonneg; lia|by apply Z.log2_spec]. }
  destruct (Z.div_eucl n (Z.pos m2)) as [k r] eqn:Ek.
  assert (Ekd : k = (n / Z.pos m2)%Z) by (unfold Z.div; by rewrite Ek).
  assert (Hm2 : (Z.pos m2 < 2 ^ (l2 + 1))%Z) by (apply Z.log2_spec; done).
  assert (Hk : (2 ^ 52 ≤ k)%Z).
  { subst k. apply Z.div_le_lower_bound; [done|]. etrans; [|exact Hn].
    replace (l2 + 53)%Z with (l2 + 1 + 52)%Z by lia. rewrite Z.pow_add_r by (try lia; pose proof (Z.log2_nonneg (Z.pos m2)); lia).
    apply Z.mul_le_mono_nonneg_r; lia. }
  cbn [xorb]. apply round_bound; [lia| | |done].
  - rewrite Zdigits2_log2 by lia. assert (52 ≤ Z.log2 k)%Z by (apply Z.log2_le_pow2; lia).
    unfold fexp, emin. lia.
  - cbn [fval] in Hq. assert (P2 : 0 < inject_Z (Z.pos m2) * pow2 e2)
      by (apply Qmult_lt_0_compat; [done|apply pow2_pos]).
    apply (Qmult_le_r _ _ _ P2). rewrite <-Hq.
    assert (E : inject_Z k * pow2 e * (inject_Z (Z.pos m2) * pow2 e2) ==
                inject_Z (Z.pos m2 * k) * pow2 (e1 - s))
      by (replace (e1 - s)%Z with (e + e2)%Z by lia; rewrite pow2_add, inject_Z_mult; ring).
    rewrite E. replace e1 with (e1 - s + s)%Z at 2 by lia. rewrite <-pow2_shift by lia. fold n.
    apply inject_le_pow2. subst k. by apply Z.mul_div_le.
Qed.

(** ** Comparison and exact subtraction *)
Lemma flt_false x y : pos_float x → pos_float y → flt x y = false → fval y <= fval x.
Proof.
  intros Hx Hy. pose proof (fval_nonneg x Hx) as Hx0.
  unfold flt, SFltb, SFcompare. destruct x as [s1| | |[] m1 e1]; try done;
    destruct y as [s2| | |[] m2 e2]; try done; cbn [pos_float fval] in *; intros E; try lra.
  apply bounded_exp in Hx as [Ex _], Hy as [Ey _].
  pose proof (Z.log2_spec (Z.pos m1) ltac:(done)) as [L1 _].
  pose proof (Z.log2_spec (Z.pos m2) ltac:(done)) as [_ L2].
  destruct (Z.compare_spec e1 e2) as [->|Hlt|Hgt]; [|done|].
  - apply inject_le_pow2. change (Pos.compare_cont Eq m1 m2) with (Pos.compare m1 m2) in E.
    destruct (Pos.compare_spec m1 m2); [by subst|done|lia].
  - replace e1 with (e2 + (e1 - e2))%Z by lia. rewrite <-pow2_shift by lia. apply inject_le_pow2.
    assert (H1 : (Z.log2 (Z.pos m1) = 52)%Z) by lia. rewrite H1 in L1.
    assert (H2 : (Z.log2 (Z.pos m2) ≤ 52)%Z) by lia.
    assert (H3 : (2 ^ Z.succ (Z.log2 (Z.pos m2)) ≤ 2 ^ 53)%Z) by (apply Z.pow_le_mono_r; lia).
    assert (H4 : (2 ^ 1 ≤ 2 ^ (e1 - e2))%Z) by (apply Z.pow_le_mono_r; lia).
    nia.
Qed.

Lemma flt_true x y : pos_float x → pos_float y → flt x y = true → fval x <= fval y.
Proof.
  intros Hx Hy Hlt. apply flt_false; [done..|]. revert Hlt. unfold flt, SFltb, SFcompare.
  destruct x as [s1| | |[] m1 e1]; try done; destruct y as [s2| | |[] m2 e2]; try done.
  rewrite (Z.compare_antisym e1 e2). destruct (e1 ?= e2)%Z; cbn; try done.
  change (Pos.compare_cont Eq m1 m2) with (Pos.compare m1 m2).
  change (Pos.compare_cont Eq m2 m1) with (Pos.compare m2 m1).
  rewrite (Pos.compare_antisym m1 m2). by destruct (m1 ?= m2)%positive.
Qed.

Lemma small_pos x : small_float x → pos_float x.
Proof. destruct x as [| | |[] m e]; try done. by intros [? _]. Qed.

(** A float below a small one is small. *)
Lemma small_below x y : pos_float x → small_float y → flt y x = false → small_float x.
Proof.
  intros Hx Hy. unfold flt, SFltb, SFcompare. destruct x as [s1| | |[] m1 e1]; try done;
    destruct y as [s2| | |[] m2 e2]; try done; cbn [small_float pos_float] in *.
  destruct Hy as [_ Hy]. intros E. split; [done|].
  destruct (Z.compare_spec e2 e1) as [->|Hlt|Hgt]; [done|done|lia].
Qed.

Lemma small_pred_value x : small_float x → (1 ≤ float_floor x)%Z →
  fval (fsub x (float_Z 1)) == fval x - 1.
Proof.
  intros Hs Hx. destruct (small_units x Hs Hx) as (m & e & -> & He & Hl & Ef). rewrite Ef in Hx.
  assert (Hu : (2 ^ 52 ≤ Z.pos m * 2 ^ (e + 52))%Z).
  { destruct (Z.le_gt_cases (2 ^ 52) (Z.pos m * 2 ^ (e + 52))); [done|].
    rewrite Z.div_small in Hx; [lia|split; [|done]]. apply Z.mul_nonneg_nonneg; lia. }
  pose proof (sub_one_form m e He Hl Hu) as Hform. cbv zeta in Hform.
  assert (Ev : fval (S754_finite false m e) - 1 == inject_Z (Z.pos m * 2 ^ (e + 52) - 2 ^ 52) * pow2 (-52)).
  { unfold Z.sub. rewrite inject_Z_plus, inject_Z_opp.
    replace e with (-52 + (e + 52))%Z at 1 by lia. cbn [fval]. rewrite <-pow2_shift by lia.
    change (inject_Z (2 ^ 52)) with (pow2 52). rewrite Qmult_plus_distr_l. 
    assert (E1 : - pow2 52 * pow2 (-52) == -1) by by vm_compute. rewrite E1. ring. }
  rewrite Ev. destruct (Z.pos m * 2 ^ (e + 52) - 2 ^ 52)%Z as [|n|n]; [rewrite Hform; cbn; ring| |done].
  set (l := Z.log2 (Z.pos n)) in *. destruct Hform as (Hln & M & -> & HlM & HM). cbn [fval].
  assert (E : inject_Z (Z.pos M * 2 ^ Z.max 0 (l - 52)) * pow2 (-52 - Z.max 0 (52 - l)) ==
              inject_Z (Z.pos n * 2 ^ Z.max 0 (52 - l)) * pow2 (-52 - Z.max 0 (52 - l))) by by rewrite HM.
  rewrite !pow2_shift in E by lia.
  replace (-52 - Z.max 0 (52 - l) + Z.max 0 (l - 52))%Z with (l - 104)%Z in E by lia.
  by replace (-52 - Z.max 0 (52 - l) + Z.max 0 (52 - l))%Z with (-52)%Z in E by lia.
Qed.

(** ** Results that are not positive *)
Definition nonpos (x : float64) : Prop :=
  match x with
  | S754_zero _ | S754_nan | S754_infinity true | S754_finite true _ _ => True
  | _ => False
  end.
Lemma nonpos_flt x : nonpos x → flt (float_Z 0) x = false.
Proof. by destruct x as [|[]| |[]]. Qed.
Lemma round_aux_nonpos m e l : nonpos (binary_round_aux 53 1024 true m e l).
Proof.
  unfold binary_round_aux. destruct (shr_fexp _ _ _ _ _) as [r e1], (shr_fexp _ _ _ _ _) as [r2 e2].
  destruct (shr_m r2); try done. by destruct (_ <=? _)%Z.
Qed.
Lemma normalize_nonpos z e : (z ≤ 0)%Z → nonpos (binary_normalize 53 1024 z e false).
Proof.
  destruct z as [|z|z]; [done|lia|]. intros _. cbn [binary_normalize]. unfold binary_round.
  destruct (shl_align _ _ _). apply round_aux_nonpos.
Qed.
Lemma fadd_nonpos x y : nonpos x → nonpos y → nonpos (fadd x y).
Proof.
  unfold fadd, SFadd. destruct x as [[]|[]| |[] m1 e1], y as [[]|[]| |[] m2 e2]; try done. intros _ _.
  apply normalize_nonpos. cbn [cond_Zopp]. lia.
Qed.
Lemma fdiv_nonpos x m e : nonpos x → nonpos (fdiv x (S754_finite false m e)).
Proof.
  unfold fdiv, SFdiv. destruct x as [[]|[]| |[] m1 e1]; try done. intros _.
  destruct (SFdiv_core_binary _ _ _ _ _ _) as [[q e'] l]. apply round_aux_nonpos.
Qed.

(** ** Whole numbers that are not zero *)
Lemma round_aux_nonzero s m e l : (0 < m)%Z → (e ≤ fexp 53 1024 (Zdigits2 m + e))%Z →
  (-1074 < fexp 53 1024 (Zdigits2 m + e))%Z →
  SFeqb (binary_round_aux 53 1024 s m e l) (S754_zero false) = false.
Proof.
  intros Hm He Hgt. pose proof (truncated_range m e Hm He) as (_ & Hr & Hfull).
  destruct (shr_fexp_div m e l ltac:(lia) He) as (r & Er & Emr).
  set (e1 := fexp 53 1024 (Zdigits2 m + e)) in *. replace (e + (e1 - e))%Z with e1 in Er by lia.
  set (m1 := (m / 2 ^ (e1 - e))%Z) in *. pose proof (round_even_bounds m1 (loc_of_shr_record r)) as Hm1.
  specialize (Hfull Hgt). unfold binary_round_aux. rewrite Er, Emr. fold m1.
  set (m2 := round_nearest_even m1 _) in *.
  assert (Hlog : (52 ≤ Z.log2 m2)%Z) by (apply Z.log2_le_pow2; lia).
  assert (Hlog' : (Z.log2 m2 ≤ 53)%Z) by (apply Z.lt_succ_r, Z.log2_lt_pow2; lia).
  assert (Ef : fexp 53 1024 (Zdigits2 m2 + e1) = (e1 + (Z.log2 m2 - 52))%Z)
    by (unfold fexp, emin; rewrite Zdigits2_log2 by lia; lia).
  destruct (shr_fexp_div m2 e1 loc_Exact ltac:(lia) ltac:(rewrite Ef; lia)) as (r2 & -> & E2).
  rewrite Ef, (Z.add_simpl_l e1) in E2.
  assert (Hpos : (1 ≤ shr_m r2)%Z).
  { rewrite E2. apply Z.div_le_lower_bound; [apply Z.pow_pos_nonneg; lia|].
    assert (2 ^ (Z.log2 m2 - 52) ≤ 2 ^ 1)%Z by (apply Z.pow_le_mono_r; lia). lia. }
  destruct (shr_m r2) as [|p|p]; [lia| |lia]. destruct (_ <=? _)%Z; by destruct s.
Qed.

(** The conversion tells zero from every other integer. *)
Lemma float_Z_eqb z : SFeqb (float_Z z) (float_Z 0) = (z =? 0)%Z.
Proof.
  assert (Hr : ∀ s m, SFeqb (binary_round 53 1024 s m 0) (S754_zero false) = false).
  { intros s m. unfold binary_round.
    pose proof (shl_align_value m 0 (fexp 53 1024 (Z.pos (digits2_pos m) + 0))) as Ha.
    destruct (shl_align _ _ _) as [m' e1]. destruct Ha as (_ & Hl & He & _).
    pose proof (Z.log2_nonneg (Z.pos m)).
    assert (Ef : fexp 53 1024 (Zdigits2 (Z.pos m') + e1) = (Z.log2 (Z.pos m) - 52)%Z)
      by (unfold fexp, emin; rewrite Zdigits2_log2 by done; lia).
    rewrite digits_log2 in He. apply round_aux_nonzero; [done| |rewrite Ef; lia].
    rewrite Ef. etrans; [exact He|]. unfold fexp, emin. lia. }
  destruct z as [|m|m]; [done|apply Hr|apply Hr].
Qed.

(** ** Seconds *)

(** The exact number of seconds; [Float64.Seconds] rounds it twice. *)
Definition seconds (d : Duration) : Q := inject_Z d / inject_Z 1000000000.
Lemma seconds_add a b : seconds (a + b)%Z == seconds a + seconds b.
Proof. unfold seconds. rewrite inject_Z_plus. field. Qed.
Lemma seconds_le a b : (a ≤ b)%Z → seconds a <= seconds b.
Proof.
  intros H. unfold seconds, Qdiv. apply Qmult_le_compat_r; [by rewrite <-Zle_Qle|done].
Qed.
Lemma seconds_nonneg a : (0 ≤ a)%Z → 0 <= seconds a.
Proof. intros H. assert (E : seconds 0%Z == 0) by done. rewrite <-E. by apply seconds_le. Qed.

Definition billion : float64 := float_Z 1000000000.
Lemma billion_value : billion = S754_finite false 8388608000000000 (-23).
Proof. vm_compute. reflexivity. Qed.

Lemma small_eps : eps <= 1 # 1024.
Proof. by vm_compute. Qed.
Lemma small_eta : eta <= eps * (1 # 340282366920938463463374607431768211456).
Proof. by vm_compute. Qed.

(** ** Errors of one operation after another *)
Lemma Qprod_le a b c : 0 <= c → a <= b → a * c <= b * c.
Proof. intros Hc Hab. by apply Qmult_le_compat_r. Qed.
Lemma Qprod_nonneg a b : 0 <= a → 0 <= b → 0 <= a * b.
Proof. by apply Qmult_le_0_compat. Qed.

Lemma add_error a b s z : 0 <= a → 0 <= b → s <= b + b * eps + eta →
  z <= a + s + (a + s) * eps + eta → z <= (a + b) * (1 + 3 * eps) + 3 * eta.
Proof.
  intros Ha Hb Hs Hz. pose proof eps_pos. pose proof eta_pos. pose proof small_eps.
  pose proof (Qprod_le (a + s) (a + (b + b * eps + eta)) eps ltac:(lra) ltac:(lra)).
  pose proof (Qprod_nonneg a eps ltac:(lra) ltac:(lra)).
  pose proof (Qprod_nonneg b eps ltac:(lra) ltac:(lra)) as Hbe.
  pose proof (Qprod_le eps (1 # 1024) (b * eps) Hbe ltac:(lra)).
  pose proof (Qprod_le eps (1 # 1024) eta ltac:(lra) ltac:(lra)). lra.
Qed.

(** A part of a second. *)
Lemma fraction_bound r : (0 ≤ r < 1000000000)%Z → rounds (fdiv (float_Z r) billion) (seconds r).
Proof.
  intros Hr. rewrite billion_value. destruct (decide (r = 0%Z)) as [->|Hne].
  - apply rounds_exact; [done|done|]. by vm_compute.
  - destruct (float_Z_finite r) as (m & e & -> & Hb & Hl & Hv); [lia|].
    assert (Hr2 : seconds r < 1).
    { unfold seconds. apply Qlt_shift_div_r; [done|]. rewrite Qmult_1_l, <-Zlt_Qlt. lia. }
    apply fdiv_bound; [done|by vm_compute| | |].
    + rewrite Hl. pose proof (Z.log2_nonneg r). cbn. lia.
    + rewrite Hv. assert (E : fval (S754_finite false 8388608000000000 (-23)) == inject_Z 1000000000) by by vm_compute.
      rewrite E. unfold seconds. field.
    + eapply Qlt_trans; [exact Hr2|]. by vm_compute.
Qed.

Lemma Seconds_bound d : (0 < d ≤ int64_max)%Z →
  pos_float (Seconds d) ∧ fval (Seconds d) <= seconds d * (1 + 3 * eps) + 3 * eta.
Proof.
  unfold int64_max. intros Hd. unfold Seconds. fold billion.
  set (q := Z.quot d Second). set (r := Z.rem d Second).
  assert (Hqr : (d = Second * q + r)%Z) by apply Z.quot_rem'.
  assert (Hr : (0 ≤ r < Second)%Z) by (apply Z.rem_bound_pos; unfold Second; lia).
  assert (Hq : (0 ≤ q < 2 ^ 53)%Z) by (unfold Second in *; lia).
  assert (Hsum : seconds d == inject_Z q + seconds r).
  { rewrite Hqr, seconds_add. unfold seconds, Second. rewrite inject_Z_mult. field. }
  assert (HA : pos_float (float_Z q) ∧ fval (float_Z q) == inject_Z q).
  { destruct (decide (q = 0%Z)) as [->|Hne]; [split; [done|by vm_compute]|].
    destruct (float_Z_finite q) as (m & e & -> & Hb & _ & Hv); [lia|]. by split. }
  destruct HA as [HA EA]. destruct (fraction_bound r) as [HB EB]; [unfold Second in Hr; lia|].
  pose proof (seconds_nonneg r ltac:(lia)) as Hr0. pose proof eps_pos. pose proof eta_pos.
  pose proof small_eps. pose proof small_eta.
  assert (Hq0 : 0 <= inject_Z q) by (change 0 with (inject_Z 0); rewrite <-Zle_Qle; lia).
  assert (Hq1 : inject_Z q <= inject_Z (2 ^ 53)) by (rewrite <-Zle_Qle; lia).
  assert (Hr1 : seconds r <= 1) by (assert (E : seconds 1000000000%Z == 1) by done; rewrite <-E; apply seconds_le; unfold Second in Hr; lia).
  assert (Hbig : inject_Z (2 ^ 53) + 100 <= pow2 1000) by by vm_compute.
  destruct (fadd_bound (float_Z q) (fdiv (float_Z r) billion) HA HB) as [HS ES]; [rewrite EA; nra|].
  split; [exact HS|]. rewrite EA in ES. rewrite Hsum. by eapply add_error.
Qed.

Lemma Seconds_nonpos d : (d ≤ 0)%Z → nonpos (Seconds d).
Proof.
  intros Hd. unfold Seconds. fold billion. rewrite billion_value.
  apply fadd_nonpos; [|apply fdiv_nonpos]; apply normalize_nonpos; unfold Second.
  - rewrite <-(Z.opp_involutive d), Z.quot_opp_l by done.
    pose proof (Z.quot_pos (- d) 1000000000 ltac:(lia) ltac:(lia)). lia.
  - by apply Z.rem_nonpos.
Qed.
