(* ===== verification/RateLimit.v ===== *)
(** * pkg/rdap/middleware/ratelimit.go: token buckets and their keys.

    The clock is an argument; [Allow] and [CleanupIdle] hold the
    mutex for all they do, so each is one step. *)
From S2P Require Import Prelude GoStrings NetIP Auth Types Http Middleware Float64.

(** ** Time and tokens *)

(** [time.Time.Sub] saturates. *)
Definition time_Sub (a b : Time) : Duration := Z.max int64_min (Z.min int64_max (a - b)).
Definition minF64 (a b : float64) : float64 := if flt a b then a else b.

(** ** The limiter *)
Record bucket := { b_tokens : float64; b_lastSeen : Time }.
Record RateLimiter := {
  rl_rate : float64; rl_burst : float64; rl_buckets : gmap string bucket;
  rl_maxIdle : Duration }.

Definition NewRateLimiter (ratePerSec burst : float64) : RateLimiter :=
  {| rl_rate := ratePerSec; rl_burst := burst; rl_buckets := ∅; rl_maxIdle := (10 * Minute)%Z |}.
Definition with_buckets (m : gmap string bucket) (rl : RateLimiter) : RateLimiter :=
  {| rl_rate := rl_rate rl; rl_burst := rl_burst rl; rl_buckets := m;
     rl_maxIdle := rl_maxIdle rl |}.

(** The bucket of a key at [now], refilled for the time since it was last seen. *)
Definition refill (now : Time) (rl : RateLimiter) (b : option bucket) : bucket :=
  match b with
  | None => {| b_tokens := rl_burst rl; b_lastSeen := now |}
  | Some b =>
      let elapsed := Seconds (time_Sub now (b_lastSeen b)) in
      {| b_tokens := if flt (float_Z 0) elapsed
                     then minF64 (rl_burst rl) (fadd (b_tokens b) (fmul elapsed (rl_rate rl)))
                     else b_tokens b;
         b_lastSeen := now |}
  end.

Definition Allow (now : Time) (k : string) (rl : RateLimiter) : bool * RateLimiter :=
  if fle (rl_rate rl) (float_Z 0) then (true, rl) else
  let b := refill now rl (rl_buckets rl !! k) in
  if flt (b_tokens b) (float_Z 1) then (false, with_buckets (<[ k := b ]> (rl_buckets rl)) rl)
  else
    let b := {| b_tokens := fsub (b_tokens b) (float_Z 1); b_lastSeen := b_lastSeen b |} in
    (true, with_buckets (<[ k := b ]> (rl_buckets rl)) rl).

Definition CleanupIdle (now : Time) (rl : RateLimiter) : RateLimiter :=
  let cutoff := (now - rl_maxIdle rl)%Z in
  with_buckets (filter (λ kb, Before (b_lastSeen kb.2) cutoff = false) (rl_buckets rl)) rl.

(** The wrapper, around a handler whose state is [W]. *)
Definition RateLimit {W} (now : W → Time) (key : Request → string) (next : Middleware W)
    : Middleware (RateLimiter * W) := λ h r '(rl, w),
  let '(ok, rl) := Allow (now w) (key r) rl in
  if negb ok then
    Some (HeaderSet "Retry-After" (Itoa 1) ::
          http_Error "rate limit exceeded" StatusTooManyRequests, (rl, w))
  else '(ops, w) ← next h r w; Some (ops, (rl, w)).

(** ** Keys *)

(** [strings.LastIndexByte] *)
Fixpoint last_index (c : ascii) (s : string) : option N :=
  match s with
  | "" => None
  | String c' s' =>
      match last_index c s' with
      | Some i => Some (N.succ i)
      | None => if Ascii.eqb c c' then Some 0%N else None
      end
  end.
Definition str_take (n : N) (s : string) : string := String.substring 0 (N.to_nat n) s.
Definition has_byte (c : ascii) (s : string) : bool := bool_decide (is_Some (str_index c s)).

(** [net.SplitHostPort]; [None] is an error. *)
Definition SplitHostPort (hostport : string) : option (string * string) :=
  i ← last_index ":" hostport;
  let port := str_drop (N.to_nat (N.succ i)) hostport in
  if HasPrefix hostport "[" then
    e ← str_index "]" hostport;
    (* the first ']' has to come just before the last ':' *)
    if negb (N.succ e =? i)%N then None
    else
      let host := str_drop 1 (str_take e hostport) in
      if has_byte "[" (str_drop 1 hostport) || has_byte "]" (str_drop (N.to_nat (N.succ e)) hostport)
      then None else Some (host, port)
  else
    let host := str_take i hostport in
    if has_byte ":" host then None
    else if has_byte "[" hostport || has_byte "]" hostport then None
    else Some (host, port).

Definition ClientIP (r : Request) : string :=
  match SplitHostPort (r_RemoteAddr r) with
  | None => r_RemoteAddr r
  | Some (host, _) => host
  end.

Section keys.
Context `{NetIPText}.

Definition parseRemoteAddr (s : string) : Addr :=
  let host := match SplitHostPort s with None => s | Some (host, _) => host end in
  default addr_zero (ParseAddr host).

Definition anyContains (prefixes : list Prefix) (addr : Addr) : bool :=
  existsb (λ p, pfx_Contains p addr) prefixes.

Definition real_ip (r : Request) : string :=
  let h := header_Get "X-Real-Ip" (r_Header r) in
  if negb (h =? "")%string then TrimSpace h else ClientIP r.

Definition ForwardedClientIP (trustedProxies : list Prefix) (r : Request) : string :=
  let peer := parseRemoteAddr (r_RemoteAddr r) in
  if negb (addr_IsValid peer) || negb (anyContains trustedProxies peer) then ClientIP r
  else
    let h := header_Get "X-Forwarded-For" (r_Header r) in
    if negb (h =? "")%string then
      let candidate := TrimSpace (SplitN_2_0 h ",") in
      if negb (candidate =? "")%string then candidate else real_ip r
    else real_ip r.
End keys.

Example SplitHostPort_ex :
  SplitHostPort <$> ["192.0.2.1:80"; "[2001:db8::1]:443"; "2001:db8::1"; "host"; "[::1]"; ":80";
                     "[a]b:1"; "a]:1"; "[[a]:1"; "h:"] =
  [Some ("192.0.2.1", "80"); Some ("2001:db8::1", "443"); None; None; None; Some ("", "80");
   None; None; None; Some ("h", "")].
Proof. vm_compute. reflexivity. Qed.

Example Seconds_ex :
  (Seconds 1500000000%Z, Seconds (-250000000)%Z) =
  (fdiv (float_Z 3) (float_Z 2), fdiv (float_Z (-1)) (float_Z 4)).
Proof. vm_compute. reflexivity. Qed.

(** * Theorems *)

(** ** Splitting an address *)
Lemma has_byte_cons c c' s : has_byte c (String c' s) = Ascii.eqb c' c || has_byte c s.
Proof.
  unfold has_byte. cbn [str_index]. destruct (Ascii.eqb c' c); cbn; [done|].
  destruct (str_index c s); reflexivity.
Qed.
Lemma has_byte_app c s t : has_byte c (s +:+ t) = has_byte c s || has_byte c t.
Proof.
  induction s as [|c' s IH]; [done|].
  change (String c' s +:+ t) with (String c' (s +:+ t)). by rewrite !has_byte_cons, IH, orb_assoc.
Qed.

Lemma last_index_none c s : has_byte c s = false → last_index c s = None.
Proof.
  induction s as [|c' s IH]; [done|]. rewrite has_byte_cons. intros [Hc Hs]%orb_false_iff.
  cbn [last_index]. rewrite IH by done. apply Ascii.eqb_neq in Hc.
  by rewrite (proj2 (Ascii.eqb_neq c c')).
Qed.
Lemma last_index_app c s t : has_byte c t = false →
  last_index c (s +:+ String c t) = Some (N.of_nat (String.length s)).
Proof.
  intros Ht. induction s as [|c' s IH]; cbn [String.append last_index String.length].
  - rewrite last_index_none by done. by rewrite Ascii.eqb_refl.
  - change (String.append s (String c t)) with (s +:+ String c t). rewrite IH.
    f_equal. lia.
Qed.
Lemma str_index_app c s t : has_byte c s = false →
  str_index c (s +:+ String c t) = Some (N.of_nat (String.length s)).
Proof.
  induction s as [|c' s IH]; intros Hs; cbn [String.append str_index String.length].
  - by rewrite Ascii.eqb_refl.
  - rewrite has_byte_cons in Hs. apply orb_false_iff in Hs as [-> Hs].
    change (String.append s (String c t)) with (s +:+ String c t). rewrite IH by done.
    cbn. f_equal. lia.
Qed.
Lemma str_take_app s t : str_take (N.of_nat (String.length s)) (s +:+ t) = s.
Proof.
  unfold str_take. rewrite Nat2N.id. induction s as [|c s IH]; [by destruct t|].
  cbn. by rewrite IH.
Qed.
Lemma str_drop_succ_app s c t : str_drop (N.to_nat (N.succ (N.of_nat (String.length s)))) (s +:+ String c t) = t.
Proof.
  replace (N.to_nat (N.succ (N.of_nat (String.length s)))) with (S (String.length s)) by lia.
  induction s as [|c' s IH]; [by destruct t|]. cbn. exact IH.
Qed.

(** What can stand before and after the colon of an address. *)
Definition no_bracket (s : string) : bool := negb (has_byte "[" s) && negb (has_byte "]" s).
Definition is_port (s : string) : bool := no_bracket s && negb (has_byte ":" s).
(** [net.JoinHostPort] *)
Definition JoinHostPort (host port : string) : string :=
  if has_byte ":" host then "[" +:+ host +:+ "]:" +:+ port else host +:+ ":" +:+ port.

Lemma SplitHostPort_bracketed host port : no_bracket host = true → is_port port = true →
  SplitHostPort ("[" +:+ host +:+ "]:" +:+ port) = Some (host, port).
Proof.
  unfold no_bracket, is_port, no_bracket. intros Hh Hp. bool_hyps.
  change ("[" +:+ host +:+ "]:" +:+ port) with (String "[" (host +:+ String "]" (String ":" port))).
  assert (El : String "[" (host +:+ String "]" (String ":" port)) =
               (String "[" host +:+ "]") +:+ String ":" port)
    by (by rewrite <-str_app_assoc).
  assert (Ei : str_index "]" (String "[" (host +:+ String "]" (String ":" port))) =
               Some (N.of_nat (String.length (String "[" host)))).
  { apply (str_index_app "]" (String "[" host)). by rewrite has_byte_cons. }
  assert (Ea : last_index ":" (String "[" (host +:+ String "]" (String ":" port))) =
               Some (N.succ (N.of_nat (String.length (String "[" host))))).
  { rewrite El, last_index_app by done. f_equal. rewrite str_length_app. cbn [String.length]. lia. }
  unfold SplitHostPort. rewrite Ea. cbn [mbind option_bind HasPrefix].
  change (HasPrefix _ "[") with true. cbv iota. rewrite Ei. cbn [mbind option_bind].
  rewrite N.eqb_refl. cbn [negb].
  assert (Et : str_take (N.of_nat (String.length (String "[" host)))
    (String "[" (host +:+ String "]" (String ":" port))) = String "[" host)
    by apply (str_take_app (String "[" host)).
  rewrite Et.
  assert (Ed : str_drop (N.to_nat (N.succ (N.of_nat (String.length (String "[" host)))))
    (String "[" (host +:+ String "]" (String ":" port))) = String ":" port)
    by apply (str_drop_succ_app (String "[" host) "]").
  rewrite Ed.
  assert (Ep : str_drop (N.to_nat (N.succ (N.succ (N.of_nat (String.length (String "[" host))))))
    (String "[" (host +:+ String "]" (String ":" port))) = port).
  { rewrite El. replace (N.succ (N.of_nat (String.length (String "[" host)))) with
      (N.of_nat (String.length (String "[" host +:+ "]"))) by (rewrite str_length_app; cbn [String.length]; lia).
    apply str_drop_succ_app. }
  rewrite Ep. change (Ascii.eqb "[" "[" && true) with true. cbv iota. cbn [str_drop].
  rewrite has_byte_app, !has_byte_cons.
  repeat match goal with H : has_byte _ _ = false |- _ => rewrite H end. reflexivity.
Qed.
Lemma SplitHostPort_plain host port :
  no_bracket host = true → has_byte ":" host = false → is_port port = true →
  SplitHostPort (host +:+ ":" +:+ port) = Some (host, port).
Proof.
  unfold no_bracket, is_port, no_bracket. intros Hh Hc Hp. bool_hyps.
  change (":" +:+ port) with (String ":" port).
  assert (Hp' : HasPrefix (host +:+ String ":" port) "[" = false).
  { destruct host as [|c host]; [done|]. cbn. destruct (Ascii.eqb_spec c "["); [|by destruct c as [[] [] [] [] [] [] [] []]].
    subst c. rewrite has_byte_cons in *. done. }
  unfold SplitHostPort. rewrite last_index_app by done. cbn [mbind option_bind]. rewrite Hp'.
  rewrite str_take_app, str_drop_succ_app, Hc, !has_byte_app, !has_byte_cons.
  repeat match goal with H : has_byte _ _ = false |- _ => rewrite H end. reflexivity.
Qed.
Lemma SplitHostPort_Join host port : no_bracket host = true → is_port port = true →
  SplitHostPort (JoinHostPort host port) = Some (host, port).
Proof.
  intros Hh Hp. unfold JoinHostPort. destruct (has_byte ":" host) eqn:Hc;
    [by apply SplitHostPort_bracketed|by apply SplitHostPort_plain].
Qed.

(** ** Keys of clients *)
Section key_facts.
Context `{NetIPText}.

(** C28: a client cannot choose its bucket.  Whatever headers a request carries, when its
    peer is not in the list of trusted proxies, or does not even parse as an address, its
    key is the host of the peer: a v4 or v6 address as the server writes it, with any
    port.  So neither a forged X-Forwarded-For nor a new connection escapes the limit. *)
Theorem untrusted_peer_key trusted r host port :
  r_RemoteAddr r = JoinHostPort host port →
  no_bracket host = true → is_port port = true →
  anyContains trusted (default addr_zero (ParseAddr host)) = false →
  ForwardedClientIP trusted r = host ∧ ClientIP r = host.
Proof.
  intros Hr Hh Hp Ht. pose proof (SplitHostPort_Join host port Hh Hp) as Hs.
  assert (Hc : ClientIP r = host) by (unfold ClientIP; by rewrite Hr, Hs).
  split; [|done]. unfold ForwardedClientIP, parseRemoteAddr. rewrite Hr, Hs, Ht, orb_true_r.
  exact Hc.
Qed.
End key_facts.

(** ** Buckets of different keys *)
Inductive event := Request_at (t : Time) (k : string) | Cleanup_at (t : Time).

Definition step (e : event) (rl : RateLimiter) : option (string * bool) * RateLimiter :=
  match e with
  | Request_at t k => let '(ok, rl) := Allow t k rl in (Some (k, ok), rl)
  | Cleanup_at t => (None, CleanupIdle t rl)
  end.
(** The decisions of the limiter along a history, with their keys. *)
Fixpoint run (es : list event) (rl : RateLimiter) : list (string * bool) :=
  match es with
  | [] => []
  | e :: es => let '(d, rl) := step e rl in
      match d with Some d => d :: run es rl | None => run es rl end
  end.
Definition concerns (k : string) (e : event) : Prop :=
  match e with Request_at _ k' => k' = k | Cleanup_at _ => True end.
#[global] Instance concerns_dec k e : Decision (concerns k e).
Proof. destruct e; cbn; apply _. Defined.

(** Limiters of one configuration that agree on a key. *)
Record agree (k : string) (rl1 rl2 : RateLimiter) : Prop := {
  ag_rate : rl_rate rl1 = rl_rate rl2; ag_burst : rl_burst rl1 = rl_burst rl2;
  ag_idle : rl_maxIdle rl1 = rl_maxIdle rl2;
  ag_bucket : rl_buckets rl1 !! k = rl_buckets rl2 !! k }.

Lemma Allow_agree t k rl1 rl2 : agree k rl1 rl2 →
  (Allow t k rl1).1 = (Allow t k rl2).1 ∧ agree k (Allow t k rl1).2 (Allow t k rl2).2.
Proof.
  intros [Hr Hb Hi Hk].
  assert (Hf : refill t rl1 (rl_buckets rl1 !! k) = refill t rl2 (rl_buckets rl2 !! k))
    by (unfold refill; by rewrite Hr, Hb, Hk).
  unfold Allow. rewrite <-Hr, <-Hf. destruct (fle _ _); [by split|].
  destruct (flt _ _); cbn; (split; [done|]); split; cbn; rewrite ?lookup_insert_eq; done.
Qed.

Lemma Allow_other t k k' rl : k' ≠ k → agree k (Allow t k' rl).2 rl.
Proof.
  intros Hk. unfold Allow. destruct (fle _ _); [by split|].
  destruct (flt _ _); split; cbn; rewrite ?lookup_insert_ne by done; done.
Qed.

Lemma CleanupIdle_lookup t k rl :
  rl_buckets (CleanupIdle t rl) !! k =
  b ← rl_buckets rl !! k;
  if Before (b_lastSeen b) (t - rl_maxIdle rl)%Z then None else Some b.
Proof.
  cbn. rewrite map_lookup_filter. destruct (rl_buckets rl !! k) as [b|]; [|done]. cbn.
  destruct (Before _ _) eqn:E; [rewrite option_guard_False|rewrite option_guard_True]; done || congruence.
Qed.

Lemma CleanupIdle_agree t k rl1 rl2 : agree k rl1 rl2 →
  agree k (CleanupIdle t rl1) (CleanupIdle t rl2).
Proof.
  intros [Hr Hb Hi Hk]. split; [done..|]. by rewrite !CleanupIdle_lookup, Hk, Hi.
Qed.

Lemma agree_trans k a b c : agree k a b → agree k b c → agree k a c.
Proof. intros [] []. split; congruence. Qed.

Lemma run_agree k es rl1 rl2 : agree k rl1 rl2 →
  filter (λ d, d.1 = k) (run es rl1) = run (filter (concerns k) es) rl2.
Proof.
  revert rl1 rl2. induction es as [|e es IH]; intros rl1 rl2 Ha; [done|]. cbn [run].
  destruct e as [t k'|t].
  - destruct (decide (k' = k)) as [->|Hk].
    + rewrite filter_cons_True by done. cbn [run step].
      destruct (Allow_agree t k rl1 rl2 Ha) as [E Ha'].
      destruct (Allow t k rl1) as [ok1 rl1'], (Allow t k rl2) as [ok2 rl2']. cbn [fst snd] in E, Ha'.
            subst ok2. rewrite filter_cons_True by done. f_equal. by apply IH.
    + rewrite filter_cons_False by done. cbn [step].
      pose proof (Allow_other t k k' rl1 Hk) as Ho. destruct (Allow t k' rl1) as [ok1 rl1'].
      cbn [snd] in Ho. rewrite filter_cons_False by done. apply IH. by eapply agree_trans.
  - rewrite filter_cons_True by done. cbn [run step].
    by apply IH, CleanupIdle_agree.
Qed.

(** One client's budget is its own.  Along any history of requests and clean-ups,
    from any state, what the limiter decides on the requests of a key is what a limiter
    that only ever saw that key's requests would have decided at the same times: no
    number of requests under other keys takes or gives a token. *)
Theorem key_isolation k es rl :
  filter (λ d, d.1 = k) (run es rl) = run (filter (concerns k) es) rl.
Proof. by apply run_agree. Qed.

(** ** Bursts *)
Lemma refill_now t rl b : b_lastSeen b = t → refill t rl (Some b) = b.
Proof.
  intros <-. unfold refill, time_Sub. rewrite Z.sub_diag. destruct b as [x s]. reflexivity.
Qed.

(** Requests in one instant drain the tokens there are, one each. *)
Lemma drain n : ∀ k t rl x,
  fle (rl_rate rl) (float_Z 0) = false → small_float x →
  refill t rl (rl_buckets rl !! k) = {| b_tokens := x; b_lastSeen := t |} →
  run (replicate n (Request_at t k)) rl =
  replicate (n `min` Z.to_nat (float_floor x)) (k, true)
  ++ replicate (n - Z.to_nat (float_floor x)) (k, false).
Proof.
  induction n as [|n IH]; intros k t rl x Hr Hx Hb; [done|]. cbn [replicate run step].
  unfold Allow. rewrite Hr, Hb. cbn [b_tokens b_lastSeen]. rewrite small_lt_one by done.
  destruct (Z.ltb_spec (float_floor x) 1) as [Hlt|Hge].
  - rewrite (IH k t _ x); [|done|done|cbn; rewrite lookup_insert_eq; by apply refill_now].
    replace (Z.to_nat (float_floor x)) with 0%nat by lia. rewrite !Nat.min_0_r. cbn.
    by rewrite Nat.sub_0_r.
  - destruct (small_pred x Hx Hge) as [Hs Hf].
    rewrite (IH k t _ (fsub x (float_Z 1))); [|done|done|cbn; rewrite lookup_insert_eq; by apply refill_now].
    rewrite Hf. replace (Z.to_nat (float_floor x)) with (S (Z.to_nat (float_floor x - 1))) by lia.
    done.
Qed.

(** The burst is exact.  When requests of many clients arrive in one instant, a key
    that was not seen before gets as many of its requests through as the integer part of
    the configured burst, the first ones, and every later one is refused, however the
    requests are interleaved: the binary64 arithmetic of the tokens loses nothing, for
    any burst up to 2^53, fractional ones included. *)
Theorem burst_exact k t ks rl :
  rl_buckets rl !! k = None → fle (rl_rate rl) (float_Z 0) = false →
  small_float (rl_burst rl) →
  let n := length (filter (λ k', k' = k) ks) in
  let b := Z.to_nat (float_floor (rl_burst rl)) in
  filter (λ d, d.1 = k) (run (Request_at t <$> ks) rl) =
  replicate (n `min` b) (k, true) ++ replicate (n - b) (k, false).
Proof.
  intros Hk Hr Hb n b. rewrite (run_agree k _ rl rl) by done.
  assert (E : filter (concerns k) (Request_at t <$> ks) = replicate n (Request_at t k)).
  { subst n. clear. induction ks as [|k' ks IH]; [done|]. cbn [fmap list_fmap].
    destruct (decide (k' = k)) as [->|Hk].
    - rewrite !filter_cons_True by done. cbn. f_equal. exact IH.
    - rewrite !filter_cons_False by done. exact IH. }
  rewrite E. apply (drain n k t rl (rl_burst rl)); [done..|]. by rewrite Hk.
Qed.

(** * Witnesses *)
#[local] Existing Instance netip_text.

Definition default_limiter : RateLimiter := NewRateLimiter (float_Z 50) (float_Z 3).

(** Five requests of one client and one of another in an instant. *)
Lemma burst_exact_witness :
  rl_buckets default_limiter !! "a" = None ∧
  filter (λ d, d.1 = "a") (run (Request_at 7%Z <$> ["a"; "a"; "b"; "a"; "a"; "a"]) default_limiter) =
  [("a", true); ("a", true); ("a", true); ("a", false); ("a", false)].
Proof.
  split; [reflexivity|].
  apply (burst_exact "a" 7%Z ["a"; "a"; "b"; "a"; "a"; "a"] default_limiter).
  - reflexivity.
  - reflexivity.
  - vm_compute. split; [reflexivity|discriminate].
Defined.

Definition forged : Request :=
  {| r_Method := "GET"; r_EscapedPath := "/"; r_Query := []; r_RequestURI := "/";
     r_Header := {[ "X-Forwarded-For" := "203.0.113.9" ]}; r_ContentLength := 0;
     r_RemoteAddr := "[2001:db8::1]:4711"; r_Context := None |}.
Lemma untrusted_peer_key_witness :
  ForwardedClientIP [cidr4 10 0 0 0 8] forged = "2001:db8::1" ∧ ClientIP forged = "2001:db8::1".
Proof.
  apply (untrusted_peer_key [cidr4 10 0 0 0 8] forged "2001:db8::1" "4711"); vm_compute; reflexivity.
Defined.

(** Behind a trusted proxy the first entry is the key, and it is the client that writes
    it when the proxy appends. *)
Example trusted_peer_key :
  ForwardedClientIP [cidr4 10 0 0 0 8]
    {| r_Method := "GET"; r_EscapedPath := "/"; r_Query := []; r_RequestURI := "/";
       r_Header := {[ "X-Forwarded-For" := " forged , 198.51.100.7" ]}; r_ContentLength := 0;
       r_RemoteAddr := "10.1.2.3:80"; r_Context := None |} = "forged".
Proof. vm_compute. reflexivity. Qed.

(** Tokens come back with time, and a clean-up gives an idle client a full bucket. *)
Example refill_and_cleanup :
  let rl := NewRateLimiter (fdiv (float_Z 1) (float_Z 1000)) (float_Z 2) in
  let start := [Request_at 0%Z "a"; Request_at 0%Z "a"; Request_at 0%Z "a"] in
  let later := [Request_at (11 * Minute)%Z "a"] in
  (run (start ++ later) rl, run (start ++ Cleanup_at (11 * Minute)%Z :: later) rl) =
  ([("a", true); ("a", true); ("a", false); ("a", false)],
   [("a", true); ("a", true); ("a", false); ("a", true)]).
Proof. vm_compute. reflexivity. Qed.
