(* ===== verification/RateBound.v ===== *)
(** * pkg/rdap/middleware/ratelimit.go: what a token bucket admits over time.

    The tokens of RateLimit.v are binary64 numbers; the bound is on their values, rounding
    included (FloatBound.v).  A request reads the clock before it takes the lock, so the
    times that the buckets see need not be in order: [span] counts every advance of them. *)
From Stdlib Require Import QArith Qminmax Lqa Lia.
From S2P Require Import Prelude Float64 FloatBound RateLimit.
#[local] Open Scope Q_scope.

(** ** Histories *)
Definition time_of (e : event) : Time := match e with Request_at t _ => t | Cleanup_at t => t end.
(** By how much the clock readings advance, all advances added. *)
Fixpoint rise (p : Time) (es : list event) : Duration :=
  match es with [] => 0%Z | e :: es => (Z.max 0 (time_of e - p) + rise (time_of e) es)%Z end.
Definition span (es : list event) : Duration :=
  match es with [] => 0%Z | e :: es => rise (time_of e) es end.
Fixpoint after (es : list event) (rl : RateLimiter) : RateLimiter :=
  match es with [] => rl | e :: es => after es (step e rl).2 end.
Definition admitted (ds : list (string * bool)) : nat := length (filter (λ d, d.2 = true) ds).
Definition is_request (e : event) : bool :=
  match e with Request_at _ _ => true | Cleanup_at _ => false end.
Definition requests (es : list event) : nat := length (filter (λ e, is_request e = true) es).

Lemma rise_nonneg es : ∀ p, (0 ≤ rise p es)%Z.
Proof. induction es as [|e es IH]; intros p; cbn; [lia|]. specialize (IH (time_of e)). lia. Qed.

Lemma mul_error tau rho s i : 0 <= tau → 0 <= rho → rho <= 9007199254740992 → 0 <= s →
  s <= tau * (1 + 3 * eps) + 3 * eta → i <= s * rho + s * rho * eps + eta →
  i <= tau * rho * (1 + 5 * eps) + eps * (1 # 1024).
Proof.
  intros Ht Hr Hr2 Hs Hsb Hi. pose proof eps_pos. pose proof eta_pos. pose proof small_eps. pose proof small_eta.
  pose proof (Qprod_nonneg tau rho Ht Hr) as Hx. set (x := tau * rho) in *.
  pose proof (Qprod_le s _ rho Hr Hsb) as Hsr.
  assert (E : (tau * (1 + 3 * eps) + 3 * eta) * rho == x * (1 + 3 * eps) + 3 * (rho * eta)) by (unfold x; ring).
  rewrite E in Hsr. pose proof (Qprod_le rho _ eta ltac:(lra) Hr2) as Hre.
  pose proof (Qprod_nonneg rho eta Hr ltac:(lra)).
  pose proof (Qprod_le (s * rho) _ eps ltac:(lra) Hsr) as Hsre.
  pose proof (Qprod_nonneg x eps Hx ltac:(lra)) as Hxe.
  pose proof (Qprod_le eps (1 # 1024) (x * eps) Hxe ltac:(lra)).
  pose proof (Qprod_le eps (1 # 1024) (rho * eta) ltac:(lra) ltac:(lra)).
  lra.
Qed.

Lemma refill_error t b x i z : 0 <= t → t <= b → 1 <= b → 0 <= x → 0 <= i →
  i <= x * (1 + 5 * eps) + eps * (1 # 1024) → z <= t + i + (t + i) * eps + eta →
  z <= t + x * (1 + 8 * eps) + 2 * eps * b.
Proof.
  intros Ht Htb Hb Hx Hi0 Hi Hz. pose proof eps_pos. pose proof eta_pos. pose proof small_eps. pose proof small_eta.
  pose proof (Qprod_le t b eps ltac:(lra) Htb). pose proof (Qprod_le 1 b eps ltac:(lra) Hb).
  pose proof (Qprod_le i _ eps ltac:(lra) Hi).
  pose proof (Qprod_nonneg x eps Hx ltac:(lra)) as Hxe.
  pose proof (Qprod_le eps (1 # 1024) (x * eps) Hxe ltac:(lra)).
  pose proof (Qprod_le eps (1 # 1024) eps ltac:(lra) ltac:(lra)). lra.
Qed.

Lemma small_value x : small_float x → 0 <= fval x <= 9007199254740992.
Proof.
  intros Hs. split; [by apply fval_nonneg, small_pos|]. destruct x as [| | |[] m e]; try done.
  destruct Hs as [Hb He]. cbn [fval]. apply bounded_exp in Hb as [Hb _].
  pose proof (Z.log2_spec (Z.pos m) ltac:(done)) as [_ L].
  assert (H53 : (2 ^ Z.succ (Z.log2 (Z.pos m)) ≤ 2 ^ 53)%Z) by (apply Z.pow_le_mono_r; lia).
  assert (Hm : inject_Z (Z.pos m) <= 9007199254740992)
    by (change 9007199254740992 with (inject_Z (2 ^ 53)); rewrite <-Zle_Qle; lia).
  pose proof (pow2_le e 0 He) as Hp. change (pow2 0) with 1 in Hp. pose proof (pow2_pos e).
  pose proof (Qprod_le _ _ (inject_Z (Z.pos m)) ltac:(by rewrite <-(Zle_Qle 0)) Hp). lra.
Qed.

(** ** Refilling *)
Section limiter.
Context (rate burst : float64).

(** A configuration that limits: a positive rate and room for one request at least. *)
Record limits : Prop := {
  lm_rate : small_float rate; lm_pos : fle rate (float_Z 0) = false;
  lm_burst : small_float burst; lm_room : 1 <= fval burst }.
Context (Hl : limits).

Record limiter_ok (rl : RateLimiter) : Prop := {
  lo_rate : rl_rate rl = rate; lo_burst : rl_burst rl = burst;
  lo_idle : rl_maxIdle rl = (10 * Minute)%Z;
  lo_buckets k b : rl_buckets rl !! k = Some b → small_float (b_tokens b) ∧ fval (b_tokens b) <= fval burst }.

(** What an interval gives, rounding included. *)
Definition credit (d : Duration) : Q := seconds (Z.max 0 d) * fval rate * (1 + 8 * eps).
Definition slack : Q := 2 * eps * fval burst.

Lemma credit_nonneg d : 0 <= credit d.
Proof.
  unfold credit. pose proof eps_pos. pose proof (small_value rate (lm_rate Hl)).
  apply Qprod_nonneg; [apply Qprod_nonneg; [apply seconds_nonneg; lia|lra]|lra].
Qed.
Lemma credit_mono a b : (Z.max 0 a ≤ Z.max 0 b)%Z → credit a <= credit b.
Proof.
  intros H. unfold credit. pose proof eps_pos. pose proof (small_value rate (lm_rate Hl)).
  do 2 (apply Qprod_le; [lra|]). by apply seconds_le.
Qed.
Lemma credit_add a b : credit (Z.max 0 a + Z.max 0 b)%Z == credit a + credit b.
Proof.
  unfold credit. replace (Z.max 0 (Z.max 0 a + Z.max 0 b)) with (Z.max 0 a + Z.max 0 b)%Z by lia.
  rewrite seconds_add. ring.
Qed.

(** What an interval gives to a bucket with [t] tokens. *)
Lemma refill_bound t d : small_float t → fval t <= fval burst → (0 < d ≤ int64_max)%Z →
  let z := minF64 burst (fadd t (fmul (Seconds d) rate)) in
  small_float z ∧ fval z <= fval burst ∧ fval z <= fval t + credit d + slack.
Proof.
  intros Ht Htb Hd z. destruct (Seconds_bound d Hd) as [HS ES].
  pose proof (small_value t Ht) as Vt. pose proof (small_value rate (lm_rate Hl)) as Vr.
  pose proof (small_value burst (lm_burst Hl)) as Vb. pose proof (lm_room Hl) as Hroom.
  pose proof (fval_nonneg _ HS) as HS0. pose proof eps_pos. pose proof eta_pos.
  pose proof small_eps. pose proof small_eta.
  assert (Hsec : 0 <= seconds d <= 10000000000).
  { split; [apply seconds_nonneg; lia|]. assert (E : seconds int64_max <= 10000000000) by by vm_compute.
    eapply Qle_trans; [apply seconds_le, Hd|exact E]. }
  assert (HS1 : fval (Seconds d) <= 20000000000).
  { pose proof (Qprod_le (seconds d) _ eps ltac:(lra) (proj2 Hsec)). lra. }
  pose proof (Qprod_le _ _ (fval rate) (proj1 Vr) HS1) as HSr.
  assert (Hbig : 1000000000000 * 9007199254740992 <= pow2 1000) by by vm_compute.
  destruct (fmul_bound (Seconds d) rate HS (small_pos _ (lm_rate Hl))) as [HI EI]; [lra|].
  pose proof (mul_error _ _ _ _ (proj1 Hsec) (proj1 Vr) (proj2 Vr) HS0 ES EI) as HI2.
  pose proof (fval_nonneg _ HI) as HI0.
  pose proof (Qprod_nonneg _ _ HS0 (proj1 Vr)) as HSr0.
  pose proof (Qprod_le _ _ (fval (Seconds d) * fval rate) HSr0 small_eps) as HSe.
  destruct (fadd_bound t (fmul (Seconds d) rate) (small_pos _ Ht) HI) as [HZ EZ]; [lra|].
  assert (Hz : fval (fadd t (fmul (Seconds d) rate)) <= fval t + credit d + slack).
  { unfold credit, slack. replace (Z.max 0 d) with d by lia.
    apply (refill_error _ _ _ _ _ (proj1 Vt) Htb Hroom (Qprod_nonneg _ _ (proj1 Hsec) (proj1 Vr)) HI0 HI2 EZ). }
  unfold z, minF64. destruct (flt burst (fadd t _)) eqn:Ef.
  - split; [apply Hl|]. split; [lra|]. apply flt_true in Ef; [lra|by apply small_pos, Hl|done].
  - apply flt_false in Ef as Hle; [|by apply small_pos, Hl|done].
    split; [by apply (small_below _ burst); [|apply Hl|]|]. split; [exact Hle|exact Hz].
Qed.

Lemma credit_triangle a b c : credit (c - a)%Z <= credit (b - a)%Z + credit (c - b)%Z.
Proof. rewrite <-credit_add. apply credit_mono. lia. Qed.
Lemma slack_nonneg : 0 <= slack.
Proof. unfold slack. pose proof eps_pos. pose proof (small_value burst (lm_burst Hl)). apply Qprod_nonneg; lra. Qed.

(** The bucket of a key after a refill. *)
Lemma refill_ok rl k now b : limiter_ok rl → rl_buckets rl !! k = Some b →
  let b' := refill now rl (Some b) in
  b_lastSeen b' = now ∧ small_float (b_tokens b') ∧ fval (b_tokens b') <= fval burst ∧
  fval (b_tokens b') <= fval (b_tokens b) + credit (now - b_lastSeen b)%Z + slack.
Proof.
  intros Hok Hb b'. destruct (lo_buckets rl Hok k b Hb) as [Hs Hle]. pose proof slack_nonneg.
  set (d := time_Sub now (b_lastSeen b)). pose proof (credit_nonneg (now - b_lastSeen b)%Z).
  split; [done|]. unfold b', refill. fold d. cbn [b_tokens].
  destruct (flt (float_Z 0) (Seconds d)) eqn:Ef; [|split_and!; [done|done|lra]].
  assert (Hd : (0 < d ≤ int64_max)%Z).
  { split; [|unfold d, time_Sub, int64_min, int64_max; lia].
    destruct (Z.lt_ge_cases 0 d) as [|Hneg]; [done|]. by rewrite (nonpos_flt _ (Seconds_nonpos d Hneg)) in Ef. }
  rewrite (lo_rate rl Hok), (lo_burst rl Hok).
  destruct (refill_bound (b_tokens b) d Hs Hle Hd) as (? & ? & Hz). split_and!; [done..|].
  assert (Hc : credit d <= credit (now - b_lastSeen b)%Z)
    by (apply credit_mono; unfold d, time_Sub, int64_min, int64_max; lia).
  lra.
Qed.

(** ** The budget of a key

    The tokens of its bucket and what the time since it was last seen is worth, up to the
    burst; a key without a bucket has a burst to spend. *)
Definition budget (k : string) (p : Time) (rl : RateLimiter) : Q :=
  match rl_buckets rl !! k with
  | None => fval burst
  | Some b => Qmin (fval burst) (fval (b_tokens b) + credit (p - b_lastSeen b)%Z)
  end.

Lemma budget_burst k p rl : budget k p rl <= fval burst.
Proof. unfold budget. destruct (_ !! k); [apply Q.le_min_l|apply Qle_refl]. Qed.
Lemma budget_nonneg k p rl : limiter_ok rl → 0 <= budget k p rl.
Proof.
  intros Hok. pose proof (small_value burst (lm_burst Hl)). unfold budget.
  destruct (rl_buckets rl !! k) as [b|] eqn:Hb; [|lra]. destruct (lo_buckets rl Hok k b Hb) as [Hs _].
  pose proof (small_value _ Hs). pose proof (credit_nonneg (p - b_lastSeen b)%Z). apply Q.min_glb; lra.
Qed.

(** Setting the bucket of a key that was just seen. *)
Lemma set_bucket_ok k b rl : limiter_ok rl → small_float (b_tokens b) → fval (b_tokens b) <= fval burst →
  limiter_ok (with_buckets (<[ k := b ]> (rl_buckets rl)) rl).
Proof.
  intros [Hr Hb Hi Hk] Hs Hle. split; [done..|]. cbn. intros k' b'.
  intros [[<- <-]|[_ Hk']]%lookup_insert_Some; [done|by eapply Hk].
Qed.

Definition granted (ok : bool) : Q := if ok then 1 else 0.

Lemma Allow_budget k p t rl : limiter_ok rl →
  limiter_ok (Allow t k rl).2 ∧
  granted (Allow t k rl).1 + budget k t (Allow t k rl).2 <= budget k p rl + credit (t - p)%Z + slack.
Proof.
  intros Hok. pose proof (small_value burst (lm_burst Hl)) as Vb. pose proof slack_nonneg as Hs0.
  pose proof (credit_nonneg (t - p)%Z) as Hc0. unfold Allow. rewrite (lo_rate rl Hok), (lm_pos Hl).
  assert (Hb : ∃ b, refill t rl (rl_buckets rl !! k) = b ∧ b_lastSeen b = t ∧ small_float (b_tokens b) ∧
    fval (b_tokens b) <= fval burst ∧ fval (b_tokens b) <= budget k p rl + credit (t - p)%Z + slack).
  { eexists. split; [done|]. unfold budget. destruct (rl_buckets rl !! k) as [b|] eqn:Hb.
    - destruct (refill_ok rl k t b Hok Hb) as (? & ? & Hle & Hz). split_and!; [done..|].
      pose proof (credit_triangle (b_lastSeen b) p t) as Htr.
      destruct (Q.min_spec (fval burst) (fval (b_tokens b) + credit (p - b_lastSeen b)%Z)) as [[_ E]|[_ E]];
        rewrite E; lra.
    - cbn. rewrite (lo_burst rl Hok). split_and!; [done|apply Hl|lra..]. }
  destruct Hb as (b & -> & Ht & Hs & Hle & Hz).
  assert (Hat : ∀ b', b_lastSeen b' = t → 0 <= fval (b_tokens b') <= fval burst →
    budget k t (with_buckets (<[ k := b' ]> (rl_buckets rl)) rl) == fval (b_tokens b')).
  { intros b' E Hb'. unfold budget. cbn. rewrite lookup_insert_eq, E.
    assert (E0 : credit (t - t)%Z == 0) by (rewrite Z.sub_diag; unfold credit; assert (Es : seconds (Z.max 0 0) == 0) by done; rewrite Es; ring).
    rewrite E0. destruct (Q.min_spec (fval burst) (fval (b_tokens b') + 0)) as [[Hm Em]|[Hm Em]]; rewrite Em; lra. }
  rewrite small_lt_one by done. destruct (Z.ltb_spec (float_floor (b_tokens b)) 1) as [Hlt|Hge].
  - cbn [fst snd granted]. split; [by apply set_bucket_ok|].
    rewrite Hat; [lra|done|]. pose proof (small_value _ Hs). lra.
  - destruct (small_pred _ Hs Hge) as [Hs' _]. pose proof (small_pred_value _ Hs Hge) as Ev.
    pose proof (small_value _ Hs'). cbn [fst snd granted]. split; [apply set_bucket_ok; [done..|cbn [b_tokens]; lra]|].
    rewrite Hat; cbn [b_tokens b_lastSeen]; [lra|done|lra].
Qed.

(** Ten minutes give a burst at least: a clean-up takes nothing that a bucket does not get
    back by then. *)
Context (Hidle : fval burst <= seconds (10 * Minute)%Z * fval rate).

Lemma CleanupIdle_ok t rl : limiter_ok rl → limiter_ok (CleanupIdle t rl).
Proof.
  intros [Hr Hb Hi Hk]. split; [done..|]. intros k' b'. rewrite CleanupIdle_lookup.
  destruct (rl_buckets rl !! k') as [b|] eqn:E; [|done]. cbn. destruct (Before _ _); [done|].
  intros [= <-]. by eapply Hk.
Qed.

Lemma CleanupIdle_budget k p t rl : limiter_ok rl →
  budget k t (CleanupIdle t rl) <= budget k p rl + credit (t - p)%Z.
Proof using Hl Hidle.
  intros Hok. pose proof (budget_burst k p rl). unfold budget at 1. rewrite CleanupIdle_lookup.
  unfold budget in *. pose proof (credit_nonneg (t - p)%Z).
  destruct (rl_buckets rl !! k) as [b|] eqn:Hb; cbn [mbind option_bind]; [|lra].
  pose proof (credit_triangle (b_lastSeen b) p t) as Htr. destruct (lo_buckets rl Hok k b Hb) as [Hs _].
  pose proof (small_value _ Hs) as Vs. pose proof eps_pos. pose proof (small_value rate (lm_rate Hl)) as Vr.
  pose proof (Q.le_min_l (fval burst) (fval (b_tokens b) + credit (t - b_lastSeen b)%Z)).
  pose proof (Q.le_min_r (fval burst) (fval (b_tokens b) + credit (t - b_lastSeen b)%Z)).
  destruct (Q.min_spec (fval burst) (fval (b_tokens b) + credit (p - b_lastSeen b)%Z)) as [[_ E]|[_ E]];
    rewrite E; [destruct (Before _ _); cbv iota; lra|].
  unfold Before. rewrite (lo_idle rl Hok). destruct (Z.ltb_spec (b_lastSeen b) (t - 10 * Minute)) as [Hlt|_]; [|lra].
  assert (Hc : seconds (10 * Minute)%Z * fval rate <= credit (t - b_lastSeen b)%Z); [|lra].
  assert (Hsec : seconds (10 * Minute)%Z <= seconds (Z.max 0 (t - b_lastSeen b))) by (apply seconds_le; lia).
  pose proof (Qprod_le _ _ (fval rate) (proj1 Vr) Hsec) as Hq1.
  pose proof (Qprod_nonneg _ _ (seconds_nonneg _ (Z.le_max_l 0 (t - b_lastSeen b))) (proj1 Vr)) as Hq2.
  pose proof (Qprod_nonneg _ eps Hq2 ltac:(lra)). unfold credit. lra.
Qed.

Lemma step_ok e rl : limiter_ok rl → limiter_ok (step e rl).2.
Proof.
  intros Hok. destruct e as [t k|t]; cbn; [|by apply CleanupIdle_ok].
  pose proof (proj1 (Allow_budget k t t rl Hok)) as H. by destruct (Allow t k rl).
Qed.
Lemma after_ok es : ∀ rl, limiter_ok rl → limiter_ok (after es rl).
Proof. induction es as [|e es IH]; intros rl Hok; [done|]. by apply IH, step_ok. Qed.
Lemma New_ok : limiter_ok (NewRateLimiter rate burst).
Proof. split; [done..|]. intros k b. cbn. by rewrite lookup_empty. Qed.

Lemma run_budget k es : ∀ p rl, Forall (concerns k) es → limiter_ok rl →
  inject_Z (Z.of_nat (admitted (run es rl))) <=
  budget k p rl + credit (rise p es) + inject_Z (Z.of_nat (requests es)) * slack.
Proof using Hl Hidle.
  induction es as [|e es IH]; intros p rl Hk Hok.
  - cbn [rise]. pose proof (budget_nonneg k p rl Hok). pose proof (credit_nonneg 0%Z).
    change (inject_Z (Z.of_nat (requests []))) with 0. change (inject_Z (Z.of_nat (admitted (run [] rl)))) with 0. lra.
  - apply Forall_cons in Hk as [He Hes]. pose proof (step_ok e rl Hok) as Hok'.
    specialize (IH (time_of e) (step e rl).2 Hes Hok'). cbn [rise].
    pose proof (rise_nonneg es (time_of e)) as Hr0.
    assert (Ec : credit (Z.max 0 (time_of e - p) + rise (time_of e) es)%Z ==
                 credit (time_of e - p)%Z + credit (rise (time_of e) es)).
    { rewrite <-credit_add. by replace (Z.max 0 (rise (time_of e) es)) with (rise (time_of e) es) by lia. }
    rewrite Ec. destruct e as [t k'|t]; cbn [concerns] in He; cbn [run step time_of] in *.
    + subst k'. destruct (Allow_budget k p t rl Hok) as [_ Hb]. destruct (Allow t k rl) as [ok rl'].
      cbn [fst snd] in *. assert (Ea : inject_Z (Z.of_nat (admitted ((k, ok) :: run es rl'))) ==
        granted ok + inject_Z (Z.of_nat (admitted (run es rl')))).
      { unfold admitted. destruct ok; [rewrite filter_cons_True by done|rewrite filter_cons_False by done].
        - cbn [length]. rewrite Nat2Z.inj_succ, <-Z.add_1_l, inject_Z_plus. done.
        - cbn [granted]. ring. }
      assert (Er : inject_Z (Z.of_nat (requests (Request_at t k :: es))) == 1 + inject_Z (Z.of_nat (requests es)))
        by (unfold requests; rewrite filter_cons_True by done; cbn [length];
            by rewrite Nat2Z.inj_succ, <-Z.add_1_l, inject_Z_plus).
      rewrite Ea, Er. lra.
    + pose proof (CleanupIdle_budget k p t rl Hok) as Hb. cbn [fst snd] in *.
      assert (Er : requests (Cleanup_at t :: es) = requests es)
        by (unfold requests; by rewrite filter_cons_False).
      rewrite Er. lra.
Qed.
End limiter.

(** Readings in order advance by no more than the interval they are in. *)
Lemma rise_in_order es : ∀ p b, (p ≤ b)%Z → StronglySorted Z.le (time_of <$> es) →
  Forall (λ e, (p ≤ time_of e ≤ b)%Z) es → (rise p es ≤ b - p)%Z.
Proof.
  induction es as [|e es IH]; intros p b Hpb Hs Hf; cbn [rise]; [lia|].
  apply Forall_cons in Hf as [He Hf]. apply StronglySorted_inv in Hs as [Hs Hle].
  specialize (IH (time_of e) b ltac:(lia) Hs). assert (Hr : (rise (time_of e) es ≤ b - time_of e)%Z); [|lia].
  apply IH, Forall_forall. intros x Hx. rewrite Forall_forall in Hf. rewrite Forall_forall in Hle. split; [|by apply Hf].
  by apply Hle, list_elem_of_fmap_2.
Qed.

Lemma span_in_order es a b : (a ≤ b)%Z → StronglySorted Z.le (time_of <$> es) →
  Forall (λ e, (a ≤ time_of e ≤ b)%Z) es → (span es ≤ b - a)%Z.
Proof.
  intros Hab Hs Hf. destruct es as [|e es]; cbn [span]; [lia|].
  apply Forall_cons in Hf as [He Hf]. apply StronglySorted_inv in Hs as [Hs Hle].
  assert (Hr : (rise (time_of e) es ≤ b - time_of e)%Z); [|lia].
  apply rise_in_order; [lia|done|]. apply Forall_forall. intros x Hx. rewrite Forall_forall in Hf. rewrite Forall_forall in Hle.
  split; [|by apply Hf]. by apply Hle, list_elem_of_fmap_2.
Qed.

(** * Theorems *)

(** C25: what a client gets over time.  Whatever the limiter has seen before, of the requests of
    a key in a history, interleaved with those of other keys and with clean-ups, no more get
    through than the burst, and the rate for every second by which the clock readings of
    these requests and the clean-ups advance; the binary64 arithmetic adds no more than 2^-51
    of the burst per request and 2^-49 of the rate.  When the readings are in order, the
    advance is no more than the length of any interval that contains them.  (The burst is
    one at least, and ten minutes of the rate make up for it.) *)
Theorem admits_at_most rate burst k es0 es :
  limits rate burst → fval burst <= seconds (10 * Minute)%Z * fval rate →
  let decided := run es (after es0 (NewRateLimiter rate burst)) in
  let mine := filter (concerns k) es in
  inject_Z (Z.of_nat (admitted (filter (λ d, d.1 = k) decided))) <=
    fval burst * (1 + inject_Z (Z.of_nat (requests mine)) * pow2 (-51)) +
    seconds (span mine) * fval rate * (1 + pow2 (-49)) ∧
  ∀ a b, (a ≤ b)%Z → StronglySorted Z.le (time_of <$> es) →
    Forall (λ e, (a ≤ time_of e ≤ b)%Z) es → (span mine ≤ b - a)%Z.
Proof.
  intros Hl Hidle decided mine. split.
  - unfold decided. set (rl := after es0 _). rewrite (run_agree k es rl rl) by done. fold mine.
    assert (Hok : limiter_ok rate burst rl) by (apply after_ok, New_ok; done).
    assert (Hk : Forall (concerns k) mine)
      by (apply Forall_forall; by intros e [? _]%list_elem_of_filter).
    pose proof (run_budget rate burst Hl Hidle k mine (match mine with [] => 0%Z | e :: _ => time_of e end) rl Hk Hok) as Hb.
    set (p := match mine with [] => _ | _ => _ end) in Hb.
    assert (Hspan : (rise p mine = span mine ∧ 0 ≤ span mine)%Z).
    { unfold p. destruct mine as [|e l]; cbn [rise span]; [lia|].
      pose proof (rise_nonneg l (time_of e)). lia. }
    pose proof (budget_burst rate burst k p rl). unfold credit, slack in Hb.
    rewrite (proj1 Hspan), Z.max_r in Hb by apply Hspan.
    assert (E1 : pow2 (-51) == 2 * eps) by by vm_compute.
    assert (E2 : pow2 (-49) == 8 * eps) by by vm_compute. rewrite E1, E2. lra.
  - intros a b Hab Hs Hf. apply span_in_order; [done| |].
    + eapply StronglySorted_sublist; [|exact Hs]. apply fmap_sublist, sublist_filter.
    + rewrite Forall_forall in Hf |- *. intros e [_ He]%list_elem_of_filter. by apply Hf.
Qed.

(** * Witnesses *)

(** Fifty requests a second and a burst of a hundred, the defaults of the command line. *)
Definition by_default : RateLimiter := NewRateLimiter (float_Z 50) (float_Z 100).
Definition busy : list event := [Request_at 0%Z "a"; Cleanup_at Second; Request_at (2 * Second)%Z "b"; Request_at (3 * Second)%Z "a"].

Lemma admits_at_most_witness :
  limits (float_Z 50) (float_Z 100) ∧ fval (float_Z 100) <= seconds (10 * Minute)%Z * fval (float_Z 50) ∧
  (span (filter (concerns "a") busy) ≤ 4 * Second - 0)%Z.
Proof.
  assert (Hl : limits (float_Z 50) (float_Z 100))
    by (split; [vm_compute; split; [reflexivity|discriminate]|reflexivity|
                vm_compute; split; [reflexivity|discriminate]|vm_compute; discriminate]).
  assert (Hi : fval (float_Z 100) <= seconds (10 * Minute)%Z * fval (float_Z 50)) by (vm_compute; discriminate).
  split; [exact Hl|]. split; [exact Hi|].
  apply (admits_at_most (float_Z 50) (float_Z 100) "a" [] busy Hl Hi).
  - unfold Second. lia.
  - unfold busy, Second, Minute. repeat constructor; cbn; discriminate.
  - unfold busy, Second, Minute. repeat constructor; cbn; discriminate.
Defined.

(** A request reads the clock before it waits for the lock, so a late one takes the time of the
    bucket back, and the same seconds are paid for again: with one request a second and a
    burst of one, one of three requests in the tenth second gets through, but all three do
    when requests that read the clock in the first second come in between. *)
Example late_readings_ex :
  let rl := NewRateLimiter (float_Z 1) (float_Z 1) in
  let prompt := Request_at (10 * Second)%Z "a" in let late := Request_at 0%Z "a" in
  (run [late; prompt; prompt; prompt] rl, run [late; prompt; late; prompt; late; prompt] rl) =
  ([("a", true); ("a", true); ("a", false); ("a", false)],
   [("a", true); ("a", true); ("a", false); ("a", true); ("a", false); ("a", true)]).
Proof. vm_compute. reflexivity. Qed.
