(* ===== verification/Handlers.v ===== *)
(** * pkg/rdap/handlers: the lookup handlers, errors and help.

    A [Server] holds the provider behind its interface; each handler is the whole
    method of handlers.go, guards and early returns in order. *)
From S2P Require Import Prelude GoStrings NetIP DataSource Auth Validate Search JSContact Types Redact Mapper Memory Http.

Definition contentType : string := "application/rdap+json".

(** The [BootstrapRegistry] interface. *)
Record BootstrapRegistry := {
  br_DomainServers : string → list string;
  br_IPServers : Addr → list string }.

Record Server (W : Type) := {
  s_DS : DataSource W;
  s_Bootstrap : option BootstrapRegistry;
  s_Search : option (Index W);
  s_SelfLinkBase : string;
  s_ExtraConformance : list string;
  s_Notices : list Notice;
  s_EmitJCard : bool;
  s_RedactionReason : string }.
Arguments s_DS {W} _.
Arguments s_Bootstrap {W} _.
Arguments s_Search {W} _.
Arguments s_SelfLinkBase {W} _.
Arguments s_ExtraConformance {W} _.
Arguments s_Notices {W} _.
Arguments s_EmitJCard {W} _.
Arguments s_RedactionReason {W} _.

(** ** Negotiation *)
Definition wantsJCardOnly (r : Request) : bool :=
  let v := query_Get "jscard" (r_Query r) in
  if (v =? "false")%string || (v =? "0")%string || (v =? "no")%string then true
  else existsb (λ part, existsb (λ kv, EqualFold_ascii (TrimSpace kv) "profile=jcard")
                          (Split part ";"))
         (Split (header_Get "Accept" (r_Header r)) ",").

Definition acceptable (mt : string) : bool :=
  (mt =? "")%string || (mt =? "*/*")%string || (mt =? "application/*")%string ||
  (mt =? contentType)%string || (mt =? "application/json")%string.
Definition accepts (r : Request) : bool :=
  let h := header_Get "Accept" (r_Header r) in
  if (h =? "")%string then true
  else existsb (λ part, acceptable (TrimSpace (SplitN_2_0 part ";"))) (Split h ",").

Definition opts {W} (s : Server W) (r : Request) : Options :=
  {| o_Level := Level (FromContext (r_Context r));
     o_SelfLinkBase := s_SelfLinkBase s;
     o_ExtraConformance := s_ExtraConformance s;
     o_ExtraNotices := s_Notices s;
     o_RedactionReason := s_RedactionReason s;
     o_EmitJCard := s_EmitJCard s;
     o_JCardOnly := wantsJCardOnly r |}.

(** ** Writing *)
Section handlers.
Context `{JSONEncoder} `{GoUnicode} `{GoMapRange} `{NetIPText} `{IDNA}.

(** The status is written before the object is encoded, and the error of the encoder is
    dropped: an object that it refuses leaves an empty body behind. *)
Definition writeJSON (status : Z) (v : content) : list wop :=
  [HeaderSet "Content-Type" contentType;
   HeaderSet "Cache-Control" "public, max-age=60";
   WriteHeader status; Write (json_Encode v)].

Definition error_object (status : Z) (title : string) (notices : list Notice)
    (desc : list string) : ErrorResponse :=
  {| Error_Common := common_of DefaultConformance "error" "" [] [] notices [];
     Error_ErrorCode := status; Error_Title := title; Error_Description := desc |}.
Definition writeError_desc (status : Z) (title : string) (notices : list Notice)
    (desc : list string) : list wop :=
  [HeaderSet "Content-Type" contentType; WriteHeader status;
   Write (json_Encode (CError (error_object status title notices desc)))].
Definition writeError (status : Z) (title : string) (notices : list Notice) : list wop :=
  writeError_desc status title notices [].

Definition statusFor (err : error) : Z * string :=
  if errors_Is err ErrNotFound then (StatusNotFound, "Object not found")
  else if errors_Is err ErrUnauthorized then (StatusForbidden, "Access denied")
  else (StatusInternalServerError, "Internal server error").

Definition redirectTo (base objectPath : string) : list wop :=
  let base := TrimRight base "/" in
  [HeaderSet "Location" (base +:+ objectPath); WriteHeader StatusFound].

Context {W : Type} (s : Server W).

(** [writeError(w, statusFor(err), s.Notices)] *)
Definition write_failure (err : error) : list wop :=
  let '(status, title) := statusFor err in writeError status title (s_Notices s).

(** The redirect to another registry, when the object is not found here. *)
Definition redirect_or_error (err : error) (servers : BootstrapRegistry → list string)
    (objectPath : string) : list wop :=
  match s_Bootstrap s with
  | Some b =>
      if errors_Is err ErrNotFound then
        match servers b with
        | srv :: _ => redirectTo srv objectPath
        | [] => write_failure err
        end
      else write_failure err
  | None => write_failure err
  end.

(** An object and an error, as the code reads them: the error first. *)
Definition on_result {V} (res : res V) (fail : error → list wop) (ok : V → list wop)
    : list wop :=
  match res with
  | (_, Some err) => fail err
  | (Some v, None) => ok v
  | (None, None) => []           (* a nil object is dereferenced: the handler panics *)
  end.

Definition HandleDomain (name_value : string) : Handler W := λ r w,
  if negb (accepts r) then
    (writeError StatusNotAcceptable "Unsupported media type" (s_Notices s), w) else
  let raw := name_value in
  match PathSegment raw with
  | Some _ => (writeError StatusBadRequest "Malformed domain name" (s_Notices s), w)
  | None =>
      match Normalize raw with
      | None => (writeError StatusBadRequest "Malformed domain name" (s_Notices s), w)
      | Some name =>
          match DomainLength name with
          | Some _ => (writeError StatusBadRequest "Domain name too long" (s_Notices s), w)
          | None =>
              let '(d, w) := GetDomain (s_DS s) name w in
              (on_result d
                 (λ err, redirect_or_error err (λ b, br_DomainServers b name)
                           ("/domain/" +:+ name))
                 (λ d, writeJSON StatusOK (CDomain (Mapper.Domain d (opts s r)))), w)
          end
      end
  end.

Definition HandleEntity (handle : string) : Handler W := λ r w,
  if negb (accepts r) then
    (writeError StatusNotAcceptable "Unsupported media type" (s_Notices s), w) else
  match Validate.Handle handle with
  | Some _ => (writeError StatusBadRequest "Malformed entity handle" (s_Notices s), w)
  | None =>
      let '(c, w) := GetEntity (s_DS s) handle w in
      (on_result c write_failure
         (λ c, writeJSON StatusOK (CEntity (EntityTopLevel c (opts s r)))), w)
  end.

Definition HandleNameserver (name_value : string) : Handler W := λ r w,
  if negb (accepts r) then
    (writeError StatusNotAcceptable "Unsupported media type" (s_Notices s), w) else
  let raw := name_value in
  match PathSegment raw with
  | Some _ => (writeError StatusBadRequest "Malformed nameserver name" (s_Notices s), w)
  | None =>
      match Normalize raw with
      | None => (writeError StatusBadRequest "Malformed nameserver name" (s_Notices s), w)
      | Some name =>
          match DomainLength name with
          | Some _ => (writeError StatusBadRequest "Nameserver name too long" (s_Notices s), w)
          | None =>
              let '(n, w) := GetNameserver (s_DS s) name w in
              (on_result n write_failure
                 (λ n, writeJSON StatusOK (CNameserver (NameserverTopLevel n (opts s r)))), w)
          end
      end
  end.

Definition HandleIP (ip_value : string) : Handler W := λ r w,
  if negb (accepts r) then
    (writeError StatusNotAcceptable "Unsupported media type" (s_Notices s), w) else
  match ParseAddr ip_value with
  | None => (writeError StatusBadRequest "Malformed IP address" (s_Notices s), w)
  | Some ip =>
      let '(n, w) := GetIPNetwork (s_DS s) ip w in
      (on_result n
         (λ err, redirect_or_error err (λ b, br_IPServers b ip) ("/ip/" +:+ addr_String ip))
         (λ n, writeJSON StatusOK (CIPNetwork (Mapper.IPNetwork n (opts s r)))), w)
  end.

(** *** rirsearch.go *)
Definition parseIPForSearch (v : string) : option Addr :=
  match ParseAddr v with
  | Some addr => Some addr
  | None => match ParsePrefix v with Some p => Some (pfx_Addr p) | None => None end
  end.

Definition HandleRIRBottom (ip_value : string) : Handler W := λ r w,
  if negb (accepts r) then
    (writeError StatusNotAcceptable "Unsupported media type" (s_Notices s), w) else
  match parseIPForSearch ip_value with
  | None => (writeError StatusBadRequest "Malformed IP address" (s_Notices s), w)
  | Some addr =>
      let '(n, w) := GetIPNetwork (s_DS s) addr w in
      (on_result n
         (λ err, if errors_Is err ErrNotFound
                 then writeError StatusNotFound "No containing network" (s_Notices s)
                 else writeError StatusInternalServerError "Lookup failed" (s_Notices s))
         (λ n, writeJSON StatusOK (CIPNetwork (Mapper.IPNetwork n (opts s r)))), w)
  end.

Definition HandleRIRNotImpl : Handler W := λ _ w,
  (writeError_desc StatusNotImplemented "RIR-search hierarchy navigation not implemented"
     (s_Notices s)
     ["This server implements draft-ietf-regext-rdap-rir-search rdap-bottom only.";
      "rdap-top / rdap-up / rdap-down require a SearchIndex with hierarchy support."], w).

(** *** help *)
Definition help_descriptions : list (string * string) := [
  ("rdap_level_0", "STD 95 / RFC 9083 baseline");
  ("jscontact_level_0", "JSContact contact information (draft-ietf-regext-rdap-jscontact)");
  ("redacted", "RFC 9537 redaction signalling");
  ("icann_rdap_response_profile_1", "ICANN gTLD RDAP Response Profile v2.2");
  ("icann_rdap_technical_implementation_guide_1",
   "ICANN gTLD RDAP Technical Implementation Guide v2.2")].
Definition assoc_string (k : string) (l : list (string * string)) : option string :=
  (λ x, x.2.2) <$> list_find (λ kv, kv.1 = k) l.
Definition buildVersioningHelp (conf : RDAPConformance) : list versioningEntry :=
  {| ve_Version := "1"; ve_Description := "Default version"; ve_Extensions := conf |} ::
  omap (λ ext, (λ d, {| ve_Version := ext; ve_Description := d; ve_Extensions := [ext] |})
                 <$> assoc_string ext help_descriptions) conf.

Definition default_help_notices : list Notice := [
  {| Notice_Title := "Terms of Service"; Notice_Type := "";
     Notice_Description := ["Access is subject to the server's AUP."]; Notice_Links := [] |};
  {| Notice_Title := "Tiered Access"; Notice_Type := "";
     Notice_Description :=
       ["Anonymous queries receive a redacted view per GDPR.";
        "Authenticated callers obtain additional contact channels."];
     Notice_Links := [] |}].
Definition helpResponse : content :=
  let notices := if is_empty (s_Notices s) then default_help_notices else s_Notices s in
  let conf := if is_empty (s_ExtraConformance s) then DefaultConformance
              else DefaultConformance ++ s_ExtraConformance s in
  CHelp (common_of conf "help" "" [] [] notices []) (buildVersioningHelp conf).
Definition HandleHelp : Handler W := λ _ w, (writeJSON StatusOK helpResponse, w).
End handlers.

(** * Theorems *)
Section theorems.
Context `{JSONEncoder} `{GoUnicode} `{GoMapRange} `{NetIPText} `{IDNA}.

(** The lookup endpoints with the path value the router hands them. *)
Inductive endpoint :=
  | EDomain (name : string) | EEntity (handle : string) | ENameserver (name : string)
  | EIP (ip : string) | ERIRBottom (ip : string) | ERIRNotImpl | EHelp.
Definition handle {W} (s : Server W) (e : endpoint) : Handler W :=
  match e with
  | EDomain n => HandleDomain s n
  | EEntity h => HandleEntity s h
  | ENameserver n => HandleNameserver s n
  | EIP ip => HandleIP s ip
  | ERIRBottom ip => HandleRIRBottom s ip
  | ERIRNotImpl => HandleRIRNotImpl s
  | EHelp => HandleHelp s
  end.

(** *** Well-formed responses *)
Definition is_error (c : content) : bool := match c with CError _ => true | _ => false end.
Definition rdap_response (w : ResponseWriter) : Prop :=
  (rw_status w = Some StatusFound ∧ is_Some (rw_sent w !! "Location") ∧ rw_body w = "") ∨
  (rw_sent w !! "Content-Type" = Some contentType ∧
   ∃ c, rw_body w = json_Encode c ∧
     ((rw_status w = Some StatusOK ∧ is_error c = false) ∨
      ∃ e, c = CError e ∧ rw_status w = Some (Error_ErrorCode e) ∧
           (400 ≤ Error_ErrorCode e ≤ 501)%Z)).
Definition rdap_ops (ops : list wop) : Prop := rdap_response (serve ops rw_new).

(** The three things a handler writes. *)
Inductive shape : list wop → Prop :=
  | shape_json c : is_error c = false → shape (writeJSON StatusOK c)
  | shape_error status title notices desc : (400 ≤ status ≤ 501)%Z →
      shape (writeError_desc status title notices desc)
  | shape_redirect base path : shape (redirectTo base path).

Lemma shape_rdap ops : shape ops → rdap_ops ops.
Proof.
  intros [c Hc|status title notices desc Hs|base path].
  - right. split; [reflexivity|]. exists c. split; [reflexivity|]. by left.
  - right. split; [reflexivity|]. eexists. split; [reflexivity|]. right.
    eexists. split; [done|]. by split.
  - left. split_and!; try reflexivity. exists (TrimRight base "/" +:+ path). reflexivity.
Qed.

Lemma shape_cacheable ops : shape ops → rw_status (serve ops rw_new) = Some StatusOK →
  rw_sent (serve ops rw_new) !! "Cache-Control" = Some "public, max-age=60" ∧
  rw_sent (serve ops rw_new) !! "Vary" = None.
Proof. intros [c Hc|status title notices desc Hs|base path]; cbn; [done| |done]. intros [= ->]; unfold StatusOK in Hs; lia. Qed.

Lemma write_failure_shape {W} (s : Server W) err : shape (write_failure s err).
Proof.
  unfold write_failure, statusFor.
  destruct (errors_Is err ErrNotFound); [by apply shape_error|].
  destruct (errors_Is err ErrUnauthorized); by apply shape_error.
Qed.
Lemma redirect_or_error_shape {W} (s : Server W) err servers path :
  shape (redirect_or_error s err servers path).
Proof.
  unfold redirect_or_error. destruct (s_Bootstrap s) as [b|]; [|apply write_failure_shape].
  destruct (errors_Is err ErrNotFound); [|apply write_failure_shape].
  destruct (servers b); [apply write_failure_shape|apply shape_redirect].
Qed.
Lemma on_result_shape {V} (res : res V) fail ok :
  res_answers res → (∀ e, shape (fail e)) → (∀ v, shape (ok v)) →
  shape (on_result res fail ok).
Proof. destruct res as [[v|] [e|]]; cbn; auto; done. Qed.

#[local] Hint Resolve shape_json write_failure_shape redirect_or_error_shape on_result_shape
  : gordap.
#[local] Hint Extern 1 (shape (writeError _ _ _)) => by apply shape_error : gordap.
#[local] Hint Extern 1 (shape (writeError_desc _ _ _ _)) =>
  by apply shape_error : gordap.

#[local] Ltac answer := cbn [fst snd]; auto 8 with gordap.

Lemma endpoint_shape {W} (s : Server W) (I : W → Prop) e r w :
  ProviderLaws (s_DS s) I → I w → shape (handle s e r w).1 ∧ I (handle s e r w).2.
Proof.
  intros Hlaws Hw.
  destruct e as [name|h|name|ip|ip| |]; cbn [handle].
  - unfold HandleDomain. destruct (accepts r); cbn [negb]; [|answer].
    destruct (PathSegment name); [answer|].
    destruct (Normalize name) as [n|]; [|answer].
    destruct (DomainLength n); [answer|].
    pose proof (law_domain n w Hw) as [Hr Hw'].
    destruct (GetDomain (s_DS s) n w) as [d w']. cbn [fst snd] in *. answer.
  - unfold HandleEntity. destruct (accepts r); cbn [negb]; [|answer].
    destruct (Validate.Handle h); [answer|].
    pose proof (law_entity h w Hw) as [Hr Hw'].
    destruct (GetEntity (s_DS s) h w) as [c w']. cbn [fst snd] in *. answer.
  - unfold HandleNameserver. destruct (accepts r); cbn [negb]; [|answer].
    destruct (PathSegment name); [answer|].
    destruct (Normalize name) as [n|]; [|answer].
    destruct (DomainLength n); [answer|].
    pose proof (law_nameserver n w Hw) as [Hr Hw'].
    destruct (GetNameserver (s_DS s) n w) as [d w']. cbn [fst snd] in *. answer.
  - unfold HandleIP. destruct (accepts r); cbn [negb]; [|answer].
    destruct (ParseAddr ip) as [a|]; [|answer].
    pose proof (law_network a w Hw) as [Hr Hw'].
    destruct (GetIPNetwork (s_DS s) a w) as [n w']. cbn [fst snd] in *. answer.
  - unfold HandleRIRBottom. destruct (accepts r); cbn [negb]; [|answer].
    destruct (parseIPForSearch ip) as [a|]; [|answer].
    pose proof (law_network a w Hw) as [Hr Hw'].
    destruct (GetIPNetwork (s_DS s) a w) as [n w']. cbn [fst snd] in *. split; [|done].
    apply on_result_shape; answer.
    intros e. destruct (errors_Is e ErrNotFound); answer.
  - unfold HandleRIRNotImpl; answer.
  - unfold HandleHelp; answer.
Qed.

(** Every lookup endpoint answers every request, over a provider that keeps its
    contract, with a complete RDAP response and never panics: a redirect with a
    Location and an empty body, or one body with the RDAP content type, which is an
    object under status 200 or an error object whose code is the HTTP status. *)
Theorem lookups_answer_rdap {W} (s : Server W) (I : W → Prop) e r w :
  ProviderLaws (s_DS s) I → I w → rdap_ops (handle s e r w).1 ∧ I (handle s e r w).2.
Proof.
  intros Hlaws Hw. destruct (endpoint_shape s I e r w Hlaws Hw) as [Hs ?].
  split; [by apply shape_rdap|done].
Qed.

(** Every successful lookup response is marked as publicly cacheable and does not
    vary, whatever the access level of the caller: a response rendered for a privileged
    caller, which carries the whole record, allows a shared cache to store it and serve
    it to anonymous callers of the same URL. *)
Theorem success_publicly_cacheable {W} (s : Server W) (I : W → Prop) e r w :
  ProviderLaws (s_DS s) I → I w →
  let resp := serve (handle s e r w).1 rw_new in
  rw_status resp = Some StatusOK →
  rw_sent resp !! "Cache-Control" = Some "public, max-age=60" ∧ rw_sent resp !! "Vary" = None.
Proof.
  intros Hlaws Hw resp. apply shape_cacheable. by apply (endpoint_shape s I e r w).
Qed.

(** *** Input hardening *)
Definition with_DS {W} (ds : DataSource W) (s : Server W) : Server W :=
  {| s_DS := ds; s_Bootstrap := s_Bootstrap s; s_Search := s_Search s;
     s_SelfLinkBase := s_SelfLinkBase s; s_ExtraConformance := s_ExtraConformance s;
     s_Notices := s_Notices s; s_EmitJCard := s_EmitJCard s;
     s_RedactionReason := s_RedactionReason s |}.

(** The keys a provider may be asked for. *)
Definition valid_name (n : string) : Prop :=
  (1 ≤ len n ≤ 253)%Z ∧ ∃ raw, (len raw ≤ 512)%Z ∧ Normalize raw = Some n.
Definition valid_handle (h : string) : Prop :=
  (1 ≤ len h ≤ 64)%Z ∧ str_forall handle_byte h = true.

Lemma valid_handle_of h : Validate.Handle h = None → valid_handle h.
Proof.
  unfold Validate.Handle, valid_handle, MaxHandleLength.
  destruct (String.eqb_spec h "") as [|Hne]; [done|].
  destruct (64 <? len h)%Z eqn:E; [done|]. bool_hyps.
  destruct (str_forall handle_byte h); [|done]. intros _. split; [|done].
  split; [|done]. destruct h; [done|]. unfold len; cbn; lia.
Qed.

(** C21: whatever a client sends, the provider is only ever asked for keys of the
    validated shape: names that are the normal form of a path value of at most 512
    bytes and are 1 to 253 bytes long, and handles of 1 to 64 bytes from the handle
    alphabet: two providers that agree on those keys (and on addresses) cannot be told
    apart through any endpoint. *)
Theorem only_valid_keys_reach_source {W} (s : Server W) (ds1 ds2 : DataSource W) e r w :
  (∀ n w, valid_name n → GetDomain ds1 n w = GetDomain ds2 n w) →
  (∀ n w, valid_name n → GetNameserver ds1 n w = GetNameserver ds2 n w) →
  (∀ h w, valid_handle h → GetEntity ds1 h w = GetEntity ds2 h w) →
  (∀ ip w, GetIPNetwork ds1 ip w = GetIPNetwork ds2 ip w) →
  handle (with_DS ds1 s) e r w = handle (with_DS ds2 s) e r w.
Proof.
  intros Hd Hn He Hi.
  assert (Hname : ∀ raw n, PathSegment raw = None → Normalize raw = Some n →
    DomainLength n = None → valid_name n).
  { intros raw n Hraw Hno Hl. split; [by apply DomainLength_None|]. exists raw.
    split; [by apply PathSegment_None|done]. }
  destruct e as [name|h|name|ip|ip| |]; cbn [handle]; try done.
  - unfold HandleDomain; cbn [s_DS with_DS]. destruct (negb (accepts r)); [done|].
    destruct (PathSegment name) eqn:Ep; [done|]. destruct (Normalize name) as [n|] eqn:En; [|done].
    destruct (DomainLength n) eqn:El; [done|]. by rewrite Hd by (by apply (Hname name)).
  - unfold HandleEntity; cbn [s_DS with_DS]. destruct (negb (accepts r)); [done|].
    destruct (Validate.Handle h) eqn:Eh; [done|]. by rewrite He by (by apply valid_handle_of).
  - unfold HandleNameserver; cbn [s_DS with_DS]. destruct (negb (accepts r)); [done|].
    destruct (PathSegment name) eqn:Ep; [done|]. destruct (Normalize name) as [n|] eqn:En; [|done].
    destruct (DomainLength n) eqn:El; [done|]. by rewrite Hn by (by apply (Hname name)).
  - unfold HandleIP; cbn [s_DS with_DS]. destruct (negb (accepts r)); [done|].
    destruct (ParseAddr ip); [|done]. by rewrite Hi.
  - unfold HandleRIRBottom; cbn [s_DS with_DS]. destruct (negb (accepts r)); [done|].
    destruct (parseIPForSearch ip); [|done]. by rewrite Hi.
Qed.

(** *** Confidentiality

    Two providers run side by side, each over a world of its own; a relation [R] of the
    worlds says that they differ at most in what a caller of a level may not know.  The
    calls keep the worlds related and answer alike up to that knowledge. *)

(** Answers that differ at most in what [P] allows; the errors are the same. *)
Definition res_rel {V} (P : V → V → Prop) (r1 r2 : res V) : Prop :=
  r1.2 = r2.2 ∧ option_Forall2 P r1.1 r2.1.
Definition call_rel {W1 W2 V} (R : W1 → W2 → Prop) (P : V → V → Prop)
    (a1 : res V * W1) (a2 : res V * W2) : Prop := res_rel P a1.1 a2.1 ∧ R a1.2 a2.2.
Record source_rel {W1 W2} (R : W1 → W2 → Prop) (lvl : AccessLevel)
    (ds1 : DataSource W1) (ds2 : DataSource W2) : Prop := {
  sr_domain k w1 w2 : R w1 w2 → call_rel R (domain_indist lvl) (GetDomain ds1 k w1) (GetDomain ds2 k w2);
  sr_entity k w1 w2 : R w1 w2 → call_rel R (indist lvl) (GetEntity ds1 k w1) (GetEntity ds2 k w2);
  sr_nameserver k w1 w2 : R w1 w2 → call_rel R eq (GetNameserver ds1 k w1) (GetNameserver ds2 k w2);
  sr_network k w1 w2 : R w1 w2 → call_rel R eq (GetIPNetwork ds1 k w1) (GetIPNetwork ds2 k w2) }.

(** Pages of related records, at the same place of as many. *)
Definition page_rel {T} (P : T → T → Prop) (a b : Result T) : Prop :=
  Forall2 P (Items a) (Items b) ∧ Total a = Total b ∧ NextCursor a = NextCursor b.
(** A search by name or email tells what it is about: only the others answer alike. *)
Definition public_terms (terms : gmap string string) : Prop :=
  terms !! "fn" = None ∧ terms !! "email" = None.
Record index_rel {W1 W2} (R : W1 → W2 → Prop) (lvl : AccessLevel)
    (ix1 : Index W1) (ix2 : Index W2) : Prop := {
  ir_domains q w1 w2 : R w1 w2 →
    call_rel R (page_rel (domain_indist lvl)) (SearchDomains ix1 q w1) (SearchDomains ix2 q w2);
  ir_entities q w1 w2 : R w1 w2 →
    R (SearchEntities ix1 q w1).2 (SearchEntities ix2 q w2).2 ∧
    (public_terms (Terms q) →
     res_rel (page_rel (indist lvl)) (SearchEntities ix1 q w1).1 (SearchEntities ix2 q w2).1);
  ir_nameservers q w1 w2 : R w1 w2 →
    call_rel R (page_rel eq) (SearchNameservers ix1 q w1) (SearchNameservers ix2 q w2) }.

Lemma res_rel_impl {V} (P P' : V → V → Prop) (r1 r2 : res V) :
  (∀ a b, P a b → P' a b) → res_rel P r1 r2 → res_rel P' r1 r2.
Proof. intros HP [He Hv]. split; [done|]. inversion Hv; constructor; auto. Qed.
Lemma res_rel_refl {V} (P : V → V → Prop) (r : res V) : (∀ v, P v v) → res_rel P r r.
Proof. intros HP. split; [done|]. destruct r as [[v|] e]; constructor; auto. Qed.
Lemma page_rel_impl {T} (P P' : T → T → Prop) a b :
  (∀ x y, P x y → P' x y) → page_rel P a b → page_rel P' a b.
Proof. intros HP [Hi Ht]. split; [|done]. by eapply Forall2_impl. Qed.
Lemma page_rel_refl {T} (P : T → T → Prop) a : (∀ x, P x x) → page_rel P a a.
Proof. intros HP. split; [|done]. induction (Items a); constructor; auto. Qed.

(** Servers over related providers and indices, with the same settings. *)
Definition server_settings {W} (s : Server W) :=
  (s_Bootstrap s, s_SelfLinkBase s, s_ExtraConformance s, s_Notices s, s_EmitJCard s,
   s_RedactionReason s).
Record server_rel {W1 W2} (R : W1 → W2 → Prop) (lvl : AccessLevel)
    (s1 : Server W1) (s2 : Server W2) : Prop := {
  sv_settings : server_settings s1 = server_settings s2;
  sv_source : source_rel R lvl (s_DS s1) (s_DS s2);
  sv_search : option_Forall2 (index_rel R lvl) (s_Search s1) (s_Search s2) }.

(** Two answers to the same request: the same, or two objects under status 200. *)
Inductive same_outcome : list wop → list wop → Prop :=
  | same_answer ops : same_outcome ops ops
  | both_objects c1 c2 : same_outcome (writeJSON StatusOK c1) (writeJSON StatusOK c2).

(** A relation on records that become related answers. *)
Lemma on_result_outcome {V} (P : V → V → Prop) (r1 r2 : res V) fail ok1 ok2 (Q : Prop) :
  res_rel P r1 r2 → (∀ a b, P a b → same_outcome (ok1 a) (ok2 b)) →
  (Q → ∀ a b, P a b → ok1 a = ok2 b) →
  same_outcome (on_result r1 fail ok1) (on_result r2 fail ok2) ∧
  (Q → on_result r1 fail ok1 = on_result r2 fail ok2).
Proof.
  intros [He Hv] Hs Hok. destruct r1 as [o1 e1], r2 as [o2 e2]. cbn in He, Hv. subst e2.
  destruct Hv as [a b Hab|], e1; cbn; split; try constructor; auto.
Qed.

Section two_worlds.
Context {W1 W2 : Type} (R : W1 → W2 → Prop) (lvl : AccessLevel).

(** The caller of [r] is covered by [lvl]. *)
Definition covered (r : Request) : Prop :=
  (tier (Level (FromContext (r_Context r))) ≤ tier lvl)%Z.

(** Two answers to [r], the worlds they leave behind, and what a caller sees of them. *)
Definition outcomes_rel (r : Request) (a1 : list wop * W1) (a2 : list wop * W2) : Prop :=
  R a1.2 a2.2 ∧ same_outcome a1.1 a2.1 ∧ (covered r → a1.1 = a2.1).

Lemma outcomes_same r ops w1 w2 : R w1 w2 → outcomes_rel r (ops, w1) (ops, w2).
Proof. intros Hw. split_and!; [done|constructor|done]. Qed.

(** A call of the provider and the answer made of its result: the tail of a handler. *)
Lemma call_outcomes {V} (P : AccessLevel → V → V → Prop) r (a1 : res V * W1) (a2 : res V * W2) fail
    (body : V → content) :
  call_rel R (P lvl) a1 a2 →
  (∀ a b, covered r → P lvl a b → P (Level (FromContext (r_Context r))) a b) →
  (∀ a b, P (Level (FromContext (r_Context r))) a b → body a = body b) →
  outcomes_rel r
    (let '(x, w) := a1 in (on_result x fail (λ v, writeJSON StatusOK (body v)), w))
    (let '(x, w) := a2 in (on_result x fail (λ v, writeJSON StatusOK (body v)), w)).
Proof.
  destruct a1 as [x1 w1], a2 as [x2 w2]. intros [Hx Hw] Hmono Hbody. split; [done|].
  eapply on_result_outcome; [exact Hx|constructor|].
  intros Hc a b Hab. by rewrite (Hbody a b) by (by apply Hmono).
Qed.

(** Over providers that agree up to what [lvl] may not know, every endpoint leaves related
    worlds and has the same outcome, and the very same answer for a caller whose
    tier is at most that of [lvl]. *)
Lemma endpoint_rel (s1 : Server W1) (s2 : Server W2) e r w1 w2 :
  server_rel R lvl s1 s2 → R w1 w2 → outcomes_rel r (handle s1 e r w1) (handle s2 e r w2).
Proof.
  intros [Hset [Hd He Hn Hi] _] Hw.
  destruct s1 as [ds1 b1 ix1 l1 c1 n1 j1 rr1], s2 as [ds2 b2 ix2 l2 c2 n2 j2 rr2].
  unfold server_settings in Hset. cbn in *. simplify_eq.
  assert (Hsame : ∀ ops, outcomes_rel r (ops, w1) (ops, w2)) by (intros; by apply outcomes_same).
  destruct e as [name|h|name|ip|ip| |]; cbn [handle]; try apply Hsame.
  - unfold HandleDomain. destruct (negb (accepts r)); [apply Hsame|].
    destruct (PathSegment name); [apply Hsame|]. destruct (Normalize name) as [n|]; [|apply Hsame].
    destruct (DomainLength n); [apply Hsame|]. cbn [s_DS]. apply (call_outcomes domain_indist).
    + by apply Hd.
    + intros a b. by apply domain_indist_mono.
    + intros a b Hab. f_equal. by apply domain_indist_wire.
  - unfold HandleEntity. destruct (negb (accepts r)); [apply Hsame|].
    destruct (Validate.Handle h); [apply Hsame|]. cbn [s_DS]. apply (call_outcomes indist).
    + by apply He.
    + intros a b. by apply indist_mono.
    + intros a b Hab. f_equal. by apply EntityTopLevel_indist.
  - unfold HandleNameserver. destruct (negb (accepts r)); [apply Hsame|].
    destruct (PathSegment name); [apply Hsame|]. destruct (Normalize name) as [n|]; [|apply Hsame].
    destruct (DomainLength n); [apply Hsame|]. cbn [s_DS].
    apply (call_outcomes (λ _, eq)); [by apply Hn|done|by intros ?? ->].
  - unfold HandleIP. destruct (negb (accepts r)); [apply Hsame|].
    destruct (ParseAddr ip); [|apply Hsame]. cbn [s_DS].
    apply (call_outcomes (λ _, eq)); [by apply Hi|done|by intros ?? ->].
  - unfold HandleRIRBottom. destruct (negb (accepts r)); [apply Hsame|].
    destruct (parseIPForSearch ip); [|apply Hsame]. cbn [s_DS].
    apply (call_outcomes (λ _, eq)); [by apply Hi|done|by intros ?? ->].
Qed.
End two_worlds.
End theorems.

(** * Witnesses: a server over the in-memory store *)
#[local] Existing Instance unicode_default.
#[local] Existing Instance map_range_default.
#[local] Existing Instance netip_text.
#[local] Existing Instance idna_ldh.
Definition json_names : JSONEncoder :=
  {| json_Encode := λ c, match c with
                         | CDomain d => "domain " +:+ Domain_LDHName d
                         | CEntity e => "entity " +:+ Common_Handle (Entity_Common e)
                         | CNameserver n => "nameserver " +:+ Nameserver_LDHName n
                         | CIPNetwork n => "ip network " +:+ IPNetwork_StartAddress n
                         | CError e => "error " +:+ Itoa (Error_ErrorCode e)
                         | CHelp _ _ => "help"
                         | CDomainSearch _ | CEntitySearch _ | CNameserverSearch _ => "results"
                         end |}.
#[local] Existing Instance json_names.

Definition demo_server : Server Store :=
  {| s_DS := store_source; s_Bootstrap := None; s_Search := Some store_index;
     s_SelfLinkBase := ""; s_ExtraConformance := []; s_Notices := []; s_EmitJCard := true;
     s_RedactionReason := "" |}.
Definition demo_request (lvl : AccessLevel) (path : string) : Request :=
  {| r_Method := "GET"; r_EscapedPath := path; r_Query := []; r_RequestURI := path;
     r_Header := ∅; r_ContentLength := 0; r_RemoteAddr := "192.0.2.1:4711";
     r_Context := Some {| Subject := "x"; Level := lvl; Scopes := [] |} |}.

Example demo_lookups :
  let get e := rw_status (serve (handle demo_server e (demo_request AccessAnonymous "/")
                                   (replay demo_log)).1 rw_new) in
  get <$> [EDomain "EXAMPLE.nl."; EDomain "nothere.nl"; EDomain "nodot"; EEntity "REG-EXAMPLE";
           EEntity "../x"; ENameserver "ns1.example.nl"; EIP "192.0.2.9"; EIP "300.1.1.1";
           ERIRBottom "192.0.2.0/28"; ERIRNotImpl; EHelp]
  = Some <$> [200; 404; 400; 200; 400; 200; 200; 400; 200; 501; 200]%Z.
Proof. vm_compute. reflexivity. Qed.

Lemma lookups_answer_rdap_witness :
  ProviderLaws (s_DS demo_server) store_wf ∧ store_wf (replay demo_log) ∧
  rdap_ops (handle demo_server (EDomain "example.nl") (demo_request AccessAnonymous "/")
              (replay demo_log)).1.
Proof.
  split; [apply store_provider|]. split; [apply replay_wf|].
  apply (lookups_answer_rdap demo_server store_wf); [apply store_provider|apply replay_wf].
Defined.

Lemma success_publicly_cacheable_witness :
  let resp := serve (handle demo_server (EEntity "REG-EXAMPLE")
                       (demo_request AccessPrivileged "/") (replay demo_log)).1 rw_new in
  rw_status resp = Some StatusOK ∧
  rw_sent resp !! "Cache-Control" = Some "public, max-age=60".
Proof.
  split; [vm_compute; reflexivity|].
  apply (success_publicly_cacheable demo_server store_wf (EEntity "REG-EXAMPLE")
           (demo_request AccessPrivileged "/") (replay demo_log));
    [apply store_provider|apply replay_wf|vm_compute; reflexivity].
Defined.

(** A provider that holds one entity. *)
Definition one_entity (c : Contact) : DataSource unit :=
  {| GetDomain := λ _ w, (failed ErrNotFound, w);
     GetEntity := λ h w, (if (h =? c_Handle c)%string then found c else failed ErrNotFound, w);
     GetNameserver := λ _ w, (failed ErrNotFound, w);
     GetIPNetwork := λ _ w, (failed ErrNotFound, w) |}.
(** The same, but it also answers the empty handle. *)
Definition leaky (c : Contact) : DataSource unit :=
  {| GetDomain := GetDomain (one_entity c);
     GetEntity := λ h w, if (h =? "")%string then (found c, w) else GetEntity (one_entity c) h w;
     GetNameserver := GetNameserver (one_entity c);
     GetIPNetwork := GetIPNetwork (one_entity c) |}.
Definition unit_server (c : Contact) : Server unit :=
  {| s_DS := one_entity c; s_Bootstrap := None; s_Search := None;
     s_SelfLinkBase := ""; s_ExtraConformance := []; s_Notices := []; s_EmitJCard := true;
     s_RedactionReason := "" |}.

Lemma only_valid_keys_reach_source_witness :
  (∀ h w, valid_handle h → GetEntity (one_entity person_ex) h w = GetEntity (leaky person_ex) h w) ∧
  let s := unit_server person_ex in
  handle (with_DS (one_entity person_ex) s) (EEntity "") (demo_request 0%Z "/") tt =
  handle (with_DS (leaky person_ex) s) (EEntity "") (demo_request 0%Z "/") tt.
Proof.
  assert (He : ∀ h w, valid_handle h →
    GetEntity (one_entity person_ex) h w = GetEntity (leaky person_ex) h w).
  { intros h w [Hl _]. cbn. destruct (String.eqb_spec h "") as [->|]; [|done].
    exfalso. unfold len in Hl. cbn in Hl. lia. }
  split; [exact He|].
  apply (only_valid_keys_reach_source (unit_server person_ex)); [done|done|exact He|done].
Defined.
