(* ===== verification/SearchHandlers.v ===== *)
(** * pkg/rdap/handlers/search.go: the search endpoints, their query and their paging. *)
From S2P Require Import Prelude GoStrings NetIP DataSource Auth Validate Search JSContact Types Redact Mapper Memory Http Handlers.

Definition domainSearchFields : list string := ["name"; "nsLdhName"; "nsIp"].
Definition entitySearchFields : list string := ["fn"; "handle"; "email"; "countryCode"].
Definition nameserverSearchFields : list string := ["name"; "ip"].

(** ** The query *)

(** [base64.RawURLEncoding] of the decimal offset. *)
Definition encode_cursor (off : Z) : string := b64_encode (Itoa off).
Definition decode_cursor (v : string) : option Z := b64_decode v ≫= Atoi.

Definition terms_of (vals : list (string * string)) (allowed : list string)
    : gmap string string :=
  foldl (λ m field, let v := query_Get field vals in
                    if (v =? "")%string then m else <[ field := v ]> m) ∅ allowed.

Definition limit_of (vals : list (string * string)) : Z :=
  let v := query_Get "count" vals in
  if (v =? "")%string then 0%Z else
  match Atoi v with
  | Some n => if (0 <? n)%Z then n else 0%Z
  | None => 0%Z
  end.

Definition offset_of (vals : list (string * string)) : Z :=
  let off := let v := query_Get "cursor" vals in
             if (v =? "")%string then 0%Z else default 0%Z (decode_cursor v) in
  let v := query_Get "offset" vals in
  if (v =? "")%string then off else
  match Atoi v with
  | Some n => if (0 <=? n)%Z then n else off
  | None => off
  end.

Definition buildQuery (r : Request) (allowed : list string) : Query :=
  let vals := r_Query r in
  {| Terms := terms_of vals allowed; Offset := offset_of vals; Limit := limit_of vals |}.

(** ** Paging metadata: [int] arithmetic wraps *)
Definition pagingMeta (q : Query) (total : Z) (nextCursor : string) : option PagingMetadata :=
  let limit := ClampLimit (Limit q) 50 500 in
  if (Offset q =? 0)%Z && (total <=? limit)%Z then None else
  let next := wrap64 (Offset q + limit) in
  Some {| Paging_TotalCount := total;
          Paging_PageNumber :=
            if (0 <? limit)%Z then wrap64 (Z.quot (Offset q) limit + 1) else 0%Z;
          Paging_PageSize := limit;
          Paging_NextCursor :=
            if (next <? total)%Z then encode_cursor next
            else if negb (nextCursor =? "")%string then nextCursor else "" |}.

Definition searchSelfLink (base : string) (r : Request) : list Link :=
  if (base =? "")%string then [] else
  let href := base +:+ r_RequestURI r in
  [{| Link_Value := href; Link_Rel := "self"; Link_Href := href; Link_HrefLang := [];
      Link_Title := ""; Link_Media := ""; Link_Type := "application/rdap+json" |}].

Definition mapperConformance (opts : Options) : RDAPConformance :=
  if is_empty (o_ExtraConformance opts) then DefaultConformance
  else DefaultConformance ++ o_ExtraConformance opts.

Section handlers.
Context `{JSONEncoder} `{GoUnicode} `{GoMapRange} `{NetIPText}.
Context {W : Type} (s : Server W).

Definition writeSearchErr (err : error) : list wop :=
  if errors_Is err ErrNotImplemented
  then writeError StatusNotImplemented "Search field not supported" (s_Notices s)
  else writeError StatusInternalServerError "Search failed" (s_Notices s).

(** The envelope of the results of a class. *)
Definition search_common (cls : string) (r : Request) : Common :=
  common_of (mapperConformance (opts s r)) cls "" [] [] (s_Notices s)
    (searchSelfLink (s_SelfLinkBase s) r).

(** The body the three search handlers share: the guards, the query, the call. *)
Definition handle_search {T} (allowed : list string)
    (search : Index W → Query → W → res (Result T) * W)
    (render : Query → Result T → content) : Handler W := λ r w,
  match s_Search s with
  | None => (writeError StatusNotImplemented "Search not enabled" (s_Notices s), w)
  | Some ix =>
      if negb (accepts r) then
        (writeError StatusNotAcceptable "Unsupported media type" (s_Notices s), w) else
      let q := buildQuery r allowed in
      if bool_decide (Terms q = ∅) then
        (writeError StatusBadRequest "Missing search predicate" (s_Notices s), w) else
      let '(res, w) := search ix q w in
      (on_result res writeSearchErr (λ res, writeJSON StatusOK (render q res)), w)
  end.

Definition HandleDomainsSearch : Handler W := λ r,
  handle_search domainSearchFields SearchDomains
    (λ q res, CDomainSearch
       {| DSR_Common := search_common "domainSearchResults" r;
          DSR_Domains := (λ d, Mapper.Domain d (opts s r)) <$> Items res;
          DSR_Paging := pagingMeta q (Total res) (NextCursor res) |}) r.

Definition HandleEntitiesSearch : Handler W := λ r,
  handle_search entitySearchFields SearchEntities
    (λ q res, CEntitySearch
       {| ESR_Common := search_common "entitySearchResults" r;
          ESR_Entities := (λ c, Mapper.Entity c (opts s r)) <$> Items res;
          ESR_Paging := pagingMeta q (Total res) (NextCursor res) |}) r.

Definition HandleNameserversSearch : Handler W := λ r,
  handle_search nameserverSearchFields SearchNameservers
    (λ q res, CNameserverSearch
       {| NSR_Common := search_common "nameserverSearchResults" r;
          NSR_Nameservers := Mapper.Nameserver <$> Items res;
          NSR_Paging := pagingMeta q (Total res) (NextCursor res) |}) r.
End handlers.

(** * Theorems *)

(** ** Cursors *)
Lemma decode_encode_cursor off : in_int64 off → decode_cursor (encode_cursor off) = Some off.
Proof.
  intros Hoff. unfold decode_cursor, encode_cursor. rewrite b64_decode_encode. cbn.
  by apply Atoi_Itoa.
Qed.

Lemma Itoa_nonempty z : Itoa z ≠ "".
Proof.
  unfold Itoa. destruct (Z.to_int z) as [u|u]; cbn; [|done]. by destruct u.
Qed.

Lemma encode_cursor_nonempty off : encode_cursor off ≠ "".
Proof.
  unfold encode_cursor. pose proof (Itoa_nonempty off) as Hne.
  destruct (Itoa off) as [|a [|b [|c r]]]; [done|..]; by cbn.
Qed.

(** The request that follows a cursor: the same parameters, with this [cursor]. *)
Definition with_cursor (cursor : string) (vals : list (string * string)) : list (string * string) :=
  ("cursor", cursor) :: filter (λ kv, kv.1 ≠ "cursor" ∧ kv.1 ≠ "offset") vals.

Lemma query_Get_with_cursor k c vals : k ≠ "cursor" → k ≠ "offset" →
  query_Get k (with_cursor c vals) = query_Get k vals.
Proof.
  intros Hc Ho. unfold with_cursor. cbn [query_Get].
  destruct (String.eqb_spec "cursor" k) as [<-|_]; [done|].
  induction vals as [|[k' v] vals IH]; [done|].
  destruct (decide (k' ≠ "cursor" ∧ k' ≠ "offset")) as [Hk|Hk].
  - rewrite filter_cons_True by done. cbn [query_Get]. by rewrite IH.
  - rewrite filter_cons_False by done. cbn [query_Get].
    destruct (String.eqb_spec k' k) as [->|]; [|done]. exfalso. naive_solver.
Qed.

Lemma offset_of_with_cursor c vals : c ≠ "" →
  offset_of (with_cursor c vals) = default 0%Z (decode_cursor c).
Proof.
  intros Hc. unfold offset_of.
  assert (Ho : query_Get "offset" (with_cursor c vals) = "").
  { unfold with_cursor. cbn [query_Get String.eqb]. cbn.
    induction vals as [|[k v] vals IH]; [done|].
    destruct (decide (k ≠ "cursor" ∧ k ≠ "offset")) as [Hk|Hk].
    - rewrite filter_cons_True by done. cbn [query_Get].
      destruct (String.eqb_spec k "offset"); [naive_solver|done].
    - by rewrite filter_cons_False. }
  rewrite Ho. cbn [String.eqb].
  change (query_Get "cursor" (with_cursor c vals)) with c.
  destruct (String.eqb_spec c ""); done.
Qed.

(** ** Walking the pages *)
Section walk.
Context {T : Type} (allowed : list string) (results : gmap string string → list T).

Definition with_query (vals : list (string * string)) (r : Request) : Request :=
  {| r_Method := r_Method r; r_EscapedPath := r_EscapedPath r; r_Query := vals;
     r_RequestURI := r_RequestURI r; r_Header := r_Header r;
     r_ContentLength := r_ContentLength r; r_RemoteAddr := r_RemoteAddr r;
     r_Context := r_Context r |}.

(** A client that follows [nextCursor] until a response carries none: all the items it
    has seen, or [None] if it is still walking after [fuel] requests. *)
Fixpoint client_walk (fuel : nat) (r : Request) : option (list T) :=
  match fuel with
  | O => None
  | S n =>
      let q := buildQuery r allowed in
      let res := paginate (results (Terms q)) q in
      match pagingMeta q (Total res) (NextCursor res) with
      | None => Some (Items res)
      | Some m =>
          if (Paging_NextCursor m =? "")%string then Some (Items res)
          else rest ← client_walk n (with_query (with_cursor (Paging_NextCursor m) (r_Query r)) r);
               Some (Items res ++ rest)
      end
  end.

Context (Hallowed : ("cursor" ∉ allowed) ∧ ("offset" ∉ allowed)).

Lemma terms_of_with_cursor c vals : terms_of (with_cursor c vals) allowed = terms_of vals allowed.
Proof.
  destruct Hallowed as [Hc Ho]. unfold terms_of. revert Hc Ho. generalize (∅ : gmap string string).
  induction allowed as [|f fs IH]; intros m Hc Ho; [done|]. cbn [foldl].
  rewrite query_Get_with_cursor by set_solver. apply IH; set_solver.
Qed.
Lemma limit_of_with_cursor c vals : limit_of (with_cursor c vals) = limit_of vals.
Proof. unfold limit_of. by rewrite query_Get_with_cursor. Qed.

Lemma client_walk_from (fuel : nat) r :
  let q := buildQuery r allowed in
  let l := results (Terms q) in
  (0 ≤ Offset q ≤ 2 ^ 62)%Z → (Z.of_nat (length l) ≤ 2 ^ 62)%Z →
  (length l - Z.to_nat (Offset q) < fuel)%nat →
  client_walk fuel r = Some (drop (Z.to_nat (Offset q)) l).
Proof.
  cbv zeta. revert r. induction fuel as [|fuel IH]; intros r Ho Hlen Hf; [lia|].
  cbn [client_walk]. set (q := buildQuery r allowed) in *. set (l := results (Terms q)) in *.
  rewrite paginate_total, paginate_NextCursor, paginate_items. unfold pagingMeta.
  assert (Hlim : (0 < ClampLimit (Limit q) 50 500 ≤ 500)%Z) by (apply ClampLimit_range; lia).
  set (limit := ClampLimit (Limit q) 50 500) in *.
  assert (Hlast : (Z.of_nat (length l) ≤ Offset q + limit)%Z →
    take (Z.to_nat limit) (drop (Z.to_nat (Offset q)) l) = drop (Z.to_nat (Offset q)) l)
    by (intros Hle; apply take_ge; rewrite length_drop; lia).
  destruct ((Offset q =? 0)%Z && (Z.of_nat (length l) <=? limit)%Z) eqn:E1; bool_hyps.
  { rewrite Hlast by lia. done. }
  rewrite (wrap64_id (Offset q + limit)) by (unfold in_int64, int64_min, int64_max; lia).
  cbn [Paging_NextCursor negb String.eqb].
  destruct (Offset q + limit <? Z.of_nat (length l))%Z eqn:E2; bool_hyps.
  2: { rewrite Hlast by lia. done. }
  destruct (String.eqb_spec (encode_cursor (Offset q + limit)) "") as [E|Hne];
    [by apply encode_cursor_nonempty in E|].
  set (r' := with_query _ r).
  assert (Hq : Terms (buildQuery r' allowed) = Terms q) by apply terms_of_with_cursor.
  assert (Hoff : Offset (buildQuery r' allowed) = (Offset q + limit)%Z).
  { change (offset_of (with_cursor (encode_cursor (Offset q + limit)) (r_Query r)) =
      (Offset q + limit)%Z).
    rewrite offset_of_with_cursor by done. rewrite decode_encode_cursor; [done|].
    unfold in_int64, int64_min, int64_max; lia. }
  specialize (IH r'). rewrite Hq, Hoff in IH. fold l in IH. rewrite IH by lia. cbn [mbind option_bind]. f_equal.
  rewrite Z2Nat.inj_add by lia. rewrite <-drop_drop. apply take_drop.
Qed.

(** C22: paging through a search by following [nextCursor] is complete: starting from a
    request without a position, whatever its page size, the walk ends after at most one
    request per result plus one, and the pages it saw, concatenated, are the whole
    result list of the query: nothing is lost, repeated or reordered. *)
Theorem cursor_walk_complete r :
  let l := results (Terms (buildQuery r allowed)) in
  query_Get "cursor" (r_Query r) = "" → query_Get "offset" (r_Query r) = "" →
  (Z.of_nat (length l) ≤ 2 ^ 62)%Z →
  client_walk (S (length l)) r = Some l.
Proof.
  cbv zeta. intros Hc Ho Hlen.
  assert (Hoff : Offset (buildQuery r allowed) = 0%Z)
    by (cbn; unfold offset_of; by rewrite Hc, Ho).
  rewrite client_walk_from; rewrite ?Hoff; [done|lia|done|lia].
Qed.
End walk.

(** ** Positions a client may not ask for *)

(** The position of a page is validated in [offset] but not in [cursor]: a negative
    [offset] is ignored, a cursor that encodes the same number is accepted.  The page at
    position [-k] then shows the first [limit] results but announces position [limit - k]
    as the next one, so the last [k] results shown come again; and a position near the
    largest integer wraps around to a negative next cursor. *)
Theorem cursor_accepts_negative {T} (l : list T) terms (k limit : Z) :
  (0 < k < limit)%Z → (limit ≤ 500)%Z → (limit < Z.of_nat (length l))%Z →
  offset_of [("offset", Itoa (- k))] = 0%Z ∧
  offset_of [("cursor", encode_cursor (- k))] = (- k)%Z ∧
  let q off := {| Terms := terms; Offset := off; Limit := limit |} in
  Items (paginate l (q (- k)%Z)) = take (Z.to_nat limit) l ∧
  Paging_NextCursor <$> pagingMeta (q (- k)%Z) (Z.of_nat (length l)) "" =
    Some (encode_cursor (limit - k)) ∧
  Items (paginate l (q (limit - k)%Z)) = take (Z.to_nat limit) (drop (Z.to_nat (limit - k)) l) ∧
  Paging_NextCursor <$> pagingMeta (q int64_max) (Z.of_nat (length l)) "" =
    Some (encode_cursor (int64_max + limit - 2 ^ 64)).
Proof.
  intros Hk Hlim Hlen.
  assert (Hi : in_int64 (- k)) by (unfold in_int64, int64_min, int64_max; lia).
  assert (Hcl : ClampLimit limit 50 500 = limit) by (apply ClampLimit_id; lia).
  cbv zeta. split_and!.
  - unfold offset_of.
    change (query_Get "offset" [("offset", Itoa (- k))]) with (Itoa (- k)).
    change (query_Get "cursor" [("offset", Itoa (- k))]) with "". cbn [String.eqb].
    destruct (Itoa (- k) =? "")%string; [done|]. rewrite Atoi_Itoa by done.
    by rewrite (proj2 (Z.leb_gt 0 (- k))) by lia.
  - unfold offset_of.
    change (query_Get "offset" [("cursor", encode_cursor (- k))]) with "".
    change (query_Get "cursor" [("cursor", encode_cursor (- k))]) with (encode_cursor (- k)).
    cbn [String.eqb]. rewrite (proj2 (String.eqb_neq _ _) (encode_cursor_nonempty (- k))).
    by rewrite decode_encode_cursor.
  - rewrite paginate_items; cbn [Limit Offset]. rewrite Hcl.
    by replace (Z.to_nat (- k)) with 0%nat by lia.
  - unfold pagingMeta; cbn [Limit Offset]. rewrite Hcl.
    rewrite (proj2 (Z.eqb_neq (- k) 0)) by lia. cbn [andb fmap option_fmap option_map].
    cbn [Paging_NextCursor]. rewrite (wrap64_id (- k + limit))
      by (unfold in_int64, int64_min, int64_max; lia).
    rewrite (proj2 (Z.ltb_lt _ _)) by lia. do 2 f_equal. lia.
  - rewrite paginate_items; cbn [Limit Offset]. by rewrite Hcl.
  - unfold pagingMeta; cbn [Limit Offset]. rewrite Hcl.
    rewrite (proj2 (Z.eqb_neq int64_max 0)) by (unfold int64_max; lia).
    cbn [andb fmap option_fmap option_map Paging_NextCursor].
    assert (Hw : wrap64 (int64_max + limit) = (int64_max + limit - 2 ^ 64)%Z).
    { unfold wrap64, int64_max.
      replace (2 ^ 63 - 1 + limit + 2 ^ 63)%Z with ((limit - 1) + 1 * 2 ^ 64)%Z by lia.
      rewrite Z.mod_add, Z.mod_small by lia. lia. }
    rewrite Hw, (proj2 (Z.ltb_lt _ _)) by (unfold int64_max; lia). done.
Qed.

Lemma cursor_accepts_negative_witness :
  (0 < 2 < 3)%Z ∧ (3 ≤ 500)%Z ∧ (3 < Z.of_nat (length [1; 2; 3; 4; 5]))%Z ∧
  offset_of [("cursor", encode_cursor (- (2)))] = (- (2))%Z.
Proof.
  assert (Hlen : (3 < Z.of_nat (length [1; 2; 3; 4; 5]))%Z) by (cbn; lia).
  split; [lia|split; [lia|split; [exact Hlen|]]].
  exact (proj1 (proj2 (cursor_accepts_negative [1; 2; 3; 4; 5] ∅ 2 3 ltac:(lia) ltac:(lia) Hlen))).
Defined.

(** ** Searching by withheld data *)
#[local] Existing Instance unicode_default.
#[local] Existing Instance map_range_default.
#[local] Existing Instance netip_text.

Definition search_server : Server Store :=
  {| s_DS := store_source; s_Bootstrap := None; s_Search := Some store_index;
     s_SelfLinkBase := ""; s_ExtraConformance := []; s_Notices := []; s_EmitJCard := true;
     s_RedactionReason := "" |}.
Definition search_request (vals : list (string * string)) : Request :=
  {| r_Method := "GET"; r_EscapedPath := "/entities"; r_Query := vals;
     r_RequestURI := "/entities?..."; r_Header := ∅; r_ContentLength := 0;
     r_RemoteAddr := "192.0.2.1:4711"; r_Context := None |}.

(** Entity search discloses what the lookups withhold: for an anonymous caller two
    contacts that may not be told apart, and whose lookups are identical, are told apart
    by a search on the withheld email, which lists one and not the other; and the listed
    entity, although redacted, carries no redaction marker and neither does the
    envelope. *)
Theorem entity_search_is_oracle `{JSONEncoder} :
  let r := search_request [("email", "alice@*")] in
  let ops c := (HandleEntitiesSearch search_server r (PutEntity c New)).1 in
  indist AccessAnonymous person_ex other_person ∧
  ∃ e1 e2, ops person_ex = writeJSON StatusOK (CEntitySearch e1) ∧
    ops other_person = writeJSON StatusOK (CEntitySearch e2) ∧
    (λ e, (Common_Handle (Entity_Common e), Common_Redacted (Entity_Common e))) <$> ESR_Entities e1
      = [("REG-1", [])] ∧
    Common_Redacted (ESR_Common e1) = [] ∧ ESR_Entities e2 = [] ∧
    v_Marks (RedactContact person_ex AccessAnonymous) ≠ [].
Proof.
  intros r ops. split; [reflexivity|].
  assert (Hops : ∀ c items total,
    search_all c_Handle entityMatches (entities (PutEntity c New)) (buildQuery r entitySearchFields)
      = Build_Result items total "" →
    ops c = writeJSON StatusOK (CEntitySearch
      {| ESR_Common := search_common search_server "entitySearchResults" r;
         ESR_Entities := (λ c, Mapper.Entity c (opts search_server r)) <$> items;
         ESR_Paging := pagingMeta (buildQuery r entitySearchFields) total "" |})).
  { intros c items total Hs. unfold ops, HandleEntitiesSearch, handle_search.
    change (negb (accepts r)) with false. cbv iota. cbn [s_Search search_server].
    rewrite bool_decide_false by (by vm_compute).
    cbn [SearchEntities store_index]. unfold Store_SearchEntities. rewrite Hs. done. }
  do 2 eexists. split; [apply (Hops person_ex [person_ex] 1%Z); vm_compute; reflexivity|].
  split; [apply (Hops other_person [] 0%Z); vm_compute; reflexivity|].
  split_and!; try reflexivity. by vm_compute.
Qed.

(** ** Confidentiality of the searches *)

(** The request searches entities by what may be withheld: by name or by email. *)
Definition searches_personal (r : Request) : bool :=
  negb (query_Get "fn" (r_Query r) =? "")%string || negb (query_Get "email" (r_Query r) =? "")%string.

Lemma terms_of_absent vals allowed field :
  query_Get field vals = "" → terms_of vals allowed !! field = None.
Proof.
  intros Hf. unfold terms_of. generalize (lookup_empty (A := string) (M := gmap string) field).
  generalize (∅ : gmap string string). induction allowed as [|g gs IH]; intros m Hm; [done|].
  cbn [foldl]. apply IH. destruct (String.eqb_spec (query_Get g vals) ""); [done|].
  rewrite lookup_insert_ne; [done|]. by intros ->.
Qed.
Lemma public_query r allowed : searches_personal r = false → public_terms (Terms (buildQuery r allowed)).
Proof.
  unfold searches_personal. intros [Hf He]%orb_false_iff.
  apply negb_false_iff, String.eqb_eq in Hf, He. split; by apply terms_of_absent.
Qed.

Section secrecy.
Context `{JSONEncoder} `{GoUnicode} `{GoMapRange} `{NetIPText}.
Context {W1 W2 : Type} (R : W1 → W2 → Prop) (lvl : AccessLevel).

Lemma items_rel {A B} (P : A → A → Prop) (f : A → B) l1 l2 :
  (∀ a b, P a b → f a = f b) → Forall2 P l1 l2 → f <$> l1 = f <$> l2.
Proof. intros Hf. induction 1 as [|a b l1 l2 Hab _ IH]; [done|]. cbn. f_equal; auto. Qed.

(** A page and the envelope made of it. *)
Lemma page_content {T U} (P : AccessLevel → T → T → Prop) (f : T → U) (mk : list U → Z → string → content)
    r (a b : Result T) :
  (covered lvl r → ∀ x y, P lvl x y → P (Level (FromContext (r_Context r))) x y) →
  (∀ x y, P (Level (FromContext (r_Context r))) x y → f x = f y) →
  covered lvl r → page_rel (P lvl) a b →
  mk (f <$> Items a) (Total a) (NextCursor a) = mk (f <$> Items b) (Total b) (NextCursor b).
Proof.
  intros Hmono Hf Hc (Hi & -> & ->). f_equal. apply (items_rel (P lvl)); [|done].
  intros x y Hxy. apply Hf. by apply Hmono.
Qed.

(** The body the search handlers share, over two indices; [Q] is what the query must be
    like for the answers to be alike. *)
Lemma handle_search_rel {T} (P : T → T → Prop) (Q : Query → Prop) (s1 : Server W1) (s2 : Server W2)
    allowed search1 search2 (render1 render2 : Query → Result T → content) r w1 w2 :
  server_rel R lvl s1 s2 → R w1 w2 →
  (∀ ix1 ix2 q, index_rel R lvl ix1 ix2 →
     R (search1 ix1 q w1).2 (search2 ix2 q w2).2 ∧
     (Q q → res_rel (page_rel P) (search1 ix1 q w1).1 (search2 ix2 q w2).1)) →
  (covered lvl r → ∀ q a b, page_rel P a b → render1 q a = render2 q b) →
  let a1 := handle_search s1 allowed search1 render1 r w1 in
  let a2 := handle_search s2 allowed search2 render2 r w2 in
  R a1.2 a2.2 ∧ (Q (buildQuery r allowed) → same_outcome a1.1 a2.1 ∧ (covered lvl r → a1.1 = a2.1)).
Proof.
  intros [Hset _ Hix] Hw Hs Hr. cbv zeta. unfold handle_search, writeSearchErr.
  destruct s1 as [ds1 b1 ix1 l1 c1 n1 j1 rr1], s2 as [ds2 b2 ix2 l2 c2 n2 j2 rr2].
  unfold server_settings in Hset. cbn in *. simplify_eq.
  assert (Hsame : ∀ ops : list wop, R w1 w2 ∧ (Q (buildQuery r allowed) →
    same_outcome ops ops ∧ (covered lvl r → ops = ops))) by (intros ops; split; [done|]; intros _; by split; [constructor|]).
  destruct Hix as [ix1 ix2 Hix|]; [|apply Hsame].
  destruct (negb (accepts r)); [apply Hsame|]. case_bool_decide; [apply Hsame|].
  destruct (Hs ix1 ix2 (buildQuery r allowed) Hix) as [Hw' Hres].
  destruct (search1 _ _ _) as [r1 w1'], (search2 _ _ _) as [r2 w2']. split; [done|]. intros HQ.
  eapply on_result_outcome; [by apply Hres|intros; apply both_objects|]. intros Hc a b Hab. by rewrite (Hr Hc _ a b).
Qed.

Context (s1 : Server W1) (s2 : Server W2) (r : Request) (w1 : W1) (w2 : W2).
Context (Hs : server_rel R lvl s1 s2) (Hw : R w1 w2).

Lemma settings_of : opts s1 r = opts s2 r ∧ ∀ cls, search_common s1 cls r = search_common s2 cls r.
Proof using Hs.
  destruct Hs as [Hset _ _]. destruct s1, s2. unfold server_settings in Hset. cbn in Hset. by simplify_eq.
Qed.

Lemma domains_search_rel :
  outcomes_rel R lvl r (HandleDomainsSearch s1 r w1) (HandleDomainsSearch s2 r w2).
Proof using Hs Hw.
  destruct settings_of as [Ho Hcom]. unfold HandleDomainsSearch.
  edestruct (handle_search_rel (domain_indist lvl) (λ _, True) s1 s2 domainSearchFields
    SearchDomains SearchDomains) as [Hr1 Hr2]; [done..| | |by split; [exact Hr1|apply Hr2]].
  - intros ix1 ix2 q Hix. destruct (ir_domains _ _ _ _ Hix q w1 w2 Hw). by split.
  - intros Hc q a b Hab. rewrite Ho, Hcom.
    apply (page_content domain_indist (λ d, Mapper.Domain d (opts s2 r)) (λ items total next, CDomainSearch
      {| DSR_Common := search_common s2 "domainSearchResults" r; DSR_Domains := items;
         DSR_Paging := pagingMeta q total next |})) with (r := r); [|..|done|done].
    + intros _ x y. by apply domain_indist_mono.
    + intros x y. apply (domain_indist_wire (opts s2 r)).
Qed.
Lemma nameservers_search_rel :
  outcomes_rel R lvl r (HandleNameserversSearch s1 r w1) (HandleNameserversSearch s2 r w2).
Proof using Hs Hw.
  destruct settings_of as [Ho Hcom]. unfold HandleNameserversSearch.
  edestruct (handle_search_rel eq (λ _, True) s1 s2 nameserverSearchFields
    SearchNameservers SearchNameservers) as [Hr1 Hr2]; [done..| | |by split; [exact Hr1|apply Hr2]].
  - intros ix1 ix2 q Hix. destruct (ir_nameservers _ _ _ _ Hix q w1 w2 Hw). by split.
  - intros Hc q a b Hab. rewrite Hcom.
    apply (page_content (λ _, eq) Mapper.Nameserver (λ items total next, CNameserverSearch
      {| NSR_Common := search_common s2 "nameserverSearchResults" r; NSR_Nameservers := items;
         NSR_Paging := pagingMeta q total next |})) with (r := r); [done|by intros ?? ->|done|done].
Qed.
Lemma entities_search_rel :
  let a1 := HandleEntitiesSearch s1 r w1 in let a2 := HandleEntitiesSearch s2 r w2 in
  R a1.2 a2.2 ∧ (searches_personal r = false → outcomes_rel R lvl r a1 a2).
Proof using Hs Hw.
  destruct settings_of as [Ho Hcom]. cbv zeta. unfold HandleEntitiesSearch.
  edestruct (handle_search_rel (indist lvl) (λ q, public_terms (Terms q)) s1 s2 entitySearchFields
    SearchEntities SearchEntities) as [Hr1 Hr2];
    [done..| | |split; [exact Hr1|]; intros Hp; split; [exact Hr1|by apply Hr2, public_query]].
  - intros ix1 ix2 q Hix. exact (ir_entities _ _ _ _ Hix q w1 w2 Hw).
  - intros Hc q a b Hab. rewrite Ho, Hcom.
    apply (page_content indist (λ c, Mapper.Entity c (opts s2 r)) (λ items total next, CEntitySearch
      {| ESR_Common := search_common s2 "entitySearchResults" r; ESR_Entities := items;
         ESR_Paging := pagingMeta q total next |})) with (r := r); [|..|done|done].
    + intros _ x y. by apply indist_mono.
    + intros x y. apply (Entity_indist (opts s2 r)).
Qed.
End secrecy.

(** ** Well-formed answers *)
Section answers.
Context `{JSONEncoder} `{GoUnicode} `{GoMapRange} `{NetIPText}.
Context {W : Type} (s : Server W) (I : W → Prop).

Lemma handle_search_shape {T} allowed search render r w :
  (∀ ix q, s_Search s = Some ix → res_answers (search ix q w).1 ∧ I (search ix q w).2) → I w →
  (∀ q res, is_error (render q res) = false) →
  shape (handle_search (T := T) s allowed search render r w).1 ∧
  I (handle_search s allowed search render r w).2.
Proof.
  intros Hix Hw Hr. unfold handle_search.
  destruct (s_Search s) as [ix|]; [|split; [by apply shape_error|done]].
  destruct (negb (accepts r)); [split; [by apply shape_error|done]|].
  case_bool_decide; [split; [by apply shape_error|done]|].
  destruct (Hix ix (buildQuery r allowed) eq_refl) as [Hres Hw'].
  destruct (search ix (buildQuery r allowed) w) as [res w']. split; [|done].
  apply on_result_shape; [done| |].
  - intros e. unfold writeSearchErr. destruct (errors_Is e ErrNotImplemented); by apply shape_error.
  - intros v. by apply shape_json.
Qed.

(** The three search endpoints answer every request with a complete RDAP response,
    over an index that keeps its contract: a result envelope under status 200, or an
    error object whose code is the HTTP status (501 without an index or when the index
    refuses the query, 406, 400 without a predicate, 500). *)
Theorem searches_answer_rdap r w :
  (∀ ix, s_Search s = Some ix → IndexLaws ix I) → I w →
  (rdap_ops (HandleDomainsSearch s r w).1 ∧ I (HandleDomainsSearch s r w).2) ∧
  (rdap_ops (HandleEntitiesSearch s r w).1 ∧ I (HandleEntitiesSearch s r w).2) ∧
  (rdap_ops (HandleNameserversSearch s r w).1 ∧ I (HandleNameserversSearch s r w).2).
Proof.
  intros Hix Hw. split_and!; (eapply shape_rdap || idtac); apply handle_search_shape; try done;
    intros ix q Hs; specialize (Hix ix Hs).
  all: first [by apply law_search_domains|by apply law_search_entities
             |by apply law_search_nameservers].
Qed.
End answers.

Lemma searches_answer_rdap_witness :
  (∀ ix, s_Search search_server = Some ix → IndexLaws ix store_wf) ∧ store_wf (replay demo_log) ∧
  @rdap_ops json_names
    (@HandleDomainsSearch json_names _ _ _ _ search_server
       (search_request [("name", "exam*")]) (replay demo_log)).1.
Proof.
  assert (Hix : ∀ ix, s_Search search_server = Some ix → IndexLaws ix store_wf)
    by (intros ix [= <-]; apply store_index_laws).
  split; [exact Hix|]. split; [apply replay_wf|].
  apply (@searches_answer_rdap json_names _ _ _ _ search_server store_wf
           (search_request [("name", "exam*")]) (replay demo_log) Hix (replay_wf demo_log)).
Defined.

Lemma cursor_walk_complete_witness :
  (("cursor" ∉ ["name"]) ∧ ("offset" ∉ ["name"])) ∧
  client_walk ["name"] (λ _, [1; 2; 3; 4; 5]) 6 (search_request [("name", "x*"); ("count", "2")]) =
    Some [1; 2; 3; 4; 5].
Proof.
  assert (Hn : ("cursor" ∉ ["name"]) ∧ ("offset" ∉ ["name"])) by (split; set_solver).
  split; [exact Hn|].
  refine (cursor_walk_complete ["name"] (λ _, [1; 2; 3; 4; 5]) Hn
           (search_request [("name", "x*"); ("count", "2")]) eq_refl eq_refl _).
  by vm_compute.
Defined.
