(* ===== verification/Secrecy.v ===== *)
(** * Two runs side by side: the parts of the server that hold data.

    [source_rel R lvl] and [index_rel R lvl] (Handlers) say that two providers, each over a
    world of its own, answer alike up to what a caller of level [lvl] may not know.  Here
    they are shown of the in-memory store, of the record cache over any provider, and of a
    part of a larger state; the Postgres provider is in PgSecrecy.v, and the server over
    them in Router.v and ProcessSecrecy.v. *)
From S2P Require Import Prelude GoStrings NetIP DataSource Auth Validate Search Types Redact Mapper Memory LRU Cache Http Handlers SearchHandlers.

(** ** Sorted lists with related elements *)

(** Two lists sorted by distinct keys, the keys of the one being those of the other. *)
Lemma sorted_rel {A B} (f : A → string) (g : B → string) (P : A → B → Prop) l1 l2 :
  StronglySorted (key_le f) l1 → StronglySorted (key_le g) l2 → f <$> l1 ≡ₚ g <$> l2 →
  (∀ x y, x ∈ l1 → y ∈ l2 → f x = g y → P x y) → Forall2 P l1 l2.
Proof.
  intros Hs1 Hs2 Hp HP.
  assert (E : f <$> l1 = g <$> l2).
  { apply (StronglySorted_unique String.le); [| |done];
      (eapply StronglySorted_fmap; [|done]); by intros ??. }
  clear Hs1 Hs2 Hp. revert l2 E HP.
  induction l1 as [|x l1 IH]; intros [|y l2] E HP; try done.
  injection E as Exy E. constructor; [by apply HP; [left|left|]|]. apply IH; [done|].
  intros x' y' Hx Hy. apply HP; by right.
Qed.

(** ** The in-memory store *)
Section store.
Context `{GoUnicode}.

(** Two stores with the same keys, whose records differ in what [lvl] may not know. *)
Record store_rel (lvl : AccessLevel) (s1 s2 : Store) : Prop := {
  st_wf : store_wf s1 ∧ store_wf s2;
  st_domains k : option_Forall2 (domain_indist lvl) (domains s1 !! k) (domains s2 !! k);
  st_entities k : option_Forall2 (indist lvl) (entities s1 !! k) (entities s2 !! k);
  st_nameserver : nameserver s1 = nameserver s2;
  st_networks : networks s1 = networks s2 }.

Lemma ok_or_notfound_rel {V} (P : V → V → Prop) o1 o2 :
  option_Forall2 P o1 o2 → res_rel P (ok_or_notfound o1) (ok_or_notfound o2).
Proof. intros Ho. inversion Ho; split; cbn; try done; by constructor. Qed.

Lemma store_source_rel lvl : source_rel (store_rel lvl) lvl store_source store_source.
Proof.
  split; intros k s1 s2 Hs; (split; [|done]); cbn.
  - apply ok_or_notfound_rel, Hs.
  - apply ok_or_notfound_rel, Hs.
  - unfold Store_GetNameserver. rewrite (st_nameserver _ _ _ Hs). by apply res_rel_refl.
  - unfold Store_GetIPNetwork. rewrite (st_networks _ _ _ Hs). by apply res_rel_refl.
Qed.

Context `{NetIPText} `{GoMapRange}.

(** The records selected out of related maps, when the terms of the query see no difference. *)
Lemma selected_rel {T} (key f : T → string) term (P : T → T → Prop) (m1 m2 : gmap string T) q :
  (∀ k x, m1 !! k = Some x → k = f x) → (∀ k x, m2 !! k = Some x → k = f x) →
  (∀ x y, key x = key y → f x = f y) →
  (∀ k, option_Forall2 P (m1 !! k) (m2 !! k)) →
  (∀ x y, P x y → key x = key y) →
  (∀ x y k v, P x y → Terms q !! k = Some v → term x k v = term y k v) →
  page_rel P (search_all key (all_terms term) m1 q) (search_all key (all_terms term) m2 q).
Proof.
  intros Hm1 Hm2 Hf HP Hkey Hterm.
  pose proof (selected_spec key f term m1 Hm1 Hf _ q) as (Hs1 & Hn1 & He1).
  pose proof (selected_spec key f term m2 Hm2 Hf _ q) as (Hs2 & Hn2 & He2).
  assert (Hsel : Forall2 P (selected key term m1 _ q) (selected key term m2 _ q)).
  { apply (sorted_rel key key); [done|done| |].
    - apply NoDup_Permutation; [done|done|]. intros n. rewrite !list_elem_of_fmap.
      split; intros (x & -> & Hx).
      + apply He1 in Hx as [[k Hk] Hx]. pose proof (HP k) as Hp. rewrite Hk in Hp. inversion Hp as [? y Hxy E|].
        exists y. split; [by apply Hkey|]. apply He2. split; [by exists k|].
        intros i v Hv. rewrite <-(Hterm x y) by done. by apply Hx.
      + apply He2 in Hx as [[k Hk] Hx]. pose proof (HP k) as Hp. rewrite Hk in Hp. inversion Hp as [y ? Hxy E|].
        exists y. split; [symmetry; by apply Hkey|]. apply He1. split; [by exists k|].
        intros i v Hv. rewrite (Hterm y x) by done. by apply Hx.
    - intros x y [[k Hk] _]%He1 [[k' Hk'] _]%He2 Exy. pose proof (HP k) as Hp. rewrite Hk in Hp.
      inversion Hp as [? y' Hxy E|]. assert (k = k') as <-; [|congruence].
      rewrite (Hm2 k y'), (Hm2 k' y) by done. apply Hf. rewrite <-Exy. symmetry. by apply Hkey. }
  unfold page_rel, search_all. rewrite !paginate_items, !paginate_total, !paginate_NextCursor.
  fold (selected key term m1 _ q) (selected key term m2 _ q).
  split_and!; [by apply Forall2_take, Forall2_drop|by rewrite (Forall2_length _ _ _ Hsel)|done].
Qed.

Lemma entity_country lvl c1 c2 v : indist lvl c1 c2 → entity_term c1 "countryCode" v = entity_term c2 "countryCode" v.
Proof.
  intros Hi. pose proof (isOrg_kind c1 c2 (proj1 (proj2 (proj2 (indist_public _ _ _ Hi))))) as Ho.
  unfold indist, knows, known_address in Hi. rewrite <-Ho in Hi. injection Hi as _ _ _ _ _ _ _ _ _ _ Ha.
  unfold entity_term. cbn.
  destruct (_ || _); [by rewrite Ha|]. destruct (c_Address c1), (c_Address c2); try done.
  cbn in Ha. by injection Ha as ->.
Qed.

Lemma store_index_rel lvl : index_rel (store_rel lvl) lvl store_index store_index.
Proof.
  split; intros q s1 s2 Hs; pose proof Hs as [[[Hd1 He1 Hn1] [Hd2 He2 Hn2]] Hd He Hn Hi]; (split; [|try done]); cbn; try done.
  - split; [done|]. constructor. apply (selected_rel _ (λ d, ToLower (d_LDHName d))); [done|done|congruence|done| |].
    + by intros x y [? [? ?]].
    + intros x y k v [_ [Hl Hu] _ _ Hh _ _ _] _. unfold domain_term. by rewrite Hl, Hu, Hh.
  - intros [Hfn Hem]. split; [done|]. constructor.
    apply (selected_rel _ c_Handle); [done|done|congruence|done| |].
    + intros x y Hxy. by destruct (indist_public _ _ _ Hxy).
    + intros x y k v Hxy Hv. destruct (indist_public _ _ _ Hxy) as (Hh & _).
      destruct (decide (k = "countryCode")) as [->|Hk]; [by apply (entity_country lvl)|].
      unfold entity_term. rewrite Hh.
      destruct (String.eqb_spec k "fn") as [->|]; [congruence|].
      destruct (k =? "handle")%string; [done|].
      destruct (String.eqb_spec k "email") as [->|]; [congruence|].
      by destruct (String.eqb_spec k "countryCode").
  - unfold Store_SearchNameservers. rewrite Hn. apply res_rel_refl. intros ?. by apply page_rel_refl.
Qed.
End store.

(** ** The record cache *)
Section cache.
Context {W1 W2 : Type} (R : W1 → W2 → Prop) (now1 : W1 → Time) (now2 : W2 → Time).
Context (Hnow : ∀ w1 w2, R w1 w2 → now1 w1 = now2 w2).

Definition cached_rel {V} (P : V → V → Prop) (a b : cached V) : Prop :=
  res_rel P (ca_res a) (ca_res b) ∧ ca_expires a = ca_expires b.
Definition bucket_rel {V} (P : V → V → Prop) : Cache.bucket V → Cache.bucket V → Prop :=
  lru_rel (cached_rel P).

Section bucket.
Context {V : Type} (P : V → V → Prop) (cfg : Cache.Config).
Context (f1 : W1 → res V * W1) (f2 : W2 → res V * W2).
Context (Hf : ∀ w1 w2, R w1 w2 → call_rel R P (f1 w1) (f2 w2)).

Lemma load_rel key b1 b2 w1 w2 : bucket_rel P b1 b2 → R w1 w2 →
  option_Forall2 (λ x y, res_rel P x.1.1 y.1.1 ∧ bucket_rel P x.1.2 y.1.2 ∧ R x.2 y.2)
    (load now1 cfg f1 key b1 w1) (load now2 cfg f2 key b2 w2).
Proof using Hf Hnow.
  intros Hb Hw. unfold load. destruct (Hf w1 w2 Hw) as [Hr Hw'].
  destruct (f1 w1) as [[v1 e1] w1'], (f2 w2) as [[v2 e2] w2']. cbn in Hr, Hw'.
  pose proof (proj1 Hr : e1 = e2) as <-. rewrite (Hnow _ _ Hw').
  destruct (put_rel (cached_rel P) key (Build_cached v1 e1 (now2 w2' + ttlFor cfg e1)%Z)
    (Build_cached v2 e1 (now2 w2' + ttlFor cfg e1)%Z) b1 b2 Hb) as [b1' b2' Hb'|]; [done| |constructor].
  cbn. by constructor.
Qed.

Lemma getOrLoad_rel key b1 b2 w1 w2 : bucket_rel P b1 b2 → R w1 w2 →
  option_Forall2 (λ x y, res_rel P x.1.1.1 y.1.1.1 ∧ x.1.1.2 = y.1.1.2 ∧ bucket_rel P x.1.2 y.1.2 ∧ R x.2 y.2)
    (getOrLoad now1 cfg f1 key b1 w1) (getOrLoad now2 cfg f2 key b2 w2).
Proof using Hf Hnow.
  intros Hb Hw. unfold getOrLoad. rewrite (Hnow _ _ Hw).
  pose proof (get_rel (cached_rel P) key b1 b2 Hb) as Hg.
  destruct (get key b1) as [[o1 c1]|], (get key b2) as [[o2 c2]|]; try done; [|constructor].
  destruct Hg as [Ho Hc]. cbn [mbind option_bind].
  assert (Hmiss : ∀ b1 b2, bucket_rel P b1 b2 →
    option_Forall2 (λ x y, res_rel P x.1.1.1 y.1.1.1 ∧ x.1.1.2 = y.1.1.2 ∧ bucket_rel P x.1.2 y.1.2 ∧ R x.2 y.2)
      ('(r, b, w) ← load now1 cfg f1 key b1 w1; Some (r, false, b, w))
      ('(r, b, w) ← load now2 cfg f2 key b2 w2; Some (r, false, b, w))).
  { intros d1 d2 Hd. destruct (load_rel key d1 d2 w1 w2 Hd Hw) as [[[r1 e1] x1] [[r2 e2] x2] (?&?&?)|]; cbn;
      by constructor. }
  destruct Ho as [a1 a2 [Ha He]|]; [|by apply Hmiss]. rewrite He.
  destruct (Before _ _); [by constructor|]. destruct (_ && _); [by constructor|].
  by apply Hmiss, remove_rel.
Qed.
End bucket.

(** Two caches in the same state but for what [lvl] may not know. *)
Record caches_rel (lvl : AccessLevel) (c1 : Cache W1) (c2 : Cache W2) : Prop := {
  cs_cfg : ch_cfg c1 = ch_cfg c2;
  cs_domains : bucket_rel (domain_indist lvl) (ch_domains c1) (ch_domains c2);
  cs_entities : bucket_rel (indist lvl) (ch_entities c1) (ch_entities c2);
  cs_nameserver : bucket_rel eq (ch_nameserver c1) (ch_nameserver c2);
  cs_networks : bucket_rel eq (ch_networks c1) (ch_networks c2);
  cs_pending : ch_pending c1 = ch_pending c2;
  cs_inner : R (ch_inner c1) (ch_inner c2) }.

Lemma New_rel lvl w1 w2 cfg : R w1 w2 →
  option_Forall2 (caches_rel lvl) (Cache.New w1 cfg) (Cache.New w2 cfg).
Proof.
  intros Hw. unfold Cache.New. destruct (_ || _); constructor.
  split; cbn; try done; apply newLRU_rel.
Qed.

Context `{NetIPText} (lvl : AccessLevel) (ds1 : DataSource W1) (ds2 : DataSource W2).
Context (Hds : source_rel R lvl ds1 ds2).

Lemma or_panic_rel {V} (P : V → V → Prop) c1 c2 o1 o2 :
  caches_rel lvl c1 c2 →
  option_Forall2 (λ x y, res_rel P x.1 y.1 ∧ caches_rel lvl x.2 y.2) o1 o2 →
  call_rel (caches_rel lvl) P (or_panic c1 o1) (or_panic c2 o2).
Proof. intros Hc Ho. destruct Ho as [[r1 d1] [r2 d2] [Hr Hd]|]; split; try done. by repeat constructor. Qed.

#[local] Ltac looked_up H :=
  destruct H as [[[[??]?]?] [[[??]?]?] (?&?&?&?)|]; [cbn in *; simplify_eq; by constructor|constructor].
#[local] Ltac loaded H := destruct H as [[[??]?] [[??]?] (_&?&?)|]; by constructor.

Lemma cache_source_rel : source_rel (caches_rel lvl) lvl (cache_source now1 ds1) (cache_source now2 ds2).
Proof using Hds Hnow.
  split; intros k [cfg d1 e1 n1 i1 p w1] [cfg2 d2 e2 n2 i2 p2 w2] Hc; apply (or_panic_rel _ _ _ _ _ Hc);
    destruct Hc as [Hcf Hd He Hn Hi Hp Hw]; cbn in *; subst cfg2 p2;
    unfold Cache_GetDomain, Cache_GetEntity, Cache_GetNameserver, Cache_GetIPNetwork.
  - looked_up (getOrLoad_rel (domain_indist lvl) cfg _ _ (sr_domain _ _ _ _ Hds k) k d1 d2 w1 w2 Hd Hw).
  - looked_up (getOrLoad_rel (indist lvl) cfg _ _ (sr_entity _ _ _ _ Hds k) k e1 e2 w1 w2 He Hw).
  - looked_up (getOrLoad_rel eq cfg _ _ (sr_nameserver _ _ _ _ Hds k) k n1 n2 w1 w2 Hn Hw).
  - looked_up (getOrLoad_rel eq cfg _ _ (sr_network _ _ _ _ Hds k) (addr_String k) i1 i2 w1 w2 Hi Hw).
Qed.

(** A background refresh. *)
Lemma run_task_rel t c1 c2 : caches_rel lvl c1 c2 →
  option_Forall2 (caches_rel lvl) (run_task now1 ds1 t c1) (run_task now2 ds2 t c2).
Proof using Hds Hnow.
  destruct c1 as [cfg d1 e1 n1 i1 p w1], c2 as [cfg2 d2 e2 n2 i2 p2 w2].
  intros [Hcf Hd He Hn Hi Hp Hw]. cbn in *. subst cfg2 p2. destruct t as [k|k|k|ip]; cbn [run_task]; unfold refreshAsync.
  - loaded (load_rel (domain_indist lvl) cfg _ _ (sr_domain _ _ _ _ Hds k) k d1 d2 w1 w2 Hd Hw).
  - loaded (load_rel (indist lvl) cfg _ _ (sr_entity _ _ _ _ Hds k) k e1 e2 w1 w2 He Hw).
  - loaded (load_rel eq cfg _ _ (sr_nameserver _ _ _ _ Hds k) k n1 n2 w1 w2 Hn Hw).
  - loaded (load_rel eq cfg _ _ (sr_network _ _ _ _ Hds ip) (addr_String ip) i1 i2 w1 w2 Hi Hw).
Qed.
Lemma run_pending_rel i c1 c2 : caches_rel lvl c1 c2 →
  option_Forall2 (caches_rel lvl) (run_pending now1 ds1 i c1) (run_pending now2 ds2 i c2).
Proof using Hds Hnow.
  intros Hc. unfold run_pending. rewrite (cs_pending _ _ _ Hc).
  destruct (ch_pending c2 !! i) as [t|]; [|by constructor].
  destruct c1 as [cfg d1 e1 n1 i1 p w1], c2 as [cfg2 d2 e2 n2 i2 p2 w2].
  pose proof (cs_pending _ _ _ Hc : p = p2) as ->. apply run_task_rel. by destruct Hc.
Qed.
End cache.
