(* ===== verification/Router.v ===== *)
(** * The router: pkg/rdap/handlers/router.go and response_cache.go.

    The patterns of [http.ServeMux], the response-cache middleware around the mux
    and the bearer middleware around both.  A router answers one request at a
    time, from a state that holds the world of the provider, the state of the
    verifier and the response cache; [None] is a panic.  The server's [Logger]
    and the [CONNECT] method, which no pattern names, are left out. *)
From S2P Require Import Prelude GoStrings NetIP DataSource Auth Validate Search Types Redact Mapper Memory LRU ResponseCache Http Handlers SearchHandlers Secrecy.

(** ** [http.ServeMux]: paths and patterns *)

(** The segments of [path.Clean] on a rooted path; [acc] is the stack. *)
Fixpoint clean_segs (acc segs : list string) : list string :=
  match segs with
  | [] => reverse acc
  | s :: segs =>
      if (s =? "")%string || (s =? ".")%string then clean_segs acc segs
      else if (s =? "..")%string then clean_segs (tail acc) segs
      else clean_segs (s :: acc) segs
  end.
(** [http.cleanPath]: a trailing slash stays, except on the root. *)
Definition cleanPath (p : string) : string :=
  let p := if HasPrefix p "/" then p else "/" +:+ p in
  let np := clean_segs [] (Split p "/") in
  "/" +:+ Join np "/" +:+ (if HasSuffix p "/" && negb (is_empty np) then "/" else "").

(** The segments of a clean path; a trailing slash is an empty last one. *)
Definition segments (p : string) : list string := Split (str_drop 1 p) "/".
(** A single-segment wildcard matches neither a trailing slash nor [%2F]. *)
Definition wildcard (seg : string) : option string :=
  let v := path_value seg in
  if (seg =? "")%string || (v =? "/")%string then None else Some v.

(** The handlers the mux dispatches to. *)
Inductive search_class := SDomains | SEntities | SNameservers.
Inductive route :=
  | RLookup (e : endpoint) | RSearch (c : search_class) | RUnknown.

Definition rir_verb (verb ip : string) : option endpoint :=
  if (verb =? "rdap-bottom")%string then Some (ERIRBottom ip)
  else if (verb =? "rdap-top")%string || (verb =? "rdap-up")%string
          || (verb =? "rdap-down")%string then Some ERIRNotImpl
  else None.
Definition rir_prefix (a b : string) : bool :=
  (path_value a =? "ips")%string && (path_value b =? "rirSearch1")%string.

(** The [GET] patterns of [NewRouter]. *)
Definition route_get (segs : list string) : option route :=
  match segs with
  | [a] =>
      let a := path_value a in
      if (a =? "help")%string then Some (RLookup EHelp)
      else if (a =? "domains")%string then Some (RSearch SDomains)
      else if (a =? "entities")%string then Some (RSearch SEntities)
      else if (a =? "nameservers")%string then Some (RSearch SNameservers)
      else None
  | [a; v] =>
      let a := path_value a in
      v ← wildcard v;
      if (a =? "domain")%string then Some (RLookup (EDomain v))
      else if (a =? "entity")%string then Some (RLookup (EEntity v))
      else if (a =? "nameserver")%string then Some (RLookup (ENameserver v))
      else if (a =? "ip")%string then Some (RLookup (EIP v))
      else None
  | a :: b :: c :: ((_ :: _) as rest) =>
      if rir_prefix a b then
        RLookup <$> rir_verb (path_value c) (path_value (Join rest "/"))
      else None
  | _ => None
  end.
(** A [GET] pattern also matches [HEAD]; the pattern "/" matches everything. *)
Definition is_get (method : string) : bool :=
  (method =? "GET")%string || (method =? "HEAD")%string.
Definition route_of (method path : string) : route :=
  if is_get method then default RUnknown (route_get (segments path)) else RUnknown.
(** A path one slash short of a [{ip...}] pattern is redirected there. *)
Definition slash_redirect (method path : string) : bool :=
  is_get method &&
  match segments path with
  | [a; b; c] => rir_prefix a b && bool_decide (is_Some (rir_verb (path_value c) ""))
  | _ => false
  end.

(** What the mux needs of its own redirect: the status (301, or 307 since Go 1.26),
    the rendering of a URL with the request's query, and the HTML body. *)
Class MuxRedirect := {
  mux_code : Z;
  mux_URL : string → Request → string;
  mux_body : string → string;
  mux_code_ok : mux_code = 301%Z ∨ mux_code = 307%Z }.

(** ** response_cache.go *)
Definition classifyCacheable (path : string) : string * string :=
  if (path =? "/help")%string then ("help", "")
  else if HasPrefix path "/domain/" && negb (HasPrefix path "/domains")
  then ("domain", TrimPrefix path "/domain/")
  else if HasPrefix path "/entity/" && negb (HasPrefix path "/entities")
  then ("entity", TrimPrefix path "/entity/")
  else if HasPrefix path "/nameserver/" && negb (HasPrefix path "/nameservers")
  then ("nameserver", TrimPrefix path "/nameserver/")
  else if HasPrefix path "/ip/" then ("ip", TrimPrefix path "/ip/")
  else ("", "").

Definition snapshotHeaders (h : gmap string string) : gmap string string :=
  foldl (λ out k, let v := header_Get k h in if (v =? "")%string then out else <[ k := v ]> out)
    ∅ ["Content-Type"; "Cache-Control"].

(** [captureWriter]: what it remembers of the writes it passes on. *)
Record captureWriter := { cw_status : Z; cw_body : string }.
Definition capture_op (c : captureWriter) (o : wop) : captureWriter :=
  match o with
  | WriteHeader code => {| cw_status := code; cw_body := cw_body c |}
  | Write p => {| cw_status := cw_status c; cw_body := cw_body c +:+ p |}
  | _ => c
  end.
Definition capture (ops : list wop) : captureWriter :=
  foldl capture_op {| cw_status := StatusOK; cw_body := "" |} ops.


Section middleware.
Context `{GoMapRange} {W : Type} (now : W → Time).

(** A cached answer, replayed. *)
Definition replay_hit (p : payload) : list wop :=
  let '(body, status, headers) := p in
  map (λ kv, HeaderSet kv.1 kv.2) (map_range headers)
  ++ [HeaderSet "X-Gordap-Cache" "HIT"; WriteHeader status; Write body].

(** [h] is the header map of the writer the middleware is handed. *)
Definition responseCacheMiddleware (next : Handler W) (h : gmap string string)
    (r : Request) (w : W) (rc : option ResponseCache)
    : option (list wop * W * option ResponseCache) :=
  let pass := let '(ops, w) := next r w in Some (ops, w, rc) in
  match rc with
  | None => pass
  | Some c =>
      if negb (r_Method r =? "GET")%string then pass
      else if negb (accepts r) then pass
      else
        let '(object, id) := classifyCacheable (r_Path r) in
        if (object =? "")%string then pass
        else
          let tier := AccessLevel_String (Level (FromContext (r_Context r))) in
          '(hit, c) ← rc_Get (now w) (object, id, tier) c;
          match hit with
          | Some p => Some (replay_hit p, w, Some c)
          | None =>
              let '(ops, w) := next r w in
              let cw := capture ops in
              if (200 <=? cw_status cw)%Z && (cw_status cw <? 300)%Z
                 && (0 <? len (cw_body cw))%Z
              then
                c ← rc_Put (now w) (object, id, tier)
                      (cw_body cw, cw_status cw, snapshotHeaders (live_headers h ops)) c;
                Some (ops, w, Some c)
              else Some (ops, w, Some c)
          end
  end.
End middleware.

(** ** router.go *)
Record rstate (W V : Type) := {
  st_world : W; st_verifier : V; st_cache : option ResponseCache }.
Arguments Build_rstate {W V} _ _ _.
Arguments st_world {W V} _.
Arguments st_verifier {W V} _.
Arguments st_cache {W V} _.

Definition with_context (ctx : Context) (r : Request) : Request :=
  {| r_Method := r_Method r; r_EscapedPath := r_EscapedPath r; r_Query := r_Query r;
     r_RequestURI := r_RequestURI r; r_Header := r_Header r;
     r_ContentLength := r_ContentLength r; r_RemoteAddr := r_RemoteAddr r; r_Context := ctx |}.

Section router.
Context `{JSONEncoder} `{GoUnicode} `{GoMapRange} `{NetIPText} `{IDNA} `{MuxRedirect}.
Context {W V : Type} (s : Server W) (verifier : Verifier V) (now : W → Time).

Definition serve_route (t : route) : Handler W :=
  match t with
  | RLookup e => handle s e
  | RSearch SDomains => HandleDomainsSearch s
  | RSearch SEntities => HandleEntitiesSearch s
  | RSearch SNameservers => HandleNameserversSearch s
  | RUnknown => λ _ w, (writeError StatusNotFound "Unknown RDAP path" (s_Notices s), w)
  end.

(** [http.Redirect], as the mux calls it. *)
Definition mux_redirect (path : string) (r : Request) : list wop :=
  let url := mux_URL path r in
  [HeaderSet "Location" url]
  ++ (if is_get (r_Method r) then [HeaderSet "Content-Type" "text/html; charset=utf-8"] else [])
  ++ [WriteHeader mux_code]
  ++ (if (r_Method r =? "GET")%string then [Write (mux_body url)] else []).

Definition mux_serve : Handler W := λ r w,
  if (r_RequestURI r =? "*")%string
  then ([HeaderSet "Connection" "close"; WriteHeader StatusBadRequest], w)
  else
    let path := cleanPath (r_EscapedPath r) in
    if slash_redirect (r_Method r) path
    then (mux_redirect (cleanPath (r_Path r) +:+ "/") r, w)
    else if negb (path =? r_EscapedPath r)%string then (mux_redirect path r, w)
    else serve_route (route_of (r_Method r) path) r w.

Definition NewRouter (h : gmap string string) (r : Request) (st : rstate W V)
    : option (list wop * rstate W V) :=
  let '(ctx, v) := authenticate verifier (header_Get "Authorization" (r_Header r))
                     (r_Context r) (st_verifier st) in
  '(ops, w, rc) ← responseCacheMiddleware now mux_serve h (with_context ctx r)
                    (st_world st) (st_cache st);
  Some (ops, {| st_world := w; st_verifier := v; st_cache := rc |}).
End router.

(** * Theorems *)

(** ** What the middleware captures *)
Section facts.
Context `{JSONEncoder} `{GoUnicode} `{GoMapRange} `{NetIPText} `{IDNA} `{MuxRedirect}.

Lemma capture_json status c :
  capture (writeJSON status c) = {| cw_status := status; cw_body := json_Encode c |}.
Proof. reflexivity. Qed.

Lemma snapshot_json h status c :
  snapshotHeaders (live_headers h (writeJSON status c)) =
  <[ "Cache-Control" := "public, max-age=60" ]> {[ "Content-Type" := contentType ]}.
Proof.
  unfold snapshotHeaders, live_headers, header_Get. cbn [foldl serve writeJSON apply_op].
  cbn [rw_header rw_set_header rw_WriteHeader rw_Write rw_status rw_new].
  set (m := <["Cache-Control":=_]> _).
  assert (E1 : m !! "Content-Type" = Some contentType)
    by (subst m; by rewrite lookup_insert_ne, lookup_insert_eq by done).
  assert (E2 : m !! "Cache-Control" = Some "public, max-age=60")
    by (subst m; by rewrite lookup_insert_eq).
  rewrite E1, E2. reflexivity.
Qed.

Lemma same_outcome_status ops1 ops2 :
  same_outcome ops1 ops2 → cw_status (capture ops1) = cw_status (capture ops2).
Proof. by intros []. Qed.

Lemma same_outcome_headers h ops1 ops2 :
  same_outcome ops1 ops2 →
  snapshotHeaders (live_headers h ops1) = snapshotHeaders (live_headers h ops2).
Proof. intros []; [done|]. by rewrite !snapshot_json. Qed.

Lemma same_outcome_empty ops1 ops2 :
  (∀ c, json_Encode c ≠ "") → same_outcome ops1 ops2 →
  (0 <? len (cw_body (capture ops1)))%Z = (0 <? len (cw_body (capture ops2)))%Z.
Proof.
  intros Hne []; [done|]. rewrite !capture_json; cbn [cw_body].
  assert (Hpos : ∀ c, (0 <? len (json_Encode c))%Z = true).
  { intros c. specialize (Hne c). destruct (json_Encode c); [done|]. apply Z.ltb_lt.
    unfold len; cbn; lia. }
  by rewrite !Hpos.
Qed.
End facts.

(** ** The middleware by the key of a request *)

(** The requests the middleware looks up, with their key. *)
Definition cache_key (r : Request) : option key :=
  if negb (r_Method r =? "GET")%string then None
  else if negb (accepts r) then None
  else
    let '(object, id) := classifyCacheable (r_Path r) in
    if (object =? "")%string then None
    else Some (object, id, AccessLevel_String (Level (FromContext (r_Context r)))).
(** The answers it stores, and what it stores of them. *)
Definition storable (ops : list wop) : bool :=
  let cw := capture ops in
  (200 <=? cw_status cw)%Z && (cw_status cw <? 300)%Z && (0 <? len (cw_body cw))%Z.
Definition stored (h : gmap string string) (ops : list wop) : payload :=
  (cw_body (capture ops), cw_status (capture ops), snapshotHeaders (live_headers h ops)).

Section keyed.
Context `{GoMapRange} {W : Type} (now : W → Time) (next : Handler W).
Lemma middleware_key h r w rc k : cache_key r = Some k →
  responseCacheMiddleware now next h r w (Some rc) =
  ('(hit, c) ← rc_Get (now w) k rc;
   match hit with
   | Some p => Some (replay_hit p, w, Some c)
   | None =>
       let '(ops, w) := next r w in
       if storable ops then c ← rc_Put (now w) k (stored h ops) c; Some (ops, w, Some c)
       else Some (ops, w, Some c)
   end).
Proof.
  unfold cache_key, responseCacheMiddleware.
  destruct (negb (r_Method r =? "GET")%string); [done|]. destruct (negb (accepts r)); [done|].
  destruct (classifyCacheable _) as [object id]. destruct (object =? "")%string; [done|].
  by intros [= <-].
Qed.
Lemma middleware_pass h r w rc : rc = None ∨ cache_key r = None →
  responseCacheMiddleware now next h r w rc = let '(ops, w) := next r w in Some (ops, w, rc).
Proof.
  unfold cache_key, responseCacheMiddleware. destruct rc as [c|]; [|done]. intros [|]; [done|].
  destruct (negb (r_Method r =? "GET")%string); [done|]. destruct (negb (accepts r)); [done|].
  destruct (classifyCacheable _) as [object id]. by destruct (object =? "")%string.
Qed.
End keyed.

(** ** Related caches *)

(** The tiers a caller of level [lvl] covers, by the name the cache files them under. *)
Definition visible (lvl : AccessLevel) (tier_name : string) : Prop :=
  ∃ l, AccessLevel_String l = tier_name ∧ (tier l ≤ tier lvl)%Z.

Lemma String_tier l1 l2 : AccessLevel_String l1 = AccessLevel_String l2 → tier l1 = tier l2.
Proof.
  unfold AccessLevel_String, tier. intros E.
  destruct (Z.eqb_spec l1 AccessAuthenticated), (Z.eqb_spec l1 AccessPrivileged),
    (Z.eqb_spec l2 AccessAuthenticated), (Z.eqb_spec l2 AccessPrivileged); simplify_eq; done.
Qed.

Lemma visible_String lvl l : visible lvl (AccessLevel_String l) ↔ (tier l ≤ tier lvl)%Z.
Proof.
  split; [|by exists l]. intros (l' & E & Hle). by rewrite <-(String_tier l' l E).
Qed.

Section related.
Context (lvl : AccessLevel).

(** Entries that agree on everything but the body, and on the body too when it was
    rendered for a tier that [lvl] covers. *)
Record entry_rel (a b : key * entry) : Prop := {
  er_key : a.1 = b.1;
  er_status : en_status a.2 = en_status b.2;
  er_headers : en_headers a.2 = en_headers b.2;
  er_expires : en_expires a.2 = en_expires b.2;
  er_body : visible lvl a.1.2 → en_body a.2 = en_body b.2 }.

Definition payload_rel (tier_name : string) (p1 p2 : payload) : Prop :=
  p1.1.2 = p2.1.2 ∧ p1.2 = p2.2 ∧ (visible lvl tier_name → p1.1.1 = p2.1.1).

Record rc_rel (c1 c2 : ResponseCache) : Prop := {
  rr_size : ∃ size, rc_inv size c1 ∧ rc_inv size c2;
  rr_ttl : rc_ttl c1 = rc_ttl c2;
  rr_entries : Forall2 entry_rel (abs (rc_lru c1)) (abs (rc_lru c2)) }.

Lemma assoc_rel k a b : Forall2 entry_rel a b →
  match assoc k a, assoc k b with
  | Some e1, Some e2 => entry_rel (k, e1) (k, e2)
  | None, None => True
  | _, _ => False
  end.
Proof.
  induction 1 as [|[k1 e1] [k2 e2] a b Hr _ IH]; [done|]. cbn.
  pose proof (er_key _ _ Hr) as Hk; cbn in Hk; subst k2.
  case_bool_decide as Hk; [by subst|exact IH].
Qed.

Lemma without_rel k a b :
  Forall2 entry_rel a b → Forall2 entry_rel (without k a) (without k b).
Proof.
  induction 1 as [|[k1 e1] [k2 e2] a b Hr _ IH]; [constructor|]. unfold without in *.
  pose proof (er_key _ _ Hr) as Hk; cbn in Hk; subst k2.
  destruct (decide (k1 = k)) as [Hk|Hk].
  - rewrite !filter_cons_False by (cbn; naive_solver). exact IH.
  - rewrite !filter_cons_True by (cbn; done). by constructor.
Qed.

Lemma touch_rel k a b : Forall2 (entry_rel) a b → Forall2 entry_rel (touch k a) (touch k b).
Proof.
  intros Hr. pose proof (assoc_rel k a b Hr) as Hk. unfold touch.
  destruct (assoc k a), (assoc k b); try done. constructor; [done|by apply without_rel].
Qed.

Lemma rc_Get_rel now k c1 c2 : rc_rel c1 c2 →
  ∃ o1 c1' o2 c2', rc_Get now k c1 = Some (o1, c1') ∧ rc_Get now k c2 = Some (o2, c2') ∧
    rc_rel c1' c2' ∧
    match o1, o2 with
    | Some p1, Some p2 => payload_rel k.2 p1 p2
    | None, None => True
    | _, _ => False
    end.
Proof.
  intros [(size & Hi1 & Hi2) Ht Hr].
  assert (Hcap : capacity (rc_lru c1) = size ∧ capacity (rc_lru c2) = size ∧ (0 ≤ size)%Z)
    by (split_and!; [apply Hi1|apply Hi2|apply Hi1]).
  destruct Hcap as (Hc1 & Hc2 & Hs).
  destruct (decide (size = 0%Z)) as [Hz|Hz].
  { unfold rc_Get. rewrite Hc1, Hc2, Hz. cbn.
    exists None, c1, None, c2. split_and!; [done..| |done]. split; [by exists size|done..]. }
  destruct (rc_Get_spec size now k c1 Hi1) as (c1' & Hi1' & Ht1 & H1); [lia|].
  destruct (rc_Get_spec size now k c2 Hi2) as (c2' & Hi2' & Ht2 & H2); [lia|].
  pose proof (assoc_rel k _ _ Hr) as Hk.
  destruct (assoc k (abs (rc_lru c1))) as [e1|], (assoc k (abs (rc_lru c2))) as [e2|]; try done.
  - pose proof (er_expires _ _ Hk : en_expires e1 = en_expires e2) as He. rewrite <-He in H2.
    destruct (After now (en_expires e1)); destruct H1 as [E1 A1], H2 as [E2 A2].
    + exists None, c1', None, c2'. split_and!; [done..| |done].
      split; [by exists size|congruence|]. rewrite A1, A2. by apply without_rel.
    + exists (Some (payload_of e1)), c1', (Some (payload_of e2)), c2'. split_and!; [done..| |].
      * split; [by exists size|congruence|]. rewrite A1, A2. by apply touch_rel.
      * destruct Hk. by split_and!.
  - destruct H1 as [E1 A1], H2 as [E2 A2]. exists None, c1', None, c2'.
    split_and!; [done..| |done]. split; [by exists size|congruence|]. by rewrite A1, A2.
Qed.

Lemma rc_Put_rel now k p1 p2 c1 c2 : rc_rel c1 c2 → payload_rel k.2 p1 p2 →
  ∃ c1' c2', rc_Put now k p1 c1 = Some c1' ∧ rc_Put now k p2 c2 = Some c2' ∧ rc_rel c1' c2'.
Proof.
  intros [(size & Hi1 & Hi2) Ht Hr] (Hst & Hh & Hb).
  assert (Hcap : capacity (rc_lru c1) = size ∧ capacity (rc_lru c2) = size ∧ (0 ≤ size)%Z)
    by (split_and!; [apply Hi1|apply Hi2|apply Hi1]).
  destruct Hcap as (Hc1 & Hc2 & Hs).
  destruct (decide (size = 0%Z)) as [Hz|Hz].
  { unfold rc_Put. rewrite Hc1, Hc2, Hz. cbn.
    exists c1, c2. split_and!; [done..|]. split; [by exists size|done..]. }
  destruct (rc_Put_spec size now k p1 c1 Hi1) as (c1' & E1 & Hi1' & Ht1 & A1); [lia|].
  destruct (rc_Put_spec size now k p2 c2 Hi2) as (c2' & E2 & Hi2' & Ht2 & A2); [lia|].
  exists c1', c2'. split_and!; [done..|]. split; [by exists size|congruence|].
  rewrite A1, A2. unfold abs_put. apply Forall2_take. constructor; [|by apply without_rel].
  split; cbn; try done. by rewrite Ht.
Qed.
End related.

(** Two caches, or none. *)
Definition cache_rel (lvl : AccessLevel) (o1 o2 : option ResponseCache) : Prop :=
  match o1, o2 with
  | Some c1, Some c2 => rc_rel lvl c1 c2
  | None, None => True
  | _, _ => False
  end.

Lemma rc_rel_refl lvl size c : rc_inv size c → rc_rel lvl c c.
Proof.
  intros Hi. split; [by exists size|done|]. induction (abs (rc_lru c)); constructor; auto.
  by split.
Qed.

(** ** The path of an entity search *)
Lemma entities_path r :
  cleanPath (r_EscapedPath r) = r_EscapedPath r →
  route_of (r_Method r) (r_EscapedPath r) = RSearch SEntities → r_Path r = "/entities".
Proof.
  intros Hclean. unfold r_Path, route_of. destruct (is_get _); [|done].
  assert (∃ p, r_EscapedPath r = "/" +:+ p) as [p ->].
  { rewrite <-Hclean. unfold cleanPath. by eexists. }
  unfold segments. change (str_drop 1 ("/" +:+ p)) with p.
  pose proof (Split_Join p "/"%char) as Hj.
  destruct (Split p "/") as [|a [|v [|c [|d l]]]] eqn:E; cbn; try done.
  - unfold path_value. cbn [Join] in Hj. subst a.
    change (PathUnescape ("/" +:+ p)) with (t ← PathUnescape p; Some ("/" +:+ t)).
    destruct (PathUnescape p) as [u|]; cbn [default from_option mbind option_bind]; unfold id.
    all: repeat case_match; try done; intros _.
    all: match goal with Hx : (?x =? "entities")%string = true |- _ => apply String.eqb_eq in Hx as -> end; done.
  - destruct (wildcard v); cbn; [|done]. repeat (case_match; try done).
  - destruct (rir_prefix a v); cbn; [|done]. destruct (rir_verb _ _); cbn; done.
Qed.

Section noninterference.
Context `{JSONEncoder} `{GoUnicode} `{GoMapRange} `{NetIPText} `{IDNA} `{MuxRedirect}.
Context (Hjson : ∀ c, json_Encode c ≠ "").
Context {W1 W2 : Type} (R : W1 → W2 → Prop) (now1 : W1 → Time) (now2 : W2 → Time).
Context (Hnow : ∀ w1 w2, R w1 w2 → now1 w1 = now2 w2) (lvl : AccessLevel).

(** The one kind of request that tells what it may not show: an entity search by name or
    by email ([SearchHandlers.entity_search_is_oracle]). *)
Definition personal_search (r : Request) : bool :=
  (r_Path r =? "/entities")%string && searches_personal r.
Definition cacheable (r : Request) : Prop := (classifyCacheable (r_Path r)).1 ≠ "".

(** Two answers to [r] of handlers over related providers: a caller covered by [lvl] is
    shown the same. *)
Definition answer_rel (r : Request) (a1 : list wop * W1) (a2 : list wop * W2) : Prop :=
  R a1.2 a2.2 ∧ (cacheable r → same_outcome a1.1 a2.1) ∧
  (covered lvl r → personal_search r = false → a1.1 = a2.1).

Lemma outcomes_answer r a1 a2 : outcomes_rel R lvl r a1 a2 → answer_rel r a1 a2.
Proof. intros (Hw & Hs & Ho). split_and!; auto. Qed.
Lemma answer_same r ops w1 w2 : R w1 w2 → answer_rel r (ops, w1) (ops, w2).
Proof. intros Hw. by apply outcomes_answer, outcomes_same. Qed.

Definition outcome_rel (r : Request)
    (a1 : option (list wop * W1 * option ResponseCache))
    (a2 : option (list wop * W2 * option ResponseCache)) : Prop :=
  ∃ ops1 ops2 w1 w2 rc1 rc2, a1 = Some (ops1, w1, rc1) ∧ a2 = Some (ops2, w2, rc2) ∧
    R w1 w2 ∧ cache_rel lvl rc1 rc2 ∧ (covered lvl r → personal_search r = false → ops1 = ops2).

Lemma pass_rel r a1 a2 rc1 rc2 : answer_rel r a1 a2 → cache_rel lvl rc1 rc2 →
  outcome_rel r (let '(ops, w) := a1 in Some (ops, w, rc1))
                (let '(ops, w) := a2 in Some (ops, w, rc2)).
Proof.
  destruct a1 as [ops1 w1], a2 as [ops2 w2]. intros (Hw & _ & Ho) Hrc. cbn in *.
  by exists ops1, ops2, w1, w2, rc1, rc2.
Qed.

(** What the key of a request says of it: its tier, and that it is no search. *)
Lemma cache_key_spec r k : cache_key r = Some k →
  (visible lvl k.2 ↔ covered lvl r) ∧ cacheable r ∧ personal_search r = false.
Proof using Type.
  unfold cache_key, cacheable, personal_search. repeat (case_match; try done). intros [= <-]. cbn [snd fst].
  split; [apply visible_String|]. split; [by apply String.eqb_neq|].
  destruct (String.eqb_spec (r_Path r) "/entities") as [E|]; [|done].
  match goal with Hc : classifyCacheable _ = _ |- _ => rewrite E in Hc; injection Hc as <- _; done end.
Qed.
(** Two answers stored under the same key. *)
Lemma stored_rel h r k ops1 ops2 : cache_key r = Some k → same_outcome ops1 ops2 →
  (covered lvl r → ops1 = ops2) →
  storable ops1 = storable ops2 ∧ payload_rel lvl k.2 (stored h ops1) (stored h ops2).
Proof using Hjson.
  intros Hk Hout Hops. destruct (cache_key_spec r k Hk) as [Hvis _]. unfold storable.
  rewrite (same_outcome_status _ _ Hout), (same_outcome_empty _ _ Hjson Hout). split; [done|].
  split_and!; cbn; [by apply same_outcome_status|by apply same_outcome_headers|].
  intros Hc%Hvis. by rewrite (Hops Hc).
Qed.
Lemma replay_rel k r p1 p2 : cache_key r = Some k → payload_rel lvl k.2 p1 p2 →
  covered lvl r → replay_hit p1 = replay_hit p2.
Proof using Type.
  intros Hk (Hs & Hh & Hb) Hc. destruct (cache_key_spec r k Hk) as [Hvis _].
  specialize (Hb (proj2 Hvis Hc)). destruct p1 as [[??]?], p2 as [[??]?]; cbn in *; by subst.
Qed.

Lemma middleware_rel (next1 : Handler W1) (next2 : Handler W2) h r w1 w2 rc1 rc2 :
  R w1 w2 → answer_rel r (next1 r w1) (next2 r w2) → cache_rel lvl rc1 rc2 →
  outcome_rel r (responseCacheMiddleware now1 next1 h r w1 rc1)
                (responseCacheMiddleware now2 next2 h r w2 rc2).
Proof using Hjson Hnow.
  intros Hw Hnext Hrc. destruct rc1 as [c1|], rc2 as [c2|]; try done;
    [|rewrite !middleware_pass by (by left); by apply pass_rel].
  destruct (cache_key r) as [k|] eqn:Hk; [|rewrite !middleware_pass by (by right); by apply pass_rel].
  destruct (cache_key_spec r k Hk) as (_ & Hcb & Hp).
  rewrite !(middleware_key _ _ _ _ _ _ _ Hk), <-(Hnow w1 w2 Hw).
  destruct (rc_Get_rel lvl (now1 w1) k c1 c2 Hrc) as (o1 & c1' & o2 & c2' & -> & -> & Hrc' & Ho).
  cbn [mbind option_bind]. destruct o1 as [p1|], o2 as [p2|]; try done.
  - exists (replay_hit p1), (replay_hit p2), w1, w2, (Some c1'), (Some c2'). split_and!; [done..|].
    intros Hc _. by apply (replay_rel k r).
  - unfold answer_rel in Hnext. destruct (next1 r w1) as [ops1 w1'], (next2 r w2) as [ops2 w2'].
    cbn [fst snd] in *. destruct Hnext as (Hw' & Hout & Hops). specialize (Hout Hcb).
    destruct (stored_rel h r k ops1 ops2 Hk Hout) as [<- Hst]; [by intros; apply Hops|].
    rewrite <-(Hnow w1' w2' Hw'). destruct (storable ops1).
    + destruct (rc_Put_rel lvl (now1 w1') k (stored h ops1) (stored h ops2) c1' c2')
        as (d1 & d2 & -> & -> & Hd); [done..|].
      by exists ops1, ops2, w1', w2', (Some d1), (Some d2).
    + by exists ops1, ops2, w1', w2', (Some c1'), (Some c2').
Qed.

Context {V : Type} (verifier : Verifier V) (s1 : Server W1) (s2 : Server W2).
Context (Hs : server_rel R lvl s1 s2).

Lemma serve_route_rel t r w1 w2 : (t = RSearch SEntities → r_Path r = "/entities") → R w1 w2 →
  answer_rel r (serve_route s1 t r w1) (serve_route s2 t r w2).
Proof using Hs.
  intros Hent Hw. destruct t as [e|[]|]; cbn [serve_route].
  - by apply outcomes_answer, endpoint_rel.
  - by apply outcomes_answer, domains_search_rel.
  - destruct (entities_search_rel R lvl s1 s2 r w1 w2 Hs Hw) as [Hw' Ho]. specialize (Hent eq_refl).
    split_and!; [exact Hw'| |]; unfold cacheable, personal_search; rewrite Hent; cbn; [done|].
    intros Hc Hp. by apply Ho.
  - by apply outcomes_answer, nameservers_search_rel.
  - assert (s_Notices s1 = s_Notices s2) as ->
      by (pose proof (sv_settings _ _ _ _ Hs) as E; unfold server_settings in E; by simplify_eq).
    by apply answer_same.
Qed.

Lemma mux_serve_rel r w1 w2 : R w1 w2 → answer_rel r (mux_serve s1 r w1) (mux_serve s2 r w2).
Proof using Hs.
  intros Hw. unfold mux_serve. destruct (_ =? "*")%string; [by apply answer_same|].
  destruct (slash_redirect _ _); [by apply answer_same|].
  destruct (String.eqb_spec (cleanPath (r_EscapedPath r)) (r_EscapedPath r)) as [E|];
    [|by apply answer_same].
  apply serve_route_rel; [|done]. rewrite E. by apply entities_path.
Qed.

(** The level the verifier grants a request. *)
Definition granted (r : Request) (v : V) : AccessLevel :=
  Level (FromContext (authenticate verifier (header_Get "Authorization" (r_Header r))
                        (r_Context r) v).1).
(** A request that is answered alike: by a caller of at most the tier of [lvl], and not the
    one kind that tells. *)
Definition shielded (rl : Request * AccessLevel) : Prop :=
  (tier rl.2 ≤ tier lvl)%Z ∧ personal_search rl.1 = false.

Definition state_rel (st1 : rstate W1 V) (st2 : rstate W2 V) : Prop :=
  R (st_world st1) (st_world st2) ∧ st_verifier st1 = st_verifier st2 ∧
  cache_rel lvl (st_cache st1) (st_cache st2).

Lemma NewRouter_rel h r st1 st2 : state_rel st1 st2 →
  ∃ ops1 ops2 st1' st2',
    NewRouter s1 verifier now1 h r st1 = Some (ops1, st1') ∧
    NewRouter s2 verifier now2 h r st2 = Some (ops2, st2') ∧
    state_rel st1' st2' ∧
    (shielded (r, granted r (st_verifier st1)) → ops1 = ops2).
Proof using Hjson Hnow Hs.
  destruct st1 as [w1 v rc1], st2 as [w2 v2 rc2]. intros (Hw & Hv & Hrc). cbn in Hw, Hv, Hrc. subst v2.
  unfold NewRouter, granted, shielded. cbn [st_world st_verifier st_cache fst snd].
  destruct (authenticate _ _ _ _) as [ctx v'].
  destruct (middleware_rel (mux_serve s1) (mux_serve s2) h (with_context ctx r) w1 w2 rc1 rc2)
    as (ops1 & ops2 & w1' & w2' & rc1' & rc2' & -> & -> & Hw' & Hrc' & Ho);
    [done|by apply mux_serve_rel|done|].
  cbn. do 4 eexists. split; [done|]. split; [done|]. split; [by split_and!|]. intros [Ht Hp]. by apply Ho.
Qed.
End noninterference.

(** ** Histories *)
Section histories.
Context `{JSONEncoder} `{GoUnicode} `{GoMapRange} `{NetIPText} `{IDNA} `{MuxRedirect}.

(** Requests served one after the other, each with the headers the outer middleware
    has set; the trace lists each request with the level granted to it, and its answer. *)
Fixpoint serve_all {W V} (verifier : Verifier V) (now : W → Time) (s : Server W)
    (reqs : list (gmap string string * Request))
    (st : rstate W V) : option (list (Request * AccessLevel * list wop)) :=
  match reqs with
  | [] => Some []
  | (h, r) :: reqs =>
      '(ops, st') ← NewRouter s verifier now h r st;
      tr ← serve_all verifier now s reqs st';
      Some ((r, granted verifier r (st_verifier st), ops) :: tr)
  end.

(** Traces of the same requests, granted the same, that show the same where they must. *)
Definition trace_rel (lvl : AccessLevel) : list (Request * AccessLevel * list wop) →
    list (Request * AccessLevel * list wop) → Prop :=
  Forall2 (λ a b, a.1 = b.1 ∧ (shielded lvl a.1 → a.2 = b.2)).

Definition cache_ready (rc : option ResponseCache) : Prop :=
  match rc with Some c => ∃ size, rc_inv size c | None => True end.
Lemma cache_rel_refl lvl rc : cache_ready rc → cache_rel lvl rc rc.
Proof. destruct rc as [c|]; [|done]. intros [size Hi]. by apply (rc_rel_refl lvl size). Qed.

Section two_servers.
Context {W1 W2 V : Type} (R : W1 → W2 → Prop) (now1 : W1 → Time) (now2 : W2 → Time).
Context (verifier : Verifier V) (lvl : AccessLevel) (s1 : Server W1) (s2 : Server W2).

Lemma serve_all_rel reqs st1 st2 :
  (∀ c, json_Encode c ≠ "") → (∀ w1 w2, R w1 w2 → now1 w1 = now2 w2) → server_rel R lvl s1 s2 →
  state_rel R lvl st1 st2 →
  ∃ tr1 tr2, serve_all verifier now1 s1 reqs st1 = Some tr1 ∧
    serve_all verifier now2 s2 reqs st2 = Some tr2 ∧ trace_rel lvl tr1 tr2.
Proof.
  intros Hjson Hnow Hs. revert st1 st2. induction reqs as [|[h r] reqs IH]; intros st1 st2 Hst.
  { exists [], []. by repeat constructor. }
  destruct (NewRouter_rel Hjson R now1 now2 Hnow lvl verifier s1 s2 Hs h r st1 st2 Hst)
    as (ops1 & ops2 & st1' & st2' & E1 & E2 & Hst' & Ho).
  destruct (IH st1' st2' Hst') as (tr1 & tr2 & T1 & T2 & Htr).
  cbn [serve_all]. rewrite E1, E2. cbn [mbind option_bind]. rewrite T1, T2.
  do 2 eexists. split; [reflexivity|]. split; [reflexivity|]. constructor; [|done].
  destruct Hst as (_ & <- & _). by split.
Qed.

(** Confidentiality of the whole server, response cache included: run any sequence
    of requests, of callers of any tiers, through two routers with the same settings, over
    providers and search indices with states of their own that differ only in data withheld
    at level [lvl]: no request panics, the same levels are granted, and every caller whose
    tier is at most that of [lvl] gets byte-identical answers, save where it searches
    entities by name or email.  Nothing a higher tier has seen reaches a lower one through
    the cache, not even what is cached and when. *)
Theorem router_noninterference reqs st1 st2 :
  (∀ c, json_Encode c ≠ "") → (∀ w1 w2, R w1 w2 → now1 w1 = now2 w2) → server_rel R lvl s1 s2 →
  R (st_world st1) (st_world st2) → st_verifier st1 = st_verifier st2 →
  st_cache st1 = st_cache st2 → cache_ready (st_cache st1) →
  ∃ tr1 tr2, serve_all verifier now1 s1 reqs st1 = Some tr1 ∧
    serve_all verifier now2 s2 reqs st2 = Some tr2 ∧ trace_rel lvl tr1 tr2.
Proof.
  intros Hjson Hnow Hs Hw Hv Hc Hrc. apply serve_all_rel; [done..|]. split_and!; [done..|].
  rewrite <-Hc. by apply cache_rel_refl.
Qed.
End two_servers.

Context {W V : Type} (verifier : Verifier V) (now : W → Time).

(** *** What the response cache answers *)

(** The response cache replays by path and tier alone: when a cacheable request
    that misses gets a 2xx answer with a body, that answer is passed on unchanged, and
    until its time to live has passed every cacheable request with the same path and
    tier is answered with exactly its body, status, content type and cache control,
    marked as a hit, without a call of the handler, whatever its query or its [Accept]
    header say about the format.  An answer that is not 2xx or has no body leaves no
    binding behind. *)
Theorem cached_answer_replayed size c c0 next h r1 w1 k :
  rc_inv size c → (0 < size)%Z → cache_key r1 = Some k →
  rc_Get (now w1) k c = Some (None, c0) →
  let '(ops, w2) := next r1 w1 in
  let cw := capture ops in
  if (200 <=? cw_status cw)%Z && (cw_status cw <? 300)%Z && negb (cw_body cw =? "")%string
  then ∃ c', responseCacheMiddleware now next h r1 w1 (Some c) = Some (ops, w2, Some c') ∧
    ∀ next' h' r2 w3,
      r_Method r2 = "GET" → accepts r2 = true → r_Path r2 = r_Path r1 →
      AccessLevel_String (Level (FromContext (r_Context r2))) =
        AccessLevel_String (Level (FromContext (r_Context r1))) →
      (now w3 ≤ now w2 + rc_ttl c)%Z →
      ∃ c'', responseCacheMiddleware now next' h' r2 w3 (Some c') =
        Some (replay_hit (cw_body cw, cw_status cw, snapshotHeaders (live_headers h ops)),
              w3, Some c'')
  else responseCacheMiddleware now next h r1 w1 (Some c) = Some (ops, w2, Some c0) ∧
       Forall (λ b, b ∈ abs (rc_lru c)) (abs (rc_lru c0)).
Proof.
  intros Hi Hs Hk Hget. destruct (next r1 w1) as [ops w2] eqn:En.
  rewrite (middleware_key now next h r1 w1 c k Hk), Hget. unfold storable, stored. cbn [mbind option_bind]. rewrite En.
  assert (Hlen : ∀ b, (0 <? len b)%Z = negb (b =? "")%string).
  { intros [|a b]; [done|]. apply Z.ltb_lt. unfold len; cbn; lia. }
  rewrite Hlen. destruct (rc_Get_spec size (now w1) k c Hi Hs) as (c1 & Hi0 & Ht0 & Hc).
  assert (c1 = c0 ∧ ∀ b, b ∈ abs (rc_lru c0) → b ∈ abs (rc_lru c)) as [-> Hsub].
  { destruct (assoc k _) as [e|]; [destruct (After _ _)|]; destruct Hc as [E A];
      rewrite Hget in E; simplify_eq; (split; [done|]); intros b; rewrite A; [|done].
    unfold without. by intros [_ ?]%list_elem_of_filter. }
  destruct (_ && _ && _).
  - destruct (rc_Put_spec size (now w2) k (cw_body (capture ops), cw_status (capture ops),
      snapshotHeaders (live_headers h ops)) c0 Hi0 Hs) as (c' & -> & Hi' & Ht' & Ha').
    cbn [mbind option_bind]. exists c'. split; [done|].
    intros next' h' r2 w3 Hm Hacc Hp Hl Hnow.
    assert (Hk2 : cache_key r2 = Some k).
    { rewrite <-Hk. unfold cache_key in *. rewrite Hm, Hacc, Hp, Hl. cbn.
      destruct (negb (r_Method r1 =? "GET")%string); [done|]. by destruct (negb (accepts r1)). }
    rewrite (middleware_key now next' h' r2 w3 c' k Hk2).
    destruct (rc_Get_spec size (now w3) k c' Hi' Hs) as (c'' & _ & _ & Hc'').
    rewrite Ha' in Hc''. unfold abs_put in Hc''.
    destruct (Z.to_nat size) eqn:Ez; [lia|]. cbn [take assoc] in Hc''.
    rewrite bool_decide_true in Hc'' by done. cbn [fst snd en_expires] in Hc''.
    replace (After _ _) with false in Hc'' by (symmetry; apply Z.ltb_ge; lia).
    destruct Hc'' as [-> _]. by exists c''.
  - split; [done|]. apply Forall_forall. exact Hsub.
Qed.
End histories.

(** What a lookup and a store do to the set of entries. *)
Lemma rc_Get_entries now k c o c' size : rc_inv size c → rc_Get now k c = Some (o, c') →
  rc_inv size c' ∧ rc_ttl c' = rc_ttl c ∧ (∀ b, b ∈ abs (rc_lru c') → b ∈ abs (rc_lru c)) ∧
  ∀ p, o = Some p → ∃ e, (k, e) ∈ abs (rc_lru c) ∧ p = payload_of e ∧ (now ≤ en_expires e)%Z.
Proof.
  intros Hi E. destruct (decide (size = 0%Z)) as [Hz|Hz].
  { unfold rc_Get in E. destruct (Hi) as (_ & Hc & _). rewrite Hc, Hz in E. cbn in E. by simplify_eq. }
  destruct (rc_Get_spec size now k c Hi) as (c1 & Hi' & Ht & Hc); [destruct Hi as (_&_&?&_); lia|].
  destruct (assoc k (abs (rc_lru c))) as [e|] eqn:Ea; [destruct (After _ _) eqn:Eafter|];
    destruct Hc as [E' A]; rewrite E in E'; simplify_eq; split_and!; try done;
    try (intros b; rewrite A).
  - unfold without. by intros [_ ?]%list_elem_of_filter.
  - unfold touch. rewrite Ea.
    intros [->|[_ ?]%list_elem_of_filter]%elem_of_cons; [by apply assoc_elem|done].
  - intros p Hp. exists e. split_and!; [by apply assoc_elem|congruence|].
    by apply Z.ltb_ge in Eafter.
  - done.
Qed.

Lemma rc_Put_entries now k p c size : rc_inv size c →
  ∃ c', rc_Put now k p c = Some c' ∧ rc_inv size c' ∧ rc_ttl c' = rc_ttl c ∧
    ∀ b, b ∈ abs (rc_lru c') →
      b = (k, {| en_body := p.1.1; en_status := p.1.2; en_headers := p.2;
                 en_expires := (now + rc_ttl c)%Z |}) ∨ b ∈ abs (rc_lru c).
Proof.
  intros Hi. destruct (decide (size = 0%Z)) as [Hz|Hz].
  { exists c. split_and!; [|done|done|by right]. unfold rc_Put. destruct (Hi) as (_ & Hc & _).
    by rewrite Hc, Hz. }
  destruct (rc_Put_spec size now k p c Hi) as (c' & E & Hi' & Ht & A);
    [destruct Hi as (_&_&?&_); lia|].
  exists c'. split_and!; [done..|]. intros b. rewrite A. unfold abs_put.
  intros Hb%subseteq_take. apply elem_of_cons in Hb as [->|[_ Hb]%list_elem_of_filter]; auto.
Qed.

(** ** Every request is answered *)
Section answers.
Context `{JSONEncoder} `{GoUnicode} `{GoMapRange} `{NetIPText} `{IDNA} `{MuxRedirect}.
Context {W V : Type} (s : Server W) (verifier : Verifier V) (now : W → Time).
Context (I : W → Prop).

(** The answers the mux gives by itself. *)
Definition mux_own (r : Request) (ops : list wop) : Prop :=
  (r_RequestURI r = "*" ∧ rw_status (serve ops rw_new) = Some StatusBadRequest) ∨
  ((cleanPath (r_EscapedPath r) ≠ r_EscapedPath r ∨
    slash_redirect (r_Method r) (cleanPath (r_EscapedPath r)) = true) ∧
   (rw_status (serve ops rw_new) = Some 301%Z ∨ rw_status (serve ops rw_new) = Some 307%Z) ∧
   is_Some (rw_sent (serve ops rw_new) !! "Location")).

Lemma mux_redirect_own path r :
  (cleanPath (r_EscapedPath r) ≠ r_EscapedPath r ∨
   slash_redirect (r_Method r) (cleanPath (r_EscapedPath r)) = true) →
  mux_own r (mux_redirect path r) ∧ cw_status (capture (mux_redirect path r)) = mux_code.
Proof.
  intros Hr. split.
  - right. split; [done|]. unfold mux_redirect.
    pose proof mux_code_ok as Hm.
    destruct (is_get (r_Method r)), (r_Method r =? "GET")%string; cbn; split;
      try (destruct Hm as [->| ->]; by auto); by eexists.
  - unfold mux_redirect. by destruct (is_get (r_Method r)), (r_Method r =? "GET")%string.
Qed.

Lemma shape_2xx ops : shape ops → (200 ≤ cw_status (capture ops) < 300)%Z →
  ∃ c, is_error c = false ∧ ops = writeJSON StatusOK c.
Proof.
  intros [c Hc|status title notices desc Hs|base path] Hst; cbn in Hst; [by exists c|lia|].
  unfold StatusFound in Hst. lia.
Qed.

Lemma serve_route_shape t r w :
  ProviderLaws (s_DS s) I → (∀ ix, s_Search s = Some ix → IndexLaws ix I) → I w →
  shape (serve_route s t r w).1 ∧ I (serve_route s t r w).2.
Proof.
  intros Hds Hix Hw. destruct t as [e|c|]; [by apply endpoint_shape| |split; [by apply shape_error|done]].
  destruct c; cbn [serve_route]; apply handle_search_shape; try done;
    intros ix q E; specialize (Hix ix E).
  all: first [by apply law_search_domains|by apply law_search_entities
             |by apply law_search_nameservers].
Qed.

(** What the mux answers: a response of a handler or one of its own, which is never
    2xx. *)
Lemma mux_serve_answer r w :
  ProviderLaws (s_DS s) I → (∀ ix, s_Search s = Some ix → IndexLaws ix I) → I w →
  let a := mux_serve s r w in
  I a.2 ∧ (shape a.1 ∨ mux_own r a.1 ∧ (300 ≤ cw_status (capture a.1))%Z).
Proof.
  intros Hds Hix Hw. unfold mux_serve.
  destruct (String.eqb_spec (r_RequestURI r) "*") as [Hu|_].
  { split; [done|]. right. split; [by left|]. done. }
  assert (Hcode : (300 ≤ mux_code)%Z) by (destruct mux_code_ok as [->| ->]; lia).
  destruct (slash_redirect _ _) eqn:Es.
  { split; [done|]. right. cbn [fst]. edestruct mux_redirect_own as [Ho ->]; [by right|]. by split. }
  destruct (String.eqb_spec (cleanPath (r_EscapedPath r)) (r_EscapedPath r)) as [Ec|Ec]; cbn [negb].
  - destruct (serve_route_shape (route_of (r_Method r) (cleanPath (r_EscapedPath r))) r w Hds Hix Hw).
    by split; [|left].
  - split; [done|]. right. cbn [fst]. edestruct mux_redirect_own as [Ho ->]; [by left|]. by split.
Qed.

(** *** Answers are headers, a status and a body *)
Lemma shape_tame ops : shape ops → tame ops.
Proof.
  intros [c Hc|status title notices desc Hs|base path].
  - eexists [_; _], StatusOK, [_]. split; [reflexivity|]. repeat constructor; unfold own_key; set_solver.
  - eexists [_], status, [_]. split; [reflexivity|]. repeat constructor; unfold own_key; set_solver.
  - eexists [_], StatusFound, []. split; [reflexivity|]. repeat constructor; unfold own_key; set_solver.
Qed.

Lemma mux_redirect_tame path r : tame (mux_redirect path r).
Proof.
  eexists ([_] ++ _), mux_code, (if (r_Method r =? "GET")%string then [_] else []).
  unfold mux_redirect, plain_ops. rewrite <-app_assoc. split.
  - do 3 f_equal. by destruct (r_Method r =? "GET")%string.
  - apply Forall_app. split; [|destruct (is_get _)]; repeat constructor; unfold own_key; set_solver.
Qed.

Lemma mux_serve_tame r w :
  ProviderLaws (s_DS s) I → (∀ ix, s_Search s = Some ix → IndexLaws ix I) → I w →
  tame (mux_serve s r w).1.
Proof.
  intros Hds Hix Hw. unfold mux_serve. destruct (r_RequestURI r =? "*")%string.
  { eexists [_], StatusBadRequest, []. split; [reflexivity|].
    repeat constructor; unfold own_key; set_solver. }
  destruct (slash_redirect _ _); [apply mux_redirect_tame|].
  destruct (negb _); [apply mux_redirect_tame|]. by apply shape_tame, serve_route_shape.
Qed.

(** Cached entries are successful RDAP responses. *)
Definition entry_ok (ke : key * entry) : Prop :=
  en_status ke.2 = StatusOK ∧
  en_headers ke.2 = <[ "Cache-Control" := "public, max-age=60" ]> {[ "Content-Type" := contentType ]} ∧
  ∃ c, is_error c = false ∧ en_body ke.2 = json_Encode c.
Definition cache_ok (rc : option ResponseCache) : Prop :=
  match rc with
  | Some c => (∃ size, rc_inv size c) ∧ Forall entry_ok (abs (rc_lru c))
  | None => True
  end.

Lemma serve_sets l w k v :
  NoDup l.*1 → (k, v) ∈ l →
  let w' := serve (map (λ kv, HeaderSet kv.1 kv.2) l) w in
  rw_header w' !! k = Some v ∧ rw_status w' = rw_status w ∧ rw_body w' = rw_body w.
Proof.
  assert (Hkeep : ∀ l w, k ∉ l.*1 →
    let w' := serve (map (λ kv, HeaderSet kv.1 kv.2) l) w in
    rw_header w' !! k = rw_header w !! k ∧ rw_status w' = rw_status w ∧ rw_body w' = rw_body w).
  { clear. induction l as [|[k' v'] l IH]; intros w Hk; [done|]. cbn in Hk.
    apply not_elem_of_cons in Hk as [Hne Hk].
    destruct (IH (rw_set_header (<[ k' := v' ]> (rw_header w)) w) Hk) as (E1 & E2 & E3).
    split_and!; [|exact E2|exact E3].
    etrans; [exact E1|]. cbn. by rewrite lookup_insert_ne. }
  revert w. induction l as [|[k' v'] l IH]; intros w Hnd Hin; [by apply not_elem_of_nil in Hin|].
  cbn in Hnd. apply NoDup_cons in Hnd as [Hn Hnd].
  apply elem_of_cons in Hin as [[= <- <-]|Hin].
  - destruct (Hkeep l (rw_set_header (<[ k := v ]> (rw_header w)) w) Hn) as (E1 & E2 & E3).
    split_and!; [|exact E2|exact E3]. etrans; [exact E1|]. cbn. by rewrite lookup_insert_eq.
  - destruct (IH (rw_set_header (<[ k' := v' ]> (rw_header w)) w) Hnd Hin) as (E1 & E2 & E3).
    by split_and!.
Qed.

Lemma replay_hit_rdap k e : entry_ok (k, e) → rdap_ops (replay_hit (payload_of e)).
Proof.
  intros (Hs & Hh & c & Hc & Hb). cbn in Hs, Hh, Hb. right. unfold replay_hit, payload_of.
  destruct (serve_sets (map_range (en_headers e)) rw_new "Content-Type" contentType)
    as (E1 & E2 & E3); [apply NoDup_map_range_fst|by apply elem_of_map_range; rewrite Hh|].
  rewrite serve_app. set (w := serve (map _ _) rw_new) in *.
  cbn [serve foldl apply_op]. unfold rw_Write, rw_WriteHeader.
  cbn [rw_status rw_set_header rw_header rw_sent rw_body]. rewrite E2.
  cbn [rw_status rw_new rw_sent rw_body rw_header]. split.
  - by rewrite lookup_insert_ne.
  - exists c. split; [|left; by rewrite Hs].
    cbn in E3. fold w. rewrite E3. by rewrite Hb.
Qed.

Lemma replay_hit_tame k e : entry_ok (k, e) → tame (replay_hit (payload_of e)).
Proof.
  intros (Hs & Hh & _). cbn in Hs, Hh. unfold replay_hit, payload_of.
  eexists (_ ++ [_]), _, [_]. unfold plain_ops. rewrite <-app_assoc. split; [reflexivity|].
  apply Forall_app. split; [|by repeat constructor; unfold own_key; set_solver].
  apply Forall_forall. intros o ([kk v] & -> & Hin)%list_elem_of_fmap.
  apply elem_of_map_range in Hin. cbn. rewrite Hh in Hin. unfold own_key.
  apply lookup_insert_Some in Hin as [[<- _]|[_ [<- _]%lookup_singleton_Some]]; set_solver.
Qed.

Lemma snapshot_entry_ok h c t k :
  is_error c = false →
  entry_ok (k, {| en_body := json_Encode c; en_status := StatusOK;
                  en_headers := snapshotHeaders (live_headers h (writeJSON StatusOK c));
                  en_expires := t |}).
Proof.
  intros Hc. split_and!; [done| |by exists c]. cbn [en_headers snd]. apply snapshot_json.
Qed.

(** A lookup and a store keep the cache well formed, and a hit is an RDAP response. *)
Lemma lookup_ok t k c : cache_ok (Some c) →
  ∃ o c', rc_Get t k c = Some (o, c') ∧ cache_ok (Some c') ∧
    ∀ p, o = Some p → tame (replay_hit p) ∧ rdap_ops (replay_hit p).
Proof.
  intros [[size Hi] Hf].
  destruct (rc_Get_rel AccessAnonymous t k c c (rc_rel_refl _ size c Hi))
    as (o & c' & _ & _ & Eg & _).
  destruct (rc_Get_entries t k c o c' size Hi Eg) as (Hi' & _ & Hsub & Hhit).
  rewrite Forall_forall in Hf. exists o, c'. split_and!; [done| |].
  - split; [by exists size|]. apply Forall_forall. intros b Hb. by apply Hf, Hsub.
  - intros p Hp. destruct (Hhit p Hp) as (e & He & -> & _). specialize (Hf _ He).
    split; [by apply (replay_hit_tame k)|by apply (replay_hit_rdap k)].
Qed.

Lemma store_ok t k h ops c : cache_ok (Some c) → storable ops = true →
  (shape ops ∨ (300 ≤ cw_status (capture ops))%Z) →
  ∃ c', rc_Put t k (stored h ops) c = Some c' ∧ cache_ok (Some c').
Proof.
  intros [[size Hi] Hf] Hs Ha. unfold storable in Hs. bool_hyps. destruct Ha as [Ha|Ha]; [|lia].
  destruct (shape_2xx ops Ha) as (cc & Hcc & ->); [lia|].
  destruct (rc_Put_entries t k (stored h (writeJSON StatusOK cc)) c size Hi)
    as (c'' & -> & Hi'' & _ & Hnew).
  exists c''. split; [done|]. split; [by exists size|].
  apply Forall_forall. intros b [->|Hb]%Hnew; [by apply snapshot_entry_ok|].
  rewrite Forall_forall in Hf. by apply Hf.
Qed.

Lemma mux_serve_rdap r w :
  ProviderLaws (s_DS s) I → (∀ ix, s_Search s = Some ix → IndexLaws ix I) → I w →
  tame (mux_serve s r w).1 ∧ (rdap_ops (mux_serve s r w).1 ∨ mux_own r (mux_serve s r w).1).
Proof.
  intros Hds Hix Hw. split; [by apply mux_serve_tame|].
  destruct (mux_serve_answer r w Hds Hix Hw) as [_ [Ha|[Ha _]]]; [left; by apply shape_rdap|by right].
Qed.

(** The middleware keeps the cache well formed and answers what the handler or a
    cached entry does. *)
Lemma middleware_answer h r w rc :
  ProviderLaws (s_DS s) I → (∀ ix, s_Search s = Some ix → IndexLaws ix I) →
  I w → cache_ok rc →
  ∃ ops w' rc', responseCacheMiddleware now (mux_serve s) h r w rc = Some (ops, w', rc') ∧
    I w' ∧ cache_ok rc' ∧ tame ops ∧ (rdap_ops ops ∨ mux_own r ops).
Proof.
  intros Hds Hix Hw Hrc. destruct (mux_serve_answer r w Hds Hix Hw) as [Hw' Ha].
  pose proof (mux_serve_rdap r w Hds Hix Hw) as Hr.
  destruct (mux_serve s r w) as [ops w'] eqn:Em. cbn [fst snd] in Hw', Ha, Hr.
  destruct (cache_key r) as [k|] eqn:Ek; [destruct rc as [c|]|].
  - rewrite (middleware_key now _ _ _ _ _ k Ek).
    destruct (lookup_ok (now w) k c Hrc) as (o & c' & -> & Hc' & Ho). cbn [mbind option_bind].
    destruct o as [p|].
    { exists (replay_hit p), w, (Some c'). destruct (Ho p eq_refl). split_and!; auto. }
    rewrite Em. destruct (storable ops) eqn:Es; [|by exists ops, w', (Some c')].
    assert (Hs : ∃ c'', rc_Put (now w') k (stored h ops) c' = Some c'' ∧ cache_ok (Some c''))
      by (by apply store_ok; [| |destruct Ha as [|[_ ?]]; auto]).
    destruct Hs as (c'' & -> & Hc''). by exists ops, w', (Some c'').
  - rewrite middleware_pass, Em by auto. by exists ops, w', None.
  - rewrite middleware_pass, Em by auto. by exists ops, w', rc.
Qed.

Lemma router_answer h r (st : rstate W V) :
  ProviderLaws (s_DS s) I → (∀ ix, s_Search s = Some ix → IndexLaws ix I) →
  I (st_world st) → cache_ok (st_cache st) →
  ∃ ops st', NewRouter s verifier now h r st = Some (ops, st') ∧
    I (st_world st') ∧ cache_ok (st_cache st') ∧ tame ops ∧ (rdap_ops ops ∨ mux_own r ops).
Proof.
  intros Hds Hix Hw Hrc. unfold NewRouter.
  destruct (authenticate _ _ _ _) as [ctx v].
  destruct (middleware_answer h (with_context ctx r) (st_world st) (st_cache st) Hds Hix Hw Hrc)
    as (ops & w' & rc' & -> & Hw' & Hrc' & Ht & Ho).
  eexists ops, _. split_and!; [reflexivity|exact Hw'|exact Hrc'|exact Ht|exact Ho].
Qed.

(** The server answers every request, whatever its path, method, headers and
    credentials, and stays in a state from which it answers the next one: with a
    provider and an index that keep their contracts, the router never panics, and the
    client gets a complete RDAP response (an object or a result under 200, an error
    object whose code is the status, or a redirect to another server), fresh or from
    the cache, or one of the mux's own answers: a redirect to the canonical path, or
    400 for the request URI "*".  An answer is headers, a status and a body, in this
    order, and its headers are only those of the content, its caching and its location.
    Every body that enters the cache is a successful
    RDAP response. *)
Theorem router_answers h r (st : rstate W V) :
  ProviderLaws (s_DS s) I → (∀ ix, s_Search s = Some ix → IndexLaws ix I) →
  I (st_world st) → cache_ok (st_cache st) →
  ∃ ops st', NewRouter s verifier now h r st = Some (ops, st') ∧
    I (st_world st') ∧ cache_ok (st_cache st') ∧ tame ops ∧ (rdap_ops ops ∨ mux_own r ops).
Proof. apply router_answer. Qed.
End answers.

(** ** Links lead back *)

(** A path segment that needs no escaping and that cleaning a path keeps. *)
Definition plain_segment (v : string) : Prop :=
  v ≠ "" ∧ v ≠ "." ∧ v ≠ ".." ∧
  str_forall (λ c, negb (Ascii.eqb c "/") && negb (Ascii.eqb c "%")) v = true.

#[global] Instance plain_segment_dec v : Decision (plain_segment v).
Proof. unfold plain_segment. apply _. Defined.

Lemma PathUnescape_plain v :
  str_forall (λ c, negb (Ascii.eqb c "%")) v = true → PathUnescape v = Some v.
Proof.
  induction v as [|c v IH]; [done|]. cbn [str_forall]. intros [Hc Hv]%andb_true_iff.
  specialize (IH Hv). destruct c as [[] [] [] [] [] [] [] []]; cbn [PathUnescape]; rewrite ?IH; done.
Qed.

Lemma Split_plain v sep :
  str_forall (λ c, negb (Ascii.eqb c sep)) v = true → Split v sep = [v].
Proof.
  induction v as [|c v IH]; [done|]. cbn [str_forall Split]. intros [Hc Hv]%andb_true_iff.
  apply negb_true_iff in Hc. by rewrite Hc, (IH Hv).
Qed.

Lemma plain_last v : plain_segment v → HasSuffix ("/" +:+ v) "/" = false.
Proof.
  intros (Hne & _ & _ & Hv). apply not_true_iff_false. intros [r Hr]%HasSuffix_spec.
  destruct (str_snoc_inv v) as [->|(u & c & ->)]; [done|].
  rewrite str_forall_app in Hv. apply andb_true_iff in Hv as [_ Hc]. cbn in Hc.
  assert (Hl : str_last ("/" +:+ u +:+ String c "") = Some "/"%char) by (rewrite Hr; apply str_last_snoc).
  rewrite str_app_assoc, str_last_snoc in Hl. injection Hl as ->. done.
Qed.

Section links.
Context {cls v : string} (Hcls : plain_segment cls) (Hv : plain_segment v).

(** The path of an object: [/class/v]. *)
Definition object_path : string := "/" +:+ cls +:+ "/" +:+ v.

Lemma Split_object_path : Split object_path "/" = [""; cls; v].
Proof.
  unfold object_path. cbn [String.append Split Ascii.eqb Bool.eqb andb]. f_equal.
  destruct Hcls as (_ & _ & _ & Hc). clear Hcls. induction cls as [|c s IH]; cbn [String.append Split].
  - cbn. f_equal. apply Split_plain. destruct Hv as (_ & _ & _ & Hf).
    eapply str_forall_impl; [|exact Hf]. by intros c [? _]%andb_true_iff.
  - cbn [str_forall] in Hc. apply andb_true_iff in Hc as [[Hc1 _]%andb_true_iff Hc].
    apply negb_true_iff in Hc1. rewrite Hc1, (IH Hc). done.
Qed.

Lemma clean_object_path : cleanPath object_path = object_path.
Proof.
  unfold cleanPath. replace (HasPrefix object_path "/") with true by done.
  rewrite Split_object_path. cbn [clean_segs String.eqb orb].
  destruct Hcls as (H1 & H2 & H3 & _), Hv as (H4 & H5 & H6 & _).
  rewrite (proj2 (String.eqb_neq cls "") H1), (proj2 (String.eqb_neq cls ".") H2),
    (proj2 (String.eqb_neq cls "..") H3), (proj2 (String.eqb_neq v "") H4),
    (proj2 (String.eqb_neq v ".") H5), (proj2 (String.eqb_neq v "..") H6). cbn [orb].
  replace (HasSuffix object_path "/") with false.
  - cbn [andb reverse rev_append Join]. unfold object_path. cbn. by rewrite str_app_nil_r.
  - symmetry. pose proof (plain_last v Hv) as Hl. apply not_true_iff_false. intros [r Hr]%HasSuffix_spec.
    apply not_true_iff_false in Hl. apply Hl, HasSuffix_spec.
    destruct (str_snoc_inv v) as [E|(u & c & E)]; [done|].
    exists ("/" +:+ u). unfold object_path in Hr. rewrite E in Hr |- *.
    assert (Hlast : str_last ("/" +:+ cls +:+ "/" +:+ u +:+ String c "") = Some "/"%char)
      by (rewrite Hr; apply str_last_snoc).
    rewrite !str_app_assoc, str_last_snoc in Hlast. injection Hlast as ->.
    by rewrite str_app_assoc.
Qed.

Lemma plain_value : path_value v = v ∧ path_value cls = cls ∧ wildcard v = Some v.
Proof.
  assert (Hp : ∀ u, plain_segment u → path_value u = u).
  { intros u (_ & _ & _ & Hf). unfold path_value. rewrite PathUnescape_plain; [done|].
    eapply str_forall_impl; [|exact Hf]. by intros c [_ ?]%andb_true_iff. }
  split; [by apply Hp|]. split; [by apply Hp|]. unfold wildcard. rewrite (Hp v Hv).
  destruct Hv as (Hne & _ & _ & Hf). rewrite (proj2 (String.eqb_neq v "") Hne).
  destruct (String.eqb_spec v "/") as [E|]; [|done]. by rewrite E in Hf.
Qed.

Lemma segments_object_path : segments object_path = [cls; v].
Proof.
  pose proof Split_object_path as E. unfold segments, object_path in *. cbn in *.
  by injection E.
Qed.
End links.

Section self_links.
Context `{GoUnicode} `{GoMapRange} `{NetIPText}.

(** Every link is the base followed by a canonical path that the router dispatches to
    [e] and the cache files under [object] and [id]. *)
Definition leads_to (base : string) (e : endpoint) (object id : string) (links : list Link)
    : Prop :=
  ∀ l, l ∈ links → ∃ p, Link_Href l = TrimRight base "/" +:+ p ∧
    cleanPath p = p ∧ slash_redirect "GET" p = false ∧ route_of "GET" p = RLookup e ∧
    classifyCacheable p = (object, id).

(** The path of an object is canonical, and dispatched to the handler of its class. *)
Lemma object_path_routes cls v e :
  plain_segment v →
  (cls, e) ∈ [("domain", EDomain v); ("entity", EEntity v); ("nameserver", ENameserver v);
              ("ip", EIP v)] →
  let p := "/" +:+ cls +:+ "/" +:+ v in
  cleanPath p = p ∧ slash_redirect "GET" p = false ∧ route_of "GET" p = RLookup e ∧
  classifyCacheable p = (cls, v).
Proof.
  intros Hv Hin p.
  assert (Hcls : plain_segment cls).
  { repeat (apply elem_of_cons in Hin as [[= -> ->]|Hin]; [by apply (bool_decide_unpack _)|]).
    by apply not_elem_of_nil in Hin. }
  unfold p. fold (@object_path cls v). split; [by apply clean_object_path|].
  unfold slash_redirect, route_of. rewrite segments_object_path by done.
  destruct (plain_value Hcls Hv) as (_ & Hc & Hw). cbn [is_get String.eqb].
  unfold route_get. rewrite Hc, Hw. cbn [mbind option_bind].
  repeat (apply elem_of_cons in Hin as [[= -> ->]|Hin];
    [split; [done|]; split; [done|]; unfold classifyCacheable, object_path;
     cbn; by destruct v|]).
  by apply not_elem_of_nil in Hin.
Qed.
Lemma object_path_leads base cls v e :
  plain_segment v →
  (cls, e) ∈ [("domain", EDomain v); ("entity", EEntity v); ("nameserver", ENameserver v);
              ("ip", EIP v)] →
  leads_to base e cls v (selfLinks base ("/" +:+ cls +:+ "/" +:+ v)).
Proof.
  intros Hv Hin l Hl. unfold selfLinks in Hl. destruct (base =? "")%string; [by apply not_elem_of_nil in Hl|].
  apply list_elem_of_singleton in Hl as ->. exists ("/" +:+ cls +:+ "/" +:+ v). cbn [Link_Href].
  split; [done|]. by apply object_path_routes.
Qed.

(** C40: the [self] links of the answers lead back: the link of a domain, entity,
    nameserver or network whose key needs no escaping is the configured base followed
    by a canonical path, which the router dispatches to the handler of that class with
    exactly that key, and which the response cache files under that class and key. *)
Theorem self_links_lead_back opts (d : DataSource.Domain) (c : DataSource.Contact)
    (n : DataSource.Nameserver) (net : DataSource.IPNetwork) :
  let base := o_SelfLinkBase opts in
  let start := addr_String (pfx_Addr (net_Prefix net)) in
  (plain_segment (d_LDHName d) →
     leads_to base (EDomain (d_LDHName d)) "domain" (d_LDHName d)
       (Common_Links (Domain_Common (Mapper.Domain d opts)))) ∧
  (plain_segment (c_Handle c) →
     leads_to base (EEntity (c_Handle c)) "entity" (c_Handle c)
       (Common_Links (Entity_Common (EntityTopLevel c opts)))) ∧
  (plain_segment (ns_LDHName n) →
     leads_to base (ENameserver (ns_LDHName n)) "nameserver" (ns_LDHName n)
       (Common_Links (Nameserver_Common (NameserverTopLevel n opts)))) ∧
  (plain_segment start →
     leads_to base (EIP start) "ip" start
       (Common_Links (IPNetwork_Common (Mapper.IPNetwork net opts)))).
Proof.
  intros base start. split_and!; intros Hv.
  - apply (object_path_leads base "domain"); [done|set_solver].
  - unfold EntityTopLevel. destruct (entityWithMarks c opts) as [e m]. destruct e.
    apply (object_path_leads base "entity"); [done|set_solver].
  - apply (object_path_leads base "nameserver"); [done|set_solver].
  - unfold Mapper.IPNetwork. destruct (pfx_IsValid _); [|by intros l ?%not_elem_of_nil].
    apply (object_path_leads base "ip"); [done|set_solver].
Qed.
End self_links.

(** * Witnesses *)
#[local] Existing Instance unicode_default.
#[local] Existing Instance map_range_default.
#[local] Existing Instance netip_text.
#[local] Existing Instance idna_ldh.
#[local] Existing Instance json_names.
Definition mux_demo : MuxRedirect :=
  {| mux_code := 307; mux_URL := λ p _, p; mux_body := λ u, u;
     mux_code_ok := or_intror eq_refl |}.
#[local] Existing Instance mux_demo.

Example routes_ex :
  (λ p, if slash_redirect "GET" p then None else Some (cleanPath p, route_of "GET" (cleanPath p)))
  <$> ["/domain/a%2Fb"; "/domain/%2F"; "/domain/"; "/entity/REG-1"; "/domains"; "/help/";
       "/ips/rirSearch1/rdap-bottom/192.0.2.0/24"; "/ips/rirSearch1/rdap-up/"; "//ip/./1.2.3.4";
       "/ips/rirSearch1/rdap-top"; "/domain/x/.."]
  = [Some ("/domain/a%2Fb", RLookup (EDomain "a/b")); Some ("/domain/%2F", RUnknown);
     Some ("/domain/", RUnknown); Some ("/entity/REG-1", RLookup (EEntity "REG-1"));
     Some ("/domains", RSearch SDomains); Some ("/help/", RUnknown);
     Some ("/ips/rirSearch1/rdap-bottom/192.0.2.0/24", RLookup (ERIRBottom "192.0.2.0/24"));
     Some ("/ips/rirSearch1/rdap-up/", RLookup ERIRNotImpl);
     Some ("/ip/1.2.3.4", RLookup (EIP "1.2.3.4")); None; Some ("/domain", RUnknown)].
Proof. vm_compute. reflexivity. Qed.

(** A bearer token names its tier. *)
Definition token_verifier : Verifier unit := λ tok w,
  (if (tok =? "root")%string
   then inl {| Subject := "root"; Level := AccessPrivileged; Scopes := [] |}
   else inr ErrUnauthorized, w).
Definition get_request (auth path : string) (query : list (string * string)) : Request :=
  {| r_Method := "GET"; r_EscapedPath := path; r_Query := query; r_RequestURI := path;
     r_Header := if (auth =? "")%string then ∅ else {[ "Authorization" := auth ]};
     r_ContentLength := 0; r_RemoteAddr := "192.0.2.1:4711"; r_Context := None |}.
Definition demo_cache : ResponseCache := NewResponseCache 8 (60 * Second)%Z.
Definition demo_state {W} (w : W) : rstate W unit :=
  {| st_world := w; st_verifier := tt; st_cache := Some demo_cache |}.

Lemma demo_cache_inv : rc_inv 8 demo_cache.
Proof. by apply NewResponseCache_inv. Qed.

(** A privileged and an anonymous caller ask for the same entity, twice, and search. *)
Definition mixed_requests : list (gmap string string * Request) :=
  ((λ a, (∅, get_request a "/entity/REG-1" [])) <$> ["Bearer root"; ""; "Bearer root"; ""])
  ++ [(∅, get_request "" "/entities" [("handle", "REG-*")])].
(** Stores with one person each, whom an anonymous caller may not tell apart. *)
Definition one_person (c : Contact) : Store := PutEntity c Memory.New.

Lemma one_person_rel : store_rel AccessAnonymous (one_person person_ex) (one_person other_person).
Proof.
  split; [split; apply (put_wf (WEntity _)), New_wf| | |done|done]; intros k; cbn.
  - rewrite !lookup_empty. constructor.
  - destruct (decide (k = "REG-1")) as [->|].
    + rewrite !lookup_insert_eq. by constructor.
    + rewrite !lookup_insert_ne by done. rewrite !lookup_empty. constructor.
Qed.
Lemma search_server_rel lvl : server_rel (store_rel lvl) lvl search_server search_server.
Proof. split; [done|apply store_source_rel|constructor; apply store_index_rel]. Qed.

Lemma router_noninterference_witness :
  one_person person_ex ≠ one_person other_person ∧
  ∃ tr1 tr2,
    serve_all token_verifier (λ _, 0%Z) search_server mixed_requests
      (demo_state (one_person person_ex)) = Some tr1 ∧
    serve_all token_verifier (λ _, 0%Z) search_server mixed_requests
      (demo_state (one_person other_person)) = Some tr2 ∧
    trace_rel AccessAnonymous tr1 tr2.
Proof.
  split.
  { intros E. apply (f_equal (λ s, c_FullName <$> entities s !! "REG-1")) in E. by vm_compute in E. }
  apply (router_noninterference (store_rel AccessAnonymous) (λ _, 0%Z) (λ _, 0%Z) token_verifier
           AccessAnonymous search_server search_server mixed_requests
           (demo_state (one_person person_ex)) (demo_state (one_person other_person))).
  - by intros [].
  - done.
  - apply search_server_rel.
  - exact one_person_rel.
  - done.
  - done.
  - exists 8%Z. exact demo_cache_inv.
Defined.

Lemma cached_answer_replayed_witness :
  let s := unit_server person_ex in
  let r1 := get_request "" "/entity/REG-1" [] in
  ∃ c', responseCacheMiddleware (λ _, 0%Z) (mux_serve s) ∅ r1 tt (Some demo_cache) =
          Some ((mux_serve s r1 tt).1, tt, Some c') ∧
  ∃ c'', responseCacheMiddleware (λ _, 0%Z) (mux_serve s) ∅
           (get_request "" "/entity/REG-1" [("jscard", "false")]) tt (Some c') =
    Some (replay_hit (cw_body (capture (mux_serve s r1 tt).1), 200%Z,
            snapshotHeaders (live_headers ∅ (mux_serve s r1 tt).1)), tt, Some c'').
Proof.
  intros s r1.
  pose proof (cached_answer_replayed (λ _, 0%Z) 8 demo_cache demo_cache (mux_serve s) ∅ r1 tt
    ("entity", "REG-1", "anonymous") demo_cache_inv ltac:(lia) eq_refl eq_refl) as H.
  destruct H as (c' & E & Hhit). exists c'. split; [exact E|].
  apply (Hhit (mux_serve s) ∅ (get_request "" "/entity/REG-1" [("jscard", "false")]) tt);
    try reflexivity. cbn. unfold Second. lia.
Defined.

(** The second client asked for jCard only, and would have got another body. *)
Example profile_lost :
  let s := unit_server person_ex in
  (opts s (get_request "" "/entity/REG-1" [])).(o_JCardOnly) = false ∧
  (opts s (get_request "" "/entity/REG-1" [("jscard", "false")])).(o_JCardOnly) = true.
Proof. by split. Qed.

Lemma router_answers_witness :
  ProviderLaws (s_DS demo_server) store_wf ∧ store_wf (replay demo_log) ∧
  ∃ ops st', NewRouter demo_server token_verifier (λ _, 0%Z) ∅
      (get_request "Bearer root" "/domain/example.nl" []) (demo_state (replay demo_log)) =
    Some (ops, st') ∧
    store_wf (st_world st') ∧ cache_ok (st_cache st') ∧ tame ops ∧
    (rdap_ops ops ∨ mux_own (get_request "Bearer root" "/domain/example.nl" []) ops).
Proof.
  split; [apply store_provider|]. split; [apply replay_wf|].
  apply (router_answers demo_server token_verifier (λ _, 0%Z) store_wf ∅
    (get_request "Bearer root" "/domain/example.nl" []) (demo_state (replay demo_log))).
  - apply store_provider.
  - intros ix [= <-]. apply store_index_laws.
  - apply replay_wf.
  - split; [exists 8%Z; exact demo_cache_inv|constructor].
Defined.
