(* ===== verification/RouterRun.v ===== *)
(** * The router of pkg/rdap/handlers under concurrency.

    Any number of requests are in the router at once, each on a goroutine of its own, over
    one provider, one verifier and one response cache.  A step is what happens between two
    points where another goroutine may run: the authentication, the locked lookup in the
    response cache ([rc.Get]), the handler with its calls of the provider, the locked store
    ([rc.Put]) after the answer has gone out.  Ghost state: a finished goroutine carries the
    time of its answer, and the state lists the stores that were made. *)
From S2P Require Import Prelude GoStrings NetIP DataSource Auth Validate Search Types Redact Mapper Memory LRU ResponseCache Http Handlers SearchHandlers Secrecy Router.

(** Where a goroutine stands, between [NewRouter(..).ServeHTTP] and its end; [h] is the
    header map it is handed, and from [Entered] on the request has its claims. *)
Inductive point : Type :=
  | Arrived (h : gmap string string) (r : Request)
  | Entered (h : gmap string string) (r : Request)          (* before rc.Get *)
  | Handling (h : gmap string string) (r : Request) (k : option key)
      (* before next.ServeHTTP; [k] if the answer may be stored *)
  | Storing (h : gmap string string) (r : Request) (k : key) (ops : list wop) (t : Time)
      (* answered, before rc.Put *)
  | Done (r : Request) (ops : list wop) (t : Time).

(** A store that was made. *)
Record saved := {
  sv_key : key; sv_request : Request; sv_headers : gmap string string;
  sv_ops : list wop; sv_time : Time }.

Record run_state (W V : Type) := {
  rs_shared : rstate W V; rs_gor : list point; rs_log : list saved }.
Arguments Build_run_state {W V} _ _ _.
Arguments rs_shared {W V} _.
Arguments rs_gor {W V} _.
Arguments rs_log {W V} _.

(** What happens: a request arrives, a goroutine gets to run, time passes. *)
Inductive event : Type :=
  | Arrive (h : gmap string string) (r : Request)
  | Run (i : nat)
  | Elapse (d : Duration).

Section run.
Context `{JSONEncoder} `{GoUnicode} `{GoMapRange} `{NetIPText} `{IDNA} `{MuxRedirect}.
Context {W V : Type} (verifier : Verifier V) (now : W → Time) (elapse : Duration → W → W).
Context (s : Server W).

Definition with_cache (c : ResponseCache) (st : rstate W V) : rstate W V :=
  {| st_world := st_world st; st_verifier := st_verifier st; st_cache := Some c |}.
Definition with_world (w : W) (st : rstate W V) : rstate W V :=
  {| st_world := w; st_verifier := st_verifier st; st_cache := st_cache st |}.
Definition with_verifier (v : V) (st : rstate W V) : rstate W V :=
  {| st_world := st_world st; st_verifier := v; st_cache := st_cache st |}.

(** A step of a goroutine, with the stores it makes; [None] is a panic. *)
Definition step_point (p : point) (st : rstate W V) : option (point * rstate W V * list saved) :=
  match p with
  | Arrived h r =>
      let '(ctx, v) := authenticate verifier (header_Get "Authorization" (r_Header r))
                         (r_Context r) (st_verifier st) in
      Some (Entered h (with_context ctx r), with_verifier v st, [])
  | Entered h r =>
      match st_cache st, cache_key r with
      | Some c, Some k =>
          '(hit, c) ← rc_Get (now (st_world st)) k c;
          Some (match hit with
                | Some p => Done r (replay_hit p) (now (st_world st))
                | None => Handling h r (Some k)
                end, with_cache c st, [])
      | _, _ => Some (Handling h r None, st, [])
      end
  | Handling h r k =>
      let '(ops, w) := mux_serve s r (st_world st) in
      Some (match k with
            | Some k => if storable ops then Storing h r k ops (now w) else Done r ops (now w)
            | None => Done r ops (now w)
            end, with_world w st, [])
  | Storing h r k ops t =>
      match st_cache st with
      | Some c =>
          c ← rc_Put (now (st_world st)) k (stored h ops) c;
          Some (Done r ops t, with_cache c st,
                [{| sv_key := k; sv_request := r; sv_headers := h; sv_ops := ops;
                    sv_time := now (st_world st) |}])
      | None => None
      end
  | Done _ _ _ => Some (p, st, [])
  end.

Definition do_event (e : event) (rs : run_state W V) : option (run_state W V) :=
  match e with
  | Arrive h r =>
      Some {| rs_shared := rs_shared rs; rs_gor := rs_gor rs ++ [Arrived h r];
              rs_log := rs_log rs |}
  | Elapse d =>
      Some {| rs_shared := with_world (elapse d (st_world (rs_shared rs))) (rs_shared rs);
              rs_gor := rs_gor rs; rs_log := rs_log rs |}
  | Run i =>
      match rs_gor rs !! i with
      | Some p =>
          '(p, st, l) ← step_point p (rs_shared rs);
          Some {| rs_shared := st; rs_gor := <[ i := p ]> (rs_gor rs);
                  rs_log := l ++ rs_log rs |}
      | None => Some rs
      end
  end.

Fixpoint run_events (evs : list event) (rs : run_state W V) : option (run_state W V) :=
  match evs with
  | [] => Some rs
  | e :: evs => rs ← do_event e rs; run_events evs rs
  end.

(** A router that nobody has called. *)
Definition fresh (st : rstate W V) : run_state W V :=
  {| rs_shared := st; rs_gor := []; rs_log := [] |}.
End run.

(** The steps a goroutine has before it. *)
Definition todo (p : point) : nat :=
  match p with
  | Arrived _ _ => 4 | Entered _ _ => 3 | Handling _ _ _ => 2 | Storing _ _ _ _ _ => 1
  | Done _ _ _ => 0
  end.
(** How often the goroutine [i] gets to run. *)
Fixpoint turns (i : nat) (evs : list event) : nat :=
  match evs with
  | [] => 0
  | Run j :: evs => (if decide (j = i) then 1 else 0) + turns i evs
  | _ :: evs => turns i evs
  end.

Fixpoint arrivals (evs : list event) : nat :=
  match evs with
  | [] => 0
  | Arrive _ _ :: evs => S (arrivals evs)
  | _ :: evs => arrivals evs
  end.

(** * Theorems *)

(** ** A request that nothing interrupts *)
Section alone.
Context `{JSONEncoder} `{GoUnicode} `{GoMapRange} `{NetIPText} `{IDNA} `{MuxRedirect}.
Context {W V : Type} (verifier : Verifier V) (now : W → Time) (elapse : Duration → W → W).
Context (s : Server W).

#[local] Abbreviation run := (run_events verifier now elapse s).
#[local] Abbreviation steps := (step_point verifier now s).

Lemma run_app evs1 evs2 rs : run (evs1 ++ evs2) rs = (run evs1 rs ≫= run evs2).
Proof.
  revert rs. induction evs1 as [|e evs1 IH]; intros rs; [done|].
  cbn [run_events app]. destruct (do_event verifier now elapse s e rs); [apply IH|done].
Qed.
Lemma run_arrive h r evs st g l :
  run (Arrive h r :: evs) {| rs_shared := st; rs_gor := g; rs_log := l |} =
  run evs {| rs_shared := st; rs_gor := g ++ [Arrived h r]; rs_log := l |}.
Proof. done. Qed.
Lemma run_last evs st g p l :
  run (Run (length g) :: evs) {| rs_shared := st; rs_gor := g ++ [p]; rs_log := l |} =
  '(p', st', l') ← steps p st;
  run evs {| rs_shared := st'; rs_gor := g ++ [p']; rs_log := l' ++ l |}.
Proof.
  cbn [run_events do_event rs_gor]. rewrite list_lookup_middle by done. cbn [rs_shared rs_log].
  destruct (steps p st) as [[[p' st'] l']|]; [|done]. cbn [mbind option_bind].
  rewrite <-(Nat.add_0_r (length g)), insert_app_r. done.
Qed.

(** A request that is served without interruption is served as [NewRouter] serves it. *)
Theorem alone_is_NewRouter h r rs :
  let evs := Arrive h r :: replicate 4 (Run (length (rs_gor rs))) in
  match NewRouter s verifier now h r (rs_shared rs) with
  | Some (ops, st) =>
      ∃ r' t l, run evs rs = Some {| rs_shared := st; rs_gor := rs_gor rs ++ [Done r' ops t];
                                     rs_log := l ++ rs_log rs |}
  | None => run evs rs = None
  end.
Proof.
  destruct rs as [st g l]. cbn [rs_shared rs_gor rs_log replicate].
  destruct st as [w v rc]. unfold NewRouter. cbn [st_world st_verifier st_cache].
  rewrite run_arrive.
  rewrite run_last. cbn [step_point st_verifier st_world st_cache].
  destruct (authenticate _ _ _ _) as [ctx v']. set (r' := with_context ctx r).
  cbn [mbind option_bind app]. rewrite run_last.
  cbn [step_point st_verifier st_world st_cache with_verifier].
  destruct rc as [c|]; [destruct (cache_key r') as [k|] eqn:Ek|].
  - rewrite (middleware_key now _ h r' w c k Ek).
    destruct (rc_Get (now w) k c) as [[[p|] c']|]; cbn [mbind option_bind]; [| |done].
    + do 2 (rewrite run_last; cbn [step_point mbind option_bind app]). by exists r', (now w), [].
    + rewrite run_last. cbn [step_point st_world with_cache with_verifier].
      destruct (mux_serve s r' w) as [ops w'].
      destruct (storable ops); cbn [mbind option_bind app]; rewrite run_last;
        cbn [step_point mbind option_bind app with_world with_cache st_cache st_world st_verifier];
        [|by exists r', (now w'), []].
      destruct (rc_Put _ _ _ _) as [c''|]; cbn [mbind option_bind]; [|done].
      by eexists r', (now w'), [_].
  - rewrite middleware_pass by auto. cbn [mbind option_bind app]. rewrite run_last.
    cbn [step_point st_world with_verifier]. destruct (mux_serve s r' w) as [ops w'].
    cbn [mbind option_bind app]. rewrite run_last. by exists r', (now w'), [].
  - rewrite middleware_pass by auto. cbn [mbind option_bind app]. rewrite run_last.
    cbn [step_point st_world with_verifier]. destruct (mux_serve s r' w) as [ops w'].
    cbn [mbind option_bind app]. rewrite run_last. by exists r', (now w'), [].
Qed.
End alone.

(** ** Confidentiality *)

(** A goroutine that may store has a cache to store in, and the key of its request. *)
Definition can_store (rc : option ResponseCache) (p : point) : Prop :=
  match p with
  | Handling _ r (Some k) | Storing _ r k _ _ => is_Some rc ∧ cache_key r = Some k
  | _ => True
  end.
Lemma can_store_mono (rc rc' : option ResponseCache) p :
  (is_Some rc → is_Some rc') → can_store rc p → can_store rc' p.
Proof. destruct p as [| |? ? []| |]; cbn; naive_solver. Qed.

(** Goroutines that stand at the same point with the same request, and have shown the
    same answer to a caller whom [lvl] covers, if it did not search for a person. *)
Inductive point_rel `{JSONEncoder} (lvl : AccessLevel) : point → point → Prop :=
  | pr_arrived h r : point_rel lvl (Arrived h r) (Arrived h r)
  | pr_entered h r : point_rel lvl (Entered h r) (Entered h r)
  | pr_handling h r k : point_rel lvl (Handling h r k) (Handling h r k)
  | pr_storing h r k ops1 ops2 t : same_outcome ops1 ops2 → (covered lvl r → ops1 = ops2) →
      point_rel lvl (Storing h r k ops1 t) (Storing h r k ops2 t)
  | pr_done r ops1 ops2 t : (covered lvl r → personal_search r = false → ops1 = ops2) →
      point_rel lvl (Done r ops1 t) (Done r ops2 t).

Section two_routers.
Context `{JSONEncoder} `{GoUnicode} `{GoMapRange} `{NetIPText} `{IDNA} `{MuxRedirect}.
Context {W1 W2 V : Type} (R : W1 → W2 → Prop) (now1 : W1 → Time) (now2 : W2 → Time).
Context (elapse1 : Duration → W1 → W1) (elapse2 : Duration → W2 → W2).
Context (verifier : Verifier V) (lvl : AccessLevel) (s1 : Server W1) (s2 : Server W2).

(** The two worlds: clocks that agree, and time that passes alike. *)
Record worlds_rel : Prop := {
  wr_json : ∀ c, json_Encode c ≠ "";
  wr_now : ∀ w1 w2, R w1 w2 → now1 w1 = now2 w2;
  wr_elapse : ∀ d w1 w2, R w1 w2 → R (elapse1 d w1) (elapse2 d w2);
  wr_server : server_rel R lvl s1 s2 }.

Record routers_rel (rs1 : run_state W1 V) (rs2 : run_state W2 V) : Prop := {
  rr_shared : state_rel R lvl (rs_shared rs1) (rs_shared rs2);
  rr_gor : Forall2 (point_rel lvl) (rs_gor rs1) (rs_gor rs2);
  rr_store : Forall (can_store (st_cache (rs_shared rs1))) (rs_gor rs1) }.

Lemma step_point_rel p1 p2 st1 st2 :
  worlds_rel → state_rel R lvl st1 st2 → point_rel lvl p1 p2 → can_store (st_cache st1) p1 →
  ∃ q1 st1' l1 q2 st2' l2,
    step_point verifier now1 s1 p1 st1 = Some (q1, st1', l1) ∧
    step_point verifier now2 s2 p2 st2 = Some (q2, st2', l2) ∧
    state_rel R lvl st1' st2' ∧ point_rel lvl q1 q2 ∧ can_store (st_cache st1') q1 ∧
    (is_Some (st_cache st1) → is_Some (st_cache st1')).
Proof.
  intros [Hjson Hnow _ Hs] Hst Hp Hcan. destruct st1 as [w1 v rc1], st2 as [w2 v2 rc2].
  destruct (Hst) as (Hw & Hv & Hrc). cbn in Hw, Hv, Hrc, Hcan. subst v2.
  destruct Hp as [h r|h r|h r k|h r k ops1 ops2 t Hout Hops|r ops1 ops2 t Hops];
    cbn [step_point st_world st_verifier st_cache]; rewrite <-?(Hnow w1 w2 Hw).
  - destruct (authenticate _ _ _ _) as [ctx v']. do 6 eexists. do 2 (split; [reflexivity|]).
    split_and!; [done|constructor|done|done].
  - destruct rc1 as [c1|], rc2 as [c2|]; try done;
      [destruct (cache_key r) as [k|] eqn:Ek|];
      [|by do 6 eexists; do 2 (split; [reflexivity|]); split_and!; [|constructor|..]..].
    destruct (rc_Get_rel lvl (now1 w1) k c1 c2 Hrc) as (o1 & c1' & o2 & c2' & -> & -> & Hrc' & Ho).
    cbn [mbind option_bind]. do 6 eexists. do 2 (split; [reflexivity|]).
    destruct o1 as [p1|], o2 as [p2|]; try done; split_and!; try done; try constructor.
    intros Hc _. by apply (replay_rel lvl k r).
  - pose proof (mux_serve_rel R lvl s1 s2 Hs r w1 w2 Hw) as (Hw' & Hout & Hops).
    destruct (mux_serve s1 r w1) as [ops1 w1'], (mux_serve s2 r w2) as [ops2 w2'].
    cbn [fst snd] in *. do 6 eexists. do 2 (split; [reflexivity|]). rewrite <-(Hnow w1' w2' Hw').
    destruct k as [k|]; [|split_and!; [done| |done|done]; by constructor].
    destruct Hcan as [Hc Hk]. destruct (cache_key_spec lvl r k Hk) as (_ & Hcb & Hps).
    destruct (stored_rel Hjson lvl h r k ops1 ops2 Hk) as [<- _]; [auto..|].
    destruct (storable ops1); split_and!; try done; constructor; auto.
  - destruct Hcan as [[c1 ->] Hk]. destruct rc2 as [c2|]; [|done].
    destruct (stored_rel Hjson lvl h r k ops1 ops2 Hk Hout Hops) as [_ Hpl].
    destruct (rc_Put_rel lvl (now1 w1) k (stored h ops1) (stored h ops2) c1 c2 Hrc Hpl)
      as (d1 & d2 & -> & -> & Hd).
    cbn [mbind option_bind]. do 6 eexists. do 2 (split; [reflexivity|]).
    split_and!; [done| |done|done]. constructor. auto.
  - do 6 eexists. do 2 (split; [reflexivity|]). split_and!; [done|by constructor|done|done].
Qed.

Lemma do_event_rel e rs1 rs2 : worlds_rel → routers_rel rs1 rs2 →
  ∃ rs1' rs2', do_event verifier now1 elapse1 s1 e rs1 = Some rs1' ∧
    do_event verifier now2 elapse2 s2 e rs2 = Some rs2' ∧ routers_rel rs1' rs2'.
Proof.
  intros Hwr [Hst Hg Hcan]. destruct e as [h r|i|d]; cbn [do_event].
  - do 2 eexists. do 2 (split; [reflexivity|]). split; cbn; [done| |].
    + apply Forall2_app; [done|]. repeat constructor.
    + apply Forall_app. by repeat constructor.
  - destruct (rs_gor rs1 !! i) as [p1|] eqn:E1.
    + destruct (Forall2_lookup_l _ _ _ _ _ Hg E1) as (p2 & -> & Hp).
      destruct (step_point_rel p1 p2 _ _ Hwr Hst Hp (Forall_lookup_1 _ _ _ _ Hcan E1))
        as (q1 & st1' & l1 & q2 & st2' & l2 & -> & -> & Hst' & Hq & Hcq & Hc).
      cbn [mbind option_bind]. do 2 eexists. do 2 (split; [reflexivity|]). split; cbn; [done| |].
      * by apply Forall2_insert.
      * apply Forall_insert; [|done]. eapply Forall_impl; [exact Hcan|].
        intros p. by apply can_store_mono.
    + assert (rs_gor rs2 !! i = None) as ->; [|by exists rs1, rs2].
      apply lookup_ge_None. rewrite <-(Forall2_length _ _ _ Hg). by apply lookup_ge_None.
  - do 2 eexists. do 2 (split; [reflexivity|]). destruct Hst as (Hw & Hv & Hrc).
    split; cbn; [|done..]. split_and!; [by apply Hwr|done..].
Qed.

Lemma run_events_rel evs rs1 rs2 : worlds_rel → routers_rel rs1 rs2 →
  ∃ rs1' rs2', run_events verifier now1 elapse1 s1 evs rs1 = Some rs1' ∧
    run_events verifier now2 elapse2 s2 evs rs2 = Some rs2' ∧ routers_rel rs1' rs2'.
Proof.
  intros Hwr. revert rs1 rs2. induction evs as [|e evs IH]; intros rs1 rs2 Hrs.
  { by exists rs1, rs2. }
  destruct (do_event_rel e rs1 rs2 Hwr Hrs) as (rs1' & rs2' & E1 & E2 & Hrs').
  cbn [run_events]. rewrite E1, E2. cbn [mbind option_bind]. by apply IH.
Qed.

(** C1: confidentiality of the router, response cache included, under every interleaving
    of its requests: let any number of requests, of callers of any tiers, arrive in any
    order at two routers with the same settings, over providers and search indices with
    states of their own that differ only in data withheld at level [lvl], and let their
    goroutines run in any order, time passing in between.  No request panics; every
    goroutine gets as far in the one as in the other, with the same claims and at the same
    time; and every caller whose tier is at most that of [lvl] gets byte-identical answers,
    save where it searches entities by name or email.  Nothing a higher tier has seen
    reaches a lower one through the cache, not even what is cached and when. *)
Theorem concurrent_noninterference evs st1 st2 :
  worlds_rel → R (st_world st1) (st_world st2) → st_verifier st1 = st_verifier st2 →
  st_cache st1 = st_cache st2 → cache_ready (st_cache st1) →
  ∃ rs1 rs2, run_events verifier now1 elapse1 s1 evs (fresh st1) = Some rs1 ∧
    run_events verifier now2 elapse2 s2 evs (fresh st2) = Some rs2 ∧
    Forall2 (point_rel lvl) (rs_gor rs1) (rs_gor rs2).
Proof.
  intros Hwr Hw Hv Hc Hrc.
  destruct (run_events_rel evs (fresh st1) (fresh st2) Hwr) as (rs1 & rs2 & E1 & E2 & [_ Hg _]).
  { split; cbn; [|done..]. split_and!; [done..|]. rewrite <-Hc. by apply cache_rel_refl. }
  by exists rs1, rs2.
Qed.
End two_routers.

(** ** Every request is answered, by what the router holds *)
Section answers.
Context `{JSONEncoder} `{GoUnicode} `{GoMapRange} `{NetIPText} `{IDNA} `{MuxRedirect}.
Context {W V : Type} (verifier : Verifier V) (now : W → Time) (elapse : Duration → W → W).
Context (s : Server W) (I : W → Prop) (ttl : Duration).

#[local] Abbreviation run := (run_events verifier now elapse s).

(** What the handlers make of a request over a world of the provider. *)
Definition served (r : Request) (ops : list wop) : Prop :=
  ∃ w, I w ∧ ops = (mux_serve s r w).1.
(** A replay, at [t], of a stored answer to a request with the same path and tier. *)
Definition replayed (log : list saved) (r : Request) (ops : list wop) (t : Time) : Prop :=
  ∃ sv, sv ∈ log ∧ cache_key r = Some (sv_key sv) ∧
    ops = replay_hit (stored (sv_headers sv) (sv_ops sv)) ∧ (t ≤ sv_time sv + ttl)%Z.
Definition saved_ok (sv : saved) : Prop :=
  cache_key (sv_request sv) = Some (sv_key sv) ∧ storable (sv_ops sv) = true ∧
  served (sv_request sv) (sv_ops sv).
Definition point_ok (log : list saved) (p : point) : Prop :=
  match p with
  | Storing _ r _ ops _ => storable ops = true ∧ served r ops
  | Done r ops t =>
      tame ops ∧ (rdap_ops ops ∨ mux_own r ops) ∧ (served r ops ∨ replayed log r ops t)
  | _ => True
  end.
Definition entry_saved (log : list saved) (ke : key * entry) : Prop :=
  ∃ sv, sv ∈ log ∧ sv_key sv = ke.1 ∧
    payload_of ke.2 = stored (sv_headers sv) (sv_ops sv) ∧ en_expires ke.2 = (sv_time sv + ttl)%Z.
Definition cache_saved (log : list saved) (rc : option ResponseCache) : Prop :=
  match rc with
  | Some c => rc_ttl c = ttl ∧ Forall (entry_saved log) (abs (rc_lru c))
  | None => True
  end.

(** The laws of the provider, of the index, and of the passing of time. *)
Record world_laws : Prop := {
  wl_DS : ProviderLaws (s_DS s) I;
  wl_Search : ∀ ix, s_Search s = Some ix → IndexLaws ix I;
  wl_elapse : ∀ d w, I w → I (elapse d w) }.

Definition shared_ok (log : list saved) (st : rstate W V) : Prop :=
  I (st_world st) ∧ cache_ok (st_cache st) ∧ cache_saved log (st_cache st).
Record run_ok (rs : run_state W V) : Prop := {
  ro_shared : shared_ok (rs_log rs) (rs_shared rs);
  ro_log : Forall saved_ok (rs_log rs);
  ro_store : Forall (can_store (st_cache (rs_shared rs))) (rs_gor rs);
  ro_points : Forall (point_ok (rs_log rs)) (rs_gor rs) }.

Lemma point_ok_grow log log' p : log ⊆ log' → point_ok log p → point_ok log' p.
Proof.
  intros Hl. destruct p; cbn; try done. intros (? & ? & [|(sv & Hin & ?)]); split_and!; auto.
  right. exists sv. by split; [apply Hl|].
Qed.
Lemma entry_saved_grow log log' ke : log ⊆ log' → entry_saved log ke → entry_saved log' ke.
Proof. intros Hl (sv & Hin & ?). exists sv. by split; [apply Hl|]. Qed.

Lemma lookup_saved t k c log : cache_ok (Some c) → cache_saved log (Some c) →
  ∃ o c', rc_Get t k c = Some (o, c') ∧ cache_ok (Some c') ∧ cache_saved log (Some c') ∧
    ∀ p, o = Some p → tame (replay_hit p) ∧ rdap_ops (replay_hit p) ∧
      ∃ sv, sv ∈ log ∧ sv_key sv = k ∧ p = stored (sv_headers sv) (sv_ops sv) ∧
        (t ≤ sv_time sv + ttl)%Z.
Proof.
  intros Hc [Ht Hf]. destruct (lookup_ok t k c Hc) as (o & c' & E & Hc' & Ho).
  exists o, c'. destruct Hc as [[size Hi] _].
  destruct (rc_Get_entries t k c o c' size Hi E) as (_ & Ht' & Hsub & Hhit).
  rewrite Forall_forall in Hf. split_and!; [done..| |].
  - split; [congruence|]. apply Forall_forall. intros b Hb. by apply Hf, Hsub.
  - intros p Hp. destruct (Ho p Hp) as [Htame Hrdap]. split_and!; [done..|].
    destruct (Hhit p Hp) as (e & He & -> & Hle). destruct (Hf _ He) as (sv & Hin & Hk & Hst & Hx).
    cbn in Hk, Hst, Hx. exists sv. split_and!; [done..|]. lia.
Qed.

Lemma store_saved t k h r ops c log : cache_ok (Some c) → cache_saved log (Some c) →
  world_laws → storable ops = true → served r ops →
  ∃ c', rc_Put t k (stored h ops) c = Some c' ∧ cache_ok (Some c') ∧
    cache_saved ({| sv_key := k; sv_request := r; sv_headers := h; sv_ops := ops;
                    sv_time := t |} :: log) (Some c').
Proof.
  intros Hc [Ht Hf] [Hds Hix _] Hs (w & Hw & Hops). set (sv := {| sv_key := k |}).
  assert (Hsh : shape ops ∨ (300 ≤ cw_status (capture ops))%Z).
  { destruct (mux_serve_answer s I r w Hds Hix Hw) as [_ Ha]. rewrite <-Hops in Ha.
    destruct Ha as [|[_ ?]]; auto. }
  destruct (store_ok t k h ops c Hc Hs Hsh) as (c' & E & Hc'). exists c'. split_and!; [done..|].
  destruct Hc as [[size Hi] _].
  destruct (rc_Put_entries t k (stored h ops) c size Hi) as (c'' & E' & _ & Ht' & Hnew).
  rewrite E in E'. simplify_eq E'. intros <-. split; [congruence|].
  apply Forall_forall. intros b [->|Hb]%Hnew.
  - exists sv. split; [left|]. cbn. split_and!; [done| |by rewrite Ht]. done.
  - rewrite Forall_forall in Hf. eapply entry_saved_grow; [|by apply Hf]. set_solver.
Qed.

Lemma step_point_ok p st log :
  world_laws → shared_ok log st → Forall saved_ok log →
  can_store (st_cache st) p → point_ok log p →
  ∃ q st' l, step_point verifier now s p st = Some (q, st', l) ∧
    shared_ok (l ++ log) st' ∧ Forall saved_ok (l ++ log) ∧
    can_store (st_cache st') q ∧ point_ok (l ++ log) q ∧
    (is_Some (st_cache st) → is_Some (st_cache st')).
Proof.
  intros Hl (Hw & Hc & Hsv) Hlog Hcan Hp. destruct st as [w v rc]. cbn in Hw, Hc, Hsv, Hcan.
  destruct p as [h r|h r|h r k|h r k ops t|r ops t]; cbn [step_point st_world st_verifier st_cache].
  - destruct (authenticate _ _ _ _) as [ctx v']. do 3 eexists. split; [reflexivity|]. by split_and!.
  - destruct rc as [c|]; [destruct (cache_key r) as [k|] eqn:Ek|];
      [|by do 3 eexists; split; [reflexivity|]; split_and!..].
    destruct (lookup_saved (now w) k c log Hc Hsv) as (o & c' & -> & Hc' & Hsv' & Ho).
    cbn [mbind option_bind]. do 3 eexists. split; [reflexivity|].
    destruct o as [p|]; split_and!; try done.
    destruct (Ho p eq_refl) as (Ht & Hr & sv & Hin & Hk & -> & Hle). split_and!; [done|by left|].
    right. exists sv. split_and!; [done|congruence|done..].
  - destruct (mux_serve_answer s I r w) as [Hw' _]; [apply Hl..|done|].
    destruct (mux_serve_rdap s I r w) as [Ht Hr]; [apply Hl..|done|].
    assert (Hserved : served r (mux_serve s r w).1) by (by exists w).
    destruct (mux_serve s r w) as [ops w']. cbn [fst snd] in *.
    assert (Hdone : point_ok log (Done r ops (now w'))) by (split_and!; auto).
    do 3 eexists. split; [reflexivity|]. cbn [app]. destruct k as [k|]; [|by split_and!].
    destruct (storable ops) eqn:Es; by split_and!.
  - destruct Hcan as [[c ->] Hk]. destruct Hp as [Hs Hserved].
    destruct (store_saved (now w) k h r ops c log Hc Hsv Hl Hs Hserved) as (c' & -> & Hc' & Hsv').
    cbn [mbind option_bind]. do 3 eexists. split; [reflexivity|].
    assert (Hgood : tame ops ∧ (rdap_ops ops ∨ mux_own r ops)).
    { destruct Hserved as (w0 & Hw0 & ->). apply (mux_serve_rdap s I r w0); [apply Hl..|done]. }
    split_and!; try done; [by constructor|]. destruct Hgood. split_and!; auto.
  - do 3 eexists. split; [reflexivity|]. by split_and!.
Qed.

Lemma do_event_ok e rs : world_laws → run_ok rs →
  ∃ rs', do_event verifier now elapse s e rs = Some rs' ∧ run_ok rs'.
Proof.
  intros Hl [Hsh Hlog Hcan Hps]. destruct e as [h r|i|d]; cbn [do_event].
  - eexists. split; [reflexivity|]. split; cbn; [done..| |]; apply Forall_app; by repeat constructor.
  - destruct (rs_gor rs !! i) as [p|] eqn:E; [|by exists rs].
    destruct (step_point_ok p _ _ Hl Hsh Hlog (Forall_lookup_1 _ _ _ _ Hcan E)
      (Forall_lookup_1 _ _ _ _ Hps E)) as (q & st' & l & -> & Hsh' & Hlog' & Hcq & Hpq & Hc).
    cbn [mbind option_bind]. eexists. split; [reflexivity|].
    split; cbn; [done..| |]; (apply Forall_insert; [|done]).
    + eapply Forall_impl; [exact Hcan|]. intros p'. by apply can_store_mono.
    + eapply Forall_impl; [exact Hps|]. intros p'. apply point_ok_grow. set_solver.
  - eexists. split; [reflexivity|]. destruct Hsh as (Hw & Hc & Hsv).
    split; cbn; [|done..]. split_and!; [by apply Hl|done..].
Qed.

Lemma run_events_ok evs rs : world_laws → run_ok rs → ∃ rs', run evs rs = Some rs' ∧ run_ok rs'.
Proof.
  intros Hl. revert rs. induction evs as [|e evs IH]; intros rs Hrs; [by exists rs|].
  destruct (do_event_ok e rs Hl Hrs) as (rs' & E & Hrs'). cbn [run_events]. rewrite E.
  by apply IH.
Qed.

(** The goroutine of a request: the claims it goes on with are those of the verifier. *)
Definition goroutine_of (h : gmap string string) (r : Request) (p : point) : Prop :=
  match p with
  | Arrived h' r' => h' = h ∧ r' = r
  | Entered _ r' | Handling _ r' _ | Storing _ r' _ _ _ | Done r' _ _ =>
      ∃ v, r' = with_context (authenticate verifier (header_Get "Authorization" (r_Header r))
                                (r_Context r) v).1 r
  end.

Lemma step_point_todo h r p st q st' l : goroutine_of h r p →
  step_point verifier now s p st = Some (q, st', l) →
  goroutine_of h r q ∧ (todo q ≤ todo p - 1)%nat.
Proof.
  destruct p as [h' r'|h' r'|h' r' k|h' r' k ops t|r' ops t]; cbn [step_point goroutine_of todo].
  - intros [-> ->] E. destruct (authenticate _ _ _ _) as [ctx v] eqn:Ea. simplify_eq.
    cbn. split; [|lia]. exists (st_verifier st). by rewrite Ea.
  - intros Hr E. destruct (st_cache st) as [c|], (cache_key r') as [k|];
      [destruct (rc_Get _ _ _) as [[[p|] c']|]; cbn in E|..]; simplify_eq; cbn; by (split; [|lia]).
  - intros Hr E. destruct (mux_serve _ _ _) as [ops w].
    destruct k as [k|]; [destruct (storable ops)|]; simplify_eq; cbn; by (split; [|lia]).
  - intros Hr E. destruct (st_cache st) as [c|]; [|done].
    destruct (rc_Put _ _ _ _); cbn in E; simplify_eq; cbn; by (split; [|lia]).
  - intros Hr E. simplify_eq. by split; [|cbn; lia].
Qed.

Lemma run_progress h r evs i rs rs' p : run evs rs = Some rs' → rs_gor rs !! i = Some p →
  goroutine_of h r p →
  ∃ q, rs_gor rs' !! i = Some q ∧ goroutine_of h r q ∧ (todo q ≤ todo p - turns i evs)%nat.
Proof.
  revert rs p. induction evs as [|e evs IH]; intros rs p E Hi Hp; cbn [run_events turns] in *.
  { simplify_eq. exists p. split_and!; [done..|lia]. }
  destruct e as [h' r'|j|d]; cbn [do_event mbind option_bind] in E.
  - eapply IH; [exact E| |done]. cbn. by apply lookup_app_l_Some.
  - destruct (rs_gor rs !! j) as [p0|] eqn:Ej; [|case_decide; [congruence|by eapply IH]].
    destruct (step_point _ _ _ _ _) as [[[q0 st'] l]|] eqn:Es; [|done]. cbn in E.
    case_decide as Hji.
    + subst j. assert (p0 = p) as -> by congruence. destruct (step_point_todo h r p _ q0 st' l Hp Es) as [Hq Hle].
      edestruct (IH _ q0 E) as (q & Hq' & Hqr & Hqt); [|done|].
      { cbn. apply list_lookup_insert_eq. by eapply lookup_lt_Some. }
      exists q. split_and!; [done..|lia].
    + eapply IH; [exact E| |done]. cbn. by rewrite list_lookup_insert_ne.
  - eapply IH; [exact E| |done]. done.
Qed.

Lemma run_arrivals evs rs rs' : run evs rs = Some rs' →
  length (rs_gor rs') = length (rs_gor rs) + arrivals evs.
Proof.
  revert rs. induction evs as [|e evs IH]; intros rs E; cbn [run_events arrivals] in *.
  { simplify_eq. lia. }
  destruct e as [h r|j|d]; cbn [do_event mbind option_bind] in E.
  - rewrite (IH _ E). cbn. rewrite length_app. cbn. lia.
  - destruct (rs_gor rs !! j); [|by apply IH].
    destruct (step_point _ _ _ _ _) as [[[q0 st'] l]|]; [|done]. cbn in E.
    rewrite (IH _ E). cbn. by rewrite length_insert.
  - rewrite (IH _ E). done.
Qed.

(** A router whose cache has been used by nobody. *)
Definition new_state (st : rstate W V) : Prop :=
  I (st_world st) ∧
  (st_cache st = None ∨ ∃ size, (0 ≤ size)%Z ∧ st_cache st = Some (NewResponseCache size ttl)).

Lemma new_state_ok st : new_state st → run_ok (fresh st).
Proof.
  intros [Hw Hc]. split; cbn; [|by constructor..]. split_and!; [done|..];
    destruct Hc as [-> |(size & Hs & ->)]; try done; cbn.
  split; [exists size; by apply NewResponseCache_inv|constructor].
Qed.

(** C12: every request that the router takes is answered, under every interleaving: with a
    provider and an index that keep their contracts and a new cache, no schedule makes it
    panic, and a goroutine that has had four turns has answered, with the claims the
    verifier granted its request, whatever the others do.  Every answer is a complete RDAP
    response (an object or a result under 200, an error object whose code is the status, or
    a redirect to another server) or one of the mux's own, with headers, status and body in
    this order; and it
    is either what the handlers make of this very request, or the replay of a stored
    answer: one the handlers made of a request with the same path and tier, which was 2xx
    and was stored no longer than the time to live ago. *)
Theorem concurrent_answers evs1 h r evs2 st :
  world_laws → new_state st →
  ∃ rs, run (evs1 ++ Arrive h r :: evs2) (fresh st) = Some rs ∧
    Forall saved_ok (rs_log rs) ∧ Forall (point_ok (rs_log rs)) (rs_gor rs) ∧
    ∃ p, rs_gor rs !! arrivals evs1 = Some p ∧ goroutine_of h r p ∧
      ((4 ≤ turns (arrivals evs1) evs2)%nat → ∃ r' ops t, p = Done r' ops t).
Proof.
  intros Hl Hst. destruct (run_events_ok evs1 _ Hl (new_state_ok st Hst)) as (rs1 & E1 & Hok1).
  pose proof (run_arrivals _ _ _ E1) as Hlen. cbn in Hlen.
  destruct (do_event_ok (Arrive h r) rs1 Hl Hok1) as (rs2 & E2 & Hok2).
  destruct (run_events_ok evs2 rs2 Hl Hok2) as (rs & E3 & [_ Hlog _ Hps]).
  exists rs. split.
  { rewrite run_app, E1. cbn [mbind option_bind run_events]. by rewrite E2. }
  split_and!; [done..|].
  destruct (run_progress h r evs2 (arrivals evs1) rs2 rs (Arrived h r) E3) as (p & Hp & Hg & Ht);
    [|done|].
  { cbn in E2. simplify_eq. cbn. rewrite <-Hlen. by apply list_lookup_middle. }
  exists p. split_and!; [done..|]. intros Hturns.
  assert (Hz : todo p = 0) by (cbn [todo] in Ht; lia).
  destruct p; try done. by do 3 eexists.
Qed.
End answers.

(** * Witnesses *)
#[local] Existing Instance unicode_default.
#[local] Existing Instance map_range_default.
#[local] Existing Instance netip_text.
#[local] Existing Instance idna_ldh.
#[local] Existing Instance json_names.
#[local] Existing Instance mux_demo.

(** A privileged and two anonymous callers ask for the same entity.  The first two miss
    before either has stored its answer; the third gets what the second has stored. *)
Definition entity_request (auth : string) : Request := get_request auth "/entity/REG-1" [].
Definition race : list event :=
  [Arrive ∅ (entity_request "Bearer root"); Arrive ∅ (entity_request "");
   Run 0; Run 1; Run 0; Run 1; Elapse 5%Z; Run 1; Run 0; Run 0; Run 1].
Definition late : list event := [Run 2; Run 2; Run 2; Run 2].
Definition is_hit (o : wop) : bool :=
  match o with HeaderSet k v => (k =? "X-Gordap-Cache")%string && (v =? "HIT")%string | _ => false end.
Definition no_time {W} : Duration → W → W := λ _ w, w.

Example race_ex :
  (λ rs, (map (λ sv, (sv_key sv).2) (rs_log rs),
          map (λ p, match p with Done _ ops _ => existsb is_hit ops
                    | _ => false end) (rs_gor rs))) <$>
  run_events token_verifier (λ _, 0%Z) no_time search_server
    (race ++ Arrive ∅ (entity_request "") :: late) (fresh (demo_state (one_person person_ex))) =
  Some (["anonymous"; "privileged"], [false; false; true]).
Proof. vm_compute. reflexivity. Qed.

Lemma concurrent_noninterference_witness :
  one_person person_ex ≠ one_person other_person ∧
  ∃ rs1 rs2,
    run_events token_verifier (λ _, 0%Z) no_time search_server race
      (fresh (demo_state (one_person person_ex))) = Some rs1 ∧
    run_events token_verifier (λ _, 0%Z) no_time search_server race
      (fresh (demo_state (one_person other_person))) = Some rs2 ∧
    Forall2 (point_rel AccessAnonymous) (rs_gor rs1) (rs_gor rs2).
Proof.
  split.
  { intros E. apply (f_equal (λ s, c_FullName <$> entities s !! "REG-1")) in E. by vm_compute in E. }
  apply (concurrent_noninterference (store_rel AccessAnonymous) (λ _, 0%Z) (λ _, 0%Z)
           no_time no_time token_verifier AccessAnonymous search_server search_server race
           (demo_state (one_person person_ex)) (demo_state (one_person other_person))).
  - split; [by intros []|done|done|apply search_server_rel].
  - exact one_person_rel.
  - done.
  - done.
  - exists 8%Z. exact demo_cache_inv.
Defined.

Lemma concurrent_answers_witness :
  world_laws no_time demo_server store_wf ∧
  new_state store_wf (60 * Second)%Z (demo_state (replay demo_log)) ∧
  ∃ rs, run_events token_verifier (λ _, 0%Z) no_time demo_server
      (race ++ Arrive ∅ (entity_request "") :: late) (fresh (demo_state (replay demo_log))) =
    Some rs ∧
    Forall (saved_ok demo_server store_wf) (rs_log rs) ∧
    Forall (point_ok demo_server store_wf (60 * Second)%Z (rs_log rs)) (rs_gor rs) ∧
    ∃ p, rs_gor rs !! arrivals race = Some p ∧
      goroutine_of token_verifier ∅ (entity_request "") p ∧
      ((4 ≤ turns (arrivals race) late)%nat → ∃ r' ops t, p = Done r' ops t).
Proof.
  assert (Hl : world_laws no_time demo_server store_wf).
  { split; [apply store_provider|intros ix [= <-]; apply store_index_laws|done]. }
  assert (Hn : new_state store_wf (60 * Second)%Z (demo_state (replay demo_log))).
  { split; [apply replay_wf|right; by exists 8%Z]. }
  split; [exact Hl|]. split; [exact Hn|].
  apply (concurrent_answers token_verifier (λ _, 0%Z) no_time demo_server store_wf
           (60 * Second)%Z race ∅ (entity_request "") late (demo_state (replay demo_log)) Hl Hn).
Defined.
