(* ===== verification/Jwks.v ===== *)
(** * pkg/rdap/auth/jwks: the JWT verifier.

    Bearer tokens checked against a key set that is fetched over HTTP.  The world
    [W] is what the clock and the HTTP client read and change: every call of
    [time.Now] is a step of it.  JSON, SHA-256 and the signature checks are
    functions of the class [JOSE]: the theorems hold whatever they compute. *)
From Stdlib Require Import QArith Lqa.
From S2P Require Import Prelude GoStrings DataSource Auth Float64 FloatBound.
From S2P Require Bootstrap.

(** ** Machine time *)
Definition unixToInternal : Z := 62135596800.
(** [t.Unix()] and [time.Unix(sec, 0)]; the addition wraps. *)
Definition Unix (t : Time) : Z := (t / Second - unixToInternal)%Z.
Definition time_Unix (sec : Z) : Time := (wrap64 (sec + unixToInternal) * Second)%Z.

(** ** replay.go *)
Record replayCache := { seen : gmap string Time; prune : Time }.
Definition newReplayCache : replayCache := {| seen := ∅; prune := 0%Z |}.

(** The wholesale prune, at most once a minute. *)
Definition prune_at (now : Time) (r : replayCache) : replayCache :=
  if IsZero (prune r) || After now (prune r) then
    {| seen := filter (λ kv, After now kv.2 = false) (seen r); prune := (now + Minute)%Z |}
  else r.

(** [check] at the instant its [time.Now] reads. *)
Definition check (now : Time) (jti : string) (exp : Time) (r : replayCache)
    : bool * replayCache :=
  if (jti =? "")%string then (false, r) else
  let r := prune_at now r in
  let record := (false, {| seen := <[ jti := exp ]> (seen r); prune := prune r |}) in
  match seen r !! jti with
  | Some existing => if Before now existing then (true, r) else record
  | None => record
  end.

(** ** jwks.go: configuration and keys *)
Record Config := {
  cfg_JWKSURL : string;
  cfg_Issuer : string;
  cfg_Audience : string;
  cfg_RefreshEvery : Duration;
  cfg_ClockSkew : Duration;
  cfg_ScopeMap : gmap string AccessLevel }.

(** crypto.PublicKey: a modulus and exponent, or a point of P-256. *)
Inductive PublicKey := RSAKey (N E : Z) | ECKey (X Y : Z).

Record Verifier := {
  v_cfg : Config;
  v_keys : gmap string PublicKey;
  v_nextFetch : Time;
  v_replay : replayCache }.

Definition New (cfg : Config) : Verifier :=
  {| v_cfg := {| cfg_JWKSURL := cfg_JWKSURL cfg; cfg_Issuer := cfg_Issuer cfg;
                 cfg_Audience := cfg_Audience cfg;
                 cfg_RefreshEvery := if (cfg_RefreshEvery cfg <=? 0)%Z then (10 * Minute)%Z
                                     else cfg_RefreshEvery cfg;
                 cfg_ClockSkew := if (cfg_ClockSkew cfg <=? 0)%Z then (30 * Second)%Z
                                  else cfg_ClockSkew cfg;
                 cfg_ScopeMap := cfg_ScopeMap cfg |};
     v_keys := ∅; v_nextFetch := 0%Z; v_replay := newReplayCache |}.

Definition base64url (s : string) : string + error :=
  match b64_decode s with Some b => inl b | None => inr (ErrOther "illegal base64 data") end.

Record jwk := {
  jwk_Kty : string; jwk_Kid : string; jwk_Use : string; jwk_Alg : string;
  jwk_N : string; jwk_E : string;
  jwk_Crv : string; jwk_X : string; jwk_Y : string }.

(** [new(big.Int).SetBytes(b)] *)
Fixpoint big_bytes (acc : Z) (b : string) : Z :=
  match b with
  | "" => acc
  | String c b => big_bytes (acc * 256 + Z.of_N (byte_val c)) b
  end.
Definition SetBytes (b : string) : Z := big_bytes 0 b.

Definition publicKey (k : jwk) : PublicKey + error :=
  if (jwk_Kty k =? "RSA")%string then
    match base64url (jwk_N k) with
    | inr e => inr e
    | inl n =>
        match base64url (jwk_E k) with
        | inr e => inr e
        | inl e => inl (RSAKey (SetBytes n) (wrap64 (SetBytes e)))
        end
    end
  else if (jwk_Kty k =? "EC")%string then
    if negb (jwk_Crv k =? "P-256")%string then inr (ErrOther "jwks: unsupported EC curve") else
    match base64url (jwk_X k) with
    | inr e => inr e
    | inl x =>
        match base64url (jwk_Y k) with
        | inr e => inr e
        | inl y => inl (ECKey (SetBytes x) (SetBytes y))
        end
    end
  else inr (ErrOther "jwks: unsupported kty").

(** The keys of a document: unusable ones are skipped, the last of a [kid] wins. *)
Definition key_map (ks : list jwk) : gmap string PublicKey :=
  foldl (λ out k, match publicKey k with
                  | inl pk => <[ jwk_Kid k := pk ]> out
                  | inr _ => out
                  end) ∅ ks.

(** ** Claims *)
Record header := { hdr_Alg : string; hdr_Kid : string }.
Record claims := {
  cl_Sub : string; cl_Iss : string; cl_Aud : any; cl_Exp : Z; cl_Nbf : Z;
  cl_Jti : string; cl_Scope : string }.

Definition audContains (aud : any) (want : string) : bool :=
  match aud with
  | any_string v => (v =? want)%string
  | any_slice v =>
      existsb (λ s, match s with any_string str => (str =? want)%string | _ => false end) v
  | _ => false
  end.

Definition highestTier (scopes : list string) (m : gmap string AccessLevel) : AccessLevel :=
  if bool_decide (m = ∅) then AccessAuthenticated else
  foldl (λ level s, match m !! s with
                    | Some t => if (level <? t)%Z then t else level
                    | None => level
                    end) AccessAuthenticated scopes.

(** [int64(v.cfg.ClockSkew.Seconds())]: a float64, truncated.  The seconds of an [int64] of
    nanoseconds are far inside the range of the conversion ([skew_bounds]). *)
Definition skew_of (cfg : Config) : Z := default 0%Z (float_trunc (Seconds (cfg_ClockSkew cfg))).

(** The time, issuer and audience checks; [None] lets the token pass. *)
Definition check_claims (cfg : Config) (now : Z) (c : claims) : option error :=
  let skew := skew_of cfg in
  if (0 <? cl_Exp c)%Z && (wrap64 (cl_Exp c + skew) <? now)%Z
  then Some (ErrOther "jwks: token expired")
  else if (0 <? cl_Nbf c)%Z && (wrap64 (now + skew) <? cl_Nbf c)%Z
  then Some (ErrOther "jwks: token not yet valid")
  else if negb (cfg_Issuer cfg =? "")%string && negb (cl_Iss c =? cfg_Issuer cfg)%string
  then Some (ErrOther "jwks: issuer mismatch")
  else if negb (cfg_Audience cfg =? "")%string && negb (audContains (cl_Aud c) (cfg_Audience cfg))
  then Some (ErrOther "jwks: audience mismatch")
  else None.

Class JOSE := {
  json_header : string → header + error;
  json_claims : string → claims + error;
  json_keys : string → list jwk + error;
  sha256 : string → string;
  rsa_VerifyPKCS1v15 : Z → Z → string → string → option error;
  ecdsa_Verify : Z → Z → string → Z → Z → bool }.

Section verifier.
Context `{JOSE}.
Context {W : Type} (time_Now : W → Time * W).
Context (http_NewRequest : string → option error).
Context (http_Do : string → W → (Bootstrap.response + error) * W).

Definition fetchLocked (v : Verifier) (w : W) : option error * Verifier * W :=
  let url := cfg_JWKSURL (v_cfg v) in
  if (url =? "")%string then (Some (ErrOther "jwks: no JWKSURL configured"), v, w) else
  match http_NewRequest url with
  | Some err => (Some err, v, w)
  | None =>
      let '(resp, w) := http_Do url w in
      match resp with
      | inr err => (Some (Wrap "jwks: fetch: " err), v, w)
      | inl resp =>
          if negb (Bootstrap.StatusCode resp =? 200)%Z
          then (Some (ErrOther ("jwks: fetch status " +:+ Itoa (Bootstrap.StatusCode resp))), v, w)
          else
            match json_keys (Bootstrap.Body resp) with
            | inr err => (Some (Wrap "jwks: decode: " err), v, w)
            | inl ks =>
                let '(now, w) := time_Now w in
                (None, {| v_cfg := v_cfg v; v_keys := key_map ks;
                          v_nextFetch := (now + cfg_RefreshEvery (v_cfg v))%Z;
                          v_replay := v_replay v |}, w)
            end
      end
  end.

(** A read of the key cache: a key when the cache is fresh and has it. *)
Definition cached_key (kid : string) (v : Verifier) (w : W) : option PublicKey * W :=
  let '(now, w) := time_Now w in
  (if Before now (v_nextFetch v) then v_keys v !! kid else None, w).

(** The cache is read under the read lock, then again under the write lock. *)
Definition keyFor (kid : string) (v : Verifier) (w : W) : (PublicKey + error) * Verifier * W :=
  let '(k, w) := cached_key kid v w in
  match k with
  | Some k => (inl k, v, w)
  | None =>
      let '(k, w) := cached_key kid v w in
      match k with
      | Some k => (inl k, v, w)
      | None =>
          let '(err, v, w) := fetchLocked v w in
          match err with
          | Some err => (inr err, v, w)
          | None =>
              match v_keys v !! kid with
              | Some k => (inl k, v, w)
              | None => (inr (ErrOther "jwks: unknown kid"), v, w)
              end
          end
      end
  end.

Definition check_signature (alg : string) (key : PublicKey) (digest sig : string)
    : option error :=
  if (alg =? "RS256")%string then
    match key with
    | RSAKey n e => match rsa_VerifyPKCS1v15 n e digest sig with
                    | Some err => Some (Wrap "jwks: RS256 verify: " err)
                    | None => None
                    end
    | ECKey _ _ => Some (ErrOther "jwks: kid key is not RSA")
    end
  else if (alg =? "ES256")%string then
    match key with
    | ECKey x y =>
        if negb (len sig =? 64)%Z
        then Some (ErrOther ("jwks: ES256 sig must be 64 bytes, got " +:+ Itoa (len sig)))
        else if ecdsa_Verify x y digest (SetBytes (String.substring 0 32 sig))
                  (SetBytes (str_drop 32 sig))
        then None
        else Some (ErrOther "jwks: ES256 verification failed")
    | RSAKey _ _ => Some (ErrOther "jwks: kid key is not EC")
    end
  else None.

Definition set_replay (r : replayCache) (v : Verifier) : Verifier :=
  {| v_cfg := v_cfg v; v_keys := v_keys v; v_nextFetch := v_nextFetch v; v_replay := r |}.

Definition Verify (token : string) (v : Verifier) (w : W) : (Claims + error) * Verifier * W :=
  match Split token "." with
  | [p0; p1; p2] =>
      match base64url p0 with
      | inr err => (inr (Wrap "jwks: decode header: " err), v, w)
      | inl headerRaw =>
      match json_header headerRaw with
      | inr err => (inr (Wrap "jwks: parse header: " err), v, w)
      | inl hdr =>
      if negb (hdr_Alg hdr =? "RS256")%string && negb (hdr_Alg hdr =? "ES256")%string
      then (inr (ErrOther "jwks: unsupported alg"), v, w) else
      let '(key, v, w) := keyFor (hdr_Kid hdr) v w in
      match key with
      | inr err => (inr err, v, w)
      | inl key =>
      match base64url p2 with
      | inr err => (inr (Wrap "jwks: decode sig: " err), v, w)
      | inl sig =>
      match check_signature (hdr_Alg hdr) key (sha256 (p0 +:+ "." +:+ p1)) sig with
      | Some err => (inr err, v, w)
      | None =>
      match base64url p1 with
      | inr err => (inr (Wrap "jwks: decode payload: " err), v, w)
      | inl payloadRaw =>
      match json_claims payloadRaw with
      | inr err => (inr (Wrap "jwks: parse payload: " err), v, w)
      | inl c =>
      let '(now, w) := time_Now w in
      match check_claims (v_cfg v) (Unix now) c with
      | Some err => (inr err, v, w)
      | None =>
      let '(replayed, v, w) :=
        if negb (cl_Jti c =? "")%string && (0 <? cl_Exp c)%Z then
          let '(now, w) := time_Now w in
          let '(b, r) := check now (cl_Jti c) (time_Unix (cl_Exp c)) (v_replay v) in
          (b, set_replay r v, w)
        else (false, v, w) in
      if (replayed : bool) then (inr (ErrOther "jwks: token replay detected"), v, w) else
      let scopes := Fields (cl_Scope c) in
      (inl {| Subject := cl_Sub c; Level := highestTier scopes (cfg_ScopeMap (v_cfg v));
              Scopes := scopes |}, v, w)
      end end end end end end end end
  | _ => (inr (ErrOther "jwks: malformed token"), v, w)
  end.

(** As the [auth.Verifier] the server is given. *)
Definition jwks_verifier : Auth.Verifier (Verifier * W) := λ token vw,
  let '(r, v, w) := Verify token vw.1 vw.2 in (r, (v, w)).
End verifier.

(** * Theorems *)

(** ** Tiers *)
Lemma highestTier_foldl scopes (m : gmap string AccessLevel) l0 :
  let l := foldl (λ level s, match m !! s with
                    | Some t => if (level <? t)%Z then t else level
                    | None => level
                    end) l0 scopes in
  (l0 ≤ l)%Z ∧ (∀ s t, s ∈ scopes → m !! s = Some t → (t ≤ l)%Z) ∧
  (l = l0 ∨ ∃ s, s ∈ scopes ∧ m !! s = Some l).
Proof.
  revert l0. induction scopes as [|s scopes IH]; intros l0; cbn.
  { split_and!; [lia| |by left]. by intros s t ?%not_elem_of_nil. }
  set (l1 := match m !! s with Some t => _ | None => _ end).
  destruct (IH l1) as (H1 & H2 & H3). cbv zeta in H1, H2, H3.
  assert (Hl1 : (l0 ≤ l1)%Z ∧ (∀ t, m !! s = Some t → (t ≤ l1)%Z) ∧ (l1 = l0 ∨ m !! s = Some l1)).
  { subst l1. destruct (m !! s) as [t|]; [|by split_and!; [lia| |left]].
    destruct (Z.ltb_spec l0 t); split_and!; try (intros ? [= <-]); auto; lia. }
  destruct Hl1 as (Hle & Hs & Hor). split_and!; [lia| |].
  - intros s' t [->|Hin]%elem_of_cons Ht; [specialize (Hs t Ht); lia|by apply (H2 s')].
  - destruct H3 as [->|(s' & Hin & Ht)].
    + destruct Hor as [->|Hs']; [by left|]. right. exists s. split; [set_solver|done].
    + right. exists s'. split; [set_solver|done].
Qed.

(** The tier of a valid token is the highest of [authenticated] and the tiers its
    scopes map to, neither less nor more: it is at least [authenticated], at least the
    tier of every mapped scope of the token, and equal to one of them; so it depends
    neither on the order nor on the repetition of the scopes, and unknown scopes do not
    count. *)
Theorem highestTier_max scopes m :
  let l := highestTier scopes m in
  (AccessAuthenticated ≤ l)%Z ∧
  (∀ s t, s ∈ scopes → m !! s = Some t → (t ≤ l)%Z) ∧
  (l = AccessAuthenticated ∨ ∃ s, s ∈ scopes ∧ m !! s = Some l) ∧
  ∀ scopes', (∀ s, s ∈ scopes' ↔ s ∈ scopes) → highestTier scopes' m = l.
Proof.
  assert (Hmax : ∀ scopes, let l := highestTier scopes m in
    (AccessAuthenticated ≤ l)%Z ∧ (∀ s t, s ∈ scopes → m !! s = Some t → (t ≤ l)%Z) ∧
    (l = AccessAuthenticated ∨ ∃ s, s ∈ scopes ∧ m !! s = Some l)).
  { clear scopes. intros scopes. unfold highestTier. case_bool_decide as Hm; [|apply highestTier_foldl].
    subst m. split_and!; [done| |by left]. intros s t _. by rewrite lookup_empty. }
  intros l. destruct (Hmax scopes) as (H1 & H2 & H3). fold l in H1, H2, H3.
  split_and!; [done..|]. intros scopes' Heq.
  destruct (Hmax scopes') as (H1' & H2' & H3'). apply Z.le_antisymm.
  - destruct H3' as [->|(s & Hs & Hm)]; [done|]. apply (H2 s); [by apply Heq|done].
  - destruct H3 as [->|(s & Hs & Hm)]; [done|]. apply (H2' s); [by apply Heq|done].
Qed.

(** ** Replays *)

(** The record without pruning: the expiry of the last accepted use of each [jti]. *)
Definition spec_check (now : Time) (jti : string) (exp : Time) (m : gmap string Time)
    : bool * gmap string Time :=
  if (jti =? "")%string then (false, m) else
  match m !! jti with
  | Some e => if Before now e then (true, m) else (false, <[ jti := exp ]> m)
  | None => (false, <[ jti := exp ]> m)
  end.

Definition call : Type := Time * string * Time.
Fixpoint check_all (calls : list call) (r : replayCache) : list bool * replayCache :=
  match calls with
  | [] => ([], r)
  | (now, jti, exp) :: calls =>
      let '(b, r) := check now jti exp r in
      let '(bs, r) := check_all calls r in (b :: bs, r)
  end.
Fixpoint spec_all (calls : list call) (m : gmap string Time) : list bool * gmap string Time :=
  match calls with
  | [] => ([], m)
  | (now, jti, exp) :: calls =>
      let '(b, m) := spec_check now jti exp m in
      let '(bs, m) := spec_all calls m in (b :: bs, m)
  end.

(** At time [t], the cache holds the record up to entries that have expired. *)
Definition replay_sim (t : Time) (r : replayCache) (m : gmap string Time) : Prop :=
  seen r ⊆ m ∧ ∀ jti (e : Time), m !! jti = Some e → (t ≤ e)%Z → seen r !! jti = Some e.

Lemma prune_at_sim t now r m : (t ≤ now)%Z → replay_sim t r m → replay_sim now (prune_at now r) m.
Proof.
  intros Ht [Hsub Hall]. unfold prune_at. destruct (_ || _); cbn [seen].
  - split.
    + cbn. etrans; [apply map_filter_subseteq|done].
    + intros jti e Hm He. cbn. apply map_lookup_filter_Some. split; [apply Hall; [done|lia]|].
      apply Z.ltb_ge. exact He.
  - split; [done|]. intros jti e Hm He. apply Hall; [done|lia].
Qed.

Lemma check_sim t now jti exp r m : (t ≤ now)%Z → replay_sim t r m →
  (check now jti exp r).1 = (spec_check now jti exp m).1 ∧
  replay_sim now (check now jti exp r).2 (spec_check now jti exp m).2.
Proof.
  intros Ht Hsim. unfold check, spec_check.
  destruct (jti =? "")%string.
  { split; [done|]. destruct Hsim as [Hsub Hall]. split; [done|].
    intros j e Hm He. apply Hall; [done|cbn in *; lia]. }
  destruct (prune_at_sim t now r m Ht Hsim) as [Hsub Hall].
  assert (Hrec : replay_sim now {| seen := <[jti:=exp]> (seen (prune_at now r));
                                   prune := prune (prune_at now r) |} (<[jti:=exp]> m)).
  { split; cbn; [by apply insert_mono|]. intros j e Hm He.
    destruct (decide (j = jti)) as [->|Hj].
    - rewrite lookup_insert_eq in Hm |- *. done.
    - rewrite lookup_insert_ne in Hm |- * by done. by apply Hall. }
  destruct (seen (prune_at now r) !! jti) as [e|] eqn:Es.
  - assert (Em : m !! jti = Some e) by exact (lookup_weaken _ _ _ _ Es Hsub).
    rewrite Em. destruct (Before now e); by split.
  - destruct (m !! jti) as [e|] eqn:Em; [|by split].
    unfold Before. destruct (Z.ltb_spec now e) as [Hlt|]; [|by split].
    by rewrite (Hall jti e Em ltac:(lia)) in Es.
Qed.

(** The instants of a sequence of calls do not decrease. *)
Fixpoint in_order (t : Time) (calls : list call) : Prop :=
  match calls with
  | [] => True
  | (now, _, _) :: calls => (t ≤ now)%Z ∧ in_order now calls
  end.

Fixpoint last_time (t : Time) (calls : list call) : Time :=
  match calls with [] => t | (now, _, _) :: calls => last_time now calls end.

Lemma check_all_sim t calls r m : in_order t calls → replay_sim t r m →
  (check_all calls r).1 = (spec_all calls m).1 ∧
  replay_sim (last_time t calls) (check_all calls r).2 (spec_all calls m).2.
Proof.
  revert t r m. induction calls as [|[[now jti] exp] calls IH]; intros t r m; [done|].
  cbn. intros [Ht Hord] Hsim.
  destruct (check_sim t now jti exp r m Ht Hsim) as [Hb Hsim'].
  destruct (check now jti exp r) as [b r'], (spec_check now jti exp m) as [b' m']. cbn in Hb, Hsim'.
  destruct (IH now r' m' Hord Hsim') as [Hbs Hsim''].
  destruct (check_all calls r'), (spec_all calls m'). cbn in Hbs, Hsim'' |- *.
  split; [congruence|done].
Qed.

(** [(jti, e)] is an accepted use among [calls], answered [bs]. *)
Definition used (calls : list call) (bs : list bool) (jti : string) (e : Time) : Prop :=
  jti ≠ "" ∧ ∃ t, ((t, jti, e), false) ∈ zip calls bs.

(** The record holds, for each [jti], the accepted use that has not expired. *)
Definition record_of (t : Time) (A : string → Time → Prop) (m : gmap string Time) : Prop :=
  (∀ jti (e : Time), m !! jti = Some e → A jti e) ∧
  (∀ jti (e : Time), A jti e → m !! jti = Some e ∨ (e ≤ t)%Z).

Lemma spec_check_record t now jti exp m A :
  (t ≤ now)%Z → record_of t A m →
  let '(b, m') := spec_check now jti exp m in
  record_of now (λ j e, A j e ∨ (jti ≠ "" ∧ b = false ∧ j = jti ∧ e = exp)) m'.
Proof.
  intros Ht [H1 H2]. unfold spec_check.
  assert (Hkeep : ∀ b, (jti = "" ∨ b = true) →
    record_of now (λ j e, A j e ∨ (jti ≠ "" ∧ b = false ∧ j = jti ∧ e = exp)) m).
  { intros b Hb. split; [intros j e Hj; left; by apply H1|].
    intros j e [HA|(Hne & -> & _)]; [|by destruct Hb].
    destruct (H2 j e HA); [by left|right; lia]. }
  destruct (String.eqb_spec jti "") as [Hj|Hj]; [apply Hkeep; by left|].
  assert (Hadd : (∀ e : Time, m !! jti = Some e → (e ≤ now)%Z) →
    record_of now (λ j e, A j e ∨ (jti ≠ "" ∧ false = false ∧ j = jti ∧ e = exp))
      (<[ jti := exp ]> m)).
  { intros Hold. split; intros j e.
    - intros [[<- <-]|[Hne Hm]]%lookup_insert_Some; [by right|left; by apply H1].
    - intros [HA|(_ & _ & -> & ->)]; [|left; by rewrite lookup_insert_eq].
      destruct (decide (j = jti)) as [->|Hne].
      + right. destruct (H2 jti e HA) as [Hm|]; [by apply Hold|lia].
      + rewrite lookup_insert_ne by done. destruct (H2 j e HA); [by left|right; lia]. }
  destruct (m !! jti) as [e|] eqn:Em; [|by apply Hadd].
  unfold Before. destruct (Z.ltb_spec now e); [apply Hkeep; by right|].
  apply Hadd. intros e' Hm. by simplify_eq.
Qed.

Lemma record_of_ext t A B m :
  (∀ j e, A j e ↔ B j e) → record_of t A m → record_of t B m.
Proof. intros HAB [H1 H2]. split; intros j e HH; [apply HAB; auto|apply H2, HAB, HH]. Qed.

Lemma spec_all_record t calls m A : in_order t calls → record_of t A m →
  record_of (last_time t calls) (λ j e, A j e ∨ used calls (spec_all calls m).1 j e)
    (spec_all calls m).2.
Proof.
  revert t m A. induction calls as [|[[now jti] exp] calls IH]; intros t m A.
  { intros _. apply record_of_ext. intros j e. split; [by left|].
    intros [?|(_ & t' & Hin)]; [done|]. by apply not_elem_of_nil in Hin. }
  cbn [in_order last_time spec_all]. intros [Ht Hord] Hrec.
  pose proof (spec_check_record t now jti exp m A Ht Hrec) as Hstep.
  destruct (spec_check now jti exp m) as [b m'].
  specialize (IH now m' _ Hord Hstep). destruct (spec_all calls m') as [bs m'']. cbn in IH |- *.
  eapply record_of_ext; [|exact IH]. intros j e. cbn. unfold used. cbn [zip_with].
  setoid_rewrite elem_of_cons. split.
  - intros [[?|(Hne & -> & -> & ->)]|(Hne & t' & Hin)]; [by left|right..].
    + split; [done|]. exists now. by left.
    + split; [done|]. exists t'. by right.
  - intros [?|(Hne & t' & [[= -> -> -> <-]|Hin])]; [by left; left|left; right; by split_and!|].
    right. split; [done|]. by exists t'.
Qed.

(** C18: the replay cache, pruning included, is exact until a token expires: whatever calls
    came before, at non-decreasing instants, a use of a non-empty [jti] is refused if and
    only if an earlier accepted use of the same [jti] carried an expiry that lies in the
    future.  So the same token is never accepted twice before its expiry; at or after it
    the cache lets it pass again. *)
Theorem replay_cache_exact calls now jti exp :
  in_order 0%Z calls → (last_time 0%Z calls ≤ now)%Z → jti ≠ "" →
  let '(bs, r) := check_all calls newReplayCache in
  (check now jti exp r).1 = true ↔ ∃ e, used calls bs jti e ∧ (now < e)%Z.
Proof.
  intros Hord Hlast Hne.
  assert (Hsim0 : replay_sim 0%Z newReplayCache ∅).
  { split; [done|]. intros j e Hm. by rewrite lookup_empty in Hm. }
  destruct (check_all_sim 0%Z calls newReplayCache ∅ Hord Hsim0) as [Hbs Hst].
  assert (Hrec0 : record_of 0%Z (λ _ _, False) ∅).
  { split; [|done]. intros j e Hm. by rewrite lookup_empty in Hm. }
  pose proof (spec_all_record 0%Z calls ∅ _ Hord Hrec0) as [H1 H2].
  destruct (check_all calls newReplayCache) as [bs r], (spec_all calls ∅) as [bs' m].
  cbn [fst snd] in *. subst bs'.
  destruct (check_sim _ now jti exp r m Hlast Hst) as [-> _].
  unfold spec_check. rewrite (proj2 (String.eqb_neq jti "") Hne). split.
  - destruct (m !! jti) as [e|] eqn:Em; [|done]. unfold Before.
    destruct (Z.ltb_spec now e); [|done]. intros _. exists e.
    by destruct (H1 jti e Em).
  - intros (e & Hu & Hlt). destruct (H2 jti e (or_intror Hu)) as [->|]; [|cbn in *; lia].
    unfold Before. by rewrite (proj2 (Z.ltb_lt now e) Hlt).
Qed.

(** ** Keys *)

(** The last usable key of a document under a [kid]. *)
Definition last_key (ks : list jwk) (kid : string) : option PublicKey :=
  last (omap (λ k, if (jwk_Kid k =? kid)%string
                   then match publicKey k with inl pk => Some pk | inr _ => None end
                   else None) ks).

Lemma key_map_snoc ks k :
  key_map (ks ++ [k]) = match publicKey k with
                        | inl pk => <[ jwk_Kid k := pk ]> (key_map ks)
                        | inr _ => key_map ks
                        end.
Proof. unfold key_map. by rewrite foldl_app. Qed.

Lemma key_map_last ks kid : key_map ks !! kid = last_key ks kid.
Proof.
  unfold last_key. induction ks as [|k ks IH] using rev_ind; [done|].
  rewrite key_map_snoc, omap_app, last_app. cbn.
  destruct (String.eqb_spec (jwk_Kid k) kid) as [<-|Hne], (publicKey k) as [pk|e];
    cbn; rewrite ?lookup_insert_eq, ?lookup_insert_ne by done; done.
Qed.

Section theorems.
Context `{JOSE} {W : Type} (time_Now : W → Time * W).
Context (http_NewRequest : string → option error).
Context (http_Do : string → W → (Bootstrap.response + error) * W).

#[local] Abbreviation keyFor := (keyFor time_Now http_NewRequest http_Do).
#[local] Abbreviation Verify := (Verify time_Now http_NewRequest http_Do).
#[local] Abbreviation jwks_verifier := (jwks_verifier time_Now http_NewRequest http_Do).

(** A fetch that succeeded: the document and the instant it was stored. *)
Definition fetched (v : Verifier) (w : W) (ks : list jwk) (t : Time) (w' : W) : Prop :=
  ∃ body w1, cfg_JWKSURL (v_cfg v) ≠ "" ∧
    http_Do (cfg_JWKSURL (v_cfg v)) w =
      (inl {| Bootstrap.StatusCode := 200; Bootstrap.Body := body |}, w1) ∧
    json_keys body = inl ks ∧ time_Now w1 = (t, w').

Definition stored (v : Verifier) (ks : list jwk) (t : Time) : Verifier :=
  {| v_cfg := v_cfg v; v_keys := key_map ks;
     v_nextFetch := (t + cfg_RefreshEvery (v_cfg v))%Z; v_replay := v_replay v |}.

Lemma fetchLocked_spec v w :
  let '(err, v', w') := fetchLocked time_Now http_NewRequest http_Do v w in
  match err with
  | Some _ => v' = v
  | None => ∃ ks t, fetched v w ks t w' ∧ v' = stored v ks t
  end.
Proof.
  unfold fetchLocked, fetched.
  destruct (String.eqb_spec (cfg_JWKSURL (v_cfg v)) "") as [|Hurl]; [done|].
  destruct (http_NewRequest _); [done|].
  destruct (http_Do _ w) as [[[code body]|e] w1] eqn:Hdo; [|done]. cbn [Bootstrap.StatusCode Bootstrap.Body].
  destruct (Z.eqb_spec code 200) as [->|]; cbn [negb]; [|done].
  destruct (json_keys body) as [ks|e] eqn:Hks; [|done].
  destruct (time_Now w1) as [t w2] eqn:Et. exists ks, t. split; [|done].
  by exists body, w1.
Qed.

(** Where the keys of a verifier come from: nowhere yet, or one document, good until
    [RefreshEvery] after it was stored. *)
Definition provenance (v : Verifier) (ks : list jwk) (t : Time) : Prop :=
  v_keys v = key_map ks ∧ v_nextFetch v = (t + cfg_RefreshEvery (v_cfg v))%Z.
Definition has_provenance (v : Verifier) : Prop :=
  v_keys v = ∅ ∨ ∃ ks t, provenance v ks t.

Lemma keyFor_cases kid v w :
  let '(key, v', w') := keyFor kid v w in
  (∃ now w0 w1 k, v' = v ∧ key = inl k ∧ time_Now w0 = (now, w1) ∧ w' = w1 ∧
     (now < v_nextFetch v)%Z ∧ v_keys v !! kid = Some k) ∨
  (∃ e, v' = v ∧ key = inr e) ∨
  (∃ w1 ks t, fetched v w1 ks t w' ∧ v' = stored v ks t ∧
     match last_key ks kid with
     | Some k => key = inl k
     | None => key = inr (ErrOther "jwks: unknown kid")
     end).
Proof.
  assert (Hread : ∀ w, let '(k, w') := cached_key time_Now kid v w in
    ∀ pk, k = Some pk → ∃ now, time_Now w = (now, w') ∧ (now < v_nextFetch v)%Z ∧
      v_keys v !! kid = Some pk).
  { intros w0. unfold cached_key. destruct (time_Now w0) as [now w']. unfold Before.
    destruct (Z.ltb_spec now (v_nextFetch v)); [|done]. intros pk Hpk. by exists now. }
  unfold Jwks.keyFor.
  pose proof (Hread w) as H1. destruct (cached_key time_Now kid v w) as [[k|] w1].
  { destruct (H1 k eq_refl) as (now & ? & ? & ?). left. by exists now, w, w1, k. }
  pose proof (Hread w1) as H2. destruct (cached_key time_Now kid v w1) as [[k|] w2].
  { destruct (H2 k eq_refl) as (now & ? & ? & ?). left. by exists now, w1, w2, k. }
  pose proof (fetchLocked_spec v w2) as H3.
  destruct (fetchLocked _ _ _ v w2) as [[err v'] w3]. cbv beta iota in H3.
  destruct err as [err|]; [subst v'; right; left; by exists err|].
  destruct H3 as (ks & t & Hf & ->). cbn [v_keys stored]. rewrite key_map_last.
  destruct (last_key ks kid) as [k|] eqn:Ek; right; right; exists w2, ks, t; by rewrite Ek.
Qed.

(** C24: the key store never serves a key from anywhere but one whole key document,
    fetched with status 200 and stored less than [RefreshEvery] before it is used:
    whatever happens (network error, bad status, bad JSON, unusable or duplicate keys),
    [keyFor] leaves the store as it was or replaces it by the document it has just
    fetched, and a key it returns is the last usable one of that [kid] in the document
    the store then holds.  Only the key store changes. *)
Theorem keyFor_fresh kid v w :
  has_provenance v →
  let '(key, v', w') := keyFor kid v w in
  has_provenance v' ∧ v_cfg v' = v_cfg v ∧ v_replay v' = v_replay v ∧
  (v' = v ∨ ∃ w1 ks t, fetched v w1 ks t w' ∧ v' = stored v ks t) ∧
  ∀ k, key = inl k → ∃ ks t, provenance v' ks t ∧ last_key ks kid = Some k ∧
    ((∃ w1, fetched v w1 ks t w') ∨
     (∃ w1 now, time_Now w1 = (now, w') ∧ (now < t + cfg_RefreshEvery (v_cfg v))%Z)).
Proof.
  intros Hprov. pose proof (keyFor_cases kid v w) as Hc.
  destruct (keyFor kid v w) as [[key v'] w'].
  destruct Hc as [(now & w0 & w1 & k & -> & -> & Ht & -> & Hlt & Hk)
                 |[(e & -> & ->)|(w1 & ks & t & Hf & -> & Hkey)]].
  - split_and!; try done; [by left|]. intros k' [= <-].
    destruct Hprov as [He|(ks & t & Hp)]; [by rewrite He, lookup_empty in Hk|].
    exists ks, t. destruct (Hp) as [Hks Hn]. split_and!; [done| |].
    + by rewrite <-key_map_last, <-Hks.
    + right. exists w0, now. split; [done|]. by rewrite <-Hn.
  - split_and!; try done. by left.
  - assert (Hp : provenance (stored v ks t) ks t) by done.
    split_and!; try done; [right; by exists ks, t|right; by exists w1, ks, t|].
    intros k ->. exists ks, t. split_and!; [done| |left; by exists w1].
    destruct (last_key ks kid); congruence.
Qed.

(** ** Tokens *)

(** The signature of a digest under a key, by the algorithm of the key's kind. *)
Definition signed_by (alg : string) (key : PublicKey) (digest sig : string) : Prop :=
  match key with
  | RSAKey n e => alg = "RS256" ∧ rsa_VerifyPKCS1v15 n e digest sig = None
  | ECKey x y => alg = "ES256" ∧ len sig = 64%Z ∧
      ecdsa_Verify x y digest (SetBytes (String.substring 0 32 sig))
        (SetBytes (str_drop 32 sig)) = true
  end.

Lemma check_signature_None alg key digest sig :
  alg = "RS256" ∨ alg = "ES256" →
  check_signature alg key digest sig = None ↔ signed_by alg key digest sig.
Proof.
  unfold check_signature, signed_by. intros [->| ->]; destruct key as [n e|x y]; cbn [String.eqb Ascii.eqb Bool.eqb].
  - destruct (rsa_VerifyPKCS1v15 n e digest sig); naive_solver.
  - naive_solver.
  - naive_solver.
  - destruct (Z.eqb_spec (len sig) 64), (ecdsa_Verify _ _ _ _ _); cbn [negb]; naive_solver.
Qed.

(** The claims a verifier lets pass at Unix time [now], with the addition of the skew
    given by [add]. *)
Definition claims_hold (add : Z → Z → Z) (cfg : Config) (now : Z) (c : claims) : Prop :=
  ((0 < cl_Exp c)%Z → (now ≤ add (cl_Exp c) (skew_of cfg))%Z) ∧
  ((0 < cl_Nbf c)%Z → (cl_Nbf c ≤ add now (skew_of cfg))%Z) ∧
  (cfg_Issuer cfg ≠ "" → cl_Iss c = cfg_Issuer cfg) ∧
  (cfg_Audience cfg ≠ "" → audContains (cl_Aud c) (cfg_Audience cfg) = true).

Definition int64_add (a b : Z) : Z := wrap64 (a + b).

Lemma check_claims_None cfg now c :
  check_claims cfg now c = None ↔ claims_hold int64_add cfg now c.
Proof.
  unfold check_claims, claims_hold, int64_add. set (skew := skew_of cfg).
  destruct (Z.ltb_spec 0 (cl_Exp c)), (Z.ltb_spec (wrap64 (cl_Exp c + skew)) now); cbn [andb];
    try (split; [done|intros (Hx & _); specialize (Hx ltac:(lia)); lia]).
  all: destruct (Z.ltb_spec 0 (cl_Nbf c)), (Z.ltb_spec (wrap64 (now + skew)) (cl_Nbf c));
    cbn [andb];
    try (split; [done|intros (_ & Hx & _); specialize (Hx ltac:(lia)); lia]).
  all: destruct (String.eqb_spec (cfg_Issuer cfg) ""), (String.eqb_spec (cl_Iss c) (cfg_Issuer cfg));
    cbn [andb negb]; try (split; [done|intros (_ & _ & Hx & _); by specialize (Hx ltac:(done))]).
  all: destruct (String.eqb_spec (cfg_Audience cfg) ""), (audContains (cl_Aud c) (cfg_Audience cfg));
    cbn [andb negb]; try (split; [done|intros (_ & _ & _ & Hx); by specialize (Hx ltac:(done))]).
  all: split; [|done]; intros _; split_and!; intros; done || lia.
Qed.

(** The uses the replay cache is asked about. *)
Definition replay_ok (v1 : Verifier) (w2 : W) (c : claims) (v' : Verifier) (w' : W) : Prop :=
  if negb (cl_Jti c =? "")%string && (0 <? cl_Exp c)%Z
  then ∃ now, time_Now w2 = (now, w') ∧
         (check now (cl_Jti c) (time_Unix (cl_Exp c)) (v_replay v1)).1 = false ∧
         v' = set_replay (check now (cl_Jti c) (time_Unix (cl_Exp c)) (v_replay v1)).2 v1
  else v' = v1 ∧ w' = w2.

(** A token that is accepted with claims [c], from state [(v, w)] to [(v', w')]. *)
Definition valid_token (token : string) (v : Verifier) (w : W)
    (c : Claims) (v' : Verifier) (w' : W) : Prop :=
  ∃ p0 p1 p2 h hdr key v1 w1 sig payload cl now w2,
    Split token "." = [p0; p1; p2] ∧
    base64url p0 = inl h ∧ json_header h = inl hdr ∧
    keyFor (hdr_Kid hdr) v w = (inl key, v1, w1) ∧
    base64url p2 = inl sig ∧ signed_by (hdr_Alg hdr) key (sha256 (p0 +:+ "." +:+ p1)) sig ∧
    base64url p1 = inl payload ∧ json_claims payload = inl cl ∧
    time_Now w1 = (now, w2) ∧ claims_hold int64_add (v_cfg v1) (Unix now) cl ∧
    replay_ok v1 w2 cl v' w' ∧
    c = {| Subject := cl_Sub cl;
           Level := highestTier (Fields (cl_Scope cl)) (cfg_ScopeMap (v_cfg v1));
           Scopes := Fields (cl_Scope cl) |}.

Lemma signed_by_alg alg key digest sig :
  signed_by alg key digest sig → alg = "RS256" ∨ alg = "ES256".
Proof. destruct key; intros [-> _]; auto. Qed.

Lemma Verify_valid token v w c v' w' :
  Verify token v w = (inl c, v', w') → valid_token token v w c v' w'.
Proof.
  unfold Jwks.Verify, valid_token. intros E.
  destruct (Split token ".") as [|p0 [|p1 [|p2 [|]]]]; try done.
  destruct (base64url p0) as [h|] eqn:E0; [|done].
  destruct (json_header h) as [hdr|] eqn:Eh; [|done].
  destruct (_ && _) eqn:Ealg; [done|].
  assert (Halg : hdr_Alg hdr = "RS256" ∨ hdr_Alg hdr = "ES256").
  { apply andb_false_iff in Ealg as [Ha|Ha]; apply negb_false_iff, String.eqb_eq in Ha; auto. }
  destruct (Jwks.keyFor _ _ _ (hdr_Kid hdr) v w) as [[[key|] v1] w1] eqn:Ek; [|done].
  destruct (base64url p2) as [sig|] eqn:E2; [|done].
  destruct (check_signature _ _ _ _) eqn:Es; [done|].
  apply (check_signature_None _ _ _ _ Halg) in Es.
  destruct (base64url p1) as [payload|] eqn:E1; [|done].
  destruct (json_claims payload) as [cl|] eqn:Ec; [|done].
  destruct (time_Now w1) as [now w2] eqn:Et.
  destruct (check_claims _ _ _) eqn:Ech; [done|]. apply check_claims_None in Ech.
  exists p0, p1, p2, h, hdr, key, v1, w1, sig, payload, cl, now, w2.
  unfold replay_ok. set (jt := negb (cl_Jti cl =? "")%string && (0 <? cl_Exp cl)%Z) in *. destruct jt.
  - destruct (time_Now w2) as [now2 w3].
    destruct (check now2 _ _ (v_replay v1)) as [b r] eqn:Er. cbn [fst snd] in *.
    destruct b; cbv beta iota zeta in E; [done|]. injection E as <- <- <-. split_and!; try done.
    exists now2. rewrite Er. by split_and!.
  - cbv beta iota zeta in E. injection E as <- <- <-. by split_and!.
Qed.

Lemma valid_Verify token v w c v' w' :
  valid_token token v w c v' w' → Verify token v w = (inl c, v', w').
Proof.
  intros (p0 & p1 & p2 & h & hdr & key & v1 & w1 & sig & payload & cl & now & w2 &
    Hsp & H0 & Hh & Hk & H2 & Hs & H1 & Hc & Ht & Hcl & Hr & ->).
  pose proof (signed_by_alg _ _ _ _ Hs) as Halg.
  unfold Jwks.Verify. rewrite Hsp, H0, Hh.
  replace (negb (hdr_Alg hdr =? "RS256")%string && negb (hdr_Alg hdr =? "ES256")%string) with false
    by (by destruct Halg as [-> | ->]).
  rewrite Hk, H2. rewrite (proj2 (check_signature_None _ _ _ _ Halg) Hs), H1, Hc, Ht.
  rewrite (proj2 (check_claims_None _ _ _) Hcl). unfold replay_ok in Hr.
  set (jt := negb (cl_Jti cl =? "")%string && (0 <? cl_Exp cl)%Z) in *. destruct jt.
  - destruct Hr as (now2 & -> & Hb & ->).
    destruct (check now2 _ _ (v_replay v1)) as [b r]. cbn in Hb |- *. by subst b.
  - by destruct Hr as [-> ->].
Qed.

(** C23: [Verify] accepts a token if and only if it has three parts; its header decodes
    and names RS256 or ES256; the key store yields a key of that kind for its [kid]; the
    signature verifies the first two parts under that key; its claims parse, are inside
    the time window widened by the skew (the addition in 64 bits) and name the
    configured issuer and audience, when configured; and its [jti], when it has one and
    expires, is not a replay.  The claims returned are then the subject, the scopes and
    their highest tier, and the state differs in the fetched keys and the replay record
    alone. *)
Theorem Verify_accepts_iff token v w c v' w' :
  Verify token v w = (inl c, v', w') ↔ valid_token token v w c v' w'.
Proof. split; [apply Verify_valid|apply valid_Verify]. Qed.

(** Adding a non-negative skew in 64 bits never exceeds the exact sum. *)
Lemma int64_add_le a b : in_int64 a → (0 ≤ b ≤ int64_max)%Z → (int64_add a b ≤ a + b)%Z.
Proof.
  unfold int64_add, in_int64, int64_min, int64_max. intros Ha Hb.
  destruct (Z.le_gt_cases (a + b) (2 ^ 63 - 1)) as [Hle|Hgt].
  - rewrite wrap64_id; [done|]. unfold in_int64, int64_min, int64_max. lia.
  - pose proof (wrap64_range (a + b)) as [_ Hr]. unfold int64_max in Hr. lia.
Qed.

Lemma trunc_fval x z : float_trunc x = Some z → pos_float x →
  (0 ≤ z)%Z ∧ (inject_Z z <= fval x)%Q.
Proof.
  destruct x as [s| | |[] m e]; cbn; try done; intros [= <-] Hb; [done|].
  rewrite Z.mul_1_l. split; [by apply Z.shiftl_nonneg|].
  destruct (Z.le_ge_cases 0 e) as [He|He].
  - rewrite Z.shiftl_mul_pow2, inject_Z_mult, pow2_Z by done. apply Qle_refl.
  - rewrite shiftl_div by done. rewrite <-(Qmult_1_r (inject_Z (_ / _))).
    assert (E : (pow2 (- e) * pow2 e == 1)%Q).
    { rewrite <-pow2_add, Z.add_opp_diag_l. done. }
    rewrite <-E, Qmult_assoc. apply Qmult_le_compat_r; [|apply Qlt_le_weak, pow2_pos].
    rewrite <-pow2_Z, <-inject_Z_mult, <-Zle_Qle by lia.
    rewrite Z.mul_comm. apply Z.mul_div_le. by apply Z.pow_pos_nonneg; lia.
Qed.

Lemma skew_bounds cfg : (0 < cfg_ClockSkew cfg ≤ int64_max)%Z → (0 ≤ skew_of cfg ≤ int64_max)%Z.
Proof.
  intros Hs. unfold skew_of. destruct (float_trunc _) as [z|] eqn:Ez; cbn; [|done].
  destruct (Seconds_bound _ Hs) as [Hp Hv]. destruct (trunc_fval _ _ Ez Hp) as [Hz Hle].
  split; [done|].
  assert (Hd : (seconds (cfg_ClockSkew cfg) <= seconds int64_max)%Q) by (apply seconds_le; lia).
  assert (Hm : (seconds int64_max * (1 + 3 * eps) + 3 * eta <= inject_Z int64_max)%Q) by by vm_compute.
  assert (He : (0 < 1 + 3 * eps)%Q) by (pose proof eps_pos; lra).
  rewrite Zle_Qle. eapply Qle_trans; [exact Hle|]. eapply Qle_trans; [exact Hv|].
  eapply Qle_trans; [|exact Hm]. apply Qplus_le_compat; [|apply Qle_refl].
  apply Qmult_le_compat_r; [done|by apply Qlt_le_weak].
Qed.

Lemma claims_hold_exact cfg now c :
  (0 < cfg_ClockSkew cfg ≤ int64_max)%Z → in_int64 now → in_int64 (cl_Exp c) →
  claims_hold int64_add cfg now c → claims_hold Z.add cfg now c.
Proof.
  intros Hs%skew_bounds Hn He (H1 & H2 & H3 & H4). split_and!; try done; intros Hpos.
  - specialize (H1 Hpos). pose proof (int64_add_le _ _ He Hs). lia.
  - specialize (H2 Hpos). pose proof (int64_add_le _ _ Hn Hs). lia.
Qed.

End theorems.

(** * Witnesses: a key server with one RSA key *)
Definition toy_jwk : jwk :=
  {| jwk_Kty := "RSA"; jwk_Kid := "k1"; jwk_Use := "sig"; jwk_Alg := "RS256";
     jwk_N := b64_encode "N"; jwk_E := b64_encode "E"; jwk_Crv := ""; jwk_X := ""; jwk_Y := "" |}.
Definition toy_claims : claims :=
  {| cl_Sub := "alice"; cl_Iss := "idp"; cl_Aud := any_slice [any_string "rdap"];
     cl_Exp := 2000000000; cl_Nbf := 0; cl_Jti := "j1"; cl_Scope := "rdap:basic rdap:full" |}.
(** A signature is the signed text behind "sig:"; the digest is the text itself. *)
Definition toy_jose : JOSE :=
  {| json_header := λ b, if (b =? "header")%string
                         then inl {| hdr_Alg := "RS256"; hdr_Kid := "k1" |} else inr ErrTooLong;
     json_claims := λ b, if (b =? "claims")%string then inl toy_claims else inr ErrTooLong;
     json_keys := λ b, if (b =? "keys")%string then inl [toy_jwk] else inr ErrTooLong;
     sha256 := λ s, s;
     rsa_VerifyPKCS1v15 := λ n e d s, if (s =? "sig:" +:+ d)%string then None else Some ErrCharSet;
     ecdsa_Verify := λ _ _ _ _ _, false |}.
#[local] Existing Instance toy_jose.
(** The world is the clock, in nanoseconds, up to the year 10000; only the test moves it. *)
Definition toy_now (w : Time) : Time * Time :=
  (if (0 <=? w)%Z && (w <=? 315569520000 * Second)%Z then w else 0%Z, w).
Lemma toy_now_range w : in_int64 (Unix (toy_now w).1).
Proof.
  unfold toy_now, Unix, in_int64, int64_min, int64_max, unixToInternal. cbn [fst].
  assert (Hr : ∀ x, (0 ≤ x ≤ 315569520000 * Second)%Z → (0 ≤ x / Second ≤ 315569520000)%Z).
  { intros x Hx. split; [apply Z.div_pos; unfold Second in *; lia|].
    apply Z.div_le_upper_bound; unfold Second in *; lia. }
  destruct (_ && _) eqn:E; bool_hyps; [specialize (Hr w ltac:(lia))|specialize (Hr 0%Z)];
    unfold Second in *; lia.
Qed.
Definition toy_request (_ : string) : option error := None.
Definition toy_http (url : string) (w : Time) : (Bootstrap.response + error) * Time :=
  (inl {| Bootstrap.StatusCode := 200; Bootstrap.Body := "keys" |}, w).
Definition toy_config : Config :=
  {| cfg_JWKSURL := "https://idp/keys"; cfg_Issuer := "idp"; cfg_Audience := "rdap";
     cfg_RefreshEvery := 0%Z; cfg_ClockSkew := 0%Z;
     cfg_ScopeMap := {[ "rdap:full" := AccessPrivileged ]} |}.
Definition toy_token : string :=
  let signed := b64_encode "header" +:+ "." +:+ b64_encode "claims" in
  signed +:+ "." +:+ b64_encode ("sig:" +:+ signed).
Definition toy_verify := Verify toy_now toy_request toy_http.
(** [s] seconds before the expiry of the toy token. *)
Definition before_exp (s : Z) : Time := (time_Unix 2000000000 - s * Second)%Z.

(** The conversion of the skew: whole seconds are exact and parts of a second are dropped,
    unless the float64 has no room for them. *)
Example skew_ex :
  (λ d, skew_of {| cfg_JWKSURL := ""; cfg_Issuer := ""; cfg_Audience := ""; cfg_RefreshEvery := 0%Z;
                   cfg_ClockSkew := d; cfg_ScopeMap := ∅ |}) <$>
    [(30 * Second)%Z; 1999999999%Z; (-1500000000)%Z; 9000000000999999999%Z; int64_max] =
  [30; 1; -1; 9000000001; 9223372036]%Z.
Proof. vm_compute. reflexivity. Qed.

(** A fresh use, a replay, a use inside the skew after the expiry, and one past it. *)
Example toy_uses :
  let '(r1, v, w) := toy_verify toy_token (New toy_config) (before_exp 100) in
  let '(r2, v, w) := toy_verify toy_token v (before_exp 99) in
  let '(r3, v, w) := toy_verify toy_token v (before_exp (-20)) in
  let '(r4, v, w) := toy_verify toy_token v (before_exp (-31)) in
  (match r1 with inl c => Some (Level c) | inr _ => None end, r2,
   match r3 with inl c => Some (Level c) | inr _ => None end, r4) =
  (Some AccessPrivileged, inr (ErrOther "jwks: token replay detected"),
   Some AccessPrivileged, inr (ErrOther "jwks: token expired")).
Proof. vm_compute. reflexivity. Qed.

Lemma replay_cache_exact_witness :
  let calls := [(10%Z, "j1", 100%Z)] in
  in_order 0%Z calls ∧ (last_time 0%Z calls ≤ 50)%Z ∧
  (check 50%Z "j1" 100%Z (check_all calls newReplayCache).2).1 = true.
Proof.
  split; [split; [|done]; lia|]. split; [cbn; lia|].
  refine (proj2 (replay_cache_exact [(10%Z, "j1", 100%Z)] 50%Z "j1" 100%Z _ _ _) _).
  - split; [|done]. lia.
  - cbn. lia.
  - done.
  - exists 100%Z. split; [|lia]. split; [done|]. exists 10%Z. vm_compute. left.
Defined.

Lemma keyFor_fresh_witness :
  has_provenance (New toy_config) ∧
  ∃ ks t, provenance (keyFor toy_now toy_request toy_http "k1" (New toy_config) 5%Z).1.2 ks t ∧
    last_key ks "k1" = Some (RSAKey 78 69).
Proof.
  assert (Hp : has_provenance (New toy_config)) by (by left).
  split; [exact Hp|].
  pose proof (keyFor_fresh toy_now toy_request toy_http "k1" (New toy_config) 5%Z Hp) as H.
  destruct H as (_ & _ & _ & _ & H).
  destruct (H (RSAKey 78 69) eq_refl) as (ks & t & Hks & Hl & _). by exists ks, t.
Defined.

