(* ===== verification/Config.v ===== *)
(** * internal/config and the flags of cmd/gordap.

    The YAML overlay and its merge into the flags.  Reading and parsing the file is
    gopkg.in/yaml.v3's; [set] is the names of the flags given on the command line, as
    [flag.Visit] enumerates them.  The names of the Go variables of [main] are those of
    the fields of [Flags]. *)
From S2P Require Import Prelude GoStrings Float64.

Record NoticeConfig := { nc_Title : string; nc_Description : list string }.
Record ProfileConfig := {
  p_ICANNgTLD : bool; p_ToSURL : string; p_ExtraNotices : list NoticeConfig }.
Record AuthConfig := {
  a_JWKSURL : string; a_Issuer : string; a_Audience : string;
  a_ScopeMap : gmap string string }.
Record Config := {
  Addr : string; DatabaseURL : string; Demo : option bool; SelfLinkBase : string;
  ReadHeaderTimo : Duration; ShutdownTimo : Duration; RequestTimeout : Duration;
  MaxBodyBytes : option Z; RateLimitRPS : option float64; RateLimitBurst : option float64;
  GzipMinSize : option Z; CacheSize : option Z; CacheTTL : Duration; CacheNegTTL : Duration;
  TLSCert : string; TLSKey : string; EnableBootstrap : option bool;
  BootstrapEvery : Duration; Profile : ProfileConfig; Auth : AuthConfig }.

(** The flags the overlay can change. *)
Record Flags := {
  addr : string; dsn : string; selfLinkBase : string; icannGTLD : bool; tosURL : string;
  jwksURL : string; jwksIssuer : string; jwksAudience : string;
  cacheSize : Z; cacheTTL : Duration; cacheNegTTL : Duration;
  rateLimitRPS : float64; rateLimitBurst : float64; gzipMinSize : Z; maxBodyBytes : Z;
  tlsCert : string; tlsKey : string;
  requestTimeout : Duration; readHeaderTimeo : Duration; shutdownTimeo : Duration;
  enableBootstrap : bool; bootstrapEvery : Duration; demo : bool }.

(** What a value of the file asks for: a zero value asks for nothing. *)
Definition nonempty (s : string) : option string := if (s =? "")%string then None else Some s.
Definition positive (d : Duration) : option Duration := if (0 <? d)%Z then Some d else None.
Definition if_true (b : bool) : option bool := if b then Some true else None.

(** [if !set[name] && ... { *p = ... }] *)
Definition overlay {A} (set : list string) (name : string) (y : option A) (v : A) : A :=
  if bool_decide (name ∈ set) then v else default v y.

Definition applyYAMLDefaults (set : list string) (cfg : Config) (f : Flags) : Flags := {|
  addr := overlay set "addr" (nonempty (Addr cfg)) (addr f);
  dsn := overlay set "database-url" (nonempty (DatabaseURL cfg)) (dsn f);
  selfLinkBase := overlay set "self-link-base" (nonempty (SelfLinkBase cfg)) (selfLinkBase f);
  icannGTLD := overlay set "icann-gtld" (if_true (p_ICANNgTLD (Profile cfg))) (icannGTLD f);
  tosURL := overlay set "tos-url" (nonempty (p_ToSURL (Profile cfg))) (tosURL f);
  jwksURL := overlay set "jwks-url" (nonempty (a_JWKSURL (Auth cfg))) (jwksURL f);
  jwksIssuer := overlay set "jwks-issuer" (nonempty (a_Issuer (Auth cfg))) (jwksIssuer f);
  jwksAudience := overlay set "jwks-audience" (nonempty (a_Audience (Auth cfg))) (jwksAudience f);
  cacheSize := overlay set "cache-size" (CacheSize cfg) (cacheSize f);
  cacheTTL := overlay set "cache-ttl" (positive (CacheTTL cfg)) (cacheTTL f);
  cacheNegTTL := overlay set "cache-neg-ttl" (positive (CacheNegTTL cfg)) (cacheNegTTL f);
  rateLimitRPS := overlay set "rate-limit-rps" (RateLimitRPS cfg) (rateLimitRPS f);
  rateLimitBurst := overlay set "rate-limit-burst" (RateLimitBurst cfg) (rateLimitBurst f);
  gzipMinSize := overlay set "gzip-min-size" (GzipMinSize cfg) (gzipMinSize f);
  maxBodyBytes := overlay set "max-body-bytes" (MaxBodyBytes cfg) (maxBodyBytes f);
  tlsCert := overlay set "tls-cert" (nonempty (TLSCert cfg)) (tlsCert f);
  tlsKey := overlay set "tls-key" (nonempty (TLSKey cfg)) (tlsKey f);
  requestTimeout := overlay set "request-timeout" (positive (RequestTimeout cfg)) (requestTimeout f);
  readHeaderTimeo := overlay set "read-header-timeout" (positive (ReadHeaderTimo cfg)) (readHeaderTimeo f);
  shutdownTimeo := overlay set "shutdown-timeout" (positive (ShutdownTimo cfg)) (shutdownTimeo f);
  enableBootstrap := overlay set "bootstrap" (EnableBootstrap cfg) (enableBootstrap f);
  bootstrapEvery := overlay set "bootstrap-refresh" (positive (BootstrapEvery cfg)) (bootstrapEvery f);
  demo := overlay set "demo" (Demo cfg) (demo f) |}.

(** * Theorems *)

(** A flag as the command line names it. *)
Inductive value := VString (s : string) | VInt (z : Z) | VFloat (x : float64) | VBool (b : bool).
Definition flag_names : list string := [
  "addr"; "database-url"; "self-link-base"; "icann-gtld"; "tos-url"; "jwks-url"; "jwks-issuer";
  "jwks-audience"; "cache-size"; "cache-ttl"; "cache-neg-ttl"; "rate-limit-rps";
  "rate-limit-burst"; "gzip-min-size"; "max-body-bytes"; "tls-cert"; "tls-key";
  "request-timeout"; "read-header-timeout"; "shutdown-timeout"; "bootstrap";
  "bootstrap-refresh"; "demo"].
Definition flag_values (f : Flags) : list value := [
  VString (addr f); VString (dsn f); VString (selfLinkBase f); VBool (icannGTLD f);
  VString (tosURL f); VString (jwksURL f); VString (jwksIssuer f); VString (jwksAudience f);
  VInt (cacheSize f); VInt (cacheTTL f); VInt (cacheNegTTL f); VFloat (rateLimitRPS f);
  VFloat (rateLimitBurst f); VInt (gzipMinSize f); VInt (maxBodyBytes f); VString (tlsCert f);
  VString (tlsKey f); VInt (requestTimeout f); VInt (readHeaderTimeo f); VInt (shutdownTimeo f);
  VBool (enableBootstrap f); VInt (bootstrapEvery f); VBool (demo f)].
Definition flag_of (f : Flags) (name : string) : option value :=
  i ← fst <$> list_find (eq name) flag_names; flag_values f !! i.

Lemma overlay_set {A} set name (y : option A) v : name ∈ set → overlay set name y v = v.
Proof. intros Hn. unfold overlay. by rewrite bool_decide_true. Qed.
Lemma overlay_unset {A} set name (y : option A) v :
  name ∉ set → overlay set name y v = default v y.
Proof. intros Hn. unfold overlay. by rewrite bool_decide_false. Qed.

(** A flag given on the command line keeps its value, whatever the file says. *)
Theorem flags_win set cfg f name : name ∈ set →
  flag_of (applyYAMLDefaults set cfg f) name = flag_of f name.
Proof.
  intros Hn. unfold flag_of. destruct (list_find (eq name) flag_names) as [[i x]|] eqn:E; [|done].
  apply list_find_Some in E as (Hi & <- & _). cbn [fmap option_fmap option_map fst mbind option_bind].
  do 23 (destruct i as [|i]; [injection Hi as <-; cbn; by rewrite overlay_set|]). done.
Qed.

(** The limiter can be switched off in the file, but not the cache's time to live. *)
Example overlay_ex :
  (overlay [] "rate-limit-rps" (Some (float_Z 0)) (float_Z 50),
   overlay [] "cache-ttl" (positive 0%Z) (60 * Second)%Z,
   overlay ["cache-size"] "cache-size" (Some 0%Z) 50000%Z) =
  (float_Z 0, (60 * Second)%Z, 50000%Z).
Proof. vm_compute. reflexivity. Qed.
