(* ===== verification/Server.v ===== *)
(** * cmd/gordap: the server the command puts together.

    The deployment profile (pkg/rdap/profile), the wiring of main.go from the merged
    flags, and the chain of handlers around the router.  Deploy adds the access log and
    what main builds before. *)
From S2P Require Import Prelude GoStrings NetIP DataSource Auth Validate Search Types Redact Mapper Memory LRU ResponseCache Http Middleware Float64 RateLimit Handlers SearchHandlers Router.
From S2P Require Import Jwks Config.

(** ** pkg/rdap/profile *)
Definition ICANNgTLDConformance : list string :=
  ["icann_rdap_response_profile_1"; "icann_rdap_technical_implementation_guide_1"].

Definition profile_link (value rel href : string) : Link :=
  {| Link_Value := value; Link_Rel := rel; Link_Href := href; Link_HrefLang := [];
     Link_Title := ""; Link_Media := ""; Link_Type := "text/html" |}.
Definition notice (title : string) (desc : list string) (links : list Link) : Notice :=
  {| Notice_Title := title; Notice_Type := ""; Notice_Description := desc; Notice_Links := links |}.

Definition ICANNgTLDNotices (tosURL : string) : list Notice := [
  notice "Terms of Service"
    ["By submitting an RDAP query, you agree to the operator's Acceptable Use Policy.";
     "See the linked URL for the full text."]
    [profile_link tosURL "terms-of-service" tosURL];
  notice "Status Codes"
    ["For more information on domain status codes, please visit https://icann.org/epp"]
    [profile_link "" "glossary" "https://icann.org/epp"];
  notice "RDDS Inaccuracy Complaint Form"
    ["URL of the ICANN RDDS Inaccuracy Complaint Form: https://icann.org/wicf"]
    [profile_link "" "" "https://icann.org/wicf"]].

(** ** main.go *)
Section main.
Context {W : Type}.

Definition with_profile (conf : list string) (notices : list Notice) (s : Server W) : Server W :=
  {| s_DS := s_DS s; s_Bootstrap := s_Bootstrap s; s_Search := s_Search s;
     s_SelfLinkBase := s_SelfLinkBase s; s_ExtraConformance := conf; s_Notices := notices;
     s_EmitJCard := s_EmitJCard s; s_RedactionReason := s_RedactionReason s |}.
Definition applyProfile (icann : bool) (tosURL : string) (extraNotices : list NoticeConfig)
    (s : Server W) : Server W :=
  let s := if icann then with_profile ICANNgTLDConformance (ICANNgTLDNotices tosURL) s else s in
  with_profile (s_ExtraConformance s)
    (s_Notices s ++ ((λ n, notice (nc_Title n) (nc_Description n) []) <$> extraNotices)) s.

(** The server of the handlers, from the flags. *)
Definition newServer (ds : DataSource W) (searchIndex : option (Index W))
    (reg : option BootstrapRegistry) (f : Flags) (cfg : Config.Config) : Server W :=
  let server := {| s_DS := ds; s_Bootstrap := reg; s_Search := searchIndex;
    s_SelfLinkBase := selfLinkBase f; s_ExtraConformance := []; s_Notices := [];
    s_EmitJCard := false; s_RedactionReason := "" |} in
  let server := applyProfile (icannGTLD f) (tosURL f) (p_ExtraNotices (Profile cfg)) server in
  if icannGTLD f then
    {| s_DS := s_DS server; s_Bootstrap := s_Bootstrap server; s_Search := s_Search server;
       s_SelfLinkBase := s_SelfLinkBase server;
       s_ExtraConformance := s_ExtraConformance server; s_Notices := s_Notices server;
       s_EmitJCard := true;
       s_RedactionReason := "Data minimization per GDPR Art. 5(1)(c)" |}
  else server.
End main.

(** The scopes of the file that name a tier; the loop ranges over a map. *)
Definition tierMap `{GoMapRange} (scopeMap : gmap string string) : gmap string AccessLevel :=
  foldl (λ m st,
    if (st.2 =? "privileged")%string then <[ st.1 := AccessPrivileged ]> m
    else if (st.2 =? "authenticated")%string then <[ st.1 := AccessAuthenticated ]> m
    else m) ∅ (map_range scopeMap).

Definition jwks_config `{GoMapRange} (jwksURL iss aud : string) (scopeMap : gmap string string)
    : Jwks.Config :=
  {| cfg_JWKSURL := jwksURL; cfg_Issuer := iss; cfg_Audience := aud;
     cfg_RefreshEvery := 0%Z; cfg_ClockSkew := 0%Z; cfg_ScopeMap := tierMap scopeMap |}.

(** The verifier and its first state; [NopVerifier] leaves the state alone. *)
Definition buildVerifier `{GoMapRange} `{JOSE} {W} (time_Now : W → Time * W)
    (http_NewRequest : string → option error)
    (http_Do : string → W → (Bootstrap.response + error) * W)
    (jwksURL iss aud : string) (scopeMap : gmap string string)
    : Auth.Verifier (Jwks.Verifier * W) * Jwks.Verifier :=
  (if (jwksURL =? "")%string then NopVerifier
   else jwks_verifier time_Now http_NewRequest http_Do,
   Jwks.New (jwks_config jwksURL iss aud scopeMap)).

Section chain.
Context `{JSONEncoder} `{GoUnicode} `{GoMapRange} `{NetIPText} `{IDNA} `{MuxRedirect} `{GzipCodec}.

(** [netip.PrefixFrom(addr, addr.BitLen())] *)
Definition single (a : NetIP.Addr) : Prefix :=
  mkPrefix (mkAddr (addr_BitLen a) (addr_val a) "") (Some (addr_BitLen a)).
Definition proxy_prefix (raw : string) : option Prefix :=
  let raw := TrimSpace raw in
  if (raw =? "")%string then None
  else match ParsePrefix raw with
       | Some p => Some p
       | None => single <$> ParseAddr raw
       end.
Definition buildRateLimitKey (trustedProxies : string) : Request → string :=
  if (trustedProxies =? "")%string then ClientIP
  else ForwardedClientIP (omap proxy_prefix (Split trustedProxies ",")).

Context {W V : Type} (s : Server W) (verifier : Auth.Verifier V) (now : W → Time).
Context (ctx : RequestContext (rstate W V)) (f : Flags) (trustedProxies : string).

(** A chain without a limiter leaves its state alone. *)
Definition unlimited {S} (next : Middleware S) : Middleware (RateLimiter * S) := λ h r '(rl, w),
  '(ops, w) ← next h r w; Some (ops, (rl, w)).

Definition limited : Middleware (RateLimiter * rstate W V) :=
  let handler := NewRouter s verifier now in
  let handler := Gzip (gzipMinSize f) handler in
  let handler := Middleware.RequestTimeout ctx (λ st, now (st_world st)) (requestTimeout f) handler in
  let handler := MaxRequestBody (maxBodyBytes f) handler in
  if flt (float_Z 0) (rateLimitRPS f)
  then RateLimit (λ st, now (st_world st)) (buildRateLimitKey trustedProxies) handler
  else unlimited handler.

Definition handler : Middleware (RateLimiter * rstate W V) :=
  SecurityHeaders (CORS limited).
End chain.

(** * Theorems *)

(** ** Tiers *)
Definition tier_of (name : string) : option AccessLevel :=
  if (name =? "privileged")%string then Some AccessPrivileged
  else if (name =? "authenticated")%string then Some AccessAuthenticated
  else None.

Lemma tierMap_foldl (l : list (string * string)) (m : gmap string AccessLevel) k :
  NoDup l.*1 →
  foldl (λ m st,
    if (st.2 =? "privileged")%string then <[ st.1 := AccessPrivileged ]> m
    else if (st.2 =? "authenticated")%string then <[ st.1 := AccessAuthenticated ]> m
    else m) m l !! k =
  match list_to_map (M := gmap string string) l !! k with
  | Some t => match tier_of t with Some x => Some x | None => m !! k end
  | None => m !! k
  end.
Proof.
  revert m. induction l as [|[s t] l IH]; intros m Hnd; cbn [foldl fst snd list_to_map foldr].
  { done. }
  cbn in Hnd. apply NoDup_cons in Hnd as [Hs Hnd]. rewrite IH by done. cbn.
  destruct (decide (s = k)) as [->|Hk].
  - rewrite (not_elem_of_list_to_map_1 l k) by done. rewrite lookup_insert_eq. unfold tier_of.
    destruct (t =? "privileged")%string; [by rewrite lookup_insert_eq|].
    destruct (t =? "authenticated")%string; by rewrite ?lookup_insert_eq.
  - rewrite lookup_insert_ne by done. destruct (list_to_map l !! k) as [t'|];
      [destruct (tier_of t'); [done|]|];
      (destruct (t =? "privileged")%string; [by rewrite lookup_insert_ne|]);
      (destruct (t =? "authenticated")%string; by rewrite ?lookup_insert_ne).
Qed.

(** A scope grants a tier exactly when the file maps it to the name of that tier, in
    whatever order the map is visited. *)
Lemma tierMap_lookup `{GoMapRange} (scopeMap : gmap string string) scope :
  tierMap scopeMap !! scope = t ← scopeMap !! scope; tier_of t.
Proof.
  unfold tierMap. rewrite tierMap_foldl by apply NoDup_map_range_fst.
  rewrite (list_to_map_proper (map_range scopeMap) (map_to_list scopeMap)),
    list_to_map_to_list, lookup_empty;
    [|apply NoDup_map_range_fst|apply map_range_perm].
  destruct (scopeMap !! scope) as [t|]; [|done]. cbn. by destruct (tier_of t).
Qed.

(** ** The profile *)
Definition content_common (c : content) : Common :=
  match c with
  | CDomain d => Domain_Common d
  | CEntity e => Entity_Common e
  | CNameserver n => Nameserver_Common n
  | CIPNetwork n => IPNetwork_Common n
  | CError e => Error_Common e
  | CHelp c _ => c
  | CDomainSearch r => DSR_Common r
  | CEntitySearch r => ESR_Common r
  | CNameserverSearch r => NSR_Common r
  end.

Section profile_facts.
Context `{JSONEncoder} `{GoUnicode} `{GoMapRange} `{NetIPText} `{IDNA} {W : Type} (s : Server W).

(** An answer with the notices of the server, and its conformance when it is an object. *)
Definition carries (c : content) : Prop :=
  s_Notices s ⊆ Common_Notices (content_common c) ∧
  Common_RDAPConformance (content_common c) =
    DefaultConformance ++ (if is_error c then [] else s_ExtraConformance s).

(** What a handler writes carries them: one body, or a redirect, or nothing when the
    provider breaks its contract. *)
Inductive carrying : list wop → Prop :=
  | carry_object c : is_error c = false → carries c → carrying (writeJSON StatusOK c)
  | carry_error status title desc : carries (CError (error_object status title (s_Notices s) desc)) →
      carrying (writeError_desc status title (s_Notices s) desc)
  | carry_redirect base path : carrying (redirectTo base path)
  | carry_panic : carrying [].

Lemma conformance_opts r : conformance (opts s r) = DefaultConformance ++ s_ExtraConformance s.
Proof.
  unfold conformance. cbn [o_ExtraConformance opts].
  by destruct (s_ExtraConformance s).
Qed.

Lemma error_carrying status title desc :
  carrying (writeError_desc status title (s_Notices s) desc).
Proof. constructor. by split. Qed.
Lemma failure_carrying err : carrying (write_failure s err).
Proof. unfold write_failure. destruct (statusFor err). apply error_carrying. Qed.
Lemma redirect_carrying err servers path : carrying (redirect_or_error s err servers path).
Proof.
  unfold redirect_or_error. destruct (s_Bootstrap s) as [b|]; [|apply failure_carrying].
  destruct (errors_Is _ _); [|apply failure_carrying].
  destruct (servers b); [apply failure_carrying|constructor].
Qed.

Lemma search_err_carrying err : carrying (writeSearchErr s err).
Proof. unfold writeSearchErr. destruct (errors_Is _ _); apply error_carrying. Qed.

Lemma on_result_carrying {T} (r : res T) fail ok :
  (∀ e, carrying (fail e)) → (∀ v, carrying (ok v)) → carrying (on_result r fail ok).
Proof. intros Hf Hok. destruct r as [[v|] [e|]]; cbn; auto. constructor. Qed.

Lemma common_carries (c : content) r :
  is_error c = false →
  Common_RDAPConformance (content_common c) = conformance (opts s r) →
  s_Notices s ⊆ Common_Notices (content_common c) → carrying (writeJSON StatusOK c).
Proof.
  intros Hc Ho Hn. constructor; [done|]. split; [done|]. rewrite Ho, Hc. apply conformance_opts.
Qed.

Ltac carry :=
  repeat first
    [ apply error_carrying | apply failure_carrying | apply redirect_carrying | apply search_err_carrying
    | apply on_result_carrying; intros
    | match goal with |- carrying (fst (match ?x with _ => _ end)) => destruct x end
    | match goal with |- carrying (fst (let _ := _ in _)) => cbv zeta end
    | match goal with |- carrying (match ?x with _ => _ end) => destruct x end
    | progress cbn [fst] ].

(** C38: the deployment profile reaches the client.  Whatever is asked of whichever
    endpoint, an answer with a body carries all the server's notices, and the conformance
    identifiers of the baseline followed, in objects, results and help, by those of the
    profile.  An error body has the notices but only the baseline identifiers. *)
Theorem answers_carry_profile t r w : carrying (serve_route s t r w).1.
Proof.
  destruct t as [e|c|]; [destruct e|destruct c|]; cbn [serve_route Handlers.handle].
  1: unfold HandleDomain; carry; by apply (common_carries _ r).
  1: { unfold HandleEntity; carry; apply (common_carries _ r); try done;
       cbn [content_common]; unfold EntityTopLevel; by destruct (entityWithMarks _ _) as [[]]. }
  1: unfold HandleNameserver; carry; by apply (common_carries _ r).
  1: unfold HandleIP; carry; by apply (common_carries _ r).
  1: unfold HandleRIRBottom; carry; by apply (common_carries _ r).
  1: apply error_carrying.
  1: { unfold HandleHelp, helpResponse. cbn [fst]. constructor; [done|].
       split; cbn; [|by destruct (s_ExtraConformance s)].
       destruct (s_Notices s); [apply list_subseteq_nil|done]. }
  1-3: unfold HandleDomainsSearch, HandleEntitiesSearch, HandleNameserversSearch, handle_search;
       carry; by apply (common_carries _ r).
  apply error_carrying.
Qed.
End profile_facts.

(** ** The whole chain *)

(** The headers every response has. *)
Definition public_headers : list (string * string) := [
  ("Strict-Transport-Security", "max-age=15552000"); ("Referrer-Policy", "no-referrer");
  ("X-Content-Type-Options", "nosniff"); ("Access-Control-Allow-Origin", "*");
  ("Access-Control-Allow-Methods", "GET, HEAD, OPTIONS");
  ("Access-Control-Allow-Headers", "Authorization, Accept, Accept-Language");
  ("Access-Control-Max-Age", "86400")].
Definition is_public (h : gmap string string) : Prop :=
  Forall (λ kv, h !! kv.1 = Some kv.2) public_headers.

Definition outer_header : gmap string string :=
  live_headers (live_headers ∅ security_headers) cors_headers.
Definition router_header : gmap string string :=
  live_headers outer_header [HeaderAdd "Vary" "Accept-Encoding"].

Lemma serve_outer ops :
  serve (security_headers ++ cors_headers ++ ops) rw_new =
  serve ops (rw_set_header outer_header rw_new).
Proof. rewrite !serve_app. reflexivity. Qed.

(** The router's answer as a client reads it through the chain: the same status, the
    same headers of the router's, the same body once decoded. *)
Definition relays `{GzipCodec} (r : Request) (rops : list wop) (out : ResponseWriter) : Prop :=
  let plain := serve rops rw_new in
  rw_status out = rw_status plain ∧
  (∀ k, own_key k → rw_sent out !! k = rw_sent plain !! k) ∧
  rw_sent out !! "Vary" = Some "Origin, Accept-Encoding" ∧
  ((rw_sent out !! "Content-Encoding" = None ∧ rw_body out = rw_body plain) ∨
   (acceptsGzip r = true ∧ rw_sent out !! "Content-Encoding" = Some "gzip" ∧
    gzip_decompress (rw_body out) = Some (rw_body plain))).

Lemma not_own k : bool_decide (own_key k) = false → ¬ own_key k.
Proof. apply bool_decide_eq_false_1. Qed.

Section chain_facts.
Context `{JSONEncoder} `{GoUnicode} `{GoMapRange} `{NetIPText} `{IDNA} `{MuxRedirect} `{GzipCodec}.

(** A tame answer through the gzip middleware, on the headers of the outer chain. *)
Lemma gzip_relays {S} (next : Middleware S) minSize r st st' rops :
  next router_header r st = Some (rops, st') → tame rops →
  ∃ ops, Gzip minSize next outer_header r st = Some (ops, st') ∧
    let out := serve ops (rw_set_header outer_header rw_new) in
    is_public (rw_sent out) ∧ relays r rops out.
Proof.
  intros Hn (hs & code & bs & -> & Hown).
  pose proof (own_is_header hs Hown) as Hh.
  destruct (Gzip_answer minSize next outer_header r st hs code bs st' Hn Hh) as (ops & E & D).
  exists ops. split; [exact E|]. intros out. fold out in D. fold router_header in D.
  unfold relays. rewrite (serve_plain hs code bs ∅ Hh : serve (plain_ops hs code bs) rw_new = _).
  rewrite (serve_plain hs code bs router_header Hh) in D.
  destruct D as [Es Ed]. cbn [rw_status rw_sent rw_body] in *.
  assert (Hout : ∀ k, k ≠ "Content-Encoding" → k ≠ "Content-Length" →
    rw_sent out !! k = live_headers router_header hs !! k).
  { intros k Hk1 Hk2. destruct (_ && _); destruct Ed as [-> _]; [|done].
    unfold compressed_headers. by rewrite lookup_delete_ne, lookup_insert_ne. }
  assert (Hfix : ∀ k v, router_header !! k = Some v → ¬ own_key k → k ≠ "Content-Encoding" →
    k ≠ "Content-Length" → rw_sent out !! k = Some v).
  { intros k v Hk Ho Hk1 Hk2. rewrite Hout, live_headers_other by done. exact Hk. }
  split; [|split_and!; [exact Es| | |]].
  - unfold is_public, public_headers. repeat constructor; cbn [fst snd];
      (apply Hfix; [reflexivity|by apply not_own|done|done]).
  - intros k Hk. rewrite Hout by (unfold own_key in Hk; set_solver).
    apply live_headers_own; [done|]. unfold own_key in Hk.
    repeat (apply elem_of_cons in Hk as [->|Hk]; [reflexivity|]). by apply not_elem_of_nil in Hk.
  - apply Hfix; [reflexivity|by apply not_own|done|done].
  - destruct (acceptsGzip r); cbn [andb] in Ed; [destruct (compresses _ _ _ _)|].
    + right. destruct Ed as [-> Eb]. split_and!; [done| |exact Eb]. unfold compressed_headers.
      by rewrite lookup_delete_ne, lookup_insert_eq by done.
    + left. destruct Ed as [-> Eb]. split; [|exact Eb].
      rewrite live_headers_other; [reflexivity|done|by apply not_own].
    + left. destruct Ed as [-> Eb]. split; [|exact Eb].
      rewrite live_headers_other; [reflexivity|done|by apply not_own].
Qed.

Context {W V : Type} (s : Server W) (verifier : Auth.Verifier V) (now : W → Time).
Context (ctx : RequestContext (rstate W V)) (f : Flags) (trustedProxies : string) (I : W → Prop).

(** A deadline changes neither what the provider relies on nor the response cache. *)
Record context_ok : Prop := {
  cx_world d st : I (st_world st) → I (st_world (ctx_WithDeadline ctx d st));
  cx_cache d st : st_cache (ctx_WithDeadline ctx d st) = st_cache st }.
Context (Hctx : context_ok).

(** The state in which a request runs that starts in [st], and the state it leaves. *)
Definition timed (st : rstate W V) : rstate W V :=
  WithTimeout ctx (λ st, now (st_world st)) (requestTimeout f) st.
Definition untimed (st st1 : rstate W V) : rstate W V :=
  ctx_WithDeadline ctx (ctx_Deadline ctx st) st1.

(** The three answers of the chain itself. *)
Definition preflight (r : Request) (out : ResponseWriter) : Prop :=
  r_Method r = "OPTIONS" ∧ rw_status out = Some StatusNoContent ∧ rw_body out = "".
Definition refused (r : Request) (rl : RateLimiter) (w : W) (out : ResponseWriter) : Prop :=
  flt (float_Z 0) (rateLimitRPS f) = true ∧
  (Allow (now w) (buildRateLimitKey trustedProxies r) rl).1 = false ∧
  rw_status out = Some StatusTooManyRequests ∧ rw_sent out !! "Retry-After" = Some "1".
Definition too_large (r : Request) (out : ResponseWriter) : Prop :=
  (maxBodyBytes f < r_ContentLength r)%Z ∧ rw_status out = Some StatusRequestEntityTooLarge.

(** The chain up to the limiter. *)
Definition bounded : Middleware (rstate W V) :=
  MaxRequestBody (maxBodyBytes f)
    (Middleware.RequestTimeout ctx (λ st, now (st_world st)) (requestTimeout f)
      (Gzip (gzipMinSize f) (NewRouter s verifier now))).
Lemma bounded_answer r st :
  ProviderLaws (s_DS s) I → (∀ ix, s_Search s = Some ix → IndexLaws ix I) →
  I (st_world st) → cache_ok (st_cache st) →
  ∃ ops st', bounded outer_header r st = Some (ops, st') ∧
    I (st_world st') ∧ cache_ok (st_cache st') ∧
    let out := serve ops (rw_set_header outer_header rw_new) in
    is_public (rw_sent out) ∧
    ((too_large r out ∧ st' = st) ∨
     ∃ rops st1, NewRouter s verifier now router_header r (timed st) = Some (rops, st1) ∧
       st' = untimed st st1 ∧ (rdap_ops rops ∨ mux_own r rops) ∧ relays r rops out).
Proof using Hctx.
  intros Hds Hix Hw Hrc. unfold bounded, MaxRequestBody.
  destruct (Z.ltb_spec (maxBodyBytes f) (r_ContentLength r)) as [Hlt|_].
  { eexists _, st. split; [reflexivity|]. split_and!; [done..| |].
    - repeat constructor; reflexivity.
    - left. split; [|done]. split; [done|reflexivity]. }
  assert (Hw1 : I (st_world (timed st))) by by apply Hctx.
  assert (Hrc1 : cache_ok (st_cache (timed st))) by (unfold timed, WithTimeout; by rewrite (cx_cache Hctx)).
  destruct (router_answer s verifier now I router_header r (timed st) Hds Hix Hw1 Hrc1)
    as (rops & st1 & E & Hw' & Hrc' & Ht & Hans).
  destruct (gzip_relays (NewRouter s verifier now) (gzipMinSize f) r (timed st) st1 rops E Ht)
    as (ops & Eg & Hp & Hr).
  unfold Middleware.RequestTimeout. fold (timed st). rewrite Eg. exists ops, (untimed st st1). split_and!; [done| | |done|].
  - by apply Hctx.
  - unfold untimed. by rewrite (cx_cache Hctx).
  - right. by exists rops, st1.
Qed.

(** From any state it can be in, every request gets an answer, without a panic, and the
    next one will too; [answered] is what the answer is. *)
Definition answered (r : Request) (rl : RateLimiter) (st st' : rstate W V) (rl' : RateLimiter)
    (out : ResponseWriter) : Prop :=
  is_public (rw_sent out) ∧
  ((preflight r out ∧ rl' = rl ∧ st' = st) ∨ (refused r rl (st_world st) out ∧ st' = st) ∨
   (too_large r out ∧ st' = st) ∨
   ∃ rops st1, NewRouter s verifier now router_header r (timed st) = Some (rops, st1) ∧
     st' = untimed st st1 ∧ (rdap_ops rops ∨ mux_own r rops) ∧ relays r rops out).
Lemma handler_answers r rl st :
  ProviderLaws (s_DS s) I → (∀ ix, s_Search s = Some ix → IndexLaws ix I) →
  I (st_world st) → cache_ok (st_cache st) →
  ∃ ops rl' st', handler s verifier now ctx f trustedProxies ∅ r (rl, st) = Some (ops, (rl', st')) ∧
    I (st_world st') ∧ cache_ok (st_cache st') ∧ answered r rl st st' rl' (serve ops rw_new).
Proof using Hctx.
  intros Hds Hix Hw Hrc. unfold answered, handler, SecurityHeaders, CORS. fold outer_header.
  destruct (String.eqb_spec (r_Method r) "OPTIONS") as [Ho|_].
  { eexists _, rl, st. split; [reflexivity|]. split_and!; [done..| |].
    - repeat constructor; reflexivity.
    - left. by split. }
  destruct (bounded_answer r st Hds Hix Hw Hrc) as (ops & st' & E & Hw' & Hrc' & Hp & Hans).
  unfold limited, RateLimit, unlimited. fold bounded.
  destruct (flt (float_Z 0) (rateLimitRPS f)) eqn:Ef.
  - destruct (Allow (now (st_world st)) (buildRateLimitKey trustedProxies r) rl) as [ok rl'] eqn:Ea.
    destruct ok; cbn [negb].
    + rewrite E. cbn [mbind option_bind]. eexists _, rl', st'. split; [reflexivity|].
      rewrite serve_outer. split_and!; [done..|]. right; right. exact Hans.
    + eexists _, rl', st. split; [reflexivity|]. split_and!; [done..| |].
      * repeat constructor; reflexivity.
      * right; left. split; [|done]. unfold refused. by rewrite Ea.
  - rewrite E. cbn [mbind option_bind]. eexists _, rl, st'. split; [reflexivity|].
    rewrite serve_outer. split_and!; [done..|]. right; right. exact Hans.
Qed.
End chain_facts.

(** * Witnesses *)
#[local] Existing Instance unicode_default.
#[local] Existing Instance map_range_default.
#[local] Existing Instance netip_text.
#[local] Existing Instance idna_ldh.
#[local] Existing Instance json_names.
#[local] Existing Instance mux_demo.
#[local] Existing Instance gzip_mark.

Definition default_flags : Flags := {|
  addr := ":8080"; dsn := ""; selfLinkBase := "https://rdap.example"; icannGTLD := true;
  tosURL := "https://rdap.example/tos"; jwksURL := ""; jwksIssuer := ""; jwksAudience := "";
  cacheSize := 50000%Z; cacheTTL := (60 * Second)%Z; cacheNegTTL := (5 * Second)%Z;
  rateLimitRPS := float_Z 50; rateLimitBurst := float_Z 100; gzipMinSize := 4%Z;
  maxBodyBytes := 4096%Z; tlsCert := ""; tlsKey := "";
  requestTimeout := (10 * Second)%Z; readHeaderTimeo := (5 * Second)%Z;
  shutdownTimeo := (15 * Second)%Z; enableBootstrap := false;
  bootstrapEvery := (86400 * Second)%Z; demo := true |}.
Definition gzip_get (path : string) : Request :=
  {| r_Method := "GET"; r_EscapedPath := path; r_Query := []; r_RequestURI := path;
     r_Header := {[ "Accept-Encoding" := "gzip" ]};
     r_ContentLength := 0; r_RemoteAddr := "192.0.2.1:4711"; r_Context := None |}.

(** A provider and a verifier that look at no deadline. *)
Definition no_deadlines {S} : RequestContext S :=
  {| ctx_Deadline := λ _, None; ctx_WithDeadline := λ _ st, st |}.

(** The object is found and its rendering compressed. *)
Example handler_ex :
  let '(ops, _) := default ([], (NewRateLimiter (float_Z 50) (float_Z 100), demo_state (replay demo_log)))
    (handler demo_server token_verifier (λ _, 0%Z) no_deadlines default_flags "" ∅ (gzip_get "/domain/example.nl")
       (NewRateLimiter (float_Z 50) (float_Z 100), demo_state (replay demo_log))) in
  let out := serve ops rw_new in
  (rw_status out, rw_sent out !! "Content-Encoding", gzip_decompress (rw_body out)) =
  (Some 200%Z, Some "gzip", Some "domain Example.nl").
Proof. vm_compute. reflexivity. Qed.
