(* ===== verification/Metrics.v ===== *)
(** * pkg/rdap/metrics, observability and audit: what is observed of the server.

    An observer is a function on its own state; the decorated provider runs over the
    pair of the provider's world and that state.  [Section access] is the access log
    around a handler, with the status that [statusWriter] captures. *)
From S2P Require Import Prelude GoStrings NetIP DataSource Auth Http Middleware Float64.

(** ** metrics.go *)
Record Observer (O : Type) := { Observed : string → Duration → option error → O → O }.
Arguments Observed {O} _ _ _ _ _.

Section wrap.
Context {W O : Type} (now : W → Time).

(** [start := time.Now(); v, err := inner(); o.Observed(op, time.Since(start), err)] *)
Definition observed {V} (o : Observer O) (op : string) (f : W → res V * W) (wo : W * O)
    : res V * (W * O) :=
  let '(w, s) := wo in
  let start := now w in
  let '(r, w) := f w in
  (r, (w, Observed o op (now w - start)%Z r.2 s)).
Definition observedDS (inner : DataSource W) (o : Observer O) : DataSource (W * O) :=
  {| GetDomain := λ k, observed o "domain" (GetDomain inner k);
     GetEntity := λ k, observed o "entity" (GetEntity inner k);
     GetNameserver := λ k, observed o "nameserver" (GetNameserver inner k);
     GetIPNetwork := λ ip, observed o "ip" (GetIPNetwork inner ip) |}.

(** The provider itself, on the larger state. *)
Definition beside {V} (f : W → res V * W) (wo : W * O) : res V * (W * O) :=
  let '(r, w) := f wo.1 in (r, (w, wo.2)).
Definition lift_source (ds : DataSource W) : DataSource (W * O) :=
  {| GetDomain := λ k, beside (GetDomain ds k); GetEntity := λ k, beside (GetEntity ds k);
     GetNameserver := λ k, beside (GetNameserver ds k);
     GetIPNetwork := λ ip, beside (GetIPNetwork ds ip) |}.
Definition WrapDataSource (ds : DataSource W) (o : option (Observer O)) : DataSource (W * O) :=
  match o with None => lift_source ds | Some o => observedDS ds o end.
End wrap.

(** datasource.go: a lookup of one kind of object, and the wrapper that reports each call to
    a hook; without a hook it changes nothing. *)
Definition Fetcher (W K V : Type) : Type := K → W → res V * W.
Definition Instrument {W O K V} (name : string) (f : Fetcher W K V)
    (hook : option (string → option error → O → O)) : Fetcher (W * O) K V := λ k wo,
  let '(r, w) := f k wo.1 in
  (r, (w, match hook with Some hook => hook name r.2 wo.2 | None => wo.2 end)).

(** [expvar.Map.Add]; the counters are int64. *)
Definition map_Add (k : string) (d : Z) (m : gmap string Z) : gmap string Z :=
  <[ k := wrap64 (default 0%Z (m !! k) + d) ]> m.
Record ExpvarObserver := { ev_total : gmap string Z; ev_errors : gmap string Z;
                           ev_latency : gmap string Z }.
Definition NewExpvarObserver : ExpvarObserver :=
  {| ev_total := ∅; ev_errors := ∅; ev_latency := ∅ |}.
Definition expvar_Observed (op : string) (d : Duration) (err : option error) (o : ExpvarObserver)
    : ExpvarObserver :=
  {| ev_total := map_Add op 1 (ev_total o);
     ev_errors := match err with Some _ => map_Add op 1 (ev_errors o) | None => ev_errors o end;
     ev_latency := map_Add op d (ev_latency o) |}.
Definition expvar_observer : Observer ExpvarObserver := {| Observed := expvar_Observed |}.

Record CacheObserver := { co_hits : Z; co_misses : Z }.
Definition RecordHit (c : CacheObserver) : CacheObserver :=
  {| co_hits := wrap64 (co_hits c + 1); co_misses := co_misses c |}.
Definition RecordMiss (c : CacheObserver) : CacheObserver :=
  {| co_hits := co_hits c; co_misses := wrap64 (co_misses c + 1) |}.
Definition Ratio (c : CacheObserver) : float64 :=
  let h := co_hits c in let m := co_misses c in
  if (wrap64 (h + m) =? 0)%Z then float_Z 0
  else fdiv (float_Z h) (float_Z (wrap64 (h + m))).

Example Ratio_ex :
  (Ratio {| co_hits := 3; co_misses := 1 |}, Ratio {| co_hits := 0; co_misses := 0 |}) =
  (fdiv (float_Z 3) (float_Z 4), float_Z 0).
Proof. reflexivity. Qed.

(** ** Structured records: the typed attributes of log/slog *)
Inductive attr := ATime (t : Time) | AString (s : string) | AInt (z : Z) | ADuration (d : Duration).

(** ** observability.go *)

(** What OpenTelemetry says of the span in the context of a request: the text of its trace
    id, all zeros when there is no span. *)
Class Tracing := { TraceID : Request → string }.
Definition no_span : Tracing := {| TraceID := λ _, "00000000000000000000000000000000" |}.

Record AccessRecord := {
  al_method : string; al_path : string; al_status : Z; al_duration : Duration;
  al_trace_id : string }.
Definition access_attrs (rec : AccessRecord) : list (string * attr) := [
  ("method", AString (al_method rec)); ("path", AString (al_path rec));
  ("status", AInt (al_status rec)); ("duration", ADuration (al_duration rec));
  ("trace_id", AString (al_trace_id rec))].
(** [statusWriter]: every [WriteHeader] overwrites the status, 200 without one. *)
Definition statusWriter (ops : list wop) : Z :=
  foldl (λ s o, match o with WriteHeader c => c | _ => s end) StatusOK ops.
Definition AccessLog `{Tracing} {W} (now : W → Time) (next : Middleware W)
    : Middleware (list AccessRecord * W) :=
  λ h r '(log, w),
    let start := now w in
    '(ops, w) ← next h r w;
    let rec := {| al_method := r_Method r; al_path := r_Path r; al_status := statusWriter ops;
                  al_duration := (now w - start)%Z; al_trace_id := TraceID r |} in
    Some (ops, (log ++ [rec], w)).

(** ** audit.go: the record an audit logger is given, and the attributes it writes *)
Record Event := {
  ae_Time : Time; ae_Method : string; ae_Path : string; ae_Object : string; ae_Subject : string;
  ae_AccessTier : string; ae_RemoteIP : string; ae_Status : Z; ae_Duration : Duration }.
(** The [Logger] interface: a record goes to a sink. *)
Record Logger (S : Type) := { Log : Event → S → S }.
Arguments Log {S} _ _ _.
Definition Noop_Log {S} (e : Event) (sink : S) : S := sink.
Definition Noop {S} : Logger S := {| Log := Noop_Log |}.
(** [log/slog] appends the message with its attributes to what the handler writes to. *)
Definition slog_sink : Type := list (string * list (string * attr)).
Definition Slog_Log (e : Event) (sink : slog_sink) : slog_sink :=
  sink ++ [("rdap.audit",
            [("time", ATime (ae_Time e)); ("method", AString (ae_Method e));
             ("path", AString (ae_Path e)); ("object", AString (ae_Object e));
             ("subject", AString (ae_Subject e)); ("tier", AString (ae_AccessTier e));
             ("remote_ip", AString (ae_RemoteIP e)); ("status", AInt (ae_Status e));
             ("duration", ADuration (ae_Duration e))])].
Definition NewSlog : Logger slog_sink := {| Log := Slog_Log |}.

(** * Theorems *)

Section exact.
Context {W : Type} (now : W → Time) (ds : DataSource W).

(** A history of lookups: the operation with its key. *)
Inductive lookup := LDomain (k : string) | LEntity (k : string) | LNameserver (k : string) | LIP (ip : Addr).
Inductive answer := ADomain (r : res Domain) | AEntity (r : res Contact)
  | ANameserver (r : res Nameserver) | ANetwork (r : res IPNetwork).
Definition op_of (l : lookup) : string :=
  match l with LDomain _ => "domain" | LEntity _ => "entity" | LNameserver _ => "nameserver" | LIP _ => "ip" end.
Definition answer_error (a : answer) : option error :=
  match a with ADomain r => r.2 | AEntity r => r.2 | ANameserver r => r.2 | ANetwork r => r.2 end.
Definition run_lookup {S} (ds : DataSource S) (l : lookup) (s : S) : answer * S :=
  match l with
  | LDomain k => let '(r, s) := GetDomain ds k s in (ADomain r, s)
  | LEntity k => let '(r, s) := GetEntity ds k s in (AEntity r, s)
  | LNameserver k => let '(r, s) := GetNameserver ds k s in (ANameserver r, s)
  | LIP ip => let '(r, s) := GetIPNetwork ds ip s in (ANetwork r, s)
  end.
Fixpoint run_lookups {S} (ds : DataSource S) (ls : list lookup) (s : S) : list answer * S :=
  match ls with
  | [] => ([], s)
  | l :: ls => let '(a, s) := run_lookup ds l s in
               let '(al, s) := run_lookups ds ls s in (a :: al, s)
  end.

(** What the counters of an operation should say after a history. *)
Fixpoint count_calls (op : string) (ls : list lookup) : Z :=
  match ls with [] => 0%Z | l :: ls => ((if (op_of l =? op)%string then 1 else 0) + count_calls op ls)%Z end.
Fixpoint count_errors (op : string) (ls : list lookup) (al : list answer) : Z :=
  match ls, al with
  | l :: ls, a :: al =>
      ((if (op_of l =? op)%string && bool_decide (answer_error a ≠ None) then 1 else 0) + count_errors op ls al)%Z
  | _, _ => 0%Z
  end.
Fixpoint time_spent (op : string) (ls : list lookup) (w : W) : Z :=
  match ls with
  | [] => 0%Z
  | l :: ls => let w' := (run_lookup ds l w).2 in
               ((if (op_of l =? op)%string then now w' - now w else 0) + time_spent op ls w')%Z
  end.

Definition counter (m : gmap string Z) (op : string) : Z := default 0%Z (m !! op).
Lemma counter_Add k d m op :
  counter (map_Add k d m) op = if (k =? op)%string then wrap64 (counter m op + d)%Z else counter m op.
Proof.
  unfold counter, map_Add. destruct (String.eqb_spec k op) as [->|Hk].
  - by rewrite lookup_insert_eq.
  - by rewrite lookup_insert_ne.
Qed.

Lemma observed_lookup l w o :
  run_lookup (observedDS now ds expvar_observer) l (w, o) =
  let '(a, w') := run_lookup ds l w in
  (a, (w', expvar_Observed (op_of l) (now w' - now w)%Z (answer_error a) o)).
Proof.
  destruct l; cbn; [destruct (GetDomain ds k w)|destruct (GetEntity ds k w)
    |destruct (GetNameserver ds k w)|destruct (GetIPNetwork ds ip w)]; reflexivity.
Qed.

Lemma observed_counts op ls w o :
  let '(al, w1) := run_lookups ds ls w in
  ∃ o', run_lookups (observedDS now ds expvar_observer) ls (w, o) = (al, (w1, o')) ∧
    wrap64 (counter (ev_total o') op) = wrap64 (counter (ev_total o) op + count_calls op ls)%Z ∧
    wrap64 (counter (ev_errors o') op) = wrap64 (counter (ev_errors o) op + count_errors op ls al)%Z ∧
    wrap64 (counter (ev_latency o') op) = wrap64 (counter (ev_latency o) op + time_spent op ls w)%Z.
Proof.
  revert w o. induction ls as [|l ls IH]; intros w o; cbn [run_lookups].
  { exists o. cbn. by rewrite !Z.add_0_r. }
  rewrite observed_lookup. destruct (run_lookup ds l w) as [a w'] eqn:E.
  specialize (IH w' (expvar_Observed (op_of l) (now w' - now w)%Z (answer_error a) o)).
  destruct (run_lookups ds ls w') as [al w1]. destruct IH as (o' & -> & Ht & He & Hl).
  exists o'. split; [done|]. cbn [count_calls count_errors time_spent]. rewrite E. cbn [snd].
  rewrite Ht, He, Hl. unfold expvar_Observed; cbn [ev_total ev_errors ev_latency].
  rewrite !counter_Add.
  destruct (String.eqb_spec (op_of l) op) as [->|Hop]; cbn [andb].
  - destruct (answer_error a); [rewrite bool_decide_true by done|rewrite bool_decide_false by naive_solver];
      rewrite ?counter_Add, ?String.eqb_refl, ?wrap64_add; split_and!; f_equal; lia.
  - destruct (answer_error a); rewrite ?counter_Add;
      rewrite ?(proj2 (String.eqb_neq (op_of l) op) Hop); by rewrite !Z.add_0_l.
Qed.

(** Observing a provider changes nothing about it and counts exactly.  Along any history
    of lookups the decorated provider gives the answers of the provider and leaves its
    world the same; without an observer it is the provider itself; and the counters of
    each operation are, modulo 2^64, the number of its calls, the number of those that
    ended in an error, and the time they took. *)
Theorem metrics_exact ls w op :
  let '(al, w1) := run_lookups ds ls w in
  (∃ o, run_lookups (WrapDataSource now ds (Some expvar_observer)) ls (w, NewExpvarObserver) = (al, (w1, o)) ∧
     wrap64 (counter (ev_total o) op) = wrap64 (count_calls op ls) ∧
     wrap64 (counter (ev_errors o) op) = wrap64 (count_errors op ls al) ∧
     wrap64 (counter (ev_latency o) op) = wrap64 (time_spent op ls w)) ∧
  run_lookups (WrapDataSource (O := ExpvarObserver) now ds None) ls (w, NewExpvarObserver) =
    (al, (w1, NewExpvarObserver)).
Proof.
  pose proof (observed_counts op ls w NewExpvarObserver) as Hc.
  assert (Hn : ∀ ls w, run_lookups (lift_source ds) ls (w, NewExpvarObserver) =
    let '(al, w1) := run_lookups ds ls w in (al, (w1, NewExpvarObserver))).
  { clear. intros ls. induction ls as [|l ls IH]; intros w; [done|]. cbn [run_lookups].
    assert (E : run_lookup (lift_source ds) l (w, NewExpvarObserver) =
              let '(a, w') := run_lookup ds l w in (a, (w', NewExpvarObserver))).
    { destruct l; cbn; unfold beside; cbn;
        [destruct (GetDomain ds k w)|destruct (GetEntity ds k w)
        |destruct (GetNameserver ds k w)|destruct (GetIPNetwork ds ip w)]; reflexivity. }
    rewrite E. destruct (run_lookup ds l w) as [a w']. rewrite IH. by destruct (run_lookups ds ls w'). }
  specialize (Hn ls w). destruct (run_lookups ds ls w) as [al w1]. split; [exact Hc|exact Hn].
Qed.

#[export] Instance observed_laws {O} (I : W → Prop) (o : option (Observer O)) :
  ProviderLaws ds I → ProviderLaws (WrapDataSource now ds o) (λ wo, I wo.1).
Proof.
  intros Hds. destruct o as [o|]; split; intros k [w s] Hw; cbn in *; unfold observed, beside; cbn.
  1,5: pose proof (law_domain k w Hw) as [Hr Hw']; by destruct (GetDomain ds k w).
  1,4: pose proof (law_entity k w Hw) as [Hr Hw']; by destruct (GetEntity ds k w).
  1,3: pose proof (law_nameserver k w Hw) as [Hr Hw']; by destruct (GetNameserver ds k w).
  all: pose proof (law_network k w Hw) as [Hr Hw']; by destruct (GetIPNetwork ds k w).
Qed.
End exact.

(** ** The access log *)

(** A response with one status line, before any of the body. *)
Definition not_status (o : wop) : Prop := match o with WriteHeader _ => False | _ => True end.
Definition one_status (ops : list wop) : Prop :=
  ∃ hs code rest, ops = hs ++ WriteHeader code :: rest ∧ Forall is_header hs ∧ Forall not_status rest.

Lemma statusWriter_not_status s ops : Forall not_status ops →
  foldl (λ s o, match o with WriteHeader c => c | _ => s end) s ops = s.
Proof. intros Ho. revert s. induction Ho as [|o ops Ho _ IH]; intros s; [done|]. cbn. by destruct o. Qed.
Lemma is_header_not_status hs : Forall is_header hs → Forall not_status hs.
Proof. intros Hh. eapply Forall_impl; [exact Hh|]. by intros []. Qed.
Lemma serve_status ops w code : rw_status w = Some code → rw_status (serve ops w) = Some code.
Proof.
  revert w. induction ops as [|o ops IH]; intros w Hw; [done|].
  change (serve (o :: ops) w) with (serve ops (apply_op w o)). apply IH.
  destruct w as [? st ? ?]. cbn in Hw. subst st. by destruct o.
Qed.

(** Then the status that is logged is the one that is sent. *)
Lemma logged_status ops h : one_status ops →
  rw_status (serve ops (rw_set_header h rw_new)) = Some (statusWriter ops).
Proof.
  intros (hs & code & rest & -> & Hh & Hr). unfold statusWriter. rewrite foldl_app.
  rewrite (statusWriter_not_status _ hs) by (by apply is_header_not_status). cbn [foldl].
  rewrite statusWriter_not_status by done. rewrite serve_app, (serve_headers hs) by done.
  change (WriteHeader code :: rest) with ([WriteHeader code] ++ rest). rewrite serve_app.
  by apply serve_status.
Qed.

Lemma one_status_cons o ops : is_header o → one_status ops → one_status (o :: ops).
Proof.
  intros Ho (hs & code & rest & -> & Hh & Hr). exists (o :: hs), code, rest.
  split_and!; [done|by constructor|done].
Qed.
Lemma one_status_headers hs ops : Forall is_header hs → one_status ops → one_status (hs ++ ops).
Proof. induction 1; [done|]. intros Ho. apply one_status_cons; auto. Qed.
Lemma one_status_end hs code : Forall is_header hs → one_status (hs ++ [WriteHeader code]).
Proof. intros Hh. by exists hs, code, []. Qed.
Lemma tame_one_status ops : tame ops → one_status ops.
Proof.
  intros (hs & code & bs & -> & Hh). exists hs, code, (map Write bs).
  split_and!; [done|by apply own_is_header|]. apply Forall_forall. intros o Ho.
  apply list_elem_of_In, in_map_iff in Ho as (b & <- & _). done.
Qed.
Lemma http_Error_one_status msg code : one_status (http_Error msg code).
Proof. eexists [_; _; _], code, [_]. split_and!; [reflexivity|repeat constructor..]. Qed.
Lemma one_status_snoc ops o : one_status ops → not_status o → one_status (ops ++ [o]).
Proof.
  intros (hs & code & rest & -> & Hh & Hr) Ho. exists hs, code, (rest ++ [o]).
  split_and!; [by rewrite <-app_assoc|done|]. apply Forall_app. by split; [|constructor].
Qed.

Section gzip_status.
Context `{GzipCodec} `{GoUnicode}.

(** The gzip writer emits no status before it commits, and one when it does. *)
Definition gzip_inv (g : gzipWriter) : Prop :=
  if g_committed g then one_status (g_out g) else Forall is_header (g_out g).

Lemma commit_inv g : Forall is_header (g_out g) → one_status (g_out (commit g)).
Proof.
  intros Hh. unfold commit. destruct (_ && _); cbn [g_set emit g_out].
  - apply one_status_end. rewrite <-app_assoc. apply Forall_app. split; [done|]. by repeat constructor.
  - apply one_status_snoc; [|done]. by apply one_status_end.
Qed.

Lemma gzip_op_inv g o : gzip_inv g → gzip_inv (gzip_op g o).
Proof.
  unfold gzip_inv. intros Hg.
  assert (Hemit : is_header o → gzip_inv (emit o g)).
  { intros Ho. unfold gzip_inv. cbn [emit g_committed g_out]. destruct (g_committed g).
    - apply one_status_snoc; [done|]. by destruct o.
    - apply Forall_app. by split; [|constructor]. }
  destruct o as [k v|k v|k|code|p]; cbn [gzip_op]; try by apply Hemit.
  - done.
  - unfold gzip_Write. destruct (g_committed g) eqn:Ec.
    + destruct (g_plain g); [cbn [emit g_committed g_out]; rewrite Ec; by apply one_status_snoc|].
      destruct (g_gz g); [done|by rewrite Ec].
    + cbv zeta. destruct (_ <? _)%Z; [done|].
      assert (E : g_committed (commit (g_set (g_buf g +:+ p) (g_status g) (g_gz g) false (g_plain g) g)) = true)
        by (unfold commit; by destruct (_ && _)).
      rewrite E. by apply commit_inv.
Qed.

Lemma gzip_one_status minSize h ops : one_status (gzip_ops minSize h ops).
Proof.
  unfold gzip_ops. set (g := foldl _ _ _).
  assert (Hg : gzip_inv g).
  { subst g. assert (Hnew : gzip_inv (newGzipWriter h minSize)) by constructor.
    revert Hnew. generalize (newGzipWriter h minSize).
    induction ops as [|o ops IH]; intros g Hg; [done|]. apply IH. by apply gzip_op_inv. }
  unfold gzip_inv in Hg. unfold Close. destruct (g_committed g) eqn:Ec; cbn [negb].
  - destruct (g_gz g); [|done]. by apply one_status_snoc.
  - apply one_status_snoc; [|done]. by apply one_status_end.
Qed.

Lemma Gzip_one_status {W} minSize (next : Middleware W) h r w ops w' :
  (∀ h ops w', next h r w = Some (ops, w') → one_status ops) →
  Gzip minSize next h r w = Some (ops, w') → one_status ops.
Proof.
  intros Hn. unfold Gzip. destruct (next _ r w) as [[ops1 w1]|] eqn:E; cbn; [|done].
  intros [= <- _]. apply one_status_cons; [done|].
  destruct (negb (acceptsGzip r)); [by eapply Hn|apply gzip_one_status].
Qed.
End gzip_status.
