(* ===== verification/Pgx.v ===== *)
(** * github.com/jackc/pgx and encoding/json, as the Postgres provider sees them.

    Neither is code of the repository.  A column is a value of an abstract type that
    [Scan] decodes into a destination, whose Go type selects the decoder; a pool answers
    the text of a statement and its arguments with rows.  The laws of the class
    [PgxLaws] are the documented decodings of the Postgres types the schema uses; the
    instance [pgx_values] has them. *)
From S2P Require Import Prelude GoStrings NetIP DataSource.

(** ** Scanning *)
Class Pgx := {
  col : Type;
  ScanString : col → string + error;              (* *string *)
  ScanStringPtr : col → option string + error;    (* **string *)
  ScanStrings : col → list string + error;        (* *[]string *)
  ScanTime : col → Time + error;                  (* *time.Time *)
  ScanTimePtr : col → option Time + error;        (* **time.Time *)
  ScanAny : col → unit + error;                   (* **any, whose value is not used *)
  ScanBytes : col → string + error;               (* *[]byte; nil is the empty string *)
  ScanInt : col → Z + error;                      (* *int *)
  ScanAddrs : col → list Addr + error }.          (* *[]netip.Addr *)

(** [x ←? e; k]: Go's [if err != nil { return err }]. *)
Definition err_bind {A B} (e : A + error) (k : A → B + error) : B + error :=
  match e with inl x => k x | inr err => inr err end.
Notation "x ←? e ; k" := (err_bind e (λ x, k))
  (at level 20, e at level 100, k at level 200, only parsing) : go_scope.

(** [Scan(dest...)] decodes the columns left to right and stops at the first error; a row
    of another width is an error. *)
Definition Scanner `{Pgx} (A : Type) : Type := list col → (A * list col) + error.
Definition width_error : error := ErrOther "number of field descriptions must equal number of destinations".

Section scanner.
Context `{Pgx}.
Definition dest {A} (f : col → A + error) : Scanner A := λ cs,
  match cs with
  | [] => inr width_error
  | c :: cs => match f c with inl a => inl (a, cs) | inr e => inr e end
  end.
Definition scan_bind {A B} (m : Scanner A) (k : A → Scanner B) : Scanner B := λ cs,
  match m cs with inl (a, cs) => k a cs | inr e => inr e end.
Definition scan_ret {A} (a : A) : Scanner A := λ cs,
  match cs with [] => inl (a, []) | _ => inr width_error end.
Definition Scan {A} (m : Scanner A) (row : list col) : A + error :=
  match m row with inl (a, _) => inl a | inr e => inr e end.
End scanner.

Notation "x ⇐ m ; k" := (scan_bind m (λ x, k))
  (at level 20, m at level 100, k at level 200, only parsing) : go_scope.
#[global] Open Scope go_scope.

(** ** The pool *)
Inductive arg := ArgString (s : string) | ArgInt (z : Z).

(** [QueryRow] yields the row its [Scan] will decode, or the error it will report,
    [pgx.ErrNoRows] when there is none; [Query] the rows [Next] goes through and the
    error [Err] reports after the last. *)
Record Pool `{Pgx} (W : Type) := {
  QueryRow : string → list arg → W → (list col + error) * W;
  QueryRows : string → list arg → W → ((list (list col) * option error) + error) * W }.
Arguments QueryRow {_ W} _ _ _ _.
Arguments QueryRows {_ W} _ _ _ _.

(** [row.Scan(dest...)] *)
Definition row_Scan `{Pgx} {A} (m : Scanner A) (row : list col + error) : A + error :=
  match row with inl cs => Scan m cs | inr e => inr e end.

(** [for rows.Next() { x, err := m(rows); ...; out = append(out, x) }], up to an error. *)
Fixpoint each_row `{Pgx} {A} (m : list col → A + error) (rows : list (list col)) : list A + error :=
  match rows with
  | [] => inl []
  | r :: rows =>
      a ←? m r;
      l ←? each_row m rows;
      inl (a :: l)
  end.

(** ** JSON inside a row *)
Record ns_json := {
  nj_handle : string; nj_ldh_name : string; nj_unicode_name : string;
  nj_ipv4 : list string; nj_ipv6 : list string }.
Record phone_json := { pj_number : string; pj_kinds : list string }.
Record contact_json := {
  cj_handle : string; cj_roles : list string; cj_kind : string; cj_full_name : string;
  cj_organization : string; cj_title : string; cj_country_code : option string;
  cj_locality : string; cj_region : string; cj_postal_code : string; cj_street : list string;
  cj_created_at : Time; cj_updated_at : Time; cj_extras : string; cj_emails : list string;
  cj_phones : list phone_json }.

(** [json.Unmarshal]: the value it leaves behind, which may be partial, and its error. *)
Class PgJSON := {
  UnmarshalNameservers : string → list ns_json * option error;
  UnmarshalContacts : string → list contact_json * option error;
  UnmarshalPhones : string → list phone_json * option error;
  UnmarshalExtras : string → list (string * any) * option error;
  UnmarshalSecureDNS : string → option SecureDNS * option error }.

(** ** Documented decodings *)

(** A timestamptz is a time or one of its two infinities.  An element of an inet[] is an
    address with its mask, one of a text[] (of one dimension) a text, and either may be
    NULL. *)
Inductive stamp := Finite (t : Time) | PosInfinity | NegInfinity.
Definition host (a : Addr) : Prefix := mkPrefix a (Some (addr_BitLen a)).
(** A cidr: an address without a zone and the length of its mask. *)
Definition stored_cidr (p : Prefix) : Prop :=
  addr_IsValid (pfx_Addr p) = true ∧ addr_zone (pfx_Addr p) = "" ∧
  match pfx_Bits p with Some n => (0 ≤ n ≤ addr_BitLen (pfx_Addr p))%Z | None => False end.
#[global] Instance stored_cidr_dec p : Decision (stored_cidr p).
Proof. unfold stored_cidr. destruct (pfx_Bits p); apply _. Defined.

(** What the elements of an array scan into: a list of strings has no NULL, and a
    netip.Addr no mask but the full one.  What it makes of a NULL is [null_addr], [None]
    when it is refused. *)
Definition array_strings (o : option (list (option string))) : option (list string) :=
  mapM id (default [] o).
Definition element_addr (null_addr : option Addr) (e : option Prefix) : option Addr :=
  match e with
  | None => null_addr
  | Some p => if decide (p = host (pfx_Addr p)) then Some (pfx_Addr p) else None
  end.
Definition array_addrs (null_addr : option Addr) (o : option (list (option Prefix)))
    : option (list Addr) :=
  mapM (element_addr null_addr) (default [] o).
(** A scan that yields the value there is, and fails when there is none. *)
Definition scans_to {A} (r : A + error) (v : option A) : Prop :=
  match v with Some a => r = inl a | None => ∃ e, r = inr e end.

(** The Postgres values of the schema's columns, as pgx receives them, and the JSON
    Postgres builds out of rows.  Whether a cidr can be scanned into a string depends on
    the format pgx chose for the column: the laws say only that a text it yields is that
    of the prefix, and that an error of it is none of the sentinels. *)
Class PgxLaws `{Pgx} `{PgJSON} `{NetIPText} := {
  c_text : option string → col;                   (* text, citext, char(2) *)
  c_text_array : option (list (option string)) → col;   (* text[] *)
  c_stamp : option stamp → col;                   (* timestamptz *)
  c_json : option string → col;                   (* json, jsonb *)
  c_int : Z → col;                                (* bigint *)
  c_inet_array : option (list (option Prefix)) → col;   (* inet[] *)
  c_cidr : Prefix → col;                          (* cidr *)
  null_addr : option Addr;                        (* a NULL element of an inet[] *)
  inet_text : Addr → string;                      (* an inet inside json *)
  json_nameservers : list ns_json → string;       (* json_agg(json_build_object(...)) *)
  json_contacts : list contact_json → string;
  json_phones : list phone_json → string;
  law_string s : ScanString (c_text (Some s)) = inl s;
  law_string_null : ∃ e, ScanString (c_text None) = inr e ∧
    errors_Is e ErrNoRows = false ∧ errors_Is e ErrNotFound = false;
  law_string_ptr o : ScanStringPtr (c_text o) = inl o;
  law_text_array o : scans_to (ScanStrings (c_text_array o)) (array_strings o);
  law_stamp t : scans_to (ScanTime (c_stamp (Some t)))
    (match t with Finite t => Some t | _ => None end);
  law_stamp_ptr o : scans_to (ScanTimePtr (c_stamp o))
    (match o with None => Some None | Some (Finite t) => Some (Some t) | _ => None end);
  law_stamp_any o : ScanAny (c_stamp o) = inl tt;
  law_bytes o : ScanBytes (c_json o) = inl (default "" o);
  law_int z : in_int64 z → ScanInt (c_int z) = inl z;
  law_inet_array o : scans_to (ScanAddrs (c_inet_array o)) (array_addrs null_addr o);
  law_cidr p t : stored_cidr p → ScanString (c_cidr p) = inl t → ParsePrefix t = Some p;
  law_cidr_error p e : ScanString (c_cidr p) = inr e →
    errors_Is e ErrNoRows = false ∧ errors_Is e ErrNotFound = false;
  law_inet a : addr_IsValid a = true → addr_zone a = "" → ParseAddr (inet_text a) = Some a;
  law_json_nameservers l :
    json_nameservers l ≠ "" ∧ UnmarshalNameservers (json_nameservers l) = (l, None);
  law_json_contacts l :
    json_contacts l ≠ "" ∧ UnmarshalContacts (json_contacts l) = (l, None);
  law_json_phones l : json_phones l ≠ "" ∧ UnmarshalPhones (json_phones l) = (l, None) }.

(** The values that Go can hold: no NULL in an array, hosts only, finite times. *)
Section plain.
Context `{!Pgx} `{!PgJSON} `{NetIPText} `{!PgxLaws}.
Definition texts (l : list string) : list (option string) := Some <$> l.
Definition hosts (l : list Addr) : list (option Prefix) := (λ a, Some (host a)) <$> l.
Definition c_texts (o : option (list string)) : col := c_text_array (texts <$> o).
Definition c_inets (o : option (list Addr)) : col := c_inet_array (hosts <$> o).
Definition c_time (o : option Time) : col := c_stamp (Finite <$> o).

Lemma array_strings_plain (o : option (list string)) : array_strings (texts <$> o) = Some (default [] o).
Proof.
  destruct o as [l|]; [|done]. unfold array_strings. cbn.
  induction l as [|x l IH]; [done|]. cbn. unfold texts in IH. by rewrite IH.
Qed.
Lemma array_addrs_plain n (o : option (list Addr)) :
  array_addrs n (hosts <$> o) = Some (default [] o).
Proof.
  destruct o as [l|]; [|done]. unfold array_addrs. cbn.
  induction l as [|x l IH]; [done|]. cbn [hosts fmap list_fmap mapM element_addr host pfx_Addr].
  rewrite decide_True by done. cbn. unfold hosts in IH. by rewrite IH.
Qed.
Lemma law_strings o : ScanStrings (c_texts o) = inl (default [] o).
Proof. pose proof (law_text_array (texts <$> o)) as E. by rewrite array_strings_plain in E. Qed.
Lemma law_addrs o : ScanAddrs (c_inets o) = inl (default [] o).
Proof.
  pose proof (law_inet_array (hosts <$> o)) as E. by rewrite array_addrs_plain in E.
Qed.
Lemma law_time t : ScanTime (c_time (Some t)) = inl t.
Proof. apply (law_stamp (Finite t)). Qed.
Lemma law_time_ptr o : ScanTimePtr (c_time o) = inl o.
Proof. pose proof (law_stamp_ptr (Finite <$> o)) as E. by destruct o. Qed.
Lemma law_any o : ScanAny (c_time o) = inl tt.
Proof. apply law_stamp_any. Qed.
End plain.
Arguments c_texts : simpl never.
Arguments c_inets : simpl never.
Arguments c_time : simpl never.

(** ** An instance

    Columns are tagged values, and a list is written as the number that encodes it. *)
Inductive pgvalue :=
  | PNull | PText (s : string) | PTexts (l : list (option string)) | PTime (t : stamp)
  | PJson (s : string) | PInt (z : Z) | PInets (l : list (option Prefix)) | PCidr (p : Prefix).

#[global] Instance ns_json_eq_dec : EqDecision ns_json.
Proof. solve_decision. Defined.
#[global] Instance phone_json_eq_dec : EqDecision phone_json.
Proof. solve_decision. Defined.
#[global] Instance contact_json_eq_dec : EqDecision contact_json.
Proof. solve_decision. Defined.
#[global] Instance ns_json_countable : Countable ns_json.
Proof.
  refine (inj_countable'
    (λ x, (nj_handle x, nj_ldh_name x, nj_unicode_name x, nj_ipv4 x, nj_ipv6 x))
    (λ '(a, b, c, d, e), Build_ns_json a b c d e) _). by intros [].
Defined.
#[global] Instance phone_json_countable : Countable phone_json.
Proof.
  refine (inj_countable' (λ x, (pj_number x, pj_kinds x)) (λ '(a, b), Build_phone_json a b) _).
  by intros [].
Defined.
#[global] Instance contact_json_countable : Countable contact_json.
Proof.
  refine (inj_countable'
    (λ x, (cj_handle x, cj_roles x, cj_kind x, cj_full_name x, cj_organization x, cj_title x,
           cj_country_code x, cj_locality x,
           (cj_region x, cj_postal_code x, cj_street x, cj_created_at x : Z, cj_updated_at x : Z,
            cj_extras x, cj_emails x, cj_phones x)))
    (λ '(a, b, c, d, e, f, g, h, (i, j, k, l, m, n, o, p)),
       Build_contact_json a b c d e f g h i j k l m n o p) _). by intros [].
Defined.

(** A number by its binary digits, the least significant first. *)
Fixpoint bits (p : positive) : string :=
  match p with
  | xH => "1" | xO p => String "0" (bits p) | xI p => String "1" (bits p)
  end.
Fixpoint of_bits (s : string) : option positive :=
  match s with
  | String "1" "" => Some xH
  | String "0" s => xO <$> of_bits s
  | String "1" s => xI <$> of_bits s
  | _ => None
  end.
Lemma of_bits_bits p : of_bits (bits p) = Some p.
Proof.
  induction p as [p IH|p IH|]; [| |done]; cbn [bits of_bits]; rewrite IH; [|done].
  by destruct p.
Qed.

Definition json_of `{Countable A} (x : A) : string := bits (encode x).
Definition of_json `{Countable A} (dflt : A) (s : string) : A * option error :=
  match (p ← of_bits s; decode p) with
  | Some x => (x, None)
  | None => (dflt, Some (ErrOther "invalid JSON"))
  end.
Lemma of_json_of `{Countable A} (d x : A) : json_of x ≠ "" ∧ of_json d (json_of x) = (x, None).
Proof.
  split; [unfold json_of; by destruct (encode x)|].
  unfold of_json, json_of. rewrite of_bits_bits. cbn. by rewrite decode_encode.
Qed.

#[global] Instance Addr_countable : Countable Addr.
Proof.
  refine (inj_countable' (λ a, (addr_BitLen a, addr_val a, addr_zone a))
    (λ '(b, v, z), mkAddr b v z) _). by intros [].
Defined.
#[global] Instance Prefix_countable : Countable Prefix.
Proof.
  refine (inj_countable' (λ p, (pfx_Addr p, pfx_Bits p)) (λ '(a, b), mkPrefix a b) _). by intros [].
Defined.

(** A text form of addresses and prefixes that can be read back. *)
Definition read_json `{Countable A} (s : string) : option A := p ← of_bits s; decode p.
Lemma read_json_of `{Countable A} (x : A) : read_json (json_of x) = Some x.
Proof. unfold read_json, json_of. rewrite of_bits_bits. cbn. apply decode_encode. Qed.
Definition netip_bits : NetIPText :=
  {| ParseAddr := read_json; addr_String := json_of; ParsePrefix := read_json |}.

Definition scan_error {A} : A + error := inr (ErrOther "cannot scan into destination").
Definition scan_option {A} (o : option A) : A + error :=
  match o with Some a => inl a | None => scan_error end.
Lemma scan_option_to {A} (o : option A) : scans_to (scan_option o) o.
Proof. destruct o; [done|by eexists]. Qed.
Definition pgx_values : Pgx := {|
  col := pgvalue;
  ScanString := λ c, match c with
                     | PText s => inl s
                     | PCidr p => inl (json_of p)
                     | _ => scan_error
                     end;
  ScanStringPtr := λ c, match c with PText s => inl (Some s) | PNull => inl None | _ => scan_error end;
  ScanStrings := λ c, match c with
                      | PTexts l => scan_option (array_strings (Some l))
                      | PNull => inl []
                      | _ => scan_error
                      end;
  ScanTime := λ c, match c with PTime (Finite t) => inl t | _ => scan_error end;
  ScanTimePtr := λ c, match c with
                      | PTime (Finite t) => inl (Some t)
                      | PNull => inl None
                      | _ => scan_error
                      end;
  ScanAny := λ c, inl tt;
  ScanBytes := λ c, match c with PJson s => inl s | PNull => inl "" | _ => scan_error end;
  ScanInt := λ c, match c with PInt z => inl z | _ => scan_error end;
  ScanAddrs := λ c, match c with
                    | PInets l => scan_option (array_addrs (Some addr_zero) (Some l))
                    | PNull => inl []
                    | _ => scan_error
                    end |}.

(** Open JSON is left undecoded by the instance. *)
Definition pg_json : PgJSON := {|
  UnmarshalNameservers := of_json []; UnmarshalContacts := of_json [];
  UnmarshalPhones := of_json []; UnmarshalExtras := λ _, ([], None);
  UnmarshalSecureDNS := λ _, (None, None) |}.

#[local] Existing Instance pgx_values.
#[local] Existing Instance pg_json.
#[local] Existing Instance netip_bits.
Definition pgx_values_laws : PgxLaws.
Proof.
  refine {|
    c_text := λ o : option string, match o with Some s => PText s | None => PNull end : col;
    c_text_array := λ o : option (list (option string)),
      match o with Some l => PTexts l | None => PNull end : col;
    c_stamp := λ o : option stamp, match o with Some t => PTime t | None => PNull end : col;
    c_json := λ o : option string, match o with Some s => PJson s | None => PNull end : col;
    c_int := PInt : Z → col;
    c_inet_array := λ o : option (list (option Prefix)),
      match o with Some l => PInets l | None => PNull end : col;
    c_cidr := PCidr : Prefix → col; null_addr := Some addr_zero; inet_text := json_of;
    json_nameservers := json_of; json_contacts := json_of; json_phones := json_of |};
    try (by intros []); try done; try (intros; apply read_json_of).
  - eexists. split; [reflexivity|done].
  - intros [l|]; [apply scan_option_to|done].
  - intros [t| |]; [done|by eexists..].
  - intros [[t| |]|]; [done|by eexists..|done].
  - intros [l|]; [apply scan_option_to|done].
  - intros p t _ [= <-]. apply read_json_of.
  - intros l. apply of_json_of.
  - intros l. apply of_json_of.
  - intros l. apply of_json_of.
Defined.
