(* ===== verification/Postgres.v ===== *)
(** * pkg/rdap/storage/postgres: the provider and the index over a pool.

    Each method is the whole of its Go method: the statement it sends, the decoding of
    the rows, its error paths.  [domainNameservers], [domainContacts] and
    [scanContactRowFull] are not called by the provider any more.  What the statements
    mean is in PgSchema. *)
From S2P Require Import Prelude GoStrings NetIP DataSource Search Pgx.

(** ** The statements *)
Definition sql_domain : string := "
	SELECT d.handle, d.ldh_name, d.unicode_name, d.status,
	       d.registered_at, d.expires_at, d.last_changed,
	       d.last_rdap_update, d.secure_dns,
	       COALESCE(
	         (SELECT json_agg(json_build_object(
	            'handle',       n.handle,
	            'ldh_name',     n.ldh_name,
	            'unicode_name', n.unicode_name,
	            'ipv4',         n.ipv4,
	            'ipv6',         n.ipv6
	          ) ORDER BY n.ldh_name)
	          FROM domain_nameservers dn
	          JOIN nameservers n ON n.handle = dn.nameserver_handle
	          WHERE dn.domain_handle = d.handle),
	         '[]'::json) AS nameservers,
	       COALESCE(
	         (SELECT json_agg(json_build_object(
	            'handle',       e.handle,
	            'roles',        (SELECT array_agg(DISTINCT dc2.role)
	                               FROM domain_contacts dc2
	                              WHERE dc2.domain_handle = d.handle
	                                AND dc2.entity_handle = e.handle),
	            'kind',         e.kind,
	            'full_name',    e.full_name,
	            'organization', e.organization,
	            'title',        e.title,
	            'country_code', e.country_code,
	            'locality',     e.locality,
	            'region',       e.region,
	            'postal_code',  e.postal_code,
	            'street',       e.street,
	            'created_at',   e.created_at,
	            'updated_at',   e.updated_at,
	            'extras',       e.extras,
	            'emails',       COALESCE((SELECT array_agg(ee.email::text ORDER BY ee.email)
	                                       FROM entity_emails ee
	                                      WHERE ee.entity_handle = e.handle),
	                                     '{}'::text[]),
	            'phones',       COALESCE((SELECT json_agg(json_build_object('number', ep.number, 'kinds', ep.kinds) ORDER BY ep.number)
	                                       FROM entity_phones ep
	                                      WHERE ep.entity_handle = e.handle),
	                                     '[]'::json)
	          ) ORDER BY e.handle)
	          FROM domain_contacts dc
	          JOIN entities e ON e.handle = dc.entity_handle
	          WHERE dc.domain_handle = d.handle),
	         '[]'::json) AS contacts
	  FROM domains d
	 WHERE d.ldh_name = lower($1)".
Definition sql_domain_nameservers : string := "
	SELECT n.handle, n.ldh_name, n.unicode_name, n.ipv4, n.ipv6
	  FROM domain_nameservers dn
	  JOIN nameservers n ON n.handle = dn.nameserver_handle
	 WHERE dn.domain_handle = $1".
Definition sql_domain_contacts : string := "
	SELECT e.handle, array_agg(DISTINCT dc.role) AS roles,
	       e.kind, e.full_name, e.organization, e.title,
	       e.country_code, e.locality, e.region, e.postal_code, e.street,
	       e.created_at, e.updated_at, e.extras,
	       COALESCE((SELECT array_agg(ee.email::text ORDER BY ee.email)
	                   FROM entity_emails ee WHERE ee.entity_handle = e.handle),
	                '{}'::text[]) AS emails,
	       COALESCE((SELECT json_agg(json_build_object('number', ep.number, 'kinds', ep.kinds) ORDER BY ep.number)
	                   FROM entity_phones ep WHERE ep.entity_handle = e.handle),
	                '[]'::json) AS phones
	  FROM domain_contacts dc
	  JOIN entities e ON e.handle = dc.entity_handle
	 WHERE dc.domain_handle = $1
	 GROUP BY e.handle".
Definition sql_emails : string := "SELECT email FROM entity_emails WHERE entity_handle = $1 ORDER BY email".
Definition sql_phones : string := "SELECT number, kinds FROM entity_phones WHERE entity_handle = $1 ORDER BY number".
Definition sql_entity : string := "
	SELECT handle, ARRAY[]::text[] AS roles, kind,
	       full_name, organization, title,
	       country_code, locality, region, postal_code, street,
	       created_at, updated_at, extras
	  FROM entities WHERE handle = $1".
Definition sql_nameserver : string := "SELECT handle, ldh_name, unicode_name, ipv4, ipv6
	             FROM nameservers WHERE lower(ldh_name) = lower($1) LIMIT 1".
Definition sql_ip : string := "
	SELECT handle, prefix, name, type, country, parent_handle,
	       status, registered_at, last_changed
	  FROM ip_networks
	 WHERE prefix >>= $1
	 ORDER BY masklen(prefix) DESC
	 LIMIT 1".
Definition sql_count_domains : string := "SELECT count(*) FROM domains WHERE ldh_name LIKE $1".
Definition sql_search_domains : string := "
	SELECT handle, ldh_name, unicode_name, status,
	       registered_at, expires_at, last_changed, last_rdap_update
	  FROM domains
	 WHERE ldh_name LIKE $1
	 ORDER BY ldh_name
	 LIMIT $2 OFFSET $3".
Definition sql_search_entities : string := "
	SELECT e.handle, ARRAY[]::text[] AS roles, e.kind,
	       e.full_name, e.organization, e.title,
	       e.country_code, e.locality, e.region, e.postal_code, e.street,
	       e.created_at, e.updated_at, e.extras,
	       COALESCE((SELECT array_agg(ee.email::text ORDER BY ee.email)
	                   FROM entity_emails ee WHERE ee.entity_handle = e.handle),
	                '{}'::text[]) AS emails,
	       COALESCE((SELECT json_agg(json_build_object('number', ep.number, 'kinds', ep.kinds) ORDER BY ep.number)
	                   FROM entity_phones ep WHERE ep.entity_handle = e.handle),
	                '[]'::json) AS phones,
	       count(*) OVER() AS total_count
	  FROM entities e
	 WHERE ".
Definition sql_search_nameservers : string := "
	SELECT handle, ldh_name, unicode_name, ipv4, ipv6,
	       count(*) OVER() AS total_count
	  FROM nameservers WHERE ldh_name LIKE $1
	  ORDER BY ldh_name LIMIT $2 OFFSET $3".

(** ** Shared decoding *)

(** An address is stored when any of its columns is set. *)
Definition address_of (country : option string) (locality region postal : string)
    (street : list string) : option Address :=
  if bool_decide (is_Some country) || negb (locality =? "")%string || negb (region =? "")%string
     || negb (postal =? "")%string || negb (is_empty street)
  then Some {| adr_Street := street; adr_Locality := locality; adr_Region := region;
               adr_PostalCode := postal; adr_CountryCode := default "" country |}
  else None.

Definition phone_of (p : phone_json) : Phone :=
  {| ph_Number := pj_number p; ph_Kinds := pj_kinds p |}.

(** ** Patterns *)

(** The runes of a string as [range] yields them and [WriteRune] writes them: a byte
    that starts no valid UTF-8 sequence is one rune, U+FFFD. *)
Definition cont (c : ascii) : bool := in_range c "128" "191".
Definition rune2 (a b : ascii) : bool := in_range a "194" "223" && cont b.
Definition rune3 (a b c : ascii) : bool :=
  cont c && (Ascii.eqb a "224" && in_range b "160" "191" || in_range a "225" "236" && cont b ||
             Ascii.eqb a "237" && in_range b "128" "159" || in_range a "238" "239" && cont b).
Definition rune4 (a b c d : ascii) : bool :=
  cont c && cont d && (Ascii.eqb a "240" && in_range b "144" "191" ||
                       in_range a "241" "243" && cont b ||
                       Ascii.eqb a "244" && in_range b "128" "143").
Definition RuneError : string := String "239" (String "191" (String "189" "")).
Fixpoint runes (s : string) : list string :=
  match s with
  | "" => []
  | String a s1 =>
      if is_ascii_byte a then String a "" :: runes s1 else
      match s1 with
      | "" => RuneError :: runes s1
      | String b s2 =>
          if rune2 a b then String a (String b "") :: runes s2 else
          match s2 with
          | "" => RuneError :: runes s1
          | String c s3 =>
              if rune3 a b c then String a (String b (String c "")) :: runes s3 else
              match s3 with
              | "" => RuneError :: runes s1
              | String d s4 =>
                  if rune4 a b c d then String a (String b (String c (String d ""))) :: runes s4
                  else RuneError :: runes s1
              end
          end
      end
  end.

Definition ilike_rune (r : string) : string :=
  if (r =? "*")%string then "%"
  else if (r =? "%")%string || (r =? "_")%string || (r =? "\")%string then "\" +:+ r
  else r.
Definition ilikePattern `{GoUnicode} (s : string) : string :=
  ToLower (foldr (λ r out, ilike_rune r +:+ out) "" (runes s)).

Example ilikePattern_tests :
  let U := unicode_default in
  ilikePattern <$> ["example.*"; "foo*"; "plain"; "100%risky"; "a_b"; "back\slash"; "B*"] =
  ["example.%"; "foo%"; "plain"; "100\%risky"; "a\_b"; "back\\slash"; "b%"].
Proof. vm_compute. reflexivity. Qed.

Section postgres.
Context `{Pgx} `{PgJSON} `{NetIPText} `{GoUnicode}.

Definition ns_of_json (r : ns_json) : Nameserver :=
  {| ns_Handle := nj_handle r; ns_LDHName := nj_ldh_name r; ns_UnicodeName := nj_unicode_name r;
     ns_IPv4 := omap ParseAddr (nj_ipv4 r); ns_IPv6 := omap ParseAddr (nj_ipv6 r) |}.

Definition decodeNameservers (raw : string) : list Nameserver + error :=
  if (raw =? "")%string then inl [] else
  match UnmarshalNameservers raw with
  | (_, Some err) => inr (Wrap "postgres: decode nameservers JSON" err)
  | (rows, None) => inl (ns_of_json <$> rows)
  end.

Definition contact_of_json (r : contact_json) : Contact :=
  {| c_Handle := cj_handle r; c_Roles := cj_roles r; c_Kind := cj_kind r;
     c_FullName := cj_full_name r; c_Organization := cj_organization r; c_Title := cj_title r;
     c_Emails := cj_emails r; c_Phones := phone_of <$> cj_phones r;
     c_Address := address_of (cj_country_code r) (cj_locality r) (cj_region r)
                    (cj_postal_code r) (cj_street r);
     c_CreatedAt := cj_created_at r; c_UpdatedAt := cj_updated_at r;
     c_Extras := if negb (cj_extras r =? "")%string && negb (cj_extras r =? "null")%string
                 then (UnmarshalExtras (cj_extras r)).1 else [] |}.

Definition decodeContacts (raw : string) : list Contact + error :=
  if (raw =? "")%string then inl [] else
  match UnmarshalContacts raw with
  | (_, Some err) => inr (Wrap "postgres: decode contacts JSON" err)
  | (rows, None) => inl (contact_of_json <$> rows)
  end.

(** The columns of an entity that every entity statement starts with; [extras] is left
    to the caller. *)
Definition entity_columns : Scanner (Contact * string) :=
  handle ⇐ dest ScanString; roles ⇐ dest ScanStrings; kind ⇐ dest ScanString;
  full_name ⇐ dest ScanString; organization ⇐ dest ScanString; title ⇐ dest ScanString;
  country ⇐ dest ScanStringPtr; locality ⇐ dest ScanString; region ⇐ dest ScanString;
  postal ⇐ dest ScanString; street ⇐ dest ScanStrings;
  created ⇐ dest ScanTime; updated ⇐ dest ScanTime; extrasJSON ⇐ dest ScanBytes;
  λ cs, inl ({| c_Handle := handle; c_Roles := roles; c_Kind := kind; c_FullName := full_name;
     c_Organization := organization; c_Title := title; c_Emails := []; c_Phones := [];
     c_Address := address_of country locality region postal street;
     c_CreatedAt := created; c_UpdatedAt := updated; c_Extras := [] |}, extrasJSON, cs).

Definition with_extras (l : list (string * any)) (c : Contact) : Contact :=
  {| c_Handle := c_Handle c; c_Roles := c_Roles c; c_Kind := c_Kind c;
     c_FullName := c_FullName c; c_Organization := c_Organization c; c_Title := c_Title c;
     c_Emails := c_Emails c; c_Phones := c_Phones c; c_Address := c_Address c;
     c_CreatedAt := c_CreatedAt c; c_UpdatedAt := c_UpdatedAt c; c_Extras := l |}.
Definition with_channels (emails : list string) (phones : list Phone) (c : Contact) : Contact :=
  {| c_Handle := c_Handle c; c_Roles := c_Roles c; c_Kind := c_Kind c;
     c_FullName := c_FullName c; c_Organization := c_Organization c; c_Title := c_Title c;
     c_Emails := emails; c_Phones := phones; c_Address := c_Address c;
     c_CreatedAt := c_CreatedAt c; c_UpdatedAt := c_UpdatedAt c; c_Extras := c_Extras c |}.

(** [json.Unmarshal(extrasJSON, &c.Extras)] with its error reported, or ignored. *)
Definition extras_strict (extrasJSON : string) (c : Contact) : Contact + error :=
  if (extrasJSON =? "")%string then inl c else
  match UnmarshalExtras extrasJSON with
  | (_, Some err) => inr (Wrap "postgres: decode entity extras" err)
  | (l, None) => inl (with_extras l c)
  end.
Definition extras_lax (extrasJSON : string) (c : Contact) : Contact :=
  if (extrasJSON =? "")%string then c else with_extras (UnmarshalExtras extrasJSON).1 c.

Definition scanContactRow (row : list col + error) : Contact + error :=
  ce ←? row_Scan (ce ⇐ entity_columns; scan_ret ce) row;
  extras_strict ce.2 ce.1.

Definition full_columns : Scanner (Contact * string * list string * string) :=
  ce ⇐ entity_columns; emails ⇐ dest ScanStrings; phonesJSON ⇐ dest ScanBytes;
  scan_ret (ce, emails, phonesJSON).
Definition scanContactRowFull (row : list col) : Contact + error :=
  t ←? Scan full_columns row;
  let '(c, extrasJSON, emails, phonesJSON) := t in
  c ←? extras_strict extrasJSON c;
  if (phonesJSON =? "")%string then inl (with_channels emails [] c) else
  match UnmarshalPhones phonesJSON with
  | (_, Some err) => inr (Wrap "postgres: decode phones JSON" err)
  | (raw, None) => inl (with_channels emails (phone_of <$> raw) c)
  end.

(** ** The provider *)
Context {W : Type} (pool : Pool W).

(** [if errors.Is(err, pgx.ErrNoRows) { ErrNotFound } else { %w }] *)
Definition lookup_error (msg : string) (err : error) : error :=
  if errors_Is err ErrNoRows then ErrNotFound else Wrap msg err.
Definition returned {V} (r : V + error) : res V :=
  match r with inl v => found v | inr err => failed err end.

Definition domain_columns : Scanner (Domain * string * string * string) :=
  handle ⇐ dest ScanString; ldh ⇐ dest ScanString; uni ⇐ dest ScanString;
  status ⇐ dest ScanStrings; registered ⇐ dest ScanTime; expires ⇐ dest ScanTimePtr;
  changed ⇐ dest ScanTime; updated ⇐ dest ScanTime; secureDNS ⇐ dest ScanBytes;
  nsJSON ⇐ dest ScanBytes; contJSON ⇐ dest ScanBytes;
  scan_ret ({| d_Handle := handle; d_LDHName := ldh; d_UnicodeName := uni; d_Status := status;
     d_Registered := registered; d_Expires := default 0%Z expires; d_LastChanged := changed;
     d_LastRDAPUpdate := updated; d_Nameservers := []; d_SecureDNS := None; d_Contacts := [];
     d_Registrar := None |}, secureDNS, nsJSON, contJSON).
Definition with_parts (sd : option SecureDNS) (ns : list Nameserver) (cs : list Contact)
    (d : Domain) : Domain :=
  {| d_Handle := d_Handle d; d_LDHName := d_LDHName d; d_UnicodeName := d_UnicodeName d;
     d_Status := d_Status d; d_Registered := d_Registered d; d_Expires := d_Expires d;
     d_LastChanged := d_LastChanged d; d_LastRDAPUpdate := d_LastRDAPUpdate d;
     d_Nameservers := ns; d_SecureDNS := sd; d_Contacts := cs; d_Registrar := d_Registrar d |}.

Definition decode_domain (row : list col + error) : Domain + error :=
  match row_Scan domain_columns row with
  | inr err => inr (lookup_error "postgres: get domain" err)
  | inl (d, secureDNS, nsJSON, contJSON) =>
      sd ←? (if (secureDNS =? "")%string then inl None else
             match UnmarshalSecureDNS secureDNS with
             | (_, Some err) => inr (Wrap "postgres: decode secureDNS" err)
             | (sd, None) => inl sd
             end);
      ns ←? decodeNameservers nsJSON;
      contacts ←? decodeContacts contJSON;
      inl (with_parts sd ns contacts d)
  end.
Definition Provider_GetDomain (name : string) (w : W) : res Domain * W :=
  let '(row, w) := QueryRow pool sql_domain [ArgString name] w in
  (returned (decode_domain row), w).

(** [return out, rows.Err()], or [nil] and the error of a scan or of the query. *)
Definition collected {A} (m : list col → A + error) (msg : string)
    (rows : (list (list col) * option error) + error) : list A * option error :=
  match rows with
  | inr err => ([], Some (Wrap msg err))
  | inl (rows, rerr) =>
      match each_row m rows with
      | inr err => ([], Some err)
      | inl l => (l, rerr)
      end
  end.

Definition nameserver_columns : Scanner Nameserver :=
  handle ⇐ dest ScanString; ldh ⇐ dest ScanString; uni ⇐ dest ScanString;
  v4 ⇐ dest ScanAddrs; v6 ⇐ dest ScanAddrs;
  λ cs, inl ({| ns_Handle := handle; ns_LDHName := ldh; ns_UnicodeName := uni;
                ns_IPv4 := v4; ns_IPv6 := v6 |}, cs).
Definition domainNameservers (handle : string) (w : W) : (list Nameserver * option error) * W :=
  let '(rows, w) := QueryRows pool sql_domain_nameservers [ArgString handle] w in
  (collected (Scan (n ⇐ nameserver_columns; scan_ret n)) "postgres: list nameservers" rows, w).
Definition domainContacts (handle : string) (w : W) : (list Contact * option error) * W :=
  let '(rows, w) := QueryRows pool sql_domain_contacts [ArgString handle] w in
  (collected scanContactRowFull "postgres: list contacts" rows, w).

(** The rows of a query appended to [c], one column each. *)
Definition appended {A} (m : Scanner A) (msg : string)
    (rows : (list (list col) * option error) + error) : list A + error :=
  match rows with
  | inr err => inr (Wrap msg err)
  | inl (rows, rerr) =>
      l ←? each_row (Scan m) rows;
      match rerr with Some err => inr err | None => inl l end
  end.

Definition attachChannels (c : Contact) (w : W) : (Contact + error) * W :=
  let '(rows, w) := QueryRows pool sql_emails [ArgString (c_Handle c)] w in
  match appended (e ⇐ dest ScanString; scan_ret e) "postgres: list emails" rows with
  | inr err => (inr err, w)
  | inl emails =>
      let c := with_channels (c_Emails c ++ emails) (c_Phones c) c in
      let '(rows, w) := QueryRows pool sql_phones [ArgString (c_Handle c)] w in
      match appended (number ⇐ dest ScanString; kinds ⇐ dest ScanStrings;
                      scan_ret {| ph_Number := number; ph_Kinds := kinds |})
              "postgres: list phones" rows with
      | inr err => (inr err, w)
      | inl phones => (inl (with_channels (c_Emails c) (c_Phones c ++ phones) c), w)
      end
  end.

Definition Provider_GetEntity (handle : string) (w : W) : res Contact * W :=
  let '(row, w) := QueryRow pool sql_entity [ArgString handle] w in
  match scanContactRow row with
  | inr err => (failed (lookup_error "postgres: get entity" err), w)
  | inl c =>
      let '(r, w) := attachChannels c w in
      (returned r, w)
  end.

Definition Provider_GetNameserver (name : string) (w : W) : res Nameserver * W :=
  let '(row, w) := QueryRow pool sql_nameserver [ArgString name] w in
  match row_Scan (n ⇐ nameserver_columns; scan_ret n) row with
  | inr err => (failed (lookup_error "postgres: get nameserver" err), w)
  | inl n => (found n, w)
  end.

Definition network_columns : Scanner (IPNetwork * string) :=
  handle ⇐ dest ScanString; prefix ⇐ dest ScanString; name ⇐ dest ScanString;
  type ⇐ dest ScanString; country ⇐ dest ScanString; parent ⇐ dest ScanString;
  status ⇐ dest ScanStrings; registered ⇐ dest ScanTime; changed ⇐ dest ScanTime;
  scan_ret ({| net_Handle := handle; net_Prefix := mkPrefix addr_zero None; net_Name := name;
     net_Type := type; net_Country := country; net_ParentHandle := parent;
     net_Status := status; net_Registered := registered; net_LastChanged := changed;
     net_Contacts := [] |}, prefix).
Definition with_prefix (p : Prefix) (n : IPNetwork) : IPNetwork :=
  {| net_Handle := net_Handle n; net_Prefix := p; net_Name := net_Name n;
     net_Type := net_Type n; net_Country := net_Country n;
     net_ParentHandle := net_ParentHandle n; net_Status := net_Status n;
     net_Registered := net_Registered n; net_LastChanged := net_LastChanged n;
     net_Contacts := net_Contacts n |}.
Definition Provider_GetIPNetwork (ip : Addr) (w : W) : res IPNetwork * W :=
  let '(row, w) := QueryRow pool sql_ip [ArgString (addr_String ip)] w in
  match row_Scan network_columns row with
  | inr err => (failed (lookup_error "postgres: get ip network" err), w)
  | inl (n, prefix) =>
      match ParsePrefix prefix with
      | None => (failed (Wrap ("postgres: decode prefix " +:+ prefix) (ErrOther "netip.ParsePrefix")), w)
      | Some pfx => (found (with_prefix pfx n), w)
      end
  end.

Definition postgres_source : DataSource W :=
  {| GetDomain := Provider_GetDomain; GetEntity := Provider_GetEntity;
     GetNameserver := Provider_GetNameserver; GetIPNetwork := Provider_GetIPNetwork |}.

(** ** The index *)

(** [return &search.Result{Items: items, Total: total}, rows.Err()] *)
Definition searched {A} (items : list A) (total : Z) (rerr : option error) : res (Result A) :=
  (Some (Build_Result items total ""), rerr).

Definition search_domain_columns : Scanner Domain :=
  handle ⇐ dest ScanString; ldh ⇐ dest ScanString; uni ⇐ dest ScanString;
  status ⇐ dest ScanStrings; registered ⇐ dest ScanTime; expires ⇐ dest ScanAny;
  changed ⇐ dest ScanTime; updated ⇐ dest ScanTime;
  scan_ret {| d_Handle := handle; d_LDHName := ldh; d_UnicodeName := uni; d_Status := status;
     d_Registered := registered; d_Expires := 0%Z; d_LastChanged := changed;
     d_LastRDAPUpdate := updated; d_Nameservers := []; d_SecureDNS := None; d_Contacts := [];
     d_Registrar := None |}.

Definition Provider_SearchDomains (q : Query) (w : W) : res (Result Domain) * W :=
  let name := default "" (Terms q !! "name") in
  if (name =? "")%string then (failed ErrNotImplemented, w) else
  let pattern := ilikePattern name in
  let limit := ClampLimit (Limit q) 50 500 in
  let '(row, w) := QueryRow pool sql_count_domains [ArgString pattern] w in
  match row_Scan (n ⇐ dest ScanInt; scan_ret n) row with
  | inr err => (failed (Wrap "postgres: count domains" err), w)
  | inl total =>
      let '(rows, w) := QueryRows pool sql_search_domains
                          [ArgString pattern; ArgInt limit; ArgInt (Offset q)] w in
      match rows with
      | inr err => (failed (Wrap "postgres: list domains" err), w)
      | inl (rows, rerr) =>
          match each_row (Scan search_domain_columns) rows with
          | inr err => (failed err, w)
          | inl items => (searched items total rerr, w)
          end
      end
  end.

(** A query whose last column is the total: it keeps the one of the last row. *)
Definition with_total {A} (msg : string) (m : list col → (A * Z) + error)
    (rows : (list (list col) * option error) + error) : res (Result A) :=
  match rows with
  | inr err => failed (Wrap msg err)
  | inl (rows, rerr) =>
      match each_row m rows with
      | inr err => failed err
      | inl l => searched (l.*1) (default 0%Z (last (l.*2))) rerr
      end
  end.

Definition scanEntityWithTotal (row : list col) : (Contact * Z) + error :=
  t ←? Scan (ce ⇐ entity_columns; emails ⇐ dest ScanStrings; phonesJSON ⇐ dest ScanBytes;
             total ⇐ dest ScanInt; scan_ret (ce, emails, phonesJSON, total)) row;
  let '(c, extrasJSON, emails, phonesJSON, total) := t in
  let raw := if (phonesJSON =? "")%string then [] else (UnmarshalPhones phonesJSON).1 in
  inl (with_channels emails (phone_of <$> raw) (extras_lax extrasJSON c), total).

(** The conditions of an entity search and their arguments; a condition names its
    argument by its position. *)
Definition entity_condition (terms : gmap string string) (field : string)
    (conv : string → string) (text : string → string) (wa : list string * list arg)
    : list string * list arg :=
  match terms !! field with
  | None => wa
  | Some v =>
      let args := wa.2 ++ [ArgString (conv v)] in
      (wa.1 ++ [text (Itoa (Z.of_nat (length args)))], args)
  end.
Definition sql_fn (n : string) : string :=
  "(e.full_name LIKE $" +:+ n +:+ " OR e.organization LIKE $" +:+ n +:+ ")".
Definition sql_handle (n : string) : string := "e.handle LIKE $" +:+ n.
Definition sql_email (n : string) : string :=
  "EXISTS (SELECT 1 FROM entity_emails ee WHERE ee.entity_handle = e.handle AND ee.email LIKE $"
  +:+ n +:+ ")".
Definition sql_country (n : string) : string := "e.country_code = $" +:+ n.
Definition entity_where (terms : gmap string string) : list string * list arg :=
  entity_condition terms "countryCode" ToUpper sql_country
    (entity_condition terms "email" ilikePattern sql_email
      (entity_condition terms "handle" ilikePattern sql_handle
        (entity_condition terms "fn" ilikePattern sql_fn ([], [])))).
Definition sql_entities (conditions : list string) (nargs : Z) : string :=
  sql_search_entities +:+ Join conditions " AND " +:+
  " ORDER BY e.handle LIMIT $" +:+ Itoa (nargs + 1) +:+ " OFFSET $" +:+ Itoa (nargs + 2).

Definition Provider_SearchEntities (q : Query) (w : W) : res (Result Contact) * W :=
  let '(conditions, args) := entity_where (Terms q) in
  if is_empty conditions then (failed ErrNotImplemented, w) else
  let limit := ClampLimit (Limit q) 50 500 in
  let selSQL := sql_entities conditions (Z.of_nat (length args)) in
  let '(rows, w) := QueryRows pool selSQL (args ++ [ArgInt limit; ArgInt (Offset q)]) w in
  (with_total "postgres: search entities" scanEntityWithTotal rows, w).

Definition Provider_SearchNameservers (q : Query) (w : W) : res (Result Nameserver) * W :=
  match Terms q !! "name" with
  | None => (failed ErrNotImplemented, w)
  | Some pattern =>
      let limit := ClampLimit (Limit q) 50 500 in
      let '(rows, w) := QueryRows pool sql_search_nameservers
        [ArgString (ilikePattern pattern); ArgInt limit; ArgInt (Offset q)] w in
      (with_total "postgres: search nameservers"
         (Scan (n ⇐ nameserver_columns; total ⇐ dest ScanInt; scan_ret (n, total))) rows, w)
  end.

Definition postgres_index : Index W :=
  {| SearchDomains := Provider_SearchDomains; SearchEntities := Provider_SearchEntities;
     SearchNameservers := Provider_SearchNameservers |}.
End postgres.
