(* ===== verification/PgSchema.v ===== *)
(** * pkg/rdap/storage/postgres/schema.sql, and what the statements of Postgres mean.

    A table is the list of its rows, in no particular order.  Each statement denotes the
    rows it yields on a database; a pool [serves] a database when it answers the
    provider's statements with these rows.  What Postgres does with text (lower, LIKE,
    the order of ORDER BY) is the class [PgText]. *)
From S2P Require Import Prelude GoStrings NetIP DataSource Search Memory Pgx Postgres.

(** ** Tables *)
Record entity_row := {
  er_handle : string; er_kind : string; er_full_name : string; er_organization : string;
  er_title : string; er_country_code : option string; er_locality : string;
  er_region : string; er_postal_code : string; er_street : list string;
  er_created_at : Time; er_updated_at : Time; er_extras : string }.
Record email_row := { em_entity : string; em_email : string }.
Record phone_row := { pr_entity : string; pr_number : string; pr_kinds : list string }.
Record domain_row := {
  dr_handle : string; dr_ldh_name : string; dr_unicode_name : string; dr_status : list string;
  dr_registered_at : Time; dr_expires_at : option Time; dr_last_changed : Time;
  dr_last_rdap_update : Time; dr_secure_dns : option string; dr_registrar_handle : option string }.
Record contact_row := { dc_domain : string; dc_entity : string; dc_role : string }.
Record ns_row := {
  nr_handle : string; nr_ldh_name : string; nr_unicode_name : string;
  nr_ipv4 : option (list Addr); nr_ipv6 : option (list Addr) }.
Record domain_ns_row := { dn_domain : string; dn_nameserver : string }.
Record network_row := {
  wr_handle : string; wr_prefix : Prefix; wr_name : string; wr_type : string;
  wr_country : option string; wr_parent_handle : option string; wr_status : list string;
  wr_registered_at : Time; wr_last_changed : Time }.

Record Database := {
  t_entities : list entity_row; t_emails : list email_row; t_phones : list phone_row;
  t_domains : list domain_row; t_contacts : list contact_row; t_nameservers : list ns_row;
  t_domain_ns : list domain_ns_row; t_networks : list network_row }.
#[global] Instance contact_row_eq_dec : EqDecision contact_row.
Proof. solve_decision. Defined.
#[global] Instance domain_ns_row_eq_dec : EqDecision domain_ns_row.
Proof. solve_decision. Defined.
Definition empty_db : Database :=
  {| t_entities := []; t_emails := []; t_phones := []; t_domains := []; t_contacts := [];
     t_nameservers := []; t_domain_ns := []; t_networks := [] |}.

(** ** Text *)

(** A LIKE pattern without single-character wildcards, and its text. *)
Inductive like_tok := LAny | LChar (c : ascii).
Definition like_special (c : ascii) : bool :=
  Ascii.eqb c "%" || Ascii.eqb c "_" || Ascii.eqb c "\".
Definition like_text (t : like_tok) : string :=
  match t with
  | LAny => "%"
  | LChar c => if like_special c then String "\" (String c "") else String c ""
  end.
Definition like_pattern (ts : list like_tok) : string := foldr (λ t out, like_text t +:+ out) "" ts.

(** [LAny] stands for any sequence of bytes. *)
Fixpoint like_match (ts : list like_tok) (s : string) {struct ts} : bool :=
  match ts with
  | [] => (s =? "")%string
  | LChar c :: ts => match s with String c' s => Ascii.eqb c c' && like_match ts s | "" => false end
  | LAny :: ts =>
      (fix any (s : string) : bool :=
         like_match ts s || match s with String _ s => any s | "" => false end) s
  end.

Class PgText := {
  pg_lower : string → string;
  pg_like : string → string → bool;              (* text LIKE pattern *)
  pg_like_ci : string → string → bool;           (* citext LIKE pattern *)
  pg_le : string → string → Prop;                (* the collation of the database *)
  pg_le_dec : RelDecision pg_le;
  pg_le_trans : Transitive pg_le;
  pg_le_total : base.Total pg_le;
  pg_le_antisymm : AntiSymm (=) pg_le;
  pg_lower_ascii s : is_ascii s = true → pg_lower s = str_map lower_byte s;
  pg_like_spec ts s : pg_like s (like_pattern ts) = like_match ts s;
  pg_like_ci_spec p s : pg_like_ci s p = pg_like (pg_lower s) (pg_lower p) }.
#[export] Existing Instances pg_le_dec pg_le_trans pg_le_total pg_le_antisymm.

Lemma pg_lower_stable `{PgText} s : str_forall lower_stable s = true → pg_lower s = s.
Proof. intros Hs. destruct (stable_ascii s Hs) as [Ha E]. by rewrite pg_lower_ascii. Qed.

(** ORDER BY a text column. *)
Definition on_key `{PgText} {A} (key : A → string) : A → A → Prop := λ a b, pg_le (key a) (key b).
#[global] Instance on_key_dec `{PgText} {A} (key : A → string) : RelDecision (on_key key).
Proof. intros a b. unfold on_key. apply _. Defined.
Definition order_by `{PgText} {A} (key : A → string) (l : list A) : list A :=
  merge_sort (on_key key) l.

(** LIMIT and OFFSET; a negative offset is an error of the query. *)
Definition window {A} (limit offset : Z) (l : list A) : list A + error :=
  if (offset <? 0)%Z then inr (ErrOther "ERROR: OFFSET must not be negative (SQLSTATE 2201X)")
  else inl (take (Z.to_nat limit) (drop (Z.to_nat offset) l)).

(** ** Constraints *)
Definition stored_addr (a : Addr) : Prop := addr_IsValid a = true ∧ addr_zone a = "".
Definition char2 (o : option string) : Prop :=
  match o with Some s => String.length s = 2%nat | None => True end.
#[global] Instance stored_addr_dec a : Decision (stored_addr a).
Proof. unfold stored_addr. apply _. Defined.
#[global] Instance char2_dec o : Decision (char2 o).
Proof. destruct o; apply _. Defined.

Section constraints.
Context `{PgText}.

(** Primary keys and unique indices. *)
Definition keys_ok (db : Database) : Prop :=
  NoDup (er_handle <$> t_entities db) ∧
  NoDup ((λ r, (em_entity r, pg_lower (em_email r))) <$> t_emails db) ∧
  NoDup ((λ r, (pr_entity r, pr_number r)) <$> t_phones db) ∧
  NoDup (dr_handle <$> t_domains db) ∧ NoDup (dr_ldh_name <$> t_domains db) ∧
  NoDup (t_contacts db) ∧
  NoDup (nr_handle <$> t_nameservers db) ∧
  NoDup ((λ n, pg_lower (nr_ldh_name n)) <$> t_nameservers db) ∧
  NoDup (t_domain_ns db) ∧ NoDup (wr_handle <$> t_networks db).
(** Foreign keys. *)
Definition refs_ok (db : Database) : Prop :=
  let entity h := h ∈ er_handle <$> t_entities db in
  let domain h := h ∈ dr_handle <$> t_domains db in
  Forall (λ r, entity (em_entity r)) (t_emails db) ∧
  Forall (λ r, entity (pr_entity r)) (t_phones db) ∧
  Forall (λ d, match dr_registrar_handle d with Some h => entity h | None => True end) (t_domains db) ∧
  Forall (λ c, domain (dc_domain c) ∧ entity (dc_entity c)) (t_contacts db) ∧
  Forall (λ r, domain (dn_domain r) ∧ dn_nameserver r ∈ nr_handle <$> t_nameservers db) (t_domain_ns db).
(** Checks, and what the types of the columns say. *)
Definition values_ok (db : Database) : Prop :=
  Forall (λ e, er_kind e ∈ ["individual"; "org"; "organization"] ∧ char2 (er_country_code e) ∧
               er_extras e ≠ "") (t_entities db) ∧
  Forall (λ d, dr_secure_dns d ≠ Some "") (t_domains db) ∧
  Forall (λ n, Forall stored_addr (default [] (nr_ipv4 n)) ∧
               Forall stored_addr (default [] (nr_ipv6 n))) (t_nameservers db) ∧
  Forall (λ n, char2 (wr_country n) ∧ stored_cidr (wr_prefix n)) (t_networks db).
Definition schema_ok (db : Database) : Prop := keys_ok db ∧ refs_ok db ∧ values_ok db.

#[global] Instance schema_ok_dec db : Decision (schema_ok db).
Proof.
  unfold schema_ok, keys_ok, refs_ok, values_ok. cbv zeta.
  repeat apply and_dec; try apply _; apply Forall_dec; intros x; try apply _.
  destruct (dr_registrar_handle x); apply _.
Defined.

Lemma so_entities db : schema_ok db → NoDup (er_handle <$> t_entities db).
Proof. by intros ((? & _) & _). Qed.
Lemma so_domains db : schema_ok db → NoDup (dr_ldh_name <$> t_domains db).
Proof. by intros ((_ & _ & _ & _ & ? & _) & _). Qed.
Lemma so_ns_names db : schema_ok db → NoDup ((λ n, pg_lower (nr_ldh_name n)) <$> t_nameservers db).
Proof. by intros ((_ & _ & _ & _ & _ & _ & _ & ? & _) & _). Qed.
Lemma so_contacts db : schema_ok db → NoDup (t_contacts db).
Proof. by intros ((_ & _ & _ & _ & _ & ? & _) & _). Qed.
Lemma so_contact_entity db dc :
  schema_ok db → dc ∈ t_contacts db → dc_entity dc ∈ er_handle <$> t_entities db.
Proof. intros (_ & (_ & _ & _ & Hc & _) & _). rewrite Forall_forall in Hc. apply Hc. Qed.
Lemma so_inets db n : schema_ok db → n ∈ t_nameservers db →
  Forall stored_addr (default [] (nr_ipv4 n)) ∧ Forall stored_addr (default [] (nr_ipv6 n)).
Proof. intros (_ & _ & _ & _ & Hn & _). rewrite Forall_forall in Hn. apply Hn. Qed.
Lemma so_secure db d : schema_ok db → d ∈ t_domains db → dr_secure_dns d ≠ Some "".
Proof. intros (_ & _ & _ & Hd & _). rewrite Forall_forall in Hd. apply Hd. Qed.
Lemma so_networks db n : schema_ok db → n ∈ t_networks db → stored_cidr (wr_prefix n).
Proof. intros (_ & _ & _ & _ & _ & Hn). rewrite Forall_forall in Hn. apply Hn. Qed.
Lemma so_extras db e : schema_ok db → e ∈ t_entities db → er_extras e ≠ "".
Proof. intros (_ & _ & He & _). rewrite Forall_forall in He. apply He. Qed.
End constraints.

Section queries.
Context `{PgText}.

(** *** What the statements select *)
Definition domains_named (db : Database) (name : string) : list domain_row :=
  filter (λ d, dr_ldh_name d = pg_lower name) (t_domains db).
Definition nameservers_of (db : Database) (handle : string) : list ns_row :=
  order_by nr_ldh_name
    (dn ← filter (λ dn, dn_domain dn = handle) (t_domain_ns db);
     filter (λ n, nr_handle n = dn_nameserver dn) (t_nameservers db)).
(** One row for each role: an entity with two roles comes twice. *)
Definition contacts_of (db : Database) (handle : string) : list entity_row :=
  order_by er_handle
    (dc ← filter (λ dc, dc_domain dc = handle) (t_contacts db);
     filter (λ e, er_handle e = dc_entity dc) (t_entities db)).
Definition roles_of (db : Database) (domain entity : string) : list string :=
  order_by id (remove_dups (dc_role <$>
    filter (λ dc, dc_domain dc = domain ∧ dc_entity dc = entity) (t_contacts db))).
Definition emails_of (db : Database) (entity : string) : list string :=
  order_by pg_lower (em_email <$> filter (λ r, em_entity r = entity) (t_emails db)).
Definition phones_of (db : Database) (entity : string) : list phone_row :=
  order_by pr_number (filter (λ r, pr_entity r = entity) (t_phones db)).
Definition entities_with (db : Database) (handle : string) : list entity_row :=
  filter (λ e, er_handle e = handle) (t_entities db).
Definition nameservers_named (db : Database) (name : string) : list ns_row :=
  filter (λ n, pg_lower (nr_ldh_name n) = pg_lower name) (t_nameservers db).

(** *** The conditions of an entity search *)
Inductive condition := CFn | CHandle | CEmail | CCountry.
Definition condition_text (c : condition) (n : string) : string :=
  match c with
  | CFn => sql_fn n | CHandle => sql_handle n | CEmail => sql_email n | CCountry => sql_country n
  end.
(** Values of type char(2) are compared without trailing blanks. *)
Definition bpchar_eq (a b : string) : bool := (TrimRight a " " =? TrimRight b " ")%string.
Definition condition_holds (db : Database) (e : entity_row) (c : condition) (v : string) : bool :=
  match c with
  | CFn => pg_like (er_full_name e) v || pg_like (er_organization e) v
  | CHandle => pg_like (er_handle e) v
  | CEmail => existsb (λ m, pg_like_ci m v) (emails_of db (er_handle e))
  | CCountry => match er_country_code e with Some cc => bpchar_eq cc v | None => false end
  end.
(** Conditions with their arguments, in the order of the placeholders. *)
Definition entities_matching (db : Database) (cs : list (condition * string)) : list entity_row :=
  order_by er_handle
    (filter (λ e, forallb (λ cv, condition_holds db e cv.1 cv.2) cs = true) (t_entities db)).
Definition conditions_text (ks : list condition) : list string :=
  imap (λ i k, condition_text k (Itoa (Z.of_nat (S i)))) ks.
Definition domains_like (db : Database) (pattern : string) : list domain_row :=
  order_by dr_ldh_name (filter (λ d, pg_like (dr_ldh_name d) pattern = true) (t_domains db)).
Definition nameservers_like (db : Database) (pattern : string) : list ns_row :=
  order_by nr_ldh_name (filter (λ n, pg_like (nr_ldh_name n) pattern = true) (t_nameservers db)).

(** *** The rows they yield *)
Context `{NetIPText} `{!Pgx} `{!PgJSON} `{!PgxLaws}.

Definition ns_to_json (n : ns_row) : ns_json :=
  {| nj_handle := nr_handle n; nj_ldh_name := nr_ldh_name n; nj_unicode_name := nr_unicode_name n;
     nj_ipv4 := inet_text <$> default [] (nr_ipv4 n);
     nj_ipv6 := inet_text <$> default [] (nr_ipv6 n) |}.
Definition phone_to_json (p : phone_row) : phone_json :=
  {| pj_number := pr_number p; pj_kinds := pr_kinds p |}.
Definition contact_to_json (db : Database) (domain : string) (e : entity_row) : contact_json :=
  {| cj_handle := er_handle e; cj_roles := roles_of db domain (er_handle e); cj_kind := er_kind e;
     cj_full_name := er_full_name e; cj_organization := er_organization e;
     cj_title := er_title e; cj_country_code := er_country_code e; cj_locality := er_locality e;
     cj_region := er_region e; cj_postal_code := er_postal_code e; cj_street := er_street e;
     cj_created_at := er_created_at e; cj_updated_at := er_updated_at e;
     cj_extras := er_extras e; cj_emails := emails_of db (er_handle e);
     cj_phones := phone_to_json <$> phones_of db (er_handle e) |}.

Definition text (s : string) : col := c_text (Some s).
Definition time (t : Time) : col := c_time (Some t).

Definition domain_result (db : Database) (d : domain_row) : list col :=
  [text (dr_handle d); text (dr_ldh_name d); text (dr_unicode_name d); c_texts (Some (dr_status d));
   time (dr_registered_at d); c_time (dr_expires_at d); time (dr_last_changed d);
   time (dr_last_rdap_update d); c_json (dr_secure_dns d);
   c_json (Some (json_nameservers (ns_to_json <$> nameservers_of db (dr_handle d))));
   c_json (Some (json_contacts
     (contact_to_json db (dr_handle d) <$> contacts_of db (dr_handle d))))].
Definition entity_result (e : entity_row) : list col :=
  [text (er_handle e); c_texts (Some []); text (er_kind e); text (er_full_name e);
   text (er_organization e); text (er_title e); c_text (er_country_code e);
   text (er_locality e); text (er_region e); text (er_postal_code e);
   c_texts (Some (er_street e)); time (er_created_at e); time (er_updated_at e);
   c_json (Some (er_extras e))].
Definition nameserver_result (n : ns_row) : list col :=
  [text (nr_handle n); text (nr_ldh_name n); text (nr_unicode_name n);
   c_inets (nr_ipv4 n); c_inets (nr_ipv6 n)].
Definition network_result (n : network_row) : list col :=
  [text (wr_handle n); c_cidr (wr_prefix n); text (wr_name n); text (wr_type n);
   c_text (wr_country n); c_text (wr_parent_handle n); c_texts (Some (wr_status n));
   time (wr_registered_at n); time (wr_last_changed n)].
Definition email_result (m : string) : list col := [text m].
Definition phone_result (p : phone_row) : list col := [text (pr_number p); c_texts (Some (pr_kinds p))].
Definition search_domain_result (d : domain_row) : list col :=
  [text (dr_handle d); text (dr_ldh_name d); text (dr_unicode_name d); c_texts (Some (dr_status d));
   time (dr_registered_at d); c_time (dr_expires_at d); time (dr_last_changed d);
   time (dr_last_rdap_update d)].
Definition search_entity_result (db : Database) (total : Z) (e : entity_row) : list col :=
  entity_result e ++
  [c_texts (Some (emails_of db (er_handle e)));
   c_json (Some (json_phones (phone_to_json <$> phones_of db (er_handle e)))); c_int total].

(** The first row, or [pgx.ErrNoRows]. *)
Definition first_row (rows : list (list col)) : list col + error :=
  match rows with r :: _ => inl r | [] => inr ErrNoRows end.
(** All the rows of a query that ends without an error. *)
Definition all_rows {A} (f : A → list col) (l : list A + error)
    : (list (list col) * option error) + error :=
  match l with inl l => inl (f <$> l, None) | inr e => inr e end.

Definition count {A} (l : list A) : Z := Z.of_nat (length l).

(** The network with the longest mask among those that contain the address. *)
Definition most_specific (db : Database) (ip : Addr) (n : network_row) : Prop :=
  n ∈ t_networks db ∧ pfx_Contains (wr_prefix n) ip = true ∧
  ∀ m, m ∈ t_networks db → pfx_Contains (wr_prefix m) ip = true →
    (default 0 (pfx_Bits (wr_prefix m)) ≤ default 0 (pfx_Bits (wr_prefix n)))%Z.

(** A pool over a database at rest. *)
Record serves {W} (pool : Pool W) (db : W → Database) : Prop := {
  serves_domain name w :
    QueryRow pool sql_domain [ArgString name] w =
    (first_row (domain_result (db w) <$> domains_named (db w) name), w);
  serves_entity handle w :
    QueryRow pool sql_entity [ArgString handle] w =
    (first_row (entity_result <$> entities_with (db w) handle), w);
  serves_emails handle w :
    QueryRows pool sql_emails [ArgString handle] w =
    (all_rows email_result (inl (emails_of (db w) handle)), w);
  serves_phones handle w :
    QueryRows pool sql_phones [ArgString handle] w =
    (all_rows phone_result (inl (phones_of (db w) handle)), w);
  serves_nameserver name w :
    QueryRow pool sql_nameserver [ArgString name] w =
    (first_row (nameserver_result <$> nameservers_named (db w) name), w);
  serves_ip ip w : addr_zone ip = "" → addr_IsValid ip = true →
    (∃ n, most_specific (db w) ip n ∧
       QueryRow pool sql_ip [ArgString (addr_String ip)] w = (inl (network_result n), w)) ∨
    ((∀ n, n ∈ t_networks (db w) → pfx_Contains (wr_prefix n) ip = false) ∧
     QueryRow pool sql_ip [ArgString (addr_String ip)] w = (inr ErrNoRows, w));
  serves_count pattern w :
    QueryRow pool sql_count_domains [ArgString pattern] w =
    (inl [c_int (count (domains_like (db w) pattern))], w);
  serves_search_domains pattern limit offset w :
    QueryRows pool sql_search_domains [ArgString pattern; ArgInt limit; ArgInt offset] w =
    (all_rows search_domain_result (window limit offset (domains_like (db w) pattern)), w);
  serves_search_entities cs limit offset w :
    cs ≠ [] → cs.*1 `sublist_of` [CFn; CHandle; CEmail; CCountry] →
    QueryRows pool (sql_entities (conditions_text cs.*1) (count cs))
      ((ArgString <$> cs.*2) ++ [ArgInt limit; ArgInt offset]) w =
    (all_rows (search_entity_result (db w) (count (entities_matching (db w) cs)))
       (window limit offset (entities_matching (db w) cs)), w);
  serves_search_nameservers pattern limit offset w :
    QueryRows pool sql_search_nameservers [ArgString pattern; ArgInt limit; ArgInt offset] w =
    (all_rows (λ n, nameserver_result n ++ [c_int (count (nameservers_like (db w) pattern))])
       (window limit offset (nameservers_like (db w) pattern)), w) }.
End queries.
