(* ===== verification/PgPool.v ===== *)
(** * A pool over a database at rest.

    [db_pool] recognises the statements of the provider by their text and evaluates what
    they mean (PgSchema); it is the pool of the witnesses. *)
From S2P Require Import Prelude GoStrings NetIP DataSource Search Memory Pgx Postgres PgSchema.

(** ** Text in the C locale *)
Fixpoint like_parse (p : string) : list like_tok :=
  match p with
  | "" => []
  | String c p =>
      if Ascii.eqb c "%" then LAny :: like_parse p
      else if Ascii.eqb c "\" then
        match p with String d p => LChar d :: like_parse p | "" => [LChar c] end
      else LChar c :: like_parse p
  end.

Lemma like_parse_pattern ts : like_parse (like_pattern ts) = ts.
Proof.
  induction ts as [|[|c] ts IH]; [done|cbn; by rewrite <-IH at 2|].
  change (like_pattern (LChar c :: ts)) with (like_text (LChar c) +:+ like_pattern ts).
  cbn [like_text]. destruct (like_special c) eqn:E; cbn [String.append like_parse].
  - cbn. by rewrite IH.
  - unfold like_special in E. bool_hyps.
    repeat match goal with H : Ascii.eqb _ _ = false |- _ => rewrite H; clear H end. by rewrite IH.
Qed.

Definition pg_text : PgText.
Proof.
  refine {|
    pg_lower := str_map lower_byte;
    pg_like := λ s p, like_match (like_parse p) s;
    pg_like_ci := λ s p, like_match (like_parse (str_map lower_byte p)) (str_map lower_byte s);
    pg_le := String.le |}; try apply _; try done.
  intros ts s. by rewrite like_parse_pattern.
Defined.
#[local] Existing Instance pg_text.
#[local] Existing Instance netip_bits.
#[local] Existing Instance pgx_values.
#[local] Existing Instance pg_json.
#[local] Existing Instance pgx_values_laws.

(** ** The network of an address *)
Definition longer (m n : network_row) : Prop :=
  (default 0 (pfx_Bits (wr_prefix n)) ≤ default 0 (pfx_Bits (wr_prefix m)))%Z.
#[local] Instance longer_dec : RelDecision longer.
Proof. intros m n. unfold longer. apply _. Defined.
#[local] Instance longer_trans : Transitive longer.
Proof. intros a b c. unfold longer. lia. Qed.
#[local] Instance longer_total : base.Total longer.
Proof. intros a b. unfold longer. lia. Qed.
Definition networks_with (db : Database) (ip : Addr) : list network_row :=
  merge_sort longer (filter (λ n, pfx_Contains (wr_prefix n) ip = true) (t_networks db)).

Lemma networks_with_elem db ip n :
  n ∈ networks_with db ip ↔ n ∈ t_networks db ∧ pfx_Contains (wr_prefix n) ip = true.
Proof. unfold networks_with. rewrite merge_sort_Permutation, list_elem_of_filter. naive_solver. Qed.

Lemma networks_with_cases db ip :
  match networks_with db ip with
  | n :: _ => most_specific db ip n
  | [] => ∀ n, n ∈ t_networks db → pfx_Contains (wr_prefix n) ip = false
  end.
Proof.
  pose proof (networks_with_elem db ip) as Hel.
  assert (Hs : StronglySorted longer (networks_with db ip))
    by (apply StronglySorted_merge_sort; apply _).
  destruct (networks_with db ip) as [|n l].
  - intros n Hn. apply not_true_iff_false. intros Hc.
    assert (n ∈ []) as He%not_elem_of_nil by (by apply Hel). done.
  - apply StronglySorted_inv in Hs as [_ Hs]. rewrite Forall_forall in Hs.
    split_and!; [by apply Hel; left..|]. intros m Hm Hc.
    assert (m ∈ n :: l) as [->|Hl]%elem_of_cons by (by apply Hel); [lia|]. by apply Hs.
Qed.

(** ** The entity statement *)
Fixpoint sublists {A} (l : list A) : list (list A) :=
  match l with [] => [[]] | x :: l => (cons x <$> sublists l) ++ sublists l end.
Lemma elem_of_sublists {A} (k l : list A) : k `sublist_of` l → k ∈ sublists l.
Proof.
  induction 1; cbn; [left|apply elem_of_app; left; by apply list_elem_of_fmap_2|].
  apply elem_of_app. by right.
Qed.
Definition conditions : list condition := [CFn; CHandle; CEmail; CCountry].
Definition entities_sql (ks : list condition) : string :=
  sql_entities (conditions_text ks) (count ks).
Definition read_entities (sql : string) : option (list condition) :=
  snd <$> list_find (λ ks, entities_sql ks = sql) (sublists conditions).

Lemma read_entities_sql ks : ks `sublist_of` conditions → read_entities (entities_sql ks) = Some ks.
Proof.
  intros Hs%elem_of_sublists. cbn in Hs. set_unfold in Hs.
  repeat (destruct Hs as [->|Hs]; [by vm_compute|]). by subst.
Qed.

(** ** The pool *)
Definition no_answer : error := ErrOther "ERROR: not a statement of the provider".
Definition db_row (sql : string) (args : list arg) (db : Database) : list col + error :=
  match args with
  | [ArgString s] =>
      if decide (sql = sql_domain) then first_row (domain_result db <$> domains_named db s)
      else if decide (sql = sql_entity) then first_row (entity_result <$> entities_with db s)
      else if decide (sql = sql_nameserver) then
        first_row (nameserver_result <$> nameservers_named db s)
      else if decide (sql = sql_count_domains) then inl [c_int (count (domains_like db s))]
      else if decide (sql = sql_ip) then
        match ParseAddr s with
        | Some ip => first_row (network_result <$> networks_with db ip)
        | None => inr (ErrOther "ERROR: invalid input syntax for type inet")
        end
      else inr no_answer
  | _ => inr no_answer
  end.

Definition arg_string (a : arg) : option string :=
  match a with ArgString s => Some s | ArgInt _ => None end.
Definition db_rows (sql : string) (args : list arg) (db : Database)
    : (list (list col) * option error) + error :=
  match args with
  | [ArgString s] =>
      if decide (sql = sql_emails) then all_rows email_result (inl (emails_of db s))
      else if decide (sql = sql_phones) then all_rows phone_result (inl (phones_of db s))
      else inr no_answer
  | _ =>
      match read_entities sql, reverse args with
      | Some ks, ArgInt offset :: ArgInt limit :: vs =>
          let l := entities_matching db (zip ks (omap arg_string (reverse vs))) in
          all_rows (search_entity_result db (count l)) (window limit offset l)
      | _, [ArgInt offset; ArgInt limit; ArgString s] =>
          if decide (sql = sql_search_domains) then
            all_rows search_domain_result (window limit offset (domains_like db s))
          else if decide (sql = sql_search_nameservers) then
            let l := nameservers_like db s in
            all_rows (λ n, nameserver_result n ++ [c_int (count l)]) (window limit offset l)
          else inr no_answer
      | _, _ => inr no_answer
      end
  end.
Definition db_pool : Pool Database :=
  {| QueryRow := λ sql args db, (db_row sql args db, db);
     QueryRows := λ sql args db, (db_rows sql args db, db) |}.

Lemma omap_arg_string (vs : list string) : omap arg_string (ArgString <$> vs) = vs.
Proof. induction vs as [|v vs IH]; [done|]. cbn. f_equal. apply IH. Qed.

Lemma db_rows_entities db cs limit offset :
  cs ≠ [] → cs.*1 `sublist_of` conditions →
  db_rows (entities_sql cs.*1) ((ArgString <$> cs.*2) ++ [ArgInt limit; ArgInt offset]) db =
  all_rows (search_entity_result db (count (entities_matching db cs)))
    (window limit offset (entities_matching db cs)).
Proof.
  intros Hne Hs. destruct cs as [|cv cs]; [done|]. clear Hne.
  assert (E : ∃ a b l, (ArgString <$> (cv :: cs).*2) ++ [ArgInt limit; ArgInt offset] = ArgString a :: b :: l)
    by (cbn; destruct (_ ++ _) eqn:E; [by apply app_eq_nil in E as [_ ?]|eauto]).
  unfold db_rows. destruct E as (a & b & l & E). rewrite E, <-E. cbn [arg_string].
  rewrite read_entities_sql by done. rewrite reverse_app.
  change (reverse [ArgInt limit; ArgInt offset]) with [ArgInt offset; ArgInt limit].
  cbn [app]. by rewrite reverse_involutive, omap_arg_string, zip_fst_snd.
Qed.

Lemma db_pool_serves : serves db_pool (λ db, db).
Proof.
  split; intros; cbn [db_pool QueryRow QueryRows].
  - reflexivity.
  - reflexivity.
  - reflexivity.
  - reflexivity.
  - reflexivity.
  - pose proof (networks_with_cases w ip) as Hc.
    unfold db_row. cbn [decide]. rewrite !decide_False by (by vm_compute).
    rewrite decide_True by done. cbn [ParseAddr addr_String netip_bits]. rewrite read_json_of.
    destruct (networks_with w ip) as [|n l]; [by right|]. left. by exists n.
  - reflexivity.
  - reflexivity.
  - f_equal. rewrite <-db_rows_entities by done. unfold entities_sql, count. by rewrite length_fmap.
  - reflexivity.
Qed.
