(* ===== verification/PgFacts.v ===== *)
(** * The Postgres provider is correct.

    Over any pool the provider keeps the contract of a data source.  Over a pool that
    serves a database, its lookups return the records of the database, assembled from
    the tables; and which rows that the schema allows can be decoded
    is stated value by value. *)
From S2P Require Import Prelude GoStrings NetIP DataSource Search Memory Pgx Postgres PgSchema PgPool.

(** Decodes the columns of a row one after the other. *)
Ltac decode_row :=
  unfold row_Scan, Scan, scan_bind, dest, scan_ret, text, time; cbn;
  repeat (rewrite ?law_string, ?law_string_ptr, ?law_strings, ?law_time, ?law_time_ptr, ?law_any,
            ?law_bytes, ?law_addrs; cbn); rewrite ?law_int by done; cbn.

(** ** The contract, over any pool *)
Section contract.
Context `{Pgx} `{PgJSON} `{NetIPText} `{GoUnicode} {W : Type} (pool : Pool W).

Lemma returned_ok {V} (r : V + error) : res_ok (returned r).
Proof. by destruct r. Qed.

#[export] Instance postgres_source_laws : ProviderLaws (postgres_source pool) (λ _, True).
Proof.
  split; intros k w _; (split; [|done]); cbn [postgres_source GetDomain GetEntity GetNameserver GetIPNetwork].
  - unfold Provider_GetDomain. destruct (QueryRow _ _ _ _). apply returned_ok.
  - unfold Provider_GetEntity. destruct (QueryRow _ _ _ _) as [row w']. destruct (scanContactRow row); [|done].
    destruct (attachChannels _ _ _). apply returned_ok.
  - unfold Provider_GetNameserver. destruct (QueryRow _ _ _ _). by destruct (row_Scan _ _).
  - unfold Provider_GetIPNetwork. destruct (QueryRow _ _ _ _).
    destruct (row_Scan _ _) as [[n prefix]|e]; [|done]. by destruct (ParsePrefix prefix).
Qed.

Lemma with_total_answers {A} msg (m : list col → (A * Z) + error) rows :
  res_answers (with_total msg m rows).
Proof. unfold with_total. by destruct rows as [[rows rerr]|e]; [destruct (each_row m rows)|]. Qed.

#[export] Instance postgres_index_laws : IndexLaws (postgres_index pool) (λ _, True).
Proof.
  split; intros q w _; (split; [|done]); cbn [postgres_index SearchDomains SearchEntities SearchNameservers].
  - unfold Provider_SearchDomains. destruct (_ =? _)%string; [done|].
    destruct (QueryRow _ _ _ _) as [row w']. destruct (row_Scan _ row) as [total|]; [|done].
    destruct (QueryRows _ _ _ _) as [[[rows rerr]|e] w'']; [|done]. by destruct (each_row _ rows).
  - unfold Provider_SearchEntities. destruct (entity_where _) as [cs args].
    destruct (is_empty cs); [done|]. destruct (QueryRows _ _ _ _). apply with_total_answers.
  - unfold Provider_SearchNameservers. destruct (_ !! _); [|done].
    destruct (QueryRows _ _ _ _). apply with_total_answers.
Qed.

(** [ErrNotFound] is the answer exactly when the pool says that there are no rows (or
    when its own error is that sentinel already). *)
Lemma lookup_error_notfound msg e :
  errors_Is (lookup_error msg e) ErrNotFound = true ↔
  errors_Is e ErrNoRows = true ∨ errors_Is e ErrNotFound = true.
Proof.
  unfold lookup_error. destruct (errors_Is e ErrNoRows) eqn:E; [naive_solver|].
  cbn. rewrite bool_decide_false by done. cbn. naive_solver.
Qed.
End contract.

(** ** The records of a database *)
Section records.
Context `{PgText} `{NetIPText} `{!Pgx} `{!PgJSON} `{!PgxLaws} `{GoUnicode}.

Definition ns_of_row (n : ns_row) : Nameserver :=
  {| ns_Handle := nr_handle n; ns_LDHName := nr_ldh_name n; ns_UnicodeName := nr_unicode_name n;
     ns_IPv4 := default [] (nr_ipv4 n); ns_IPv6 := default [] (nr_ipv6 n) |}.
Definition phone_of_row (p : phone_row) : Phone :=
  {| ph_Number := pr_number p; ph_Kinds := pr_kinds p |}.
Definition contact_of_row (db : Database) (roles : list string) (extras : list (string * any))
    (e : entity_row) : Contact :=
  {| c_Handle := er_handle e; c_Roles := roles; c_Kind := er_kind e; c_FullName := er_full_name e;
     c_Organization := er_organization e; c_Title := er_title e;
     c_Emails := emails_of db (er_handle e);
     c_Phones := phone_of_row <$> phones_of db (er_handle e);
     c_Address := address_of (er_country_code e) (er_locality e) (er_region e) (er_postal_code e)
                    (er_street e);
     c_CreatedAt := er_created_at e; c_UpdatedAt := er_updated_at e; c_Extras := extras |}.

(** The open JSON of an entity: reported when it does not decode, or passed over. *)
Definition extras_of (e : entity_row) : list (string * any) :=
  if (er_extras e =? "null")%string then [] else (UnmarshalExtras (er_extras e)).1.
Definition entity_of (db : Database) (e : entity_row) : Contact + error :=
  match UnmarshalExtras (er_extras e) with
  | (l, None) => inl (contact_of_row db [] l e)
  | (_, Some err) =>
      inr (lookup_error "postgres: get entity" (Wrap "postgres: decode entity extras" err))
  end.
Definition secure_of (d : domain_row) : option SecureDNS + error :=
  match dr_secure_dns d with
  | None => inl None
  | Some s => match UnmarshalSecureDNS s with
              | (sd, None) => inl sd
              | (_, Some err) => inr (Wrap "postgres: decode secureDNS" err)
              end
  end.
Definition domain_of (db : Database) (d : domain_row) : Domain + error :=
  sd ←? secure_of d;
  inl {| d_Handle := dr_handle d; d_LDHName := dr_ldh_name d; d_UnicodeName := dr_unicode_name d;
     d_Status := dr_status d; d_Registered := dr_registered_at d;
     d_Expires := default 0%Z (dr_expires_at d); d_LastChanged := dr_last_changed d;
     d_LastRDAPUpdate := dr_last_rdap_update d;
     d_Nameservers := ns_of_row <$> nameservers_of db (dr_handle d); d_SecureDNS := sd;
     d_Contacts := (λ e, contact_of_row db (roles_of db (dr_handle d) (er_handle e))
                           (extras_of e) e) <$> contacts_of db (dr_handle d);
     d_Registrar := None |}.
(** The network of a row whose country and parent are not NULL. *)
Definition network_of (n : network_row) (country parent : string) : IPNetwork :=
  {| net_Handle := wr_handle n; net_Prefix := wr_prefix n; net_Name := wr_name n;
     net_Type := wr_type n; net_Country := country; net_ParentHandle := parent;
     net_Status := wr_status n; net_Registered := wr_registered_at n;
     net_LastChanged := wr_last_changed n; net_Contacts := [] |}.

(** *** Decoding is exact *)
Lemma omap_ParseAddr l : Forall stored_addr l → omap ParseAddr (inet_text <$> l) = l.
Proof.
  induction 1 as [|a l [Hv Hz] _ IH]; [done|]. cbn. rewrite law_inet by done. f_equal. apply IH.
Qed.

Lemma ns_of_json_row n :
  Forall stored_addr (default [] (nr_ipv4 n)) → Forall stored_addr (default [] (nr_ipv6 n)) →
  ns_of_json (ns_to_json n) = ns_of_row n.
Proof. intros Hv4 Hv6. unfold ns_of_json. cbn. by rewrite !omap_ParseAddr. Qed.

Lemma elem_of_order_by {A} (key : A → string) l x : x ∈ order_by key l ↔ x ∈ l.
Proof. unfold order_by. by rewrite merge_sort_Permutation. Qed.

Lemma nameservers_of_elem db h n : n ∈ nameservers_of db h → n ∈ t_nameservers db.
Proof.
  unfold nameservers_of. rewrite elem_of_order_by, list_elem_of_bind.
  intros (dn & Hn & _). by apply list_elem_of_filter in Hn as [_ Hn].
Qed.
Lemma contacts_of_elem db h e : e ∈ contacts_of db h → e ∈ t_entities db.
Proof.
  unfold contacts_of. rewrite elem_of_order_by, list_elem_of_bind.
  intros (dc & He & _). by apply list_elem_of_filter in He as [_ He].
Qed.

Lemma decodeNameservers_rows db h : schema_ok db →
  decodeNameservers (json_nameservers (ns_to_json <$> nameservers_of db h)) =
  inl (ns_of_row <$> nameservers_of db h).
Proof.
  intros Hs. unfold decodeNameservers.
  destruct (law_json_nameservers (ns_to_json <$> nameservers_of db h)) as [Hne ->].
  apply String.eqb_neq in Hne as ->. f_equal. rewrite <-list_fmap_compose.
  apply list_fmap_ext. intros i n Hn%list_elem_of_lookup_2%nameservers_of_elem.
  destruct (so_inets _ _ Hs Hn). by apply ns_of_json_row.
Qed.

Lemma contact_of_json_row db h e : er_extras e ≠ "" →
  contact_of_json (contact_to_json db h e) =
  contact_of_row db (roles_of db h (er_handle e)) (extras_of e) e.
Proof.
  intros He%String.eqb_neq. unfold contact_of_json, contact_of_row, contact_to_json, extras_of.
  cbn. rewrite He. cbn. rewrite <-list_fmap_compose.
  by destruct (er_extras e =? "null")%string.
Qed.

Lemma decodeContacts_rows db h : schema_ok db →
  decodeContacts (json_contacts (contact_to_json db h <$> contacts_of db h)) =
  inl ((λ e, contact_of_row db (roles_of db h (er_handle e)) (extras_of e) e) <$> contacts_of db h).
Proof.
  intros Hs. unfold decodeContacts.
  destruct (law_json_contacts (contact_to_json db h <$> contacts_of db h)) as [Hne ->].
  apply String.eqb_neq in Hne as ->. f_equal. rewrite <-list_fmap_compose.
  apply list_fmap_ext. intros i e He%list_elem_of_lookup_2%contacts_of_elem.
  apply contact_of_json_row. by eapply so_extras.
Qed.

Lemma decode_domain_row db d : schema_ok db → d ∈ t_domains db →
  decode_domain (inl (domain_result db d)) = domain_of db d.
Proof.
  intros Hs Hd. unfold decode_domain, domain_columns, domain_result, domain_of, secure_of.
  decode_row. rewrite decodeNameservers_rows, decodeContacts_rows by done.
  destruct (dr_secure_dns d) as [sd|] eqn:E; cbn; [|done].
  assert (Hne : sd ≠ "") by (intros ->; by eapply so_secure).
  apply String.eqb_neq in Hne as ->. by destruct (UnmarshalSecureDNS sd) as [? []].
Qed.

Lemma scan_entity_row e :
  row_Scan (ce ⇐ entity_columns; scan_ret ce) (inl (entity_result e)) =
  inl ({| c_Handle := er_handle e; c_Roles := []; c_Kind := er_kind e; c_FullName := er_full_name e;
     c_Organization := er_organization e; c_Title := er_title e; c_Emails := []; c_Phones := [];
     c_Address := address_of (er_country_code e) (er_locality e) (er_region e) (er_postal_code e)
                    (er_street e);
     c_CreatedAt := er_created_at e; c_UpdatedAt := er_updated_at e; c_Extras := [] |}, er_extras e).
Proof. unfold entity_columns, entity_result. by decode_row. Qed.

Lemma scan_nameserver_row n :
  row_Scan (n ⇐ nameserver_columns; scan_ret n) (inl (nameserver_result n)) = inl (ns_of_row n).
Proof. unfold nameserver_columns, nameserver_result. by decode_row. Qed.

Lemma each_row_inl {A B} (m : list col → A + error) (f : B → list col) (g : B → A) l :
  (∀ x, x ∈ l → m (f x) = inl (g x)) → each_row m (f <$> l) = inl (g <$> l).
Proof.
  intros Hm. induction l as [|x l IH]; [done|]. cbn. rewrite Hm by left. cbn.
  change (list_fmap _ _ f l) with (f <$> l). rewrite IH; [done|]. intros y Hy. apply Hm. by right.
Qed.

(** The scan of a network: it needs a country, a parent and a cidr that is scanned as its
    text, and otherwise fails with an error that is neither of the sentinels. *)
Lemma scan_network_row n :
  match wr_country n, wr_parent_handle n, ScanString (c_cidr (wr_prefix n)) with
  | Some country, Some parent, inl t =>
      ∃ v, row_Scan network_columns (inl (network_result n)) = inl (v, t) ∧
           with_prefix (wr_prefix n) v = network_of n country parent
  | _, _, _ =>
      ∃ e, row_Scan network_columns (inl (network_result n)) = inr e ∧
           errors_Is e ErrNoRows = false ∧ errors_Is e ErrNotFound = false
  end.
Proof.
  destruct law_string_null as (e0 & Hn & He0). unfold network_columns, network_result.
  destruct (ScanString (c_cidr _)) as [t|e] eqn:E.
  2: { apply law_cidr_error in E as He. destruct (wr_country n), (wr_parent_handle n);
         exists e; split; try done; decode_row; by rewrite E. }
  destruct (wr_country n), (wr_parent_handle n); [eexists|exists e0..];
    (split; [decode_row; rewrite E; decode_row; rewrite ?Hn; reflexivity|done]).
Qed.

Context {W : Type} (pool : Pool W) (db : W → Database) (w : W).

Lemma attach_channels c : serves pool db →
  attachChannels pool c w =
  (inl (with_channels (c_Emails c ++ emails_of (db w) (c_Handle c))
          (c_Phones c ++ (phone_of_row <$> phones_of (db w) (c_Handle c))) c), w).
Proof.
  intros Hp. unfold attachChannels. rewrite (serves_emails _ _ Hp). cbn [all_rows appended].
  rewrite (each_row_inl _ _ (λ m, m)) by (intros; unfold email_result; by decode_row).
  rewrite list_fmap_id. cbn. rewrite (serves_phones _ _ Hp). cbn [all_rows appended].
  rewrite (each_row_inl _ _ phone_of_row) by (intros; unfold phone_result; by decode_row).
  done.
Qed.

Lemma get_entity_row e : serves pool db → schema_ok (db w) → e ∈ t_entities (db w) →
  Provider_GetEntity pool (er_handle e) w = (returned (entity_of (db w) e), w).
Proof.
  intros Hp Hs He. unfold Provider_GetEntity. rewrite (serves_entity _ _ Hp).
  unfold entities_with. rewrite filter_key by (done || by apply so_entities). cbn [fmap list_fmap first_row].
  unfold scanContactRow. rewrite scan_entity_row. unfold extras_strict, entity_of.
  cbn [err_bind fst snd]. assert (Hne := so_extras _ _ Hs He). apply String.eqb_neq in Hne as ->.
  destruct (UnmarshalExtras (er_extras e)) as [l [err|]]; [done|].
  by rewrite attach_channels.
Qed.

Lemma get_network_row n ip : stored_cidr (wr_prefix n) →
  QueryRow pool sql_ip [ArgString (addr_String ip)] w = (inl (network_result n), w) →
  match wr_country n, wr_parent_handle n, ScanString (c_cidr (wr_prefix n)) with
  | Some country, Some parent, inl _ =>
      Provider_GetIPNetwork pool ip w = (found (network_of n country parent), w)
  | _, _, _ =>
      ∃ e, Provider_GetIPNetwork pool ip w = (failed e, w) ∧ errors_Is e ErrNotFound = false
  end.
Proof.
  intros Hc E. pose proof (scan_network_row n) as Hn.
  unfold Provider_GetIPNetwork. rewrite E. clear E.
  destruct (wr_country n), (wr_parent_handle n);
    destruct (ScanString (c_cidr (wr_prefix n))) as [t|e] eqn:Et.
  1: { destruct Hn as (v & -> & <-). by rewrite (law_cidr _ _ Hc Et). }
  all: destruct Hn as (e' & -> & Hr & Hf); eexists; split; [done|];
    unfold lookup_error; rewrite Hr; cbn; by rewrite bool_decide_false by done.
Qed.

Lemma get_domain_row d name : serves pool db → schema_ok (db w) →
  d ∈ t_domains (db w) → dr_ldh_name d = pg_lower name →
  Provider_GetDomain pool name w = (returned (domain_of (db w) d), w).
Proof.
  intros Hp Hs Hd En. unfold Provider_GetDomain. rewrite (serves_domain _ _ Hp).
  unfold domains_named. rewrite <-En, filter_key by (done || by apply so_domains).
  cbn [fmap list_fmap first_row]. by rewrite decode_domain_row.
Qed.
Lemma get_domain_none name : serves pool db →
  pg_lower name ∉ dr_ldh_name <$> t_domains (db w) →
  Provider_GetDomain pool name w = (failed ErrNotFound, w).
Proof.
  intros Hp Hn. unfold Provider_GetDomain. rewrite (serves_domain _ _ Hp).
  unfold domains_named. rewrite filter_nil; [done|]. intros d Hd E. apply Hn. rewrite <-E.
  by apply list_elem_of_fmap_2.
Qed.
Lemma get_entity_none handle : serves pool db → handle ∉ er_handle <$> t_entities (db w) →
  Provider_GetEntity pool handle w = (failed ErrNotFound, w).
Proof.
  intros Hp Hn. unfold Provider_GetEntity. rewrite (serves_entity _ _ Hp).
  unfold entities_with. rewrite filter_nil; [done|]. intros e He <-. apply Hn.
  by apply list_elem_of_fmap_2.
Qed.
Lemma get_nameserver_row n name : serves pool db → schema_ok (db w) →
  n ∈ t_nameservers (db w) → pg_lower (nr_ldh_name n) = pg_lower name →
  Provider_GetNameserver pool name w = (found (ns_of_row n), w).
Proof.
  intros Hp Hs Hn En. unfold Provider_GetNameserver. rewrite (serves_nameserver _ _ Hp).
  unfold nameservers_named. rewrite <-En.
  rewrite (filter_key (λ n, pg_lower (nr_ldh_name n))) by (done || by apply so_ns_names).
  cbn [fmap list_fmap first_row]. by rewrite scan_nameserver_row.
Qed.
Lemma get_nameserver_none name : serves pool db →
  (∀ n, n ∈ t_nameservers (db w) → pg_lower (nr_ldh_name n) ≠ pg_lower name) →
  Provider_GetNameserver pool name w = (failed ErrNotFound, w).
Proof.
  intros Hp Hn. unfold Provider_GetNameserver. rewrite (serves_nameserver _ _ Hp).
  unfold nameservers_named. by rewrite filter_nil.
Qed.

(** C14: The lookups implement the tables.  Over a pool that serves a database within the
    constraints of the schema (its times finite, its arrays without NULLs and its inets
    without masks), and without touching it: a domain is looked up by its name up to
    case, an entity by its handle, a nameserver by its name up to case on both sides, and
    the answer is the record that the row, its nameservers, contacts, roles, emails and
    phones make up, or the error of the open JSON that does not decode; and where there
    is no row the answer is exactly [ErrNotFound].  A valid address without a zone that
    no network contains is [ErrNotFound] too, and otherwise the row with the longest
    prefix around it decides: if its country and its parent are not NULL, and the driver
    scans a cidr into a string, the answer is that network, its prefix included; if not,
    the lookup is an error, and never [ErrNotFound]. *)
Theorem pg_lookups :
  serves pool db → schema_ok (db w) →
  (∀ d name, d ∈ t_domains (db w) → dr_ldh_name d = pg_lower name →
     Provider_GetDomain pool name w = (returned (domain_of (db w) d), w)) ∧
  (∀ name, pg_lower name ∉ dr_ldh_name <$> t_domains (db w) →
     Provider_GetDomain pool name w = (failed ErrNotFound, w)) ∧
  (∀ e, e ∈ t_entities (db w) →
     Provider_GetEntity pool (er_handle e) w = (returned (entity_of (db w) e), w)) ∧
  (∀ handle, handle ∉ er_handle <$> t_entities (db w) →
     Provider_GetEntity pool handle w = (failed ErrNotFound, w)) ∧
  (∀ n name, n ∈ t_nameservers (db w) → pg_lower (nr_ldh_name n) = pg_lower name →
     Provider_GetNameserver pool name w = (found (ns_of_row n), w)) ∧
  (∀ name, (∀ n, n ∈ t_nameservers (db w) → pg_lower (nr_ldh_name n) ≠ pg_lower name) →
     Provider_GetNameserver pool name w = (failed ErrNotFound, w)) ∧
  (∀ ip, addr_zone ip = "" → addr_IsValid ip = true →
     ((∀ n, n ∈ t_networks (db w) → pfx_Contains (wr_prefix n) ip = false) ∧
        Provider_GetIPNetwork pool ip w = (failed ErrNotFound, w)) ∨
     ∃ n, most_specific (db w) ip n ∧
       match wr_country n, wr_parent_handle n, ScanString (c_cidr (wr_prefix n)) with
       | Some country, Some parent, inl _ =>
           Provider_GetIPNetwork pool ip w = (found (network_of n country parent), w)
       | _, _, _ =>
           ∃ e, Provider_GetIPNetwork pool ip w = (failed e, w) ∧ errors_Is e ErrNotFound = false
       end).
Proof.
  intros Hp Hs. split_and!.
  - intros d name. by apply get_domain_row.
  - intros name. by apply get_domain_none.
  - intros e. by apply get_entity_row.
  - intros h. by apply get_entity_none.
  - intros n name. by apply get_nameserver_row.
  - intros name. by apply get_nameserver_none.
  - intros ip Hz Hv. destruct (serves_ip _ _ Hp ip w Hz Hv) as [(n & Hm & E)|[Hn E]].
    + right. exists n. split; [done|]. apply get_network_row; [|done].
      destruct Hm as [Hn _]. by apply so_networks in Hn.
    + left. split; [done|]. unfold Provider_GetIPNetwork. by rewrite E.
Qed.

(** *** Contacts *)
Lemma contacts_of_length e h : schema_ok (db w) → e ∈ t_entities (db w) →
  length (filter (λ x, er_handle x = er_handle e) (contacts_of (db w) h)) =
  length (roles_of (db w) h (er_handle e)).
Proof.
  intros Hs He. unfold contacts_of, roles_of, order_by. rewrite !merge_sort_Permutation.
  set (rows := filter (λ dc, dc_domain dc = h ∧ dc_entity dc = er_handle e) (t_contacts (db w))).
  rewrite remove_dups_id, length_fmap.
  2: { apply NoDup_fmap_2_strong; [|apply NoDup_filter, Hs].
       intros [a b c] [a' b' c'] [[E1 E2] _]%list_elem_of_filter [[E3 E4] _]%list_elem_of_filter E.
       cbn in *. congruence. }
  rewrite (length_filter_bind _ _ (λ dc, dc_entity dc = er_handle e)).
  { unfold rows. rewrite list_filter_filter. f_equal. apply list_filter_iff. naive_solver. }
  intros dc [_ Hdc]%list_elem_of_filter.
  assert (Hx := so_contact_entity _ _ Hs Hdc). apply list_elem_of_fmap in Hx as (x & -> & Hx).
  rewrite (filter_key er_handle (t_entities (db w)) x) by (done || by apply so_entities).
  destruct (decide (er_handle x = er_handle e)); [rewrite filter_cons_True|rewrite filter_cons_False];
    done.
Qed.

(** A domain response lists an entity once for each role it has for the domain, and each
    time with all its roles. *)
Theorem contact_once_per_role d e :
  serves pool db → schema_ok (db w) → d ∈ t_domains (db w) → e ∈ t_entities (db w) →
  pg_lower (dr_ldh_name d) = dr_ldh_name d → secure_of d = inl None →
  let roles := roles_of (db w) (dr_handle d) (er_handle e) in
  ∃ dom, Provider_GetDomain pool (dr_ldh_name d) w = (found dom, w) ∧
  filter (λ c, c_Handle c = er_handle e) (d_Contacts dom) =
  replicate (length roles) (contact_of_row (db w) roles (extras_of e) e).
Proof.
  intros Hp Hs Hd He Hl Hsec roles. rewrite (get_domain_row d) by done.
  unfold domain_of. rewrite Hsec. cbn. eexists. split; [reflexivity|]. cbn [d_Contacts].
  rewrite (filter_fmap_as _ _ (λ x, er_handle x = er_handle e)) by done. symmetry.
  apply replicate_as_Forall_2; [by rewrite length_fmap, contacts_of_length|].
  rewrite Forall_forall. intros c (x & -> & Hx)%list_elem_of_fmap.
  apply list_elem_of_filter in Hx as [E Hx%contacts_of_elem].
  assert (Hin : x ∈ filter (λ y, er_handle y = er_handle e) (t_entities (db w)))
    by (by apply list_elem_of_filter).
  rewrite filter_key in Hin by (done || by apply so_entities).
  by apply list_elem_of_singleton in Hin as ->.
Qed.
End records.

(** ** Column types *)
Section types.
Context `{PgText} `{NetIPText} `{!Pgx} `{!PgJSON} `{!PgxLaws}.

(** A value of a column. *)
Inductive datum :=
  | DText (o : option string) | DTexts (o : option (list (option string)))
  | DTime (o : option stamp) | DJson (o : option string) | DInt (z : Z)
  | DInets (o : option (list (option Prefix))) | DCidr (p : Prefix).
Definition to_col (v : datum) : col :=
  match v with
  | DText o => c_text o | DTexts o => c_text_array o | DTime o => c_stamp o
  | DJson o => c_json o | DInt z => c_int z | DInets o => c_inet_array o | DCidr p => c_cidr p
  end.

(** A column of the schema and what it is scanned into; [nullable] when it may be NULL. *)
Inductive slot :=
  | SlotText (nullable : bool)    (* text into string, or when nullable into *string *)
  | SlotBare                      (* text that may be NULL, into string all the same *)
  | SlotTexts                     (* text[] NOT NULL into []string *)
  | SlotTime (nullable : bool)    (* timestamptz into time.Time or *time.Time *)
  | SlotUnread                    (* timestamptz that may be NULL, into *any *)
  | SlotJson (nullable : bool)    (* json, jsonb into []byte *)
  | SlotInt                       (* bigint NOT NULL into int *)
  | SlotInets                     (* inet[] into []netip.Addr *)
  | SlotCidr.                     (* cidr NOT NULL into string *)
Definition null_ok {A} (nullable : bool) (o : option A) : Prop := nullable = false → o ≠ None.

(** The values the schema lets into a column. *)
Definition has (s : slot) (v : datum) : Prop :=
  match s, v with
  | SlotText n, DText o => null_ok n o
  | SlotBare, DText _ => True
  | SlotTexts, DTexts o => o ≠ None
  | SlotTime n, DTime o => null_ok n o
  | SlotUnread, DTime _ => True
  | SlotJson n, DJson o => null_ok n o
  | SlotInt, DInt z => in_int64 z
  | SlotInets, DInets _ => True
  | SlotCidr, DCidr p => stored_cidr p
  | _, _ => False
  end.
(** The values among them that Go can hold. *)
Definition fits (s : slot) (v : datum) : Prop :=
  match s, v with
  | SlotBare, DText o => o ≠ None
  | SlotTexts, DTexts o => Forall (λ e, e ≠ None) (default [] o)
  | SlotTime _, DTime o => o ≠ Some PosInfinity ∧ o ≠ Some NegInfinity
  | SlotInets, DInets o =>
      Forall (λ e, match e with
                   | None => null_addr ≠ None
                   | Some p => pfx_Bits p = Some (addr_BitLen (pfx_Addr p))
                   end) (default [] o)
  | SlotCidr, DCidr p => ∃ t, ScanString (c_cidr p) = inl t
  | _, _ => True
  end.

Definition slots_domain : list slot :=
  [SlotText false; SlotText false; SlotText false; SlotTexts; SlotTime false; SlotTime true; SlotTime false;
   SlotTime false; SlotJson true; SlotJson false; SlotJson false].
Definition slots_entity : list slot :=
  [SlotText false; SlotTexts; SlotText false; SlotText false; SlotText false; SlotText false; SlotText true;
   SlotText false; SlotText false; SlotText false; SlotTexts; SlotTime false; SlotTime false; SlotJson false].
Definition slots_nameserver : list slot :=
  [SlotText false; SlotText false; SlotText false; SlotInets; SlotInets].
Definition slots_network : list slot :=
  [SlotText false; SlotCidr; SlotText false; SlotText false; SlotBare; SlotBare; SlotTexts;
   SlotTime false; SlotTime false].
Definition slots_phone : list slot := [SlotText false; SlotTexts].
Definition slots_search_domain : list slot :=
  [SlotText false; SlotText false; SlotText false; SlotTexts; SlotTime false; SlotUnread;
   SlotTime false; SlotTime false].
Definition slots_search_entity : list slot := slots_entity ++ [SlotTexts; SlotJson false; SlotInt].

(** The rows of a database at rest are such rows, and all their values fit but for those
    of a network. *)
Definition plain (s : slot) (c : col) : Prop := ∃ v, has s v ∧ fits s v ∧ c = to_col v.
Definition typed (s : slot) (c : col) : Prop := ∃ v, has s v ∧ c = to_col v.
Lemma plain_texts l : plain SlotTexts (c_texts (Some l)).
Proof.
  exists (DTexts (Some (texts l))). split_and!; [done| |done].
  apply Forall_forall. by intros e (x & -> & _)%list_elem_of_fmap.
Qed.
Lemma plain_inets o : plain SlotInets (c_inets o).
Proof.
  exists (DInets (hosts <$> o)). split_and!; [done| |done].
  apply Forall_forall. destruct o as [l|]; [|by intros e ?%not_elem_of_nil].
  by intros e (x & -> & _)%list_elem_of_fmap.
Qed.
Lemma plain_text s : plain (SlotText false) (text s).
Proof. by exists (DText (Some s)). Qed.
Lemma plain_time t : plain (SlotTime false) (time t).
Proof. by exists (DTime (Some (Finite t))). Qed.
Lemma plain_time_ptr o : plain (SlotTime true) (c_time o).
Proof. exists (DTime (Finite <$> o)). by destruct o. Qed.
Lemma plain_unread o : plain SlotUnread (c_time o).
Proof. by exists (DTime (Finite <$> o)). Qed.
Lemma plain_text_ptr o : plain (SlotText true) (c_text o).
Proof. by exists (DText o). Qed.
Lemma plain_json s : plain (SlotJson false) (c_json (Some s)).
Proof. by exists (DJson (Some s)). Qed.
Lemma plain_json_ptr o : plain (SlotJson true) (c_json o).
Proof. by exists (DJson o). Qed.
Lemma plain_int z : in_int64 z → plain SlotInt (c_int z).
Proof. by exists (DInt z). Qed.
#[local] Create HintDb slots.
#[local] Hint Resolve plain_texts plain_inets plain_text plain_time plain_time_ptr plain_unread
  plain_text_ptr plain_json plain_json_ptr plain_int : slots.

Lemma results_plain db d e n p total : in_int64 total →
  Forall2 plain slots_domain (domain_result db d) ∧
  Forall2 plain slots_entity (entity_result e) ∧
  Forall2 plain slots_nameserver (nameserver_result n) ∧
  Forall2 plain slots_phone (phone_result p) ∧
  Forall2 plain slots_search_domain (search_domain_result d) ∧
  Forall2 plain slots_search_entity (search_entity_result db total e).
Proof.
  intros Ht. unfold slots_search_entity, search_entity_result. cbn [app slots_entity entity_result].
  split_and!; repeat constructor; auto with slots.
Qed.
Lemma network_typed n : stored_cidr (wr_prefix n) → Forall2 typed slots_network (network_result n).
Proof.
  intros Hc. repeat constructor;
    [by exists (DText (Some (wr_handle n)))|by exists (DCidr (wr_prefix n))
    |by exists (DText (Some (wr_name n)))|by exists (DText (Some (wr_type n)))
    |by exists (DText (wr_country n))|by exists (DText (wr_parent_handle n))
    |by exists (DTexts (Some (texts (wr_status n))))|by exists (DTime (Some (Finite (wr_registered_at n))))
    |by exists (DTime (Some (Finite (wr_last_changed n))))].
Qed.

(** *** One column *)
Definition scans_as {A} (f : col → A + error) (s : slot) : Prop :=
  ∀ v, has s v → (∃ a, f (to_col v) = inl a) ↔ fits s v.

Lemma scans_to_inl {A} (r : A + error) o : scans_to r o → (∃ a, r = inl a) ↔ o ≠ None.
Proof. destruct o; cbn; naive_solver. Qed.
Lemma mapM_is_Some {A B} (f : A → option B) l : mapM f l ≠ None ↔ Forall (λ x, f x ≠ None) l.
Proof.
  induction l as [|x l IH]; cbn; [by split|]. rewrite Forall_cons, <-IH.
  destruct (f x), (mapM f l); naive_solver.
Qed.

Lemma scans_text : scans_as ScanString (SlotText false).
Proof.
  intros [[s|]| | | | | |]; cbn; try done; [rewrite law_string; naive_solver|].
  intros Hn. by destruct (Hn eq_refl).
Qed.
Lemma scans_text_ptr : scans_as ScanStringPtr (SlotText true).
Proof. intros []; try done. cbn. rewrite law_string_ptr. naive_solver. Qed.
Lemma scans_bare : scans_as ScanString SlotBare.
Proof.
  intros [[s|]| | | | | |]; cbn; try done; [rewrite law_string; naive_solver|].
  destruct law_string_null as (e & -> & _). naive_solver.
Qed.
Lemma scans_texts : scans_as ScanStrings SlotTexts.
Proof.
  intros []; try done. cbn. intros _. rewrite (scans_to_inl _ _ (law_text_array o)).
  apply mapM_is_Some.
Qed.
Lemma scans_time : scans_as ScanTime (SlotTime false).
Proof.
  intros [| |[t|]| | | |]; try done; cbn; [|intros Hn; by destruct (Hn eq_refl)].
  intros _. rewrite (scans_to_inl _ _ (law_stamp t)). destruct t; naive_solver.
Qed.
Lemma scans_time_ptr : scans_as ScanTimePtr (SlotTime true).
Proof.
  intros [| |o| | | |]; try done; cbn. intros _. rewrite (scans_to_inl _ _ (law_stamp_ptr o)).
  destruct o as [[]|]; naive_solver.
Qed.
Lemma scans_unread : scans_as ScanAny SlotUnread.
Proof. intros []; try done. cbn. rewrite law_stamp_any. naive_solver. Qed.
Lemma scans_json n : scans_as ScanBytes (SlotJson n).
Proof. intros []; try done. cbn. rewrite law_bytes. naive_solver. Qed.
Lemma scans_int : scans_as ScanInt SlotInt.
Proof. intros []; try done. cbn. intros Hz. rewrite law_int by done. naive_solver. Qed.
Lemma scans_inets : scans_as ScanAddrs SlotInets.
Proof.
  intros []; try done. cbn. intros _. rewrite (scans_to_inl _ _ (law_inet_array o)).
  unfold array_addrs. rewrite mapM_is_Some. apply Forall_proper; [|done].
  intros [[a n]|]; [|done]. unfold element_addr, host. cbn.
  destruct (decide _) as [E|E]; [injection E as ->; naive_solver|].
  split; [done|]. by intros ->.
Qed.
Lemma scans_cidr : scans_as ScanString SlotCidr.
Proof. by intros []. Qed.

(** *** A row *)

(** A scanner that reads the columns [ss] and leaves the rest, and a scan of all of [ss]. *)
Definition reads {A} (ss : list slot) (m : Scanner A) : Prop :=
  ∀ vs rest, Forall2 has ss vs →
  match m ((to_col <$> vs) ++ rest) with
  | inl (_, cs) => cs = rest ∧ Forall2 fits ss vs
  | inr _ => ¬ Forall2 fits ss vs
  end.
Definition decodes {A} (ss : list slot) (m : list col → A + error) : Prop :=
  ∀ vs, Forall2 has ss vs → (∃ a, m (to_col <$> vs) = inl a) ↔ Forall2 fits ss vs.

Lemma reads_dest {A} (f : col → A + error) s : scans_as f s → reads [s] (dest f).
Proof.
  intros Hf vs rest (v & vs' & Hv & ->%Forall2_nil_inv_l & ->)%Forall2_cons_inv_l.
  specialize (Hf v Hv). cbn.
  destruct (f (to_col v)) as [a|e].
  - split; [done|]. constructor; [|constructor]. apply Hf. by eexists.
  - intros Hv'. inversion_clear Hv' as [|? ? ? ? Hs]. apply Hf in Hs as [? [=]].
Qed.
Lemma reads_pure {A} (a : A) : reads [] (λ cs, inl (a, cs)).
Proof. intros vs rest ->%Forall2_nil_inv_l. split; [done|constructor]. Qed.
Lemma reads_bind {A B} (m : Scanner A) (k : A → Scanner B) ss ss' :
  reads ss m → (∀ a, reads ss' (k a)) → reads (ss ++ ss') (scan_bind m k).
Proof.
  intros Hm Hk vs rest (vs1 & vs2 & Hv1 & Hv2 & ->)%Forall2_app_inv_l.
  assert (El : length ss = length vs1) by (by eapply Forall2_length).
  specialize (Hm vs1 ((to_col <$> vs2) ++ rest) Hv1). rewrite fmap_app, <-app_assoc.
  unfold scan_bind. destruct (m _) as [[a cs]|e].
  - destruct Hm as [-> Hf]. specialize (Hk a vs2 rest Hv2).
    destruct (k a _) as [[b cs]|e]; [destruct Hk as [-> Hk]; by auto using Forall2_app|].
    by intros [_ Hn]%Forall2_app_inv.
  - by intros [Hn _]%Forall2_app_inv.
Qed.
Lemma decodes_ret {A} (a : A) : decodes [] (Scan (scan_ret a)).
Proof. intros vs ->%Forall2_nil_inv_l. split; [constructor|by eexists]. Qed.
Lemma decodes_bind {A B} (m : Scanner A) (k : A → Scanner B) ss ss' :
  reads ss m → (∀ a, decodes ss' (Scan (k a))) → decodes (ss ++ ss') (Scan (scan_bind m k)).
Proof.
  intros Hm Hk vs (vs1 & vs2 & Hv1 & Hv2 & ->)%Forall2_app_inv_l.
  assert (El : length ss = length vs1) by (by eapply Forall2_length).
  specialize (Hm vs1 (to_col <$> vs2) Hv1). rewrite fmap_app.
  unfold Scan, scan_bind. destruct (m _) as [[a cs]|e].
  - destruct Hm as [-> Hf]. specialize (Hk a vs2 Hv2). unfold Scan in Hk. rewrite Hk.
    split; [by apply Forall2_app|by intros [_ Hn]%Forall2_app_inv].
  - split; [by intros [? [=]]|by intros [Hn _]%Forall2_app_inv].
Qed.
Lemma reads_cons {A B} (f : col → A + error) s (k : A → Scanner B) ss :
  scans_as f s → (∀ a, reads ss (k a)) → reads (s :: ss) (scan_bind (dest f) k).
Proof. intros Hf Hk. exact (reads_bind _ _ [s] ss (reads_dest _ _ Hf) Hk). Qed.
Lemma decodes_cons {A B} (f : col → A + error) s (k : A → Scanner B) ss :
  scans_as f s → (∀ a, decodes ss (Scan (k a))) → decodes (s :: ss) (Scan (scan_bind (dest f) k)).
Proof. intros Hf Hk. exact (decodes_bind _ _ [s] ss (reads_dest _ _ Hf) Hk). Qed.
#[local] Create HintDb scans.
#[local] Hint Resolve scans_text scans_text_ptr scans_bare scans_texts scans_time scans_time_ptr
  scans_unread scans_json scans_int scans_inets scans_cidr : scans.
Ltac read_columns :=
  repeat (apply reads_cons; [auto with scans|intros ?]); apply reads_pure.
Ltac decode_columns :=
  repeat (apply decodes_cons; [auto with scans|intros ?]); apply decodes_ret.

Lemma entity_reads : reads slots_entity entity_columns.
Proof. unfold entity_columns, slots_entity. read_columns. Qed.
Lemma nameserver_reads : reads slots_nameserver nameserver_columns.
Proof. unfold nameserver_columns, slots_nameserver. read_columns. Qed.

(** C29: Which rows can be decoded.  A row of any statement of the provider holds values
    the schema allows in its columns, NULLs, infinite times and masked addresses included;
    its [Scan] succeeds exactly when every value is one its destination can hold.  So the
    only failures are: a NULL element of a text[], an infinite time (save in the expiry of
    a searched domain, which is read and not used), an inet[] with a masked address or
    with a NULL that pgx refuses; and in the row of a network a NULL country or parent,
    which are scanned into strings, or a cidr that pgx does not scan into one.  The rows
    that the statements yield on a database within the schema are such rows, and, without
    the values named above, all but those of a network are decoded. *)
Theorem rows_decode :
  decodes slots_domain (Scan domain_columns) ∧
  decodes slots_entity (Scan (ce ⇐ entity_columns; scan_ret ce)) ∧
  decodes [SlotText false] (Scan (e ⇐ dest ScanString; scan_ret e)) ∧
  decodes slots_phone (Scan (number ⇐ dest ScanString; kinds ⇐ dest ScanStrings;
    scan_ret {| ph_Number := number; ph_Kinds := kinds |})) ∧
  decodes slots_nameserver (Scan (n ⇐ nameserver_columns; scan_ret n)) ∧
  decodes slots_network (Scan network_columns) ∧
  decodes [SlotInt] (Scan (n ⇐ dest ScanInt; scan_ret n)) ∧
  decodes slots_search_domain (Scan search_domain_columns) ∧
  decodes slots_search_entity scanEntityWithTotal ∧
  decodes (slots_nameserver ++ [SlotInt])
    (Scan (n ⇐ nameserver_columns; total ⇐ dest ScanInt; scan_ret (n, total))) ∧
  (∀ n, stored_cidr (wr_prefix n) → Forall2 typed slots_network (network_result n)) ∧
  (∀ db d e n p total, in_int64 total →
     Forall2 plain slots_domain (domain_result db d) ∧
     Forall2 plain slots_entity (entity_result e) ∧
     Forall2 plain slots_nameserver (nameserver_result n) ∧
     Forall2 plain slots_phone (phone_result p) ∧
     Forall2 plain slots_search_domain (search_domain_result d) ∧
     Forall2 plain slots_search_entity (search_entity_result db total e)).
Proof.
  assert (Hplain := results_plain). assert (Htyped := network_typed). split_and!; [..|done|done].
  - unfold domain_columns, slots_domain. decode_columns.
  - rewrite <-(app_nil_r slots_entity). apply decodes_bind; [apply entity_reads|intros; apply decodes_ret].
  - decode_columns.
  - unfold slots_phone. decode_columns.
  - rewrite <-(app_nil_r slots_nameserver).
    apply decodes_bind; [apply nameserver_reads|intros; apply decodes_ret].
  - unfold network_columns, slots_network. decode_columns.
  - decode_columns.
  - unfold search_domain_columns, slots_search_domain. decode_columns.
  - intros vs Hvs. unfold scanEntityWithTotal, slots_search_entity.
    rewrite <-(decodes_bind entity_columns (λ ce, emails ⇐ dest ScanStrings;
      phonesJSON ⇐ dest ScanBytes; total ⇐ dest ScanInt; scan_ret (ce, emails, phonesJSON, total))
      _ _ entity_reads (λ _, ltac:(decode_columns)) vs Hvs).
    destruct (Scan _ _) as [[[[[? ?] ?] ?] ?]|e]; cbn; naive_solver.
  - apply decodes_bind; [apply nameserver_reads|intros; decode_columns].
Qed.
End types.

(** ** A database *)
#[local] Existing Instance pg_text.
#[local] Existing Instance netip_bits.
#[local] Existing Instance pgx_values.
#[local] Existing Instance pg_json.
#[local] Existing Instance pgx_values_laws.

Definition demo_entity : entity_row :=
  {| er_handle := "ENT-1"; er_kind := "individual"; er_full_name := "Jan"; er_organization := "";
     er_title := ""; er_country_code := Some "NL"; er_locality := "Utrecht"; er_region := "";
     er_postal_code := ""; er_street := []; er_created_at := 1%Z; er_updated_at := 2%Z;
     er_extras := "{}" |}.
Definition demo_domain : domain_row :=
  {| dr_handle := "DOM-1"; dr_ldh_name := "example.nl"; dr_unicode_name := "example.nl";
     dr_status := ["active"]; dr_registered_at := 1%Z; dr_expires_at := None;
     dr_last_changed := 2%Z; dr_last_rdap_update := 3%Z; dr_secure_dns := None;
     dr_registrar_handle := None |}.
Definition demo_ns : ns_row :=
  {| nr_handle := "NS-1"; nr_ldh_name := "ns1.example.nl"; nr_unicode_name := "ns1.example.nl";
     nr_ipv4 := Some [ip4 192 0 2 53]; nr_ipv6 := None |}.
Definition demo_network (handle : string) (p : Prefix) (country : option string) : network_row :=
  {| wr_handle := handle; wr_prefix := p; wr_name := ""; wr_type := ""; wr_country := country;
     wr_parent_handle := Some ""; wr_status := []; wr_registered_at := 1%Z; wr_last_changed := 2%Z |}.
Definition demo_db : Database :=
  {| t_entities := [demo_entity];
     t_emails := [{| em_entity := "ENT-1"; em_email := "jan@example.nl" |}];
     t_phones := [{| pr_entity := "ENT-1"; pr_number := "+31.1"; pr_kinds := ["voice"] |}];
     t_domains := [demo_domain];
     t_contacts := [{| dc_domain := "DOM-1"; dc_entity := "ENT-1"; dc_role := "registrant" |};
                    {| dc_domain := "DOM-1"; dc_entity := "ENT-1"; dc_role := "technical" |}];
     t_nameservers := [demo_ns];
     t_domain_ns := [{| dn_domain := "DOM-1"; dn_nameserver := "NS-1" |}];
     t_networks := [demo_network "NET-8" (cidr4 10 0 0 0 8) (Some "NL");
                    demo_network "NET-16" (cidr4 10 1 0 0 16) None] |}.

Lemma demo_db_ok : schema_ok demo_db.
Proof. by apply (bool_decide_unpack _); vm_compute. Qed.

Lemma pg_lookups_witness :
  serves db_pool (λ db, db) ∧ schema_ok demo_db ∧
  Provider_GetDomain db_pool "Example.NL" demo_db = (returned (domain_of demo_db demo_domain), demo_db) ∧
  Provider_GetIPNetwork db_pool (ip4 192 0 2 1) demo_db = (failed ErrNotFound, demo_db) ∧
  Provider_GetIPNetwork db_pool (ip4 10 2 3 4) demo_db =
    (found (network_of (demo_network "NET-8" (cidr4 10 0 0 0 8) (Some "NL")) "NL" ""), demo_db) ∧
  ∃ e, Provider_GetIPNetwork db_pool (ip4 10 1 2 3) demo_db = (failed e, demo_db) ∧
       errors_Is e ErrNotFound = false.
Proof.
  split; [exact db_pool_serves|]. split; [exact demo_db_ok|].
  destruct (pg_lookups db_pool (λ db, db) demo_db db_pool_serves demo_db_ok)
    as (Hd & _ & _ & _ & _ & _ & Hip). split_and!.
  - apply Hd; [left|reflexivity].
  - destruct (Hip (ip4 192 0 2 1) eq_refl eq_refl) as [[_ E]|(n & (Hn & Hc & _) & _)]; [exact E|].
    apply list_elem_of_In in Hn as [<-|[<-|[]]]; vm_compute in Hc; discriminate.
  - destruct (Hip (ip4 10 2 3 4) eq_refl eq_refl) as [[Hn _]|(n & (Hn & Hc & _) & E)].
    + specialize (Hn _ (list_elem_of_here _ _)). vm_compute in Hn. discriminate.
    + apply list_elem_of_In in Hn as [<-|[<-|[]]]; [exact E|]. vm_compute in Hc. discriminate.
  - destruct (Hip (ip4 10 1 2 3) eq_refl eq_refl) as [[Hn _]|(n & (Hn & Hc & Hm) & E)].
    + specialize (Hn _ (list_elem_of_here _ _)). vm_compute in Hn. discriminate.
    + apply list_elem_of_In in Hn as [<-|[<-|[]]]; [|exact E].
      specialize (Hm (demo_network "NET-16" (cidr4 10 1 0 0 16) None)
        (list_elem_of_further _ _ _ (list_elem_of_here _ _)) eq_refl).
      vm_compute in Hm. by destruct Hm.
Defined.

Lemma contact_once_per_role_witness :
  (demo_domain ∈ t_domains demo_db ∧ demo_entity ∈ t_entities demo_db) ∧
  ∃ dom, Provider_GetDomain db_pool "example.nl" demo_db = (found dom, demo_db) ∧
    c_Handle <$> d_Contacts dom = ["ENT-1"; "ENT-1"] ∧
    c_Roles <$> filter (λ c, c_Handle c = "ENT-1") (d_Contacts dom) =
      replicate 2 ["registrant"; "technical"].
Proof.
  split; [split; left|].
  destruct (contact_once_per_role db_pool (λ db, db) demo_db demo_domain demo_entity
    db_pool_serves demo_db_ok) as (dom & E & Ef); [by left..|done|done|].
  exists dom. split; [exact E|]. cbn [er_handle demo_entity] in Ef. rewrite Ef.
  vm_compute in E. injection E as <-. split; reflexivity.
Defined.

(** The nearest network has no country: its lookup is an error that is not [ErrNotFound]. *)
Example null_country_ex :
  let r := (Provider_GetIPNetwork db_pool (ip4 10 1 2 3) demo_db).1 in
  (bool_decide (r.1 = None), match r.2 with Some e => errors_Is e ErrNotFound | None => true end) =
  (true, false).
Proof. vm_compute. reflexivity. Qed.
Example network_ex :
  net_Handle <$> (Provider_GetIPNetwork db_pool (ip4 10 2 3 4) demo_db).1.1 = Some "NET-8".
Proof. vm_compute. reflexivity. Qed.

(** The values of a row of the searched domains whose expiry is [expires], and of a network. *)
Definition demo_domain_vals (expires : option stamp) : list datum :=
  [DText (Some "DOM-1"); DText (Some "example.nl"); DText (Some "example.nl");
   DTexts (Some [Some "active"]); DTime (Some (Finite 1%Z)); DTime expires;
   DTime (Some (Finite 2%Z)); DTime (Some (Finite 3%Z))].
Definition demo_network_vals (country : option string) : list datum :=
  [DText (Some "NET-8"); DCidr (cidr4 10 0 0 0 8); DText (Some ""); DText (Some "");
   DText country; DText (Some ""); DTexts (Some []); DTime (Some (Finite 1%Z));
   DTime (Some (Finite 2%Z))].

(** An infinite expiry is no matter to a search and an error of a lookup; a network needs
    its country; a nameserver its addresses without masks. *)
Lemma rows_decode_witness :
  (∃ d, Scan search_domain_columns (to_col <$> demo_domain_vals (Some PosInfinity)) = inl d) ∧
  ¬ (∃ d, Scan domain_columns (to_col <$> demo_domain_vals (Some PosInfinity) ++
            [DJson None; DJson (Some "[]"); DJson (Some "[]")]) = inl d) ∧
  (∃ n, Scan network_columns (to_col <$> demo_network_vals (Some "NL")) = inl n) ∧
  ¬ (∃ n, Scan network_columns (to_col <$> demo_network_vals None) = inl n) ∧
  ¬ (∃ n, Scan (n ⇐ nameserver_columns; scan_ret n)
            (to_col <$> [DText (Some "NS-1"); DText (Some "ns1.nl"); DText (Some "ns1.nl");
                         DInets (Some [Some (cidr4 10 0 0 0 8)]); DInets None]) = inl n).
Proof.
  destruct rows_decode as (Hd & _ & _ & _ & Hns & Hn & _ & Hs & _). split_and!.
  - apply Hs; [|unfold demo_domain_vals]; repeat constructor; done.
  - intros He. apply Hd in He; [|repeat constructor; done].
    do 5 (apply Forall2_cons in He as [_ He]). apply Forall2_cons in He as [[He _] _]. by apply He.
  - apply Hn; [repeat constructor; done|]. repeat constructor; try done. by eexists.
  - intros He. apply Hn in He; [|repeat constructor; done].
    do 4 (apply Forall2_cons in He as [_ He]). apply Forall2_cons in He as [He _]. by apply He.
  - intros He. apply Hns in He; [|repeat constructor; done].
    do 3 (apply Forall2_cons in He as [_ He]). apply Forall2_cons in He as [He _].
    apply Forall_cons in He as [He _]. discriminate He.
Defined.
