(* ===== verification/PgSearch.v ===== *)
(** * Searching Postgres.

    What a client's pattern means once [ilikePattern] has made a LIKE pattern of it, and
    that the three searches answer with pages of the rows that match. *)
From S2P Require Import Prelude GoStrings NetIP DataSource Search Memory Pgx Postgres PgSchema PgPool PgFacts.

(** ** Patterns *)

(** ['*'] is anything; any other byte, the metacharacters of LIKE included, is itself. *)
Inductive wild_denotes : string → string → Prop :=
  | wild_nil : wild_denotes "" ""
  | wild_char c p h : c ≠ star → wild_denotes p h → wild_denotes (String c p) (String c h)
  | wild_star p a h : wild_denotes p h → wild_denotes (String star p) (a +:+ h).

Lemma wild_char_iff c p h : c ≠ star →
  wild_denotes (String c p) h ↔ ∃ h', h = String c h' ∧ wild_denotes p h'.
Proof.
  intros Hc. split; [inversion 1; subst; [by eexists|done]|]. intros (h' & -> & Hd). by constructor.
Qed.
Lemma wild_star_iff p h :
  wild_denotes (String star p) h ↔ ∃ a b, h = a +:+ b ∧ wild_denotes p b.
Proof. split; [inversion 1; subst; [done|by do 2 eexists]|]. intros (a & b & -> & Hd). by constructor. Qed.

Fixpoint star_toks (p : string) : list like_tok :=
  match p with
  | "" => []
  | String c p => (if Ascii.eqb c star then LAny else LChar c) :: star_toks p
  end.

Lemma like_match_any ts s :
  like_match (LAny :: ts) s = true ↔ ∃ a h, s = a +:+ h ∧ like_match ts h = true.
Proof.
  cbn [like_match]. induction s as [|c s IH].
  - rewrite orb_false_r. split; [by exists "", ""|]. intros (a & h & E & Hm).
    by destruct a, h.
  - rewrite orb_true_iff, IH. split.
    + intros [Hm|(a & h & -> & Hm)]; [by exists "", (String c s)|by exists (String c a), h].
    + intros ([|c' a] & h & E & Hm); [by left; cbn in E; subst|]. right. injection E as <- ->.
      by exists a, h.
Qed.

Lemma like_match_wild p : ∀ h, like_match (star_toks p) h = true ↔ wild_denotes p h.
Proof.
  induction p as [|c p IH]; intros h.
  - cbn. rewrite String.eqb_eq. split; [intros ->; constructor|by inversion 1].
  - cbn [star_toks]. destruct (Ascii.eqb_spec c star) as [->|Hc].
    + rewrite like_match_any, wild_star_iff. by setoid_rewrite IH.
    + rewrite wild_char_iff by done. cbn [like_match]. destruct h as [|c' h]; [naive_solver|].
      rewrite andb_true_iff, Ascii.eqb_eq, IH. naive_solver.
Qed.

Lemma lower_special c : like_special (lower_byte c) = like_special c.
Proof. by destruct c as [[] [] [] [] [] [] [] []]. Qed.
Lemma lower_star c : Ascii.eqb (lower_byte c) star = Ascii.eqb c star.
Proof. by destruct c as [[] [] [] [] [] [] [] []]. Qed.
Lemma lower_special_id c : like_special c = true → lower_byte c = c.
Proof. by destruct c as [[] [] [] [] [] [] [] []]. Qed.

Lemma str_map_app f s t : str_map f (s +:+ t) = str_map f s +:+ str_map f t.
Proof. induction s as [|c s IH]; [done|]. cbn. by rewrite IH. Qed.

Lemma runes_ascii s : is_ascii s = true → runes s = (λ c, String c "") <$> String.list_ascii_of_string s.
Proof.
  unfold is_ascii. induction s as [|c s IH]; [done|]. cbn. intros [-> Hs]%andb_true_iff.
  by rewrite IH.
Qed.

Lemma ilike_rune_text c :
  ilike_rune (String c "") = (if Ascii.eqb c star then "%" else like_text (LChar c)).
Proof. by destruct c as [[] [] [] [] [] [] [] []]. Qed.

Section pattern.
Context `{GoUnicode}.

Lemma ilikePattern_ascii s : is_ascii s = true →
  ilikePattern s = like_pattern (star_toks (str_map lower_byte s)).
Proof.
  intros Hs. unfold ilikePattern. rewrite runes_ascii by done.
  set (out := foldr _ _ _).
  assert (Hout : is_ascii out = true ∧
            str_map lower_byte out = like_pattern (star_toks (str_map lower_byte s))).
  { subst out. unfold is_ascii in *. induction s as [|c s IH]; [done|].
    cbn in Hs. apply andb_true_iff in Hs as [Hc Hs]. destruct (IH Hs) as [IH1 IH2].
    cbn [String.list_ascii_of_string fmap list_fmap foldr str_map star_toks].
    change (like_pattern (?t :: ?ts)) with (like_text t +:+ like_pattern ts).
    rewrite ilike_rune_text, str_forall_app, str_map_app, lower_star, IH1, andb_true_r, IH2.
    destruct (Ascii.eqb c star); [done|]. cbn [like_text]. rewrite lower_special.
    destruct (like_special c) eqn:E; cbn; rewrite Hc; [|done]. by rewrite (lower_special_id c). }
  unfold ToLower. destruct Hout as [-> ->]. done.
Qed.

Context `{PgText}.

Lemma pg_like_ilike s h : is_ascii s = true →
  pg_like h (ilikePattern s) = true ↔ wild_denotes (str_map lower_byte s) h.
Proof. intros Hs. by rewrite ilikePattern_ascii, pg_like_spec, like_match_wild. Qed.

(** Without a star the pattern is the text itself. *)
Definition no_star (s : string) : bool := str_forall (λ c, negb (Ascii.eqb c star)) s.
Lemma wild_no_star core p h : no_star core = true →
  wild_denotes (core +:+ p) h ↔ ∃ b, h = core +:+ b ∧ wild_denotes p b.
Proof.
  unfold no_star. revert h. induction core as [|c core IH]; intros h Hc.
  - split; [by exists h|]. intros (b & -> & Hb). done.
  - cbn in Hc. apply andb_true_iff in Hc as [Hc%negb_true_iff%Ascii.eqb_neq Hcore].
    cbn [String.append]. rewrite wild_char_iff by done. setoid_rewrite (IH _ Hcore).
    split; [intros (? & -> & b & -> & Hb); by exists b|]. intros (b & -> & Hb). cbn. by repeat eexists.
Qed.

Lemma wild_glob pre core suf h : no_star core = true →
  wild_denotes (glob_text {| g_pre := pre; g_core := core; g_suf := suf |}) h ↔
  glob_denotes {| g_pre := pre; g_core := core; g_suf := suf |} h.
Proof.
  intros Hc. unfold glob_text, glob_denotes; cbn [g_pre g_core g_suf].
  assert (Htail : ∀ b, wild_denotes (edge suf) b ↔ (suf = false → b = "")).
  { intros b. destruct suf; cbn.
    - split; [done|]. intros _. rewrite <-(str_app_nil_r b). constructor. constructor.
    - split; [by inversion 1|]. intros ->; [constructor|done]. }
  assert (Hcore : ∀ h, wild_denotes (core +:+ edge suf) h ↔
            ∃ b, h = core +:+ b ∧ (suf = false → b = "")).
  { intros h'. rewrite wild_no_star by done. by setoid_rewrite Htail. }
  destruct pre; cbn [edge]; [change (String star "" +:+ ?s) with (String star s)|].
  - rewrite wild_star_iff. setoid_rewrite Hcore. naive_solver.
  - cbn [String.append]. rewrite Hcore. split.
    + intros (b & -> & Hb). by exists "", b.
    + intros (a & b & -> & Ha & Hb). rewrite (Ha eq_refl). by exists b.
Qed.
End pattern.

Section pattern_facts.
Context `{GoUnicode} `{PgText}.

Lemma str_forall_map P f s : str_forall P (str_map f s) = str_forall (λ c, P (f c)) s.
Proof. induction s as [|c s IH]; [done|]. cbn. by rewrite IH. Qed.
Lemma no_star_lower s : no_star (str_map lower_byte s) = no_star s.
Proof.
  unfold no_star. rewrite str_forall_map. induction s as [|c s IH]; [done|]. cbn.
  by rewrite lower_star, IH.
Qed.
Lemma no_star_ok pre suf core :
  no_star core = true → glob_ok {| g_pre := pre; g_core := core; g_suf := suf |}.
Proof.
  unfold no_star, glob_ok. cbn [g_pre g_core g_suf]. intros Hc. split; intros _.
  - destruct core as [|c core]; [done|]. rewrite HasPrefix_star. cbn in Hc.
    by apply andb_true_iff in Hc as [Hc%negb_true_iff _].
  - destruct (str_snoc_inv core) as [->|(r & c & ->)]; [done|].
    rewrite str_forall_app, andb_true_iff in Hc. destruct Hc as [_ Hc].
    cbn in Hc. rewrite andb_true_r in Hc. apply negb_true_iff, Ascii.eqb_neq in Hc.
    rewrite str_last_snoc. congruence.
Qed.
Lemma glob_text_lower g :
  str_map lower_byte (glob_text g) =
  glob_text {| g_pre := g_pre g; g_core := str_map lower_byte (g_core g); g_suf := g_suf g |}.
Proof. unfold glob_text. rewrite !str_map_app. by destruct g as [[] ? []]. Qed.

Lemma ToLower_ascii s : is_ascii s = true → ToLower s = str_map lower_byte s.
Proof. intros Hs. unfold ToLower. by rewrite Hs. Qed.
Lemma lower_byte_twice c : lower_byte (lower_byte c) = lower_byte c.
Proof. by destruct c as [[] [] [] [] [] [] [] []]. Qed.
Lemma str_map_lower_twice s : str_map lower_byte (str_map lower_byte s) = str_map lower_byte s.
Proof. induction s as [|c s IH]; [done|]. cbn. by rewrite lower_byte_twice, IH. Qed.
Lemma is_ascii_lower s : is_ascii s = true → is_ascii (str_map lower_byte s) = true.
Proof.
  unfold is_ascii. rewrite str_forall_map. apply str_forall_impl.
  intros c. by destruct c as [[] [] [] [] [] [] [] []].
Qed.

(** The pattern is lower-case ASCII again. *)
Lemma ilikePattern_stable s : is_ascii s = true → pg_lower (ilikePattern s) = ilikePattern s.
Proof.
  intros Hs. rewrite (ilikePattern_ascii s Hs).
  assert (Ha : is_ascii (like_pattern (star_toks (str_map lower_byte s))) = true ∧
    str_map lower_byte (like_pattern (star_toks (str_map lower_byte s))) =
    like_pattern (star_toks (str_map lower_byte s))); [|by rewrite pg_lower_ascii by apply Ha; apply Ha].
  unfold is_ascii in *. induction s as [|c s IH]; [done|]. cbn in Hs. apply andb_true_iff in Hs as [Hc Hs].
  destruct (IH Hs) as [IH1 IH2]. cbn [str_map star_toks].
  change (like_pattern (?t :: ?ts)) with (like_text t +:+ like_pattern ts).
  rewrite str_forall_app, str_map_app, IH1, IH2, andb_true_r. clear IH IH1 IH2 Hs.
  by destruct c as [[] [] [] [] [] [] [] []].
Qed.

Lemma pg_like_glob g h : is_ascii (glob_text g) = true → no_star (g_core g) = true →
  pg_like h (ilikePattern (glob_text g)) = MatchPattern h (str_map lower_byte (glob_text g)).
Proof.
  intros Hp Hg.
  assert (Hl : no_star (str_map lower_byte (g_core g)) = true) by (by rewrite no_star_lower).
  apply eq_true_iff_eq. rewrite pg_like_ilike by done. rewrite glob_text_lower, wild_glob by done.
  rewrite MatchPattern_glob by (by apply no_star_ok). by rewrite glob_edges.
Qed.

(** C34: The LIKE pattern that a client's pattern of ASCII characters becomes matches exactly
    the texts that the client's pattern, in lower case, stands for: ['*'] is any text and
    every other byte itself, so that no ['%'], ['_'] or ['\'] of a client widens the search.
    For a pattern with wildcards at the edges only, the search in Postgres and the one in
    memory compare as follows.  On a name, Postgres takes a stored text as it is written, and
    the store answers what Postgres answers for that text in lower case: they agree on text
    that is stored in lower case.  On a handle, they agree when the pattern is in lower case.
    On an email address of ASCII characters, which is citext in Postgres, they agree.  (With
    capitals in a stored name, or in the pattern of a handle, they may not: [case_ex].) *)
Theorem ilikePattern_correct p : is_ascii p = true →
  (∀ h, pg_like h (ilikePattern p) = true ↔ wild_denotes (str_map lower_byte p) h) ∧
  (∀ g, p = glob_text g → no_star (g_core g) = true →
     (∀ h, matches_fold h p = pg_like (ToLower h) (ilikePattern p)) ∧
     (∀ h, ToLower h = h → pg_like h (ilikePattern p) = matches_fold h p) ∧
     (∀ h, str_map lower_byte p = p → pg_like h (ilikePattern p) = MatchPattern h p) ∧
     (∀ h, is_ascii h = true → pg_like_ci h (ilikePattern p) = matches_fold h p)).
Proof.
  intros Hp. split; [by intros h; apply pg_like_ilike|]. intros g -> Hg.
  assert (Hn : ∀ h, matches_fold h (glob_text g) = pg_like (ToLower h) (ilikePattern (glob_text g))).
  { intros h. unfold matches_fold. by rewrite pg_like_glob, (ToLower_ascii (glob_text g)). }
  split_and!; [done| | |].
  - intros h Hh. by rewrite Hn, Hh.
  - intros h Hl. by rewrite pg_like_glob, Hl.
  - intros h Hh. by rewrite pg_like_ci_spec, ilikePattern_stable, pg_lower_ascii, Hn, ToLower_ascii.
Qed.
End pattern_facts.

(** ** The statement of an entity search *)
Definition condition_field (c : condition) : string :=
  match c with CFn => "fn" | CHandle => "handle" | CEmail => "email" | CCountry => "countryCode" end.
Definition condition_value `{GoUnicode} (c : condition) (v : string) : string :=
  match c with CCountry => ToUpper v | _ => ilikePattern v end.
Definition entity_conditions `{GoUnicode} (terms : gmap string string) : list (condition * string) :=
  omap (λ c, v ← terms !! condition_field c; Some (c, condition_value c v)) conditions.
Definition present (terms : gmap string string) : list condition :=
  filter (λ c, is_Some (terms !! condition_field c)) conditions.

Section statement.
Context `{GoUnicode}.
Lemma entity_conditions_present terms : (entity_conditions terms).*1 = present terms.
Proof.
  unfold entity_conditions, present, conditions. cbn.
  destruct (terms !! "fn"), (terms !! "handle"), (terms !! "email"), (terms !! "countryCode");
    reflexivity.
Qed.
Lemma entity_where_conditions terms :
  entity_where terms =
  (conditions_text (present terms), ArgString <$> (entity_conditions terms).*2).
Proof.
  unfold entity_where, entity_condition, entity_conditions, present, conditions. cbn.
  destruct (terms !! "fn"), (terms !! "handle"), (terms !! "email"), (terms !! "countryCode");
    reflexivity.
Qed.
Lemma present_sublist terms : present terms `sublist_of` conditions.
Proof. apply sublist_filter. Qed.

(** C30: The statement of an entity search is one of fifteen fixed texts: which one depends on
    what fields the query has, never on their values, and the values, with the page, are
    its arguments in the order of the placeholders. *)
Theorem entity_statement_fixed `{Pgx} `{PgJSON} {W} (pool : Pool W) q w :
  let ks := present (Terms q) in
  ks ∈ sublists conditions ∧ Provider_SearchEntities pool q w =
  (if is_empty ks then (failed ErrNotImplemented, w) else
   let '(rows, w') := QueryRows pool (entities_sql ks)
     ((ArgString <$> (entity_conditions (Terms q)).*2) ++
      [ArgInt (ClampLimit (Limit q) 50 500); ArgInt (Offset q)]) w in
   (with_total "postgres: search entities" scanEntityWithTotal rows, w')).
Proof.
  intros ks. split; [by apply elem_of_sublists, present_sublist|].
  unfold Provider_SearchEntities. rewrite entity_where_conditions. subst ks.
  unfold entities_sql, count. rewrite !length_fmap, <-entity_conditions_present, length_fmap.
  by destruct (entity_conditions (Terms q)).
Qed.
End statement.

(** ** The searches *)
Section search.
Context `{PgText} `{NetIPText} `{!Pgx} `{!PgJSON} `{!PgxLaws} `{GoUnicode}.

(** What a search says of a domain: not its expiry, nameservers or contacts. *)
Definition domain_item (d : domain_row) : Domain :=
  {| d_Handle := dr_handle d; d_LDHName := dr_ldh_name d; d_UnicodeName := dr_unicode_name d;
     d_Status := dr_status d; d_Registered := dr_registered_at d; d_Expires := 0%Z;
     d_LastChanged := dr_last_changed d; d_LastRDAPUpdate := dr_last_rdap_update d;
     d_Nameservers := []; d_SecureDNS := None; d_Contacts := []; d_Registrar := None |}.
Definition entity_item (db : Database) (e : entity_row) : Contact :=
  contact_of_row db [] (UnmarshalExtras (er_extras e)).1 e.

Definition page {T} (q : Query) (l : list T) : list T :=
  take (Z.to_nat (ClampLimit (Limit q) 50 500)) (drop (Z.to_nat (Offset q)) l).
(** A total that comes with the rows is lost with them. *)
Definition page_total {T} (q : Query) (l : list T) : Z :=
  if is_empty (page q l) then 0%Z else count l.

Lemma window_page {T} q (l : list T) :
  window (ClampLimit (Limit q) 50 500) (Offset q) l =
  if (Offset q <? 0)%Z then inr (ErrOther "ERROR: OFFSET must not be negative (SQLSTATE 2201X)")
  else inl (page q l).
Proof. done. Qed.

Lemma scan_count_row z : in_int64 z → row_Scan (n ⇐ dest ScanInt; scan_ret n) (inl [c_int z]) = inl z.
Proof. intros Hz. unfold row_Scan, Scan, scan_bind, dest, scan_ret. by rewrite law_int. Qed.

Lemma scan_search_domain_row d :
  Scan search_domain_columns (search_domain_result d) = inl (domain_item d).
Proof. unfold search_domain_columns, search_domain_result. by decode_row. Qed.

Lemma phones_json_row db e :
  phone_of <$> (UnmarshalPhones (json_phones (phone_to_json <$> phones_of db (er_handle e)))).1 =
  phone_of_row <$> phones_of db (er_handle e).
Proof.
  destruct (law_json_phones (phone_to_json <$> phones_of db (er_handle e))) as [_ ->].
  cbn [fst]. by rewrite <-list_fmap_compose.
Qed.

Lemma scan_search_entity_row db total e : in_int64 total → er_extras e ≠ "" →
  scanEntityWithTotal (search_entity_result db total e) = inl (entity_item db e, total).
Proof.
  intros Ht Hx%String.eqb_neq. unfold scanEntityWithTotal, search_entity_result, entity_result, entity_columns.
  decode_row. unfold extras_lax. rewrite Hx.
  destruct (law_json_phones (phone_to_json <$> phones_of db (er_handle e))) as [Hne%String.eqb_neq _].
  rewrite Hne, phones_json_row. done.
Qed.

Lemma scan_search_nameserver_row total n : in_int64 total →
  Scan (n ⇐ nameserver_columns; total ⇐ dest ScanInt; scan_ret (n, total))
    (nameserver_result n ++ [c_int total]) = inl (ns_of_row n, total).
Proof.
  intros Ht. unfold nameserver_columns, nameserver_result. by decode_row.
Qed.

Lemma with_total_rows {A B} msg (m : list col → (A * Z) + error) (f : B → list col) (g : B → A) total l :
  (∀ x, x ∈ l → m (f x) = inl (g x, total)) →
  with_total msg m (all_rows f (inl l)) =
  found (Build_Result (g <$> l) (if is_empty l then 0%Z else total) "").
Proof.
  intros Hm. unfold with_total, all_rows. rewrite (each_row_inl _ _ (λ x, (g x, total))) by done.
  unfold searched, found. do 2 f_equal. rewrite <-!list_fmap_compose. f_equal.
  destruct l as [|x l]; [done|].
  rewrite fmap_last. destruct (last (x :: l)) eqn:E; [done|]. by apply last_None in E.
Qed.

Lemma elem_of_page {T} q (l : list T) x : x ∈ page q l → x ∈ l.
Proof.
  intros Hx%(sublist_subseteq _ _ (sublist_take _ _)). by apply (sublist_subseteq _ _ (sublist_drop _ _)) in Hx.
Qed.

Lemma count_matching {T} (P : T → Prop) `{∀ x, Decision (P x)} (R : T → T → Prop) `{RelDecision T T R} l :
  in_int64 (count l) → in_int64 (count (merge_sort R (filter P l))).
Proof.
  unfold count. rewrite merge_sort_Permutation. pose proof (length_filter P l).
  unfold in_int64, int64_min, int64_max. lia.
Qed.

(** The rows a search is about: sorted, all that match and no other. *)
Lemma entities_matching_elem db cs e : e ∈ entities_matching db cs → e ∈ t_entities db.
Proof. unfold entities_matching. rewrite elem_of_order_by, list_elem_of_filter. naive_solver. Qed.
Lemma order_by_sorted {A} (key : A → string) l : StronglySorted (on_key key) (order_by key l).
Proof.
  apply StronglySorted_merge_sort.
  - intros a b c. unfold on_key. apply transitivity.
  - intros a b. unfold on_key. apply pg_le_total.
Qed.

Context {W : Type} (pool : Pool W) (db : W → Database) (w : W) (q : Query).

Lemma search_domains_page name :
  serves pool db → in_int64 (count (t_domains (db w))) →
  default "" (Terms q !! "name") = name → name ≠ "" → (0 ≤ Offset q)%Z →
  let l := domains_like (db w) (ilikePattern name) in
  Provider_SearchDomains pool q w = (found (Build_Result (domain_item <$> page q l) (count l) ""), w).
Proof.
  intros Hp Hsz Hname Hne Hoff l. unfold Provider_SearchDomains. rewrite Hname.
  apply String.eqb_neq in Hne as ->. rewrite (serves_count _ _ Hp).
  rewrite scan_count_row by (by apply count_matching).
  rewrite (serves_search_domains _ _ Hp), window_page.
  apply Z.ltb_ge in Hoff as ->. cbn [all_rows].
  rewrite (each_row_inl _ _ domain_item) by (intros; apply scan_search_domain_row). done.
Qed.

(** The statement of an entity search, run. *)
Lemma search_entities_rows :
  serves pool db → entity_conditions (Terms q) ≠ [] →
  let l := entities_matching (db w) (entity_conditions (Terms q)) in
  Provider_SearchEntities pool q w =
  (with_total "postgres: search entities" scanEntityWithTotal
     (all_rows (search_entity_result (db w) (count l))
        (window (ClampLimit (Limit q) 50 500) (Offset q) l)), w).
Proof.
  intros Hp Hne l. unfold Provider_SearchEntities. rewrite entity_where_conditions.
  rewrite <-entity_conditions_present. set (cs := entity_conditions (Terms q)) in *.
  assert (Hsub : cs.*1 `sublist_of` conditions)
    by (unfold cs; rewrite entity_conditions_present; apply present_sublist).
  assert (is_empty (conditions_text cs.*1) = false) as -> by (by destruct cs).
  rewrite length_fmap, length_fmap. fold (count cs). by rewrite (serves_search_entities _ _ Hp).
Qed.

Lemma search_entities_page :
  serves pool db → schema_ok (db w) → in_int64 (count (t_entities (db w))) →
  entity_conditions (Terms q) ≠ [] → (0 ≤ Offset q)%Z →
  let l := entities_matching (db w) (entity_conditions (Terms q)) in
  Provider_SearchEntities pool q w =
  (found (Build_Result (entity_item (db w) <$> page q l) (page_total q l) ""), w).
Proof.
  intros Hp Hs Hsz Hne Hoff l. rewrite search_entities_rows by done. fold l.
  rewrite window_page. apply Z.ltb_ge in Hoff as ->.
  rewrite (with_total_rows _ _ _ (entity_item (db w)) (count l)); [done|].
  intros e He%elem_of_page. apply scan_search_entity_row; [by apply count_matching|].
  apply entities_matching_elem in He. by apply (so_extras (db w)).
Qed.

Lemma search_nameservers_page name :
  serves pool db → in_int64 (count (t_nameservers (db w))) →
  Terms q !! "name" = Some name → (0 ≤ Offset q)%Z →
  let l := nameservers_like (db w) (ilikePattern name) in
  Provider_SearchNameservers pool q w =
  (found (Build_Result (ns_of_row <$> page q l) (page_total q l) ""), w).
Proof.
  intros Hp Hsz Hname Hoff l. unfold Provider_SearchNameservers. rewrite Hname.
  rewrite (serves_search_nameservers _ _ Hp), window_page. apply Z.ltb_ge in Hoff as ->. cbv zeta.
  rewrite (with_total_rows _ _ _ ns_of_row (count l)); [done|].
  intros n _. apply scan_search_nameserver_row. by apply count_matching.
Qed.

(** A negative offset is an error of every search that reaches the pool. *)
Lemma search_negative_offset :
  serves pool db → (Offset q < 0)%Z → in_int64 (count (t_domains (db w))) →
  (∃ e, Provider_SearchDomains pool q w = (failed e, w)) ∧
  (∃ e, Provider_SearchEntities pool q w = (failed e, w)) ∧
  (∃ e, Provider_SearchNameservers pool q w = (failed e, w)).
Proof.
  intros Hp Hoff%Z.ltb_lt Hsz. split_and!.
  - unfold Provider_SearchDomains. destruct (_ =? _)%string; [by eexists|].
    rewrite (serves_count _ _ Hp), scan_count_row by (by apply count_matching).
    rewrite (serves_search_domains _ _ Hp), window_page, Hoff. by eexists.
  - destruct (decide (entity_conditions (Terms q) = [])) as [Hne|Hne].
    + unfold Provider_SearchEntities.
      rewrite entity_where_conditions, <-entity_conditions_present, Hne. by eexists.
    + rewrite search_entities_rows, window_page, Hoff by done. by eexists.
  - unfold Provider_SearchNameservers. destruct (_ !! _); [|by eexists].
    rewrite (serves_search_nameservers _ _ Hp), window_page, Hoff. by eexists.
Qed.

(** C15: A search answers with a page of the rows that match, over a pool that serves a
    database within the schema.  The rows of an entity search are those that meet every
    condition of the query and no other, in order of handle; those of the other two
    match the pattern of the name, in order of name.  The page has the requested size
    within 1 and 500, or 50, after the given number of rows.  The total of a domain
    search is the number of matches; the other two report 0 when the page is empty, also
    when it lies past the last match. *)
Theorem pg_search_correct :
  serves pool db → schema_ok (db w) → (0 ≤ Offset q)%Z →
  in_int64 (count (t_domains (db w))) → in_int64 (count (t_entities (db w))) →
  in_int64 (count (t_nameservers (db w))) →
  (∀ name, Terms q !! "name" = Some name → name ≠ "" →
     ∃ l, l ≡ₚ filter (λ d, pg_like (dr_ldh_name d) (ilikePattern name) = true) (t_domains (db w)) ∧
       StronglySorted (on_key dr_ldh_name) l ∧
       Provider_SearchDomains pool q w =
         (found (Build_Result (domain_item <$> page q l) (count l) ""), w)) ∧
  (entity_conditions (Terms q) ≠ [] →
     ∃ l, l ≡ₚ filter (λ e, forallb (λ cv, condition_holds (db w) e cv.1 cv.2)
                              (entity_conditions (Terms q)) = true) (t_entities (db w)) ∧
       StronglySorted (on_key er_handle) l ∧
       Provider_SearchEntities pool q w =
         (found (Build_Result (entity_item (db w) <$> page q l) (page_total q l) ""), w)) ∧
  (∀ name, Terms q !! "name" = Some name →
     ∃ l, l ≡ₚ filter (λ n, pg_like (nr_ldh_name n) (ilikePattern name) = true) (t_nameservers (db w)) ∧
       StronglySorted (on_key nr_ldh_name) l ∧
       Provider_SearchNameservers pool q w =
         (found (Build_Result (ns_of_row <$> page q l) (page_total q l) ""), w)).
Proof.
  intros Hp Hs Hoff Hd He Hn. split_and!.
  - intros name Hname Hne. exists (domains_like (db w) (ilikePattern name)). split_and!.
    + apply merge_sort_Permutation.
    + apply order_by_sorted.
    + apply search_domains_page; try done. by rewrite Hname.
  - intros Hne. exists (entities_matching (db w) (entity_conditions (Terms q))). split_and!.
    + apply merge_sort_Permutation.
    + apply order_by_sorted.
    + by apply search_entities_page.
  - intros name Hname. exists (nameservers_like (db w) (ilikePattern name)). split_and!.
    + apply merge_sort_Permutation.
    + apply order_by_sorted.
    + by apply search_nameservers_page.
Qed.
End search.

(** ** On a database *)
#[local] Existing Instance unicode_default.
#[local] Existing Instance pg_text.
#[local] Existing Instance netip_bits.
#[local] Existing Instance pgx_values.
#[local] Existing Instance pg_json.
#[local] Existing Instance pgx_values_laws.

Lemma ilikePattern_correct_witness :
  is_ascii "Exa*" = true ∧ pg_like "example.nl" (ilikePattern "Exa*") = true ∧
  pg_like "100x" (ilikePattern "100%*") = false ∧
  pg_like_ci "Example@rdap.nl" (ilikePattern "EXA*") = true.
Proof.
  split; [reflexivity|]. split_and!.
  - destruct (ilikePattern_correct "Exa*" eq_refl) as [_ Hm].
    destruct (Hm {| g_pre := false; g_core := "Exa"; g_suf := true |}) as (_ & Hn & _); [done..|].
    by rewrite Hn.
  - destruct (ilikePattern_correct "100%*" eq_refl) as [_ Hm].
    destruct (Hm {| g_pre := false; g_core := "100%"; g_suf := true |}) as (_ & _ & Hh & _); [done..|].
    by rewrite Hh.
  - destruct (ilikePattern_correct "EXA*" eq_refl) as [_ Hm].
    destruct (Hm {| g_pre := false; g_core := "EXA"; g_suf := true |}) as (_ & _ & _ & He); [done..|].
    by rewrite He.
Defined.

(** A capital in a stored name, or in the pattern of a handle: found in memory only. *)
Example case_ex :
  (pg_like "Jan" (ilikePattern "jan"), matches_fold "Jan" "jan",
   pg_like "ENT-1" (ilikePattern "ENT-*"), MatchPattern "ENT-1" "ENT-*") = (false, true, false, true).
Proof. vm_compute. reflexivity. Qed.

Definition demo_query (terms : gmap string string) (offset : Z) : Query :=
  {| Terms := terms; Offset := offset; Limit := 0 |}.
Lemma pg_search_correct_witness :
  let q := demo_query {[ "fn" := "J*"; "countryCode" := "nl" ]} 0 in
  (serves db_pool (λ db, db) ∧ schema_ok demo_db ∧ entity_conditions (Terms q) ≠ []) ∧
  ∃ l, l ≡ₚ filter (λ e, forallb (λ cv, condition_holds demo_db e cv.1 cv.2)
                           (entity_conditions (Terms q)) = true) (t_entities demo_db) ∧
    Provider_SearchEntities db_pool q demo_db =
      (found (Build_Result (entity_item demo_db <$> page q l) (page_total q l) ""), demo_db).
Proof.
  intros q.
  assert (Hne : entity_conditions (Terms q) ≠ []) by (by vm_compute).
  split; [split_and!; [exact db_pool_serves|exact demo_db_ok|exact Hne]|].
  destruct (pg_search_correct db_pool (λ db, db) demo_db q db_pool_serves demo_db_ok)
    as (_ & He & _); [done|by vm_compute..|].
  destruct (He Hne) as (l & Hl & _ & E). exists l. split; [exact Hl|exact E].
Defined.

(** The name is in mixed case in the table and in lower case in the pattern. *)
Example name_case_ex :
  ((λ r, (length (Items r), Total r)) <$>
     (Provider_SearchEntities db_pool (demo_query {[ "fn" := "Jan" ]} 0) demo_db).1.1,
   (λ r, (length (Items r), Total r)) <$>
     (Provider_SearchEntities db_pool (demo_query {[ "email" := "JAN@*" ]} 0) demo_db).1.1,
   (λ r, (length (Items r), Total r)) <$>
     (Provider_SearchEntities db_pool (demo_query {[ "email" := "JAN@*" ]} 1) demo_db).1.1) =
  (Some (0%nat, 0%Z), Some (1%nat, 1%Z), Some (0%nat, 0%Z)).
Proof. vm_compute. reflexivity. Qed.
