(* ===== verification/PgSecrecy.v ===== *)
(** * Two databases side by side.

    [db_rel lvl] relates databases with the same rows, except that what the records of
    entities, their emails and their phones hold may differ in what a caller of level [lvl]
    may not know; the Postgres provider and its index over them answer alike
    ([source_rel] and [index_rel] of Handlers). *)
From S2P Require Import Prelude GoStrings NetIP DataSource Auth Validate Search Redact Mapper Memory Http Handlers Pgx Postgres PgSchema PgPool PgFacts PgSearch.

(** ** Lists *)
Section lists.
Context {A B : Type} (P : A → B → Prop).

Lemma filter_rel (Q1 : A → Prop) (Q2 : B → Prop) `{∀ x, Decision (Q1 x)} `{∀ y, Decision (Q2 y)} l1 l2 :
  (∀ x y, P x y → Q1 x ↔ Q2 y) → Forall2 P l1 l2 → Forall2 P (filter Q1 l1) (filter Q2 l2).
Proof.
  intros HQ. induction 1 as [|x y l1 l2 Hxy _ IH]; [constructor|].
  rewrite !filter_cons. pose proof (HQ x y Hxy). repeat case_decide; try naive_solver; by constructor.
Qed.
Lemma bind_rel {C} (f : C → list A) (g : C → list B) l :
  (∀ x, Forall2 P (f x) (g x)) → Forall2 P (x ← l; f x) (x ← l; g x).
Proof. intros Hf. induction l as [|x l IH]; [constructor|]. cbn. by apply Forall2_app. Qed.

(** Sorting commutes with a relation that the comparisons do not see through. *)
Section sort.
Context (R1 : A → A → Prop) (R2 : B → B → Prop) `{!RelDecision R1} `{!RelDecision R2}.
Context (HR : ∀ x y x' y', P x y → P x' y' → R1 x x' ↔ R2 y y').

Lemma list_merge_rel l1 l2 : Forall2 P l1 l2 → ∀ k1 k2, Forall2 P k1 k2 →
  Forall2 P (list_merge R1 l1 k1) (list_merge R2 l2 k2).
Proof using HR.
  induction 1 as [|x y l1 l2 Hxy Hl IHl]; [by destruct 1; constructor|].
  induction 1 as [|x' y' k1 k2 Hxy' Hk IHk]; [by constructor|]. cbn.
  pose proof (HR x y x' y' Hxy Hxy') as E. unfold decide_rel.
  destruct (RelDecision0 x x'), (RelDecision1 y y'); [|by destruct E; exfalso; auto..|].
  - constructor; [done|]. apply IHl. by constructor.
  - by constructor.
Qed.
Lemma merge_sort_rel l1 l2 : Forall2 P l1 l2 → Forall2 P (merge_sort R1 l1) (merge_sort R2 l2).
Proof using HR.
  unfold merge_sort. assert (Hst : Forall2 (option_Forall2 (Forall2 P)) [] []) by constructor.
  revert Hst. generalize (@nil (option (list A))) (@nil (option (list B))). intros st1 st2 Hst Hl.
  revert st1 st2 Hst. induction Hl as [|x y l1 l2 Hxy _ IH]; intros st1 st2 Hst; cbn [merge_sort_aux].
  - induction Hst as [|o1 o2 st1 st2 Ho _ IH]; [constructor|]. destruct Ho; cbn; [|done].
    by apply list_merge_rel.
  - apply IH. assert (Hxs : Forall2 P [x] [y]) by (by repeat constructor). clear IH Hxy.
    revert Hxs. generalize [x] [y]. induction Hst as [|o1 o2 st1 st2 Ho Hst IH]; intros k1 k2 Hk; cbn;
      [by repeat constructor|].
    destruct Ho; constructor; try done; try by constructor. apply IH. by apply list_merge_rel.
Qed.
End sort.
End lists.

(** ** Databases *)
Section databases.
Context `{PgText} `{NetIPText} `{!Pgx} `{!PgJSON} `{!PgxLaws} `{GoUnicode}.
Context (lvl : AccessLevel).

(** Rows of the same entity: what the record they make up shows at [lvl] is the same, and
    so are the columns a search reads and whether the open JSON decodes. *)
Record entity_rel (db1 db2 : Database) (e1 e2 : entity_row) : Prop := {
  xr_handle : er_handle e1 = er_handle e2;
  xr_country : er_country_code e1 = er_country_code e2;
  xr_extras : (UnmarshalExtras (er_extras e1)).2 = (UnmarshalExtras (er_extras e2)).2;
  xr_known : indist lvl (entity_item db1 e1) (entity_item db2 e2) }.

Record db_rel (db1 db2 : Database) : Prop := {
  dbr_schema : schema_ok db1 ∧ schema_ok db2;
  dbr_size : in_int64 (count (t_entities db1));
  dbr_entities : Forall2 (entity_rel db1 db2) (t_entities db1) (t_entities db2);
  dbr_domains : t_domains db1 = t_domains db2;
  dbr_contacts : t_contacts db1 = t_contacts db2;
  dbr_nameservers : t_nameservers db1 = t_nameservers db2;
  dbr_domain_ns : t_domain_ns db1 = t_domain_ns db2;
  dbr_networks : t_networks db1 = t_networks db2 }.

Lemma db_rel_refl db : schema_ok db → in_int64 (count (t_entities db)) → db_rel db db.
Proof.
  intros Hs Hn. split; try done. clear Hn. induction (t_entities db); constructor; [by split|done].
Qed.

(** Neither the roles nor the open JSON count. *)
Lemma contact_indist db1 db2 roles x1 x2 e1 e2 : entity_rel db1 db2 e1 e2 →
  indist lvl (contact_of_row db1 roles x1 e1) (contact_of_row db2 roles x2 e2).
Proof.
  intros [_ _ _ Hk]. unfold entity_item, indist, knows in *. cbn in *. injection Hk. intros.
  unfold known_name, known_title, known_channel, known_address, isOrg in *. cbn in *. congruence.
Qed.

Context (db1 db2 : Database) (Hdb : db_rel db1 db2).

Lemma handles_eq : er_handle <$> t_entities db1 = er_handle <$> t_entities db2.
Proof using Hdb.
  destruct Hdb as [_ _ He _ _ _ _ _]. induction He as [|x y l1 l2 Hxy _ IH]; [done|].
  cbn. by rewrite (xr_handle _ _ _ _ Hxy), IH.
Qed.
Lemma entity_at h : h ∈ er_handle <$> t_entities db1 →
  ∃ e1 e2, e1 ∈ t_entities db1 ∧ e2 ∈ t_entities db2 ∧ er_handle e1 = h ∧ er_handle e2 = h ∧
    entity_rel db1 db2 e1 e2.
Proof using Hdb.
  intros (e1 & -> & [i Hi]%list_elem_of_lookup_1)%list_elem_of_fmap.
  destruct (Forall2_lookup_l _ _ _ _ _ (dbr_entities _ _ Hdb) Hi) as (e2 & Hi2 & Hr).
  exists e1, e2. rewrite <-(xr_handle _ _ _ _ Hr). split_and!; try done; by eapply list_elem_of_lookup_2.
Qed.

Lemma by_handle_rel l1 l2 : Forall2 (entity_rel db1 db2) l1 l2 →
  Forall2 (entity_rel db1 db2) (order_by er_handle l1) (order_by er_handle l2).
Proof using Type.
  apply merge_sort_rel. intros x y x' y' Hx Hy. unfold on_key.
  by rewrite (xr_handle _ _ _ _ Hx), (xr_handle _ _ _ _ Hy).
Qed.

Lemma contacts_rel h : Forall2 (entity_rel db1 db2) (contacts_of db1 h) (contacts_of db2 h).
Proof using Hdb.
  unfold contacts_of. rewrite (dbr_contacts _ _ Hdb). apply by_handle_rel, bind_rel. intros dc.
  apply filter_rel; [|apply Hdb]. intros x y Hxy. by rewrite (xr_handle _ _ _ _ Hxy).
Qed.

(** ** Lookups *)
Definition sum_rel {V} (P : V → V → Prop) (a b : V + error) : Prop :=
  match a, b with inl x, inl y => P x y | inr e, inr e' => e = e' | _, _ => False end.
Lemma returned_rel {V} (P : V → V → Prop) a b : sum_rel P a b → res_rel P (returned a) (returned b).
Proof. destruct a, b; cbn; try done; intros Hab; split; cbn; try congruence; by constructor. Qed.

Lemma domain_of_rel d : sum_rel (domain_indist lvl) (domain_of db1 d) (domain_of db2 d).
Proof using Hdb.
  unfold domain_of. destruct (secure_of d) as [sd|e]; [|done]. cbn. split; cbn; try done.
  - unfold nameservers_of. by rewrite (dbr_domain_ns _ _ Hdb), (dbr_nameservers _ _ Hdb).
  - apply Forall2_fmap. eapply Forall2_impl; [apply contacts_rel|]. intros x y Hxy. cbn.
    unfold roles_of. rewrite (dbr_contacts _ _ Hdb), (xr_handle _ _ _ _ Hxy). by apply contact_indist.
Qed.
Lemma entity_of_rel e1 e2 : entity_rel db1 db2 e1 e2 →
  sum_rel (indist lvl) (entity_of db1 e1) (entity_of db2 e2).
Proof using Type.
  intros Hr. unfold entity_of. pose proof (xr_extras _ _ _ _ Hr) as Hx.
  destruct (UnmarshalExtras (er_extras e1)) as [x1 o1], (UnmarshalExtras (er_extras e2)) as [x2 o2].
  cbn in Hx. subst o2. destruct o1; [done|]. by apply contact_indist.
Qed.

(** ** Searches *)
Lemma public_condition terms c v : public_terms terms → (c, v) ∈ entity_conditions terms →
  c = CHandle ∨ c = CCountry.
Proof using Type.
  intros [Hf He]. unfold entity_conditions. intros (c' & _ & Hc)%list_elem_of_omap.
  destruct c'; cbn [condition_field] in Hc; rewrite ?Hf, ?He in Hc; try done.
  all: clear Hf He; destruct (terms !! _); cbn in Hc; [injection Hc as <- _; auto|done].
Qed.
Lemma matching_rel terms : public_terms terms →
  Forall2 (entity_rel db1 db2) (entities_matching db1 (entity_conditions terms))
    (entities_matching db2 (entity_conditions terms)).
Proof using Hdb.
  intros Hp. apply by_handle_rel, filter_rel; [|apply Hdb]. intros x y Hxy.
  rewrite !forallb_true.
  assert (E : ∀ cv, cv ∈ entity_conditions terms →
    condition_holds db1 x cv.1 cv.2 = condition_holds db2 y cv.1 cv.2).
  { intros [c v] Hc. destruct (public_condition _ _ _ Hp Hc) as [->| ->]; cbn;
      by rewrite ?(xr_handle _ _ _ _ Hxy), ?(xr_country _ _ _ _ Hxy). }
  split; intros Hall cv Hcv; [rewrite <-E|rewrite E]; auto.
Qed.
End databases.

(** ** The provider over two databases *)
Section pools.
Context `{PgText} `{NetIPText} `{!Pgx} `{!PgJSON} `{!PgxLaws} `{GoUnicode}.
Context {W : Type} (pool : Pool W) (db : W → Database) (Hp : serves pool db).
(** Of several networks with the same longest mask the statement may pick any, but the rows
    of the table decide which. *)
Context (Hip : ∀ ip w1 w2, t_networks (db w1) = t_networks (db w2) →
  ∃ row, QueryRow pool sql_ip [ArgString (addr_String ip)] w1 = (row, w1) ∧
         QueryRow pool sql_ip [ArgString (addr_String ip)] w2 = (row, w2)).
Context (lvl : AccessLevel) (rest : W → W → Prop).

(** Pools over related databases; [rest] relates what else their states hold, a clock say. *)
Definition pools_rel (w1 w2 : W) : Prop := db_rel lvl (db w1) (db w2) ∧ rest w1 w2.

(** Calls that read public tables only: the same answer, and the pools as they were. *)
Lemma same_call {V} (P : V → V → Prop) (r : res V) w1 w2 a1 a2 :
  (∀ v, P v v) → a1 = (r, w1) → a2 = (r, w2) → pools_rel w1 w2 → call_rel pools_rel P a1 a2.
Proof using Type. intros HP -> -> Hw. split; [by apply res_rel_refl|done]. Qed.

Lemma same_rows w1 w2 : pools_rel w1 w2 →
  (∀ p, domains_like (db w1) p = domains_like (db w2) p) ∧
  (∀ p, nameservers_like (db w1) p = nameservers_like (db w2) p) ∧
  (∀ n, nameservers_named (db w1) n = nameservers_named (db w2) n).
Proof using Type.
  intros [Hw _]. unfold domains_like, nameservers_like, nameservers_named.
  by rewrite (dbr_domains _ _ _ Hw), (dbr_nameservers _ _ _ Hw).
Qed.

Lemma pg_domain_rel k w1 w2 : pools_rel w1 w2 →
  call_rel pools_rel (domain_indist lvl) (Provider_GetDomain pool k w1) (Provider_GetDomain pool k w2).
Proof using Hp.
  intros Hr. pose proof (proj1 Hr) as Hw. destruct (decide (pg_lower k ∈ dr_ldh_name <$> t_domains (db w1))) as [Hk|Hk].
  - apply list_elem_of_fmap in Hk as (d & En & Hd).
    rewrite (get_domain_row pool db w1 d), (get_domain_row pool db w2 d);
      [..|by rewrite <-(dbr_domains _ _ _ Hw)|done|done| |done|done]; try done; try apply Hw.
    split; [|done]. by apply returned_rel, domain_of_rel.
  - rewrite (get_domain_none pool db w1), (get_domain_none pool db w2); [|done| |done|done].
    + split; [|done]. by repeat constructor.
    + by rewrite <-(dbr_domains _ _ _ Hw).
Qed.
Lemma pg_entity_rel k w1 w2 : pools_rel w1 w2 →
  call_rel pools_rel (indist lvl) (Provider_GetEntity pool k w1) (Provider_GetEntity pool k w2).
Proof using Hp.
  intros Hrel. pose proof (proj1 Hrel) as Hw. destruct (decide (k ∈ er_handle <$> t_entities (db w1))) as [Hk|Hk].
  - destruct (entity_at _ _ _ Hw k Hk) as (e1 & e2 & He1 & He2 & E1 & E2 & Hr).
    rewrite <-E1 at 1. rewrite <-E2. rewrite (get_entity_row pool db w1 e1), (get_entity_row pool db w2 e2);
      try done; try apply Hw.
    split; [|done]. by apply returned_rel, entity_of_rel.
  - rewrite (get_entity_none pool db w1), (get_entity_none pool db w2); [|done| |done|done].
    + split; [|done]. by repeat constructor.
    + by rewrite <-(handles_eq _ _ _ Hw).
Qed.

Lemma postgres_source_rel : source_rel pools_rel lvl (postgres_source pool) (postgres_source pool).
Proof using Hp Hip.
  split; intros k w1 w2 Hw; cbn [postgres_source GetDomain GetEntity GetNameserver GetIPNetwork].
  - by apply pg_domain_rel.
  - by apply pg_entity_rel.
  - unfold Provider_GetNameserver. rewrite !(serves_nameserver _ _ Hp).
    destruct (same_rows w1 w2 Hw) as (_ & _ & ->). destruct (row_Scan _ _); by eapply same_call.
  - unfold Provider_GetIPNetwork. destruct (Hip k w1 w2 (dbr_networks _ _ _ (proj1 Hw))) as (row & -> & ->).
    destruct (row_Scan _ _) as [[n p]|]; [|by eapply same_call].
    destruct (ParsePrefix p); by eapply same_call.
Qed.

Lemma page_Forall2 {A B} (P : A → B → Prop) q l1 l2 : Forall2 P l1 l2 → Forall2 P (page q l1) (page q l2).
Proof using Type. intros Hl. by apply Forall2_take, Forall2_drop. Qed.

Lemma pg_entities_rel q w1 w2 : pools_rel w1 w2 →
  (∃ r1 r2, Provider_SearchEntities pool q w1 = (r1, w1) ∧ Provider_SearchEntities pool q w2 = (r2, w2) ∧
     (public_terms (Terms q) → res_rel (page_rel (indist lvl)) r1 r2)).
Proof using Hp.
  intros [Hw _]. destruct (decide (entity_conditions (Terms q) = [])) as [Hne|Hne].
  { exists (failed ErrNotImplemented), (failed ErrNotImplemented).
    unfold Provider_SearchEntities. rewrite !entity_where_conditions, <-entity_conditions_present, Hne.
    split_and!; [done..|]. intros _. by repeat constructor. }
  pose proof (dbr_schema _ _ _ Hw) as [Hs1 Hs2]. pose proof (dbr_size _ _ _ Hw) as Hsz1.
  assert (Hsz2 : in_int64 (count (t_entities (db w2)))).
  { unfold count in *. by rewrite <-(Forall2_length _ _ _ (dbr_entities _ _ _ Hw)). }
  destruct (decide (Offset q < 0)%Z) as [Ho%Z.ltb_lt|Ho].
  - do 2 eexists. split_and!; [by apply search_entities_rows|by apply search_entities_rows|].
    intros _. rewrite !window_page, Ho. by repeat constructor.
  - do 2 eexists. split_and!; [apply search_entities_page; try done; lia..|].
    intros Ht. pose proof (matching_rel lvl _ _ Hw _ Ht) as Hm. apply (page_Forall2 _ q) in Hm as Hpg.
    split; [done|]. constructor. unfold page_rel, page_total. cbn [Items Total NextCursor].
    split_and!; [|unfold count; rewrite (Forall2_length _ _ _ Hm)|done].
    + apply Forall2_fmap. eapply Forall2_impl; [exact Hpg|]. intros x y. apply contact_indist.
    + by destruct Hpg.
Qed.

Lemma postgres_index_rel : index_rel pools_rel lvl (postgres_index pool) (postgres_index pool).
Proof using Hp.
  split; intros q w1 w2 Hw; cbn [postgres_index SearchDomains SearchEntities SearchNameservers];
    destruct (same_rows w1 w2 Hw) as (Hd & Hn & _).
  - assert (Hrefl : ∀ v : Result DataSource.Domain, page_rel (domain_indist lvl) v v)
      by (intros; apply page_rel_refl; intros; apply domain_indist_refl).
    unfold Provider_SearchDomains. destruct (_ =? _)%string; [by eapply same_call|].
    rewrite !(serves_count _ _ Hp), Hd. destruct (row_Scan _ _); [|by eapply same_call].
    rewrite !(serves_search_domains _ _ Hp), Hd.
    destruct (all_rows _ _) as [[rows e]|]; [|by eapply same_call].
    destruct (each_row _ _); by eapply same_call.
  - destruct (pg_entities_rel q w1 w2 Hw) as (r1 & r2 & -> & -> & Hr). by split.
  - assert (Hrefl : ∀ v : Result DataSource.Nameserver, page_rel eq v v) by (intros; by apply page_rel_refl).
    unfold Provider_SearchNameservers. destruct (_ !! _); [|by eapply same_call].
    rewrite !(serves_search_nameservers _ _ Hp), Hn. by eapply same_call.
Qed.
End pools.
