(* ===== verification/PgSeed.v ===== *)
(** * cmd/gordap-seed: the synthetic data set in Postgres.

    The command copies rows in batches into seven tables; a pool [loads] a database when
    TRUNCATE and COPY do to it what Postgres documents.  The theorems say that the seeded
    database answers as the seeded in-memory store does, whatever the size of a batch. *)
From S2P Require Import Prelude GoStrings Flag NetIP DataSource Synth Memory Pgx Postgres PgSchema PgPool PgFacts.

(** ** The command *)

(** An element of a row of type []any. *)
Inductive cell := CStr (s : string) | CStrs (l : list string) | CTime (t : Time) | CBytes (s : string).

Record Loader (W : Type) := {
  Exec : string → W → option error * W;
  CopyFrom : string → list string → list (list cell) → W → option error * W }.
Arguments Exec {W} _ _ _.
Arguments CopyFrom {W} _ _ _ _ _.

Section seed.
Context {W : Type} (pool : Loader W).

(** [if err := a(); err != nil { return err }; b()] *)
Definition and_then (a b : W → option error * W) (w : W) : option error * W :=
  match a w with (None, w) => b w | r => r end.

Definition flush (table : string) (cols : list string) (rows : list (list cell)) (w : W)
    : option error * W :=
  if is_empty rows then (None, w) else CopyFrom pool table cols rows w.

(** The loop of every seeder: [rows] are those collected since the last flush. *)
Fixpoint seed_loop (table : string) (cols : list string) (row : Z → list cell) (batch : Z)
    (l : list Z) (rows : list (list cell)) (w : W) : option error * W :=
  match l with
  | [] => flush table cols rows w
  | i :: l =>
      let rows := rows ++ [row i] in
      if (batch <=? Z.of_nat (length rows))%Z
      then and_then (flush table cols rows) (seed_loop table cols row batch l []) w
      else seed_loop table cols row batch l rows w
  end.
(** [make([][]any, 0, batch)] panics on a negative capacity.  Memory is taken to be
    unbounded: a capacity past what the allocator can give ends the program too. *)
Definition seed_table (table : string) (cols : list string) (row : Z → list cell) (n batch : Z)
    (w : W) : option (option error * W) :=
  if (batch <? 0)%Z then None else Some (seed_loop table cols row batch (indices n) [] w).

Definition truncate_order : list string :=
  ["domain_contacts"; "domain_nameservers"; "entity_emails"; "entity_phones"; "domains";
   "nameservers"; "entities"].
Definition truncateTables : W → option error * W :=
  foldr (λ t k, and_then (Exec pool ("TRUNCATE TABLE " +:+ t +:+ " CASCADE")) k) (λ w, (None, w))
    truncate_order.

Definition entity_cols : list string :=
  ["handle"; "kind"; "full_name"; "organization"; "title"; "country_code"; "locality"; "region";
   "postal_code"; "street"; "created_at"; "updated_at"; "extras"].
Definition entity_cells (now : Time) (i : Z) : list cell :=
  [CStr (EntityHandle i); CStr (Kinds i); CStr (EntityFullName i); CStr (EntityOrganization i);
   CStr ""; CStr (EntityCountry i); CStr (EntityLocality i); CStr ""; CStr (EntityPostalCode i);
   CStrs [EntityStreet i]; CTime now; CTime now; CBytes "{}"].
Definition seedEntities (n batch : Z) (now : Time) : W → option (option error * W) :=
  seed_table "entities" entity_cols (entity_cells now) n batch.

Definition email_cols : list string := ["entity_handle"; "email"].
Definition email_cells (i : Z) : list cell := [CStr (EntityHandle i); CStr (EntityEmail i)].
Definition seedEmails (n batch : Z) : W → option (option error * W) :=
  seed_table "entity_emails" email_cols email_cells n batch.

Definition phone_cols : list string := ["entity_handle"; "number"; "kinds"].
Definition phone_cells (i : Z) : list cell :=
  [CStr (EntityHandle i); CStr (EntityPhone i); CStrs ["voice"]].
Definition seedPhones (n batch : Z) : W → option (option error * W) :=
  seed_table "entity_phones" phone_cols phone_cells n batch.

Definition ns_cols : list string := ["handle"; "ldh_name"; "unicode_name"; "ipv4"; "ipv6"].
Definition ns_cells (i : Z) : list cell :=
  [CStr (NameserverHandle i); CStr (NameserverName i); CStr ""; CStrs []; CStrs []].
Definition seedNameservers (n batch : Z) : W → option (option error * W) :=
  seed_table "nameservers" ns_cols ns_cells n batch.

Definition domain_cols : list string :=
  ["handle"; "ldh_name"; "unicode_name"; "status"; "registered_at"; "expires_at";
   "last_changed"; "last_rdap_update"].
Definition domain_cells (now expires : Time) (handle ldh uni : string) : list cell :=
  [CStr handle; CStr ldh; CStr uni; CStrs ["active"]; CTime now; CTime expires; CTime now; CTime now].
Definition seedDomains (n batch : Z) (now expires : Time) (w : W) : option (option error * W) :=
  r ← seed_table "domains" domain_cols
        (λ i, domain_cells now expires (DomainHandle i) (DomainName i) (DomainName i)) n batch w;
  match r with
  | (None, w) =>
      Some (flush "domains" domain_cols
        ((λ f, domain_cells now expires (fix_Handle f) (fix_LDH f) (fix_Unicode f)) <$> IDNFixtures) w)
  | r => Some r
  end.

Definition domain_ns_cols : list string := ["domain_handle"; "nameserver_handle"].
Definition domain_ns_cells (i : Z) : list cell :=
  [CStr (DomainHandle i); CStr (NameserverHandle (NameserverForDomain i))].
Definition seedDomainNameservers (n batch : Z) : W → option (option error * W) :=
  seed_table "domain_nameservers" domain_ns_cols domain_ns_cells n batch.

Definition contact_cols : list string := ["domain_handle"; "entity_handle"; "role"].
Definition contact_cells (i : Z) : list cell :=
  [CStr (DomainHandle i); CStr (EntityHandle (EntityForDomain i)); CStr "registrant"].
Definition seedDomainContacts (n batch : Z) : W → option (option error * W) :=
  seed_table "domain_contacts" contact_cols contact_cells n batch.

(** [main] once it is connected: the status it exits with.  [None] is a panic. *)
Definition stage (f : W → option (option error * W)) (k : W → option (Z * W)) (w : W)
    : option (Z * W) :=
  r ← f w;
  match r with (None, w) => k w | (Some _, w) => Some (1%Z, w) end.
Definition main (dsn : string) (connect : option error) (truncate : bool) (n batch : Z) (w : W)
    : option (Z * W) :=
  if (dsn =? "")%string then Some (2%Z, w) else
  match connect with
  | Some _ => Some (1%Z, w)
  | None =>
      let now := time_2026 in
      stage (λ w, Some (if truncate then truncateTables w else (None, w)))
        (stage (seedEntities n batch now)
          (stage (seedNameservers (nsCount n) batch)
            (stage (seedEmails n batch)
              (stage (seedPhones n batch)
                (stage (seedDomains n batch now time_2027)
                  (stage (seedDomainNameservers n batch)
                    (stage (seedDomainContacts n batch) (λ w, Some (0%Z, w))))))))) w
  end.

(** The command line: [connect] is what pgxpool makes of a DSN. *)
Definition seed_flags (Getenv : string → string) : flags := [
  ("database-url", FString (Getenv "DATABASE_URL")); ("n", FInt 10000); ("truncate", FBool false);
  ("batch", FInt 5000)].
Definition command (Getenv : string → string) (connect : string → option error) (args : list string) (w : W)
    : option (Z * W) :=
  match Parse (seed_flags Getenv) ∅ args with
  | inr code => Some (code, w)
  | inl (actual, _) =>
      let fs := seed_flags Getenv in let dsn := get_string fs actual "database-url" in
      main dsn (connect dsn) (get_bool fs actual "truncate") (get_int fs actual "n") (get_int fs actual "batch") w
  end.
End seed.

(** ** What Postgres does with it *)

(** The rows of a COPY as rows of the table; columns that are not named have their
    defaults. *)
Definition entity_of_cells (cs : list cell) : option entity_row :=
  match cs with
  | [CStr h; CStr k; CStr fn; CStr o; CStr t; CStr cc; CStr l; CStr r; CStr p; CStrs s;
     CTime c; CTime u; CBytes x] =>
      Some {| er_handle := h; er_kind := k; er_full_name := fn; er_organization := o;
        er_title := t; er_country_code := Some cc; er_locality := l; er_region := r;
        er_postal_code := p; er_street := s; er_created_at := c; er_updated_at := u; er_extras := x |}
  | _ => None
  end.
Definition email_of_cells (cs : list cell) : option email_row :=
  match cs with [CStr h; CStr m] => Some {| em_entity := h; em_email := m |} | _ => None end.
Definition phone_of_cells (cs : list cell) : option phone_row :=
  match cs with
  | [CStr h; CStr m; CStrs k] => Some {| pr_entity := h; pr_number := m; pr_kinds := k |}
  | _ => None
  end.
Definition ns_of_cells `{NetIPText} (cs : list cell) : option ns_row :=
  match cs with
  | [CStr h; CStr l; CStr u; CStrs v4; CStrs v6] =>
      v4 ← mapM ParseAddr v4; v6 ← mapM ParseAddr v6;
      Some {| nr_handle := h; nr_ldh_name := l; nr_unicode_name := u;
              nr_ipv4 := Some v4; nr_ipv6 := Some v6 |}
  | _ => None
  end.
Definition domain_of_cells (cs : list cell) : option domain_row :=
  match cs with
  | [CStr h; CStr l; CStr u; CStrs s; CTime r; CTime e; CTime c; CTime p] =>
      Some {| dr_handle := h; dr_ldh_name := l; dr_unicode_name := u; dr_status := s;
        dr_registered_at := r; dr_expires_at := Some e; dr_last_changed := c;
        dr_last_rdap_update := p; dr_secure_dns := None; dr_registrar_handle := None |}
  | _ => None
  end.
Definition domain_ns_of_cells (cs : list cell) : option domain_ns_row :=
  match cs with [CStr d; CStr n] => Some {| dn_domain := d; dn_nameserver := n |} | _ => None end.
Definition contact_of_cells (cs : list cell) : option contact_row :=
  match cs with
  | [CStr d; CStr e; CStr r] => Some {| dc_domain := d; dc_entity := e; dc_role := r |}
  | _ => None
  end.

Definition with_rows (es : list entity_row) (ms : list email_row) (ps : list phone_row)
    (ds : list domain_row) (cs : list contact_row) (ns : list ns_row) (xs : list domain_ns_row)
    (db : Database) : Database :=
  {| t_entities := t_entities db ++ es; t_emails := t_emails db ++ ms; t_phones := t_phones db ++ ps;
     t_domains := t_domains db ++ ds; t_contacts := t_contacts db ++ cs;
     t_nameservers := t_nameservers db ++ ns; t_domain_ns := t_domain_ns db ++ xs;
     t_networks := t_networks db |}.
Definition copied `{NetIPText} (table : string) (cols : list string) (rows : list (list cell))
    (db : Database) : option Database :=
  if decide ((table, cols) = ("entities", entity_cols)) then
    es ← mapM entity_of_cells rows; Some (with_rows es [] [] [] [] [] [] db)
  else if decide ((table, cols) = ("entity_emails", email_cols)) then
    ms ← mapM email_of_cells rows; Some (with_rows [] ms [] [] [] [] [] db)
  else if decide ((table, cols) = ("entity_phones", phone_cols)) then
    ps ← mapM phone_of_cells rows; Some (with_rows [] [] ps [] [] [] [] db)
  else if decide ((table, cols) = ("domains", domain_cols)) then
    ds ← mapM domain_of_cells rows; Some (with_rows [] [] [] ds [] [] [] db)
  else if decide ((table, cols) = ("domain_contacts", contact_cols)) then
    cs ← mapM contact_of_cells rows; Some (with_rows [] [] [] [] cs [] [] db)
  else if decide ((table, cols) = ("nameservers", ns_cols)) then
    ns ← mapM ns_of_cells rows; Some (with_rows [] [] [] [] [] ns [] db)
  else if decide ((table, cols) = ("domain_nameservers", domain_ns_cols)) then
    xs ← mapM domain_ns_of_cells rows; Some (with_rows [] [] [] [] [] [] xs db)
  else None.

(** TRUNCATE ... CASCADE: the table and those that refer to it. *)
Definition truncated (table : string) (db : Database) : Database :=
  let clear {A} (ts : list string) (l : list A) := if decide (table ∈ ts) then [] else l in
  {| t_entities := clear ["entities"] (t_entities db);
     t_emails := clear ["entity_emails"; "entities"] (t_emails db);
     t_phones := clear ["entity_phones"; "entities"] (t_phones db);
     t_domains := clear ["domains"; "entities"] (t_domains db);
     t_contacts := clear ["domain_contacts"; "domains"; "entities"] (t_contacts db);
     t_nameservers := clear ["nameservers"] (t_nameservers db);
     t_domain_ns := clear ["domain_nameservers"; "domains"; "nameservers"; "entities"] (t_domain_ns db);
     t_networks := t_networks db |}.

(** A COPY is all or nothing, and fails when a row does not fit or a constraint is
    violated. *)
Record loads `{PgText} `{NetIPText} {W} (pool : Loader W) (db : W → Database) : Prop := {
  loads_copy table cols rows w db' :
    copied table cols rows (db w) = Some db' → schema_ok db' →
    (CopyFrom pool table cols rows w).1 = None ∧ db (CopyFrom pool table cols rows w).2 = db';
  loads_refused table cols rows w :
    (∀ db', copied table cols rows (db w) = Some db' → ¬ schema_ok db') →
    (CopyFrom pool table cols rows w).1 ≠ None ∧ db (CopyFrom pool table cols rows w).2 = db w;
  loads_truncate table w : table ∈ truncate_order →
    let sql := "TRUNCATE TABLE " +:+ table +:+ " CASCADE" in
    (Exec pool sql w).1 = None ∧ db (Exec pool sql w).2 = truncated table (db w) }.

(** * Theorems *)

(** ** Batches *)
Section batches.
Context {W : Type} (pool : Loader W) (table : string) (cols : list string) (row : Z → list cell).

Fixpoint copy_all (chunks : list (list (list cell))) : W → option error * W :=
  match chunks with
  | [] => λ w, (None, w)
  | c :: cs => and_then (CopyFrom pool table cols c) (copy_all cs)
  end.

Fixpoint chunks_of (batch : Z) (l : list Z) (rows : list (list cell)) : list (list (list cell)) :=
  match l with
  | [] => if is_empty rows then [] else [rows]
  | i :: l =>
      let rows := rows ++ [row i] in
      if (batch <=? Z.of_nat (length rows))%Z then rows :: chunks_of batch l []
      else chunks_of batch l rows
  end.

Lemma copy_all_one c w : copy_all [c] w = CopyFrom pool table cols c w.
Proof. cbn. unfold and_then. by destruct (CopyFrom _ _ _ _ _) as [[] ?]. Qed.

Lemma seed_loop_chunks batch l rows w :
  seed_loop pool table cols row batch l rows w = copy_all (chunks_of batch l rows) w.
Proof.
  revert rows w. induction l as [|i l IH]; intros rows w; cbn [seed_loop chunks_of].
  - unfold flush. destruct rows as [|r rows]; [done|]. cbn [is_empty]. by rewrite copy_all_one.
  - cbv zeta. destruct (_ <=? _)%Z; [|apply IH]. cbn [copy_all]. unfold flush, and_then.
    assert (is_empty (rows ++ [row i]) = false) as -> by (by destruct rows).
    destruct (CopyFrom _ _ _ _ _) as [[] ?]; [done|]. apply IH.
Qed.

Lemma chunks_of_concat batch l rows : concat (chunks_of batch l rows) = rows ++ (row <$> l).
Proof.
  revert rows. induction l as [|i l IH]; intros rows; cbn [chunks_of].
  - destruct rows; cbn; by rewrite ?app_nil_r.
  - cbv zeta. destruct (_ <=? _)%Z; cbn [concat]; rewrite IH, ?fmap_cons; cbn; by rewrite <-app_assoc.
Qed.

Lemma chunks_of_sizes batch l rows :
  (Z.of_nat (length rows) < Z.max 1 batch)%Z →
  Forall (λ c, 1 ≤ Z.of_nat (length c) ≤ Z.max 1 batch)%Z (chunks_of batch l rows) ∧
  Forall (λ c, Z.of_nat (length c) = Z.max 1 batch) (removelast (chunks_of batch l rows)).
Proof.
  revert rows. induction l as [|i l IH]; intros rows Hr; cbn [chunks_of].
  - destruct rows as [|r rows]; [by repeat constructor|]. cbn [is_empty removelast].
    repeat constructor; cbn [length] in *; lia.
  - cbv zeta. destruct (Z.leb_spec batch (Z.of_nat (length (rows ++ [row i])))) as [Hb|Hb];
      rewrite length_app in *; cbn [length] in *.
    + destruct (IH [] ltac:(cbn; lia)) as [IH1 IH2]. split.
      * constructor; [rewrite length_app; cbn; lia|done].
      * cbn [removelast]. destruct (chunks_of batch l []) as [|c cs]; [constructor|].
        constructor; [rewrite length_app; cbn; lia|done].
    + apply IH. rewrite length_app. cbn. lia.
Qed.

(** A seeder copies its rows once each and in order, in batches that are never empty and
    all full but the last, stops at the first batch that fails and reports its error; a
    batch size of 0 is one row at a time, and a negative one panics before anything is
    copied. *)
Theorem seed_batches n batch :
  (batch < 0 → ∀ w, seed_table pool table cols row n batch w = None)%Z ∧
  (0 ≤ batch → ∃ chunks,
     concat chunks = row <$> indices n ∧
     Forall (λ c, 1 ≤ Z.of_nat (length c) ≤ Z.max 1 batch) chunks ∧
     Forall (λ c, Z.of_nat (length c) = Z.max 1 batch) (removelast chunks) ∧
     ∀ w, seed_table pool table cols row n batch w = Some (copy_all chunks w))%Z.
Proof.
  unfold seed_table. split.
  - by intros ->%Z.ltb_lt.
  - intros Hb%Z.ltb_ge. rewrite Hb. exists (chunks_of batch (indices n) []).
    destruct (chunks_of_sizes batch (indices n) []) as [H1 H2]; [cbn; lia|].
    split_and!; [apply chunks_of_concat|done..|]. intros w. by rewrite seed_loop_chunks.
Qed.
End batches.

(** ** The seeded database *)
Section seeded.
Context `{PgText} `{NetIPText}.

Definition entity_row_at (i : Z) : entity_row :=
  {| er_handle := EntityHandle i; er_kind := Kinds i; er_full_name := EntityFullName i;
     er_organization := EntityOrganization i; er_title := ""; er_country_code := Some (EntityCountry i);
     er_locality := EntityLocality i; er_region := ""; er_postal_code := EntityPostalCode i;
     er_street := [EntityStreet i]; er_created_at := time_2026; er_updated_at := time_2026;
     er_extras := "{}" |}.
Definition email_row_at (i : Z) : email_row := {| em_entity := EntityHandle i; em_email := EntityEmail i |}.
Definition phone_row_at (i : Z) : phone_row :=
  {| pr_entity := EntityHandle i; pr_number := EntityPhone i; pr_kinds := ["voice"] |}.
Definition ns_row_at (i : Z) : ns_row :=
  {| nr_handle := NameserverHandle i; nr_ldh_name := NameserverName i; nr_unicode_name := "";
     nr_ipv4 := Some []; nr_ipv6 := Some [] |}.
Definition seeded_domain (handle ldh uni : string) : domain_row :=
  {| dr_handle := handle; dr_ldh_name := ldh; dr_unicode_name := uni; dr_status := ["active"];
     dr_registered_at := time_2026; dr_expires_at := Some time_2027; dr_last_changed := time_2026;
     dr_last_rdap_update := time_2026; dr_secure_dns := None; dr_registrar_handle := None |}.
Definition domain_row_at (i : Z) : domain_row := seeded_domain (DomainHandle i) (DomainName i) (DomainName i).
Definition idn_row (f : IDNFixture) : domain_row := seeded_domain (fix_Handle f) (fix_LDH f) (fix_Unicode f).
Definition domain_ns_row_at (i : Z) : domain_ns_row :=
  {| dn_domain := DomainHandle i; dn_nameserver := NameserverHandle (NameserverForDomain i) |}.
Definition contact_row_at (i : Z) : contact_row :=
  {| dc_domain := DomainHandle i; dc_entity := EntityHandle (EntityForDomain i); dc_role := "registrant" |}.

(** How far the command has come, by the indices each table has. *)
Record progress := {
  g_entities : list Z; g_emails : list Z; g_phones : list Z; g_domains : list Z;
  g_fixtures : list IDNFixture; g_contacts : list Z; g_ns : list Z; g_domain_ns : list Z }.
Definition networks_only (nets : list network_row) : Database :=
  {| t_entities := []; t_emails := []; t_phones := []; t_domains := []; t_contacts := [];
     t_nameservers := []; t_domain_ns := []; t_networks := nets |}.
Definition db_at (nets : list network_row) (g : progress) : Database :=
  {| t_entities := entity_row_at <$> g_entities g; t_emails := email_row_at <$> g_emails g;
     t_phones := phone_row_at <$> g_phones g;
     t_domains := (domain_row_at <$> g_domains g) ++ (idn_row <$> g_fixtures g);
     t_contacts := contact_row_at <$> g_contacts g; t_nameservers := ns_row_at <$> g_ns g;
     t_domain_ns := domain_ns_row_at <$> g_domain_ns g; t_networks := nets |}.
Record progress_ok (g : progress) : Prop := {
  go_entities : NoDup (g_entities g); go_emails : NoDup (g_emails g); go_phones : NoDup (g_phones g);
  go_domains : NoDup (g_domains g); go_contacts : NoDup (g_contacts g); go_ns : NoDup (g_ns g);
  go_domain_ns : NoDup (g_domain_ns g);
  go_fixtures : g_fixtures g = [] ∨ g_fixtures g = IDNFixtures;
  go_pos : Forall (λ i, 0 ≤ i)%Z (g_entities g);
  go_emails_in : g_emails g ⊆ g_entities g; go_phones_in : g_phones g ⊆ g_entities g;
  go_contacts_in : g_contacts g ⊆ g_entities g; go_contacts_dom : g_contacts g ⊆ g_domains g;
  go_domain_ns_dom : g_domain_ns g ⊆ g_domains g;
  go_domain_ns_in : NameserverForDomain <$> g_domain_ns g ⊆ g_ns g }.

Lemma DomainHandle_inj i j : DomainHandle i = DomainHandle j → i = j.
Proof. unfold DomainHandle. by intros E%str_app_inv_head%Itoa_inj. Qed.
Lemma NameserverHandle_inj i j : NameserverHandle i = NameserverHandle j → i = j.
Proof. unfold NameserverHandle. by intros E%str_app_inv_head%Itoa_inj. Qed.

Lemma NoDup_rows {A B K} (f : A → B) (k : B → K) (l : list A) :
  (∀ i j, k (f i) = k (f j) → i = j) → NoDup l → NoDup (k <$> (f <$> l)).
Proof.
  intros Hk Hl. rewrite <-list_fmap_compose. apply NoDup_fmap_2_strong; [|done].
  intros i j _ _. apply Hk.
Qed.
Lemma NoDup_rows_id {A B} (f : A → B) (l : list A) :
  (∀ i j, f i = f j → i = j) → NoDup l → NoDup (f <$> l).
Proof. intros Hk Hl. apply NoDup_fmap_2_strong; [|done]. intros i j _ _. apply Hk. Qed.
Lemma Forall_rows {A B} (f : A → B) (P : B → Prop) (l : list A) :
  (∀ i, i ∈ l → P (f i)) → Forall P (f <$> l).
Proof. intros Hf. rewrite Forall_fmap, Forall_forall. apply Hf. Qed.
Lemma in_rows {A B K} (f : A → B) (k : B → K) (l : list A) i : i ∈ l → k (f i) ∈ k <$> (f <$> l).
Proof. intros Hi. by apply list_elem_of_fmap_2, list_elem_of_fmap_2. Qed.

Lemma DomainName_fixture i f : f ∈ IDNFixtures →
  DomainName i ≠ fix_LDH f ∧ DomainHandle i ≠ fix_Handle f.
Proof.
  unfold IDNFixtures. intros Hf. set_unfold in Hf.
  repeat destruct Hf as [->|Hf]; try done; by split; intros E; injection E.
Qed.
Lemma Kinds_ok i : Kinds i ∈ ["individual"; "org"; "organization"].
Proof. unfold Kinds. destruct (_ <? _)%Z; set_solver. Qed.
Lemma EntityCountry_char2 i : (0 ≤ i)%Z → String.length (EntityCountry i) = 2%nat.
Proof.
  intros Hi. unfold EntityCountry, at_index.
  assert (Hr : (0 ≤ Z.rem i 6 < 6)%Z) by (by apply Z.rem_bound_pos).
  assert (Hc : (Z.rem i 6 = 0 ∨ Z.rem i 6 = 1 ∨ Z.rem i 6 = 2 ∨ Z.rem i 6 = 3 ∨ Z.rem i 6 = 4 ∨
                Z.rem i 6 = 5)%Z) by lia.
  by repeat destruct Hc as [->|Hc]; [..|rewrite Hc].
Qed.

Lemma NoDup_domains {K} (k : domain_row → K) g : progress_ok g →
  (∀ i j, k (domain_row_at i) = k (domain_row_at j) → i = j) →
  (∀ i f, f ∈ IDNFixtures → k (domain_row_at i) ≠ k (idn_row f)) →
  NoDup (k <$> (idn_row <$> IDNFixtures)) →
  NoDup (k <$> ((domain_row_at <$> g_domains g) ++ (idn_row <$> g_fixtures g))).
Proof.
  intros Hg Hinj Hdis Hfix. rewrite fmap_app. apply NoDup_app. split_and!.
  - apply NoDup_rows; [done|apply Hg].
  - intros x Hx Hf. apply list_elem_of_fmap in Hx as (? & -> & (i & -> & _)%list_elem_of_fmap).
    apply list_elem_of_fmap in Hf as (? & E & (f & -> & Hf)%list_elem_of_fmap).
    apply (Hdis i f); [|exact E]. destruct (go_fixtures _ Hg) as [->| ->] in Hf; [set_solver|done].
  - destruct (go_fixtures _ Hg) as [->| ->]; [constructor|done].
Qed.

Lemma db_at_keys nets g : NoDup (wr_handle <$> nets) → progress_ok g → keys_ok (db_at nets g).
Proof.
  intros Hn Hg. unfold keys_ok; cbn [db_at t_entities t_emails t_phones t_domains t_contacts
    t_nameservers t_domain_ns t_networks]. split_and!.
  - apply NoDup_rows; [apply EntityHandle_inj|apply Hg].
  - apply NoDup_rows; [|apply Hg]. intros i j E%(f_equal fst). by apply EntityHandle_inj.
  - apply NoDup_rows; [|apply Hg]. intros i j E%(f_equal fst). by apply EntityHandle_inj.
  - apply NoDup_domains; [done|apply DomainHandle_inj|by intros; apply DomainName_fixture|].
    by apply (bool_decide_unpack _).
  - apply NoDup_domains; [done|apply DomainName_inj|by intros; apply DomainName_fixture|].
    by apply (bool_decide_unpack _).
  - apply NoDup_rows_id; [|apply Hg]. intros i j E%(f_equal dc_domain). by apply DomainHandle_inj.
  - apply NoDup_rows; [apply NameserverHandle_inj|apply Hg].
  - apply NoDup_rows; [|apply Hg]. intros i j. cbn [ns_row_at nr_ldh_name].
    rewrite !(pg_lower_stable _ (NameserverName_lower _)). apply NameserverName_inj.
  - apply NoDup_rows_id; [|apply Hg]. intros i j E%(f_equal dn_domain). by apply DomainHandle_inj.
  - done.
Qed.

Lemma db_at_refs nets g : progress_ok g → refs_ok (db_at nets g).
Proof.
  intros Hg. unfold refs_ok; cbn [db_at t_entities t_emails t_phones t_domains t_contacts
    t_nameservers t_domain_ns t_networks].
  assert (Hdom : ∀ i, i ∈ g_domains g → DomainHandle i ∈ dr_handle <$>
            ((domain_row_at <$> g_domains g) ++ (idn_row <$> g_fixtures g))).
  { intros i Hi. rewrite fmap_app. apply elem_of_app. left. by apply (in_rows domain_row_at dr_handle). }
  split_and!.
  - apply Forall_rows. intros i Hi. apply (in_rows entity_row_at er_handle). by apply (go_emails_in _ Hg).
  - apply Forall_rows. intros i Hi. apply (in_rows entity_row_at er_handle). by apply (go_phones_in _ Hg).
  - apply Forall_app. split; by apply Forall_rows.
  - apply Forall_rows. intros i Hi. split; [by apply Hdom, (go_contacts_dom _ Hg)|].
    apply (in_rows entity_row_at er_handle). by apply (go_contacts_in _ Hg).
  - apply Forall_rows. intros i Hi. split; [by apply Hdom, (go_domain_ns_dom _ Hg)|].
    apply (in_rows ns_row_at nr_handle), (go_domain_ns_in _ Hg). by apply list_elem_of_fmap_2.
Qed.

Lemma db_at_values nets g :
  Forall (λ n, char2 (wr_country n) ∧ stored_cidr (wr_prefix n)) nets → progress_ok g → values_ok (db_at nets g).
Proof.
  intros Hn Hg. unfold values_ok; cbn [db_at t_entities t_domains t_nameservers t_networks].
  split_and!.
  - apply Forall_rows. intros i Hi. split_and!; [apply Kinds_ok| |done].
    apply EntityCountry_char2. pose proof (go_pos _ Hg) as Hp. rewrite Forall_forall in Hp. by apply Hp.
  - apply Forall_app. split; by apply Forall_rows.
  - apply Forall_rows. intros i _. split; constructor.
  - done.
Qed.

Definition networks_ok (nets : list network_row) : Prop :=
  NoDup (wr_handle <$> nets) ∧ Forall (λ n, char2 (wr_country n) ∧ stored_cidr (wr_prefix n)) nets.
Lemma db_at_ok nets g : networks_ok nets → progress_ok g → schema_ok (db_at nets g).
Proof.
  intros [Hn Hc] Hg. split; [by apply db_at_keys|split; [by apply db_at_refs|by apply db_at_values]].
Qed.

(** *** The command step by step *)
Lemma mapM_rows {A B} (f : list cell → option B) (c : A → list cell) (r : A → B) (l : list A) :
  (∀ i, f (c i) = Some (r i)) → mapM f (c <$> l) = Some (r <$> l).
Proof. intros Hf. induction l as [|i l IH]; [done|]. rewrite !fmap_cons. cbn. by rewrite Hf, IH. Qed.

Lemma NoDup_indices n : NoDup (indices n).
Proof. apply NoDup_fmap_2; [intros i j; lia|]. apply NoDup_seq. Qed.
Lemma prefix_indices l n :
  l `prefix_of` indices n → NoDup l ∧ l ⊆ indices n ∧ Forall (λ i, 0 ≤ i)%Z l.
Proof.
  intros [k E]. assert (Hl : l ⊆ indices n) by (rewrite E; set_solver).
  split_and!; [|done|].
  - pose proof (NoDup_indices n) as Hn. rewrite E in Hn. by apply NoDup_app in Hn as [? _].
  - apply Forall_forall. intros i Hi%Hl. apply elem_of_indices in Hi. lia.
Qed.

(** What the database holds in the end. *)
Definition seeded (n : Z) : progress :=
  Build_progress (indices n) (indices n) (indices n) (indices n) IDNFixtures (indices n)
    (indices (nsCount n)) (indices n).

Lemma ns_in n : (0 ≤ n ≤ 2 ^ 62)%Z → NameserverForDomain <$> indices n ⊆ indices (nsCount n).
Proof.
  intros Hn j (i & -> & Hi%elem_of_indices)%list_elem_of_fmap. apply elem_of_indices.
  unfold NameserverForDomain. rewrite Z.quot_div_nonneg by lia.
  split; [apply Z.div_pos; lia|]. apply Z.ltb_lt.
  rewrite nsCount_bound by (try done; apply Z.div_pos; lia). apply Z.ltb_lt.
  pose proof (Z.mul_div_le i 10). lia.
Qed.

(** Every stage stops at a consistent database. *)
Lemma stage_ok n es ms ps ds fs cs ns xs : (0 ≤ n ≤ 2 ^ 62)%Z →
  es `prefix_of` indices n → ms `prefix_of` indices n → ps `prefix_of` indices n →
  ds `prefix_of` indices n → cs `prefix_of` indices n → xs `prefix_of` indices n →
  ns `prefix_of` indices (nsCount n) → fs = [] ∨ fs = IDNFixtures →
  (es = indices n ∨ ms = [] ∧ ps = [] ∧ cs = []) → (ds = indices n ∨ cs = [] ∧ xs = []) →
  (ns = indices (nsCount n) ∨ xs = []) →
  progress_ok (Build_progress es ms ps ds fs cs ns xs).
Proof.
  intros Hn He%prefix_indices Hm%prefix_indices Hp%prefix_indices Hd%prefix_indices
    Hc%prefix_indices Hx%prefix_indices Hs%prefix_indices Hf Hes Hds Hns.
  split; cbn; try apply He; try apply Hm; try apply Hp; try apply Hd; try apply Hc;
    try apply Hx; try apply Hs; try done.
  - destruct Hes as [->|(-> & _)]; [apply Hm|set_solver].
  - destruct Hes as [->|(_ & -> & _)]; [apply Hp|set_solver].
  - destruct Hes as [->|(_ & _ & ->)]; [apply Hc|set_solver].
  - destruct Hds as [->|(-> & _)]; [apply Hc|set_solver].
  - destruct Hds as [->|(_ & ->)]; [apply Hx|set_solver].
  - destruct Hns as [->| ->]; [|set_solver]. intros j (i & -> & Hi)%list_elem_of_fmap.
    apply (ns_in n Hn). apply list_elem_of_fmap_2. by apply Hx.
Qed.

Lemma seeded_ok n : (0 ≤ n ≤ 2 ^ 62)%Z → progress_ok (seeded n).
Proof. intros Hn. apply (stage_ok n); auto. Qed.

Context {W : Type} (pool : Loader W) (db : W → Database) (Hload : loads pool db).
Context (nets : list network_row) (Hnets : networks_ok nets).

(** A seeder takes the database through the prefixes of its indices. *)
Lemma seed_table_loads (at_ : list Z → progress) table cols row n batch w :
  (0 ≤ batch)%Z →
  (∀ done pend, done ++ pend `prefix_of` indices n → progress_ok (at_ (done ++ pend)) ∧
     copied table cols (row <$> pend) (db_at nets (at_ done)) = Some (db_at nets (at_ (done ++ pend)))) →
  db w = db_at nets (at_ []) →
  ∃ w', seed_table pool table cols row n batch w = Some (None, w') ∧
    db w' = db_at nets (at_ (indices n)).
Proof.
  intros Hb%Z.ltb_ge Hstep. unfold seed_table. rewrite Hb.
  assert (Hflush : ∀ done pend w, db w = db_at nets (at_ done) →
            done ++ pend `prefix_of` indices n →
            ∃ w', flush pool table cols (row <$> pend) w = (None, w') ∧
              db w' = db_at nets (at_ (done ++ pend))).
  { intros done pend w0 E Hpre. unfold flush. destruct pend as [|i pend].
    - exists w0. by rewrite app_nil_r.
    - cbn [fmap list_fmap is_empty]. destruct (Hstep _ _ Hpre) as [Hok Hc]. rewrite <-E in Hc.
      destruct (loads_copy _ _ Hload _ _ _ _ _ Hc) as [E1 E2]; [by apply db_at_ok|].
      eexists. split; [|exact E2]. rewrite <-E1. apply surjective_pairing. }
  assert (Hloop : ∀ l done pend w, db w = db_at nets (at_ done) →
            done ++ pend ++ l = indices n →
            ∃ w', seed_loop pool table cols row batch l (row <$> pend) w = (None, w') ∧
              db w' = db_at nets (at_ (indices n))).
  { intros l. induction l as [|i l IH]; intros done pend w0 E Hall; cbn [seed_loop].
    - rewrite app_nil_r in Hall. rewrite <-Hall. apply Hflush; [done|by rewrite Hall].
    - cbv zeta. assert (Hrow : (row <$> pend) ++ [row i] = row <$> pend ++ [i]) by (by rewrite fmap_app).
      rewrite Hrow. assert (Hpre : done ++ (pend ++ [i]) ++ l = indices n) by (by rewrite <-Hall, <-!app_assoc).
      destruct (_ <=? _)%Z; [|by apply (IH done)].
      destruct (Hflush done (pend ++ [i]) w0 E) as (w1 & Ef & E1).
      { exists l. by rewrite <-Hpre, <-!app_assoc. }
      unfold and_then. rewrite Ef. apply (IH (done ++ pend ++ [i]) []); [done|].
      by rewrite <-Hpre, <-!app_assoc. }
  intros E. destruct (Hloop (indices n) [] [] w E eq_refl) as (w' & E' & Hw').
  exists w'. split; [|done]. cbn [fmap list_fmap] in E'. by rewrite E'.
Qed.

Lemma copied_entities done pend ms ps ds fs cs ns xs :
  copied "entities" entity_cols (entity_cells time_2026 <$> pend)
    (db_at nets (Build_progress done ms ps ds fs cs ns xs)) =
  Some (db_at nets (Build_progress (done ++ pend) ms ps ds fs cs ns xs)).
Proof.
  unfold copied. rewrite decide_True by done.
  rewrite (mapM_rows _ _ entity_row_at) by done. unfold with_rows, db_at. cbn.
  by rewrite !app_nil_r, fmap_app.
Qed.
Ltac copied_tac r :=
  unfold copied; repeat rewrite decide_False by done; rewrite decide_True by done;
  rewrite (mapM_rows _ _ r) by done; unfold with_rows, db_at; cbn; by rewrite !app_nil_r, fmap_app.
Lemma copied_nameservers done pend es ms ps ds fs cs xs :
  copied "nameservers" ns_cols (ns_cells <$> pend)
    (db_at nets (Build_progress es ms ps ds fs cs done xs)) =
  Some (db_at nets (Build_progress es ms ps ds fs cs (done ++ pend) xs)).
Proof. copied_tac ns_row_at. Qed.
Lemma copied_emails done pend es ps ds fs cs ns xs :
  copied "entity_emails" email_cols (email_cells <$> pend)
    (db_at nets (Build_progress es done ps ds fs cs ns xs)) =
  Some (db_at nets (Build_progress es (done ++ pend) ps ds fs cs ns xs)).
Proof. copied_tac email_row_at. Qed.
Lemma copied_phones done pend es ms ds fs cs ns xs :
  copied "entity_phones" phone_cols (phone_cells <$> pend)
    (db_at nets (Build_progress es ms done ds fs cs ns xs)) =
  Some (db_at nets (Build_progress es ms (done ++ pend) ds fs cs ns xs)).
Proof. copied_tac phone_row_at. Qed.
Lemma copied_domains done pend es ms ps cs ns xs :
  copied "domains" domain_cols
    ((λ i, domain_cells time_2026 time_2027 (DomainHandle i) (DomainName i) (DomainName i)) <$> pend)
    (db_at nets (Build_progress es ms ps done [] cs ns xs)) =
  Some (db_at nets (Build_progress es ms ps (done ++ pend) [] cs ns xs)).
Proof. copied_tac domain_row_at. Qed.
Lemma copied_fixtures es ms ps ds cs ns xs :
  copied "domains" domain_cols
    ((λ f, domain_cells time_2026 time_2027 (fix_Handle f) (fix_LDH f) (fix_Unicode f)) <$> IDNFixtures)
    (db_at nets (Build_progress es ms ps ds [] cs ns xs)) =
  Some (db_at nets (Build_progress es ms ps ds IDNFixtures cs ns xs)).
Proof.
  unfold copied. repeat rewrite decide_False by done. rewrite decide_True by done.
  rewrite (mapM_rows _ _ idn_row) by done. unfold with_rows, db_at. cbn [mbind option_bind].
  do 2 f_equal; cbn; by rewrite !app_nil_r.
Qed.
Lemma copied_domain_ns done pend es ms ps ds fs cs ns :
  copied "domain_nameservers" domain_ns_cols (domain_ns_cells <$> pend)
    (db_at nets (Build_progress es ms ps ds fs cs ns done)) =
  Some (db_at nets (Build_progress es ms ps ds fs cs ns (done ++ pend))).
Proof. copied_tac domain_ns_row_at. Qed.
Lemma copied_contacts done pend es ms ps ds fs ns xs :
  copied "domain_contacts" contact_cols (contact_cells <$> pend)
    (db_at nets (Build_progress es ms ps ds fs done ns xs)) =
  Some (db_at nets (Build_progress es ms ps ds fs (done ++ pend) ns xs)).
Proof. copied_tac contact_row_at. Qed.

Lemma truncate_tables w :
  ∃ w', truncateTables pool w = (None, w') ∧ db w' = networks_only (t_networks (db w)).
Proof.
  assert (Hone : ∀ t k w, t ∈ truncate_order →
    ∃ w1, and_then (Exec pool ("TRUNCATE TABLE " +:+ t +:+ " CASCADE")) k w = k w1 ∧
      db w1 = truncated t (db w)).
  { intros t k w0 Ht. destruct (loads_truncate _ _ Hload t w0 Ht) as [E1 E2].
    unfold and_then. destruct (Exec _ _ _) as [err w1]. cbn in E1, E2. subst. by exists w1. }
  unfold truncateTables, truncate_order. cbn [foldr].
  assert (Hall : Forall (λ t, t ∈ truncate_order) truncate_order)
    by (by apply (bool_decide_unpack _); vm_compute).
  rewrite Forall_forall in Hall. unfold truncate_order at 1 in Hall.
  repeat match goal with
  | |- ∃ w', and_then (Exec _ (_ +:+ ?t +:+ _)) ?k ?w = _ ∧ _ =>
      let E := fresh "E" in
      destruct (Hone t k w) as (? & -> & E); [apply Hall; set_solver|]
  end.
  eexists. split; [reflexivity|]. repeat match goal with E : db _ = _ |- _ => rewrite E; clear E end.
  done.
Qed.

Section stages.
Context (n batch : Z) (Hn : (0 ≤ n ≤ 2 ^ 62)%Z) (Hb : (0 ≤ batch)%Z).
#[local] Abbreviation all := (indices n).
#[local] Abbreviation hosts := (indices (nsCount n)).
#[local] Abbreviation reaches f g1 g2 :=
  (∀ w, db w = db_at nets g1 → ∃ w', f w = Some (None, w') ∧ db w' = db_at nets g2).
Ltac seeder at_ Hcopied :=
  intros w Hw; apply (seed_table_loads at_ _ _ _ _ _ w Hb); [|by rewrite Hw]; intros done pend Hpre;
  split; [eapply stage_ok; try apply prefix_nil; eauto|apply Hcopied].

Lemma seedEntities_loads :
  reaches (seedEntities pool n batch time_2026) (Build_progress [] [] [] [] [] [] [] [])
    (Build_progress all [] [] [] [] [] [] []).
Proof. seeder (λ l, Build_progress l [] [] [] [] [] [] []) copied_entities. Qed.
Lemma seedNameservers_loads :
  reaches (seedNameservers pool (nsCount n) batch) (Build_progress all [] [] [] [] [] [] [])
    (Build_progress all [] [] [] [] [] hosts []).
Proof. seeder (λ l, Build_progress all [] [] [] [] [] l []) copied_nameservers. Qed.
Lemma seedEmails_loads :
  reaches (seedEmails pool n batch) (Build_progress all [] [] [] [] [] hosts [])
    (Build_progress all all [] [] [] [] hosts []).
Proof. seeder (λ l, Build_progress all l [] [] [] [] hosts []) copied_emails. Qed.
Lemma seedPhones_loads :
  reaches (seedPhones pool n batch) (Build_progress all all [] [] [] [] hosts [])
    (Build_progress all all all [] [] [] hosts []).
Proof. seeder (λ l, Build_progress all all l [] [] [] hosts []) copied_phones. Qed.
Lemma seedDomains_loads :
  reaches (seedDomains pool n batch time_2026 time_2027) (Build_progress all all all [] [] [] hosts [])
    (Build_progress all all all all IDNFixtures [] hosts []).
Proof.
  intros w Hw. unfold seedDomains.
  destruct (seed_table_loads (λ l, Build_progress all all all l [] [] hosts []) "domains" domain_cols
    (λ i, domain_cells time_2026 time_2027 (DomainHandle i) (DomainName i) (DomainName i))
    n batch w Hb) as (w1 & -> & Hw1); [|by rewrite Hw|].
  { intros done pend Hpre.
    split; [eapply stage_ok; try apply prefix_nil; eauto|apply copied_domains]. }
  cbn [mbind option_bind]. unfold flush.
  assert (is_empty ((λ f, domain_cells time_2026 time_2027 (fix_Handle f) (fix_LDH f) (fix_Unicode f))
            <$> IDNFixtures) = false) as -> by done.
  pose proof (copied_fixtures all all all all [] hosts []) as Hc. rewrite <-Hw1 in Hc.
  destruct (loads_copy _ _ Hload _ _ _ _ _ Hc) as [E1 E2].
  { apply db_at_ok; [done|]. eapply stage_ok; try apply prefix_nil; eauto. }
  eexists. split; [|exact E2]. rewrite <-E1. f_equal. apply surjective_pairing.
Qed.
Lemma seedDomainNameservers_loads :
  reaches (seedDomainNameservers pool n batch) (Build_progress all all all all IDNFixtures [] hosts [])
    (Build_progress all all all all IDNFixtures [] hosts all).
Proof.
  seeder (λ l, Build_progress all all all all IDNFixtures [] hosts l) copied_domain_ns.
Qed.
Lemma seedDomainContacts_loads :
  reaches (seedDomainContacts pool n batch) (Build_progress all all all all IDNFixtures [] hosts all)
    (seeded n).
Proof.
  seeder (λ l, Build_progress all all all all IDNFixtures l hosts all) copied_contacts.
Qed.

Lemma stage_reaches (f : W → option (option error * W)) k g1 g2 w r :
  reaches f g1 g2 → db w = db_at nets g1 →
  (∀ w', db w' = db_at nets g2 → ∃ w'', k w' = Some (r, w'') ∧ db w'' = db_at nets (seeded n)) →
  ∃ w', stage f k w = Some (r, w') ∧ db w' = db_at nets (seeded n).
Proof. intros Hf Hw Hk. destruct (Hf w Hw) as (w1 & E & H1). unfold stage. rewrite E. by apply Hk. Qed.

Lemma main_seeds dsn w : dsn ≠ "" → t_networks (db w) = nets →
  ∃ w', main pool dsn None true n batch w = Some (0%Z, w') ∧ db w' = db_at nets (seeded n).
Proof.
  intros Hdsn%String.eqb_neq Hw. unfold main. rewrite Hdsn.
  destruct (truncate_tables w) as (w0 & E0 & Hw0). rewrite Hw in Hw0.
  assert (Hst : ∀ k, stage (λ w, Some (truncateTables pool w)) k w = k w0)
    by (intros k; unfold stage; by rewrite E0).
  rewrite Hst. clear Hst.
  eapply stage_reaches; [apply seedEntities_loads|exact Hw0|intros w1 Hw1].
  eapply stage_reaches; [apply seedNameservers_loads|exact Hw1|intros w2 Hw2].
  eapply stage_reaches; [apply seedEmails_loads|exact Hw2|intros w3 Hw3].
  eapply stage_reaches; [apply seedPhones_loads|exact Hw3|intros w4 Hw4].
  eapply stage_reaches; [apply seedDomains_loads|exact Hw4|intros w5 Hw5].
  eapply stage_reaches; [apply seedDomainNameservers_loads|exact Hw5|intros w6 Hw6].
  eapply stage_reaches; [apply seedDomainContacts_loads|exact Hw6|intros w7 Hw7].
  by exists w7.
Qed.
End stages.
End seeded.

(** ** Lookups in the seeded database *)
Section answers.
Context `{PgText} `{NetIPText} `{!Pgx} `{!PgJSON} `{!PgxLaws} `{GoUnicode}.
Context (Hempty : UnmarshalExtras "{}" = ([], None)).
Context (nets : list network_row) (n : Z) (Hn : (0 ≤ n ≤ 2 ^ 62)%Z).
#[local] Abbreviation seeded_db := (db_at nets (seeded n)).

Lemma filter_rows {A B K} `{EqDecision K} (f : A → B) (k : B → K) (l : list A) i e :
  k (f i) = e → (∀ i j, k (f i) = k (f j) → i = j) → NoDup l → i ∈ l →
  filter (λ x, k x = e) (f <$> l) = [f i].
Proof. intros <- Hk Hl Hi. apply filter_key; [by apply NoDup_rows|by apply list_elem_of_fmap_2]. Qed.
Create HintDb seed.
#[local] Hint Resolve DomainHandle_inj NameserverHandle_inj EntityHandle_inj NoDup_indices : seed.
Ltac one_row f k i := rewrite (filter_rows f k _ i) by (done || auto with seed).

Lemma nameservers_of_seeded i : i ∈ indices n →
  nameservers_of seeded_db (DomainHandle i) = [ns_row_at (NameserverForDomain i)].
Proof.
  intros Hi. unfold nameservers_of. cbn [db_at t_domain_ns seeded g_domain_ns t_nameservers g_ns].
  one_row domain_ns_row_at dn_domain i. cbn [mbind list_bind dn_nameserver domain_ns_row_at].
  assert (NameserverForDomain i ∈ indices (nsCount n)) by (by apply (ns_in n Hn), list_elem_of_fmap_2).
  by one_row ns_row_at nr_handle (NameserverForDomain i).
Qed.

Lemma contacts_of_seeded i : i ∈ indices n →
  contacts_of seeded_db (DomainHandle i) = [entity_row_at i].
Proof.
  intros Hi. unfold contacts_of. cbn [db_at t_contacts seeded g_contacts t_entities g_entities].
  one_row contact_row_at dc_domain i. cbn [mbind list_bind dc_entity contact_row_at].
  by one_row entity_row_at er_handle i.
Qed.

Lemma roles_of_seeded i : i ∈ indices n →
  roles_of seeded_db (DomainHandle i) (EntityHandle i) = ["registrant"].
Proof.
  intros Hi. unfold roles_of. cbn [db_at t_contacts seeded g_contacts].
  rewrite <-list_filter_filter. one_row contact_row_at dc_entity i.
  by rewrite filter_cons_True.
Qed.

Lemma emails_of_seeded i : i ∈ indices n → emails_of seeded_db (EntityHandle i) = [EntityEmail i].
Proof.
  intros Hi. unfold emails_of. cbn [db_at t_emails seeded g_emails].
  by one_row email_row_at em_entity i.
Qed.
Lemma phones_of_seeded i : i ∈ indices n → phones_of seeded_db (EntityHandle i) = [phone_row_at i].
Proof.
  intros Hi. unfold phones_of. cbn [db_at t_phones seeded g_phones].
  by one_row phone_row_at pr_entity i.
Qed.

Definition with_roles (roles : list string) (c : Contact) : Contact :=
  {| c_Handle := c_Handle c; c_Roles := roles; c_Kind := c_Kind c; c_FullName := c_FullName c;
     c_Organization := c_Organization c; c_Title := c_Title c; c_Emails := c_Emails c;
     c_Phones := c_Phones c; c_Address := c_Address c; c_CreatedAt := c_CreatedAt c;
     c_UpdatedAt := c_UpdatedAt c; c_Extras := c_Extras c |}.

Lemma contact_of_seeded roles i : i ∈ indices n →
  contact_of_row seeded_db roles [] (entity_row_at i) = with_roles roles (buildEntity i).
Proof.
  intros Hi. unfold contact_of_row. cbn [er_handle entity_row_at].
  rewrite emails_of_seeded, phones_of_seeded by done. reflexivity.
Qed.

Lemma domain_of_seeded i : i ∈ indices n →
  domain_of seeded_db (domain_row_at i) = inl (synth_domain i).
Proof.
  intros Hi. unfold domain_of, secure_of, domain_row_at, seeded_domain.
  cbn [dr_secure_dns err_bind dr_handle].
  rewrite nameservers_of_seeded, contacts_of_seeded by done. cbn [fmap list_fmap er_handle entity_row_at].
  rewrite roles_of_seeded by done. unfold extras_of.
  change (er_extras (entity_row_at i)) with "{}". cbn [String.eqb Ascii.eqb Bool.eqb]. rewrite Hempty.
  cbn [fst]. by rewrite contact_of_seeded.
Qed.
Lemma entity_of_seeded i : i ∈ indices n →
  entity_of seeded_db (entity_row_at i) = inl (with_roles [] (buildEntity i)).
Proof. intros Hi. unfold entity_of. cbn. rewrite Hempty. by rewrite contact_of_seeded. Qed.

Definition res_map {A B} (f : A → B) (r : res A) : res B := (f <$> r.1, r.2).

Lemma domain_absent i : (n ≤ i)%Z → pg_lower (DomainName i) ∉ dr_ldh_name <$> t_domains seeded_db.
Proof.
  intros Hi. rewrite (pg_lower_stable _ (DomainName_lower i)).
  cbn [db_at t_domains seeded g_domains g_fixtures]. rewrite fmap_app, not_elem_of_app. split.
  - intros (? & E & (j & -> & Hj%elem_of_indices)%list_elem_of_fmap)%list_elem_of_fmap.
    apply DomainName_inj in E. lia.
  - intros (? & E & (f & -> & Hf)%list_elem_of_fmap)%list_elem_of_fmap.
    destruct (DomainName_fixture i f Hf) as [Hd _]. exact (Hd E).
Qed.
Lemma entity_absent i : (n ≤ i)%Z → EntityHandle i ∉ er_handle <$> t_entities seeded_db.
Proof.
  intros Hi (? & E & (j & -> & Hj%elem_of_indices)%list_elem_of_fmap)%list_elem_of_fmap.
  apply EntityHandle_inj in E. lia.
Qed.
Lemma nameserver_absent i : (nsCount n ≤ i)%Z →
  ∀ h, h ∈ t_nameservers seeded_db → pg_lower (nr_ldh_name h) ≠ pg_lower (NameserverName i).
Proof.
  intros Hi h (j & -> & Hj%elem_of_indices)%list_elem_of_fmap. cbn [nr_ldh_name ns_row_at].
  rewrite !(pg_lower_stable _ (NameserverName_lower _)). intros E%NameserverName_inj. lia.
Qed.

Context {W : Type} (loader : Loader W) (pool : Pool W) (db : W → Database).

Lemma seeded_lookups w i : serves pool db → networks_ok nets → db w = seeded_db → (0 ≤ i)%Z →
  Provider_GetDomain pool (DomainName i) w =
    ((if (i <? n)%Z then found (synth_domain i) else failed ErrNotFound), w) ∧
  Provider_GetEntity pool (EntityHandle i) w =
    ((if (i <? n)%Z then found (with_roles [] (buildEntity i)) else failed ErrNotFound), w) ∧
  Provider_GetNameserver pool (NameserverName i) w =
    ((if (10 * i <? n)%Z then found (synth_host i []) else failed ErrNotFound), w).
Proof.
  intros Hp Hnets Hw Hi.
  assert (Hs : schema_ok (db w)).
  { rewrite Hw. apply db_at_ok; [done|by apply seeded_ok]. }
  split_and!.
  - destruct (Z.ltb_spec i n) as [Hin|Hin].
    + rewrite (get_domain_row pool db w (domain_row_at i)); try done.
      * rewrite Hw, domain_of_seeded; [done|]. by apply elem_of_indices.
      * rewrite Hw. apply elem_of_app. left. by apply list_elem_of_fmap_2, elem_of_indices.
      * by rewrite (pg_lower_stable _ (DomainName_lower i)).
    + apply (get_domain_none pool db); [done|]. rewrite Hw. by apply domain_absent.
  - destruct (Z.ltb_spec i n) as [Hin|Hin].
    + change (EntityHandle i) with (er_handle (entity_row_at i)). rewrite (get_entity_row pool db w); try done.
      * rewrite Hw, entity_of_seeded; [done|]. by apply elem_of_indices.
      * rewrite Hw. by apply list_elem_of_fmap_2, elem_of_indices.
    + apply (get_entity_none pool db); [done|]. rewrite Hw. by apply entity_absent.
  - rewrite <-nsCount_bound by done. destruct (Z.ltb_spec i (nsCount n)) as [Hin|Hin].
    + rewrite (get_nameserver_row pool db w (ns_row_at i)); try done.
      rewrite Hw. by apply list_elem_of_fmap_2, elem_of_indices.
    + apply (get_nameserver_none pool db); [done|]. rewrite Hw. by apply nameserver_absent.
Qed.
End answers.

(** C17: The two synthetic data sets agree.  On a database within its schema, whatever the
    tables hold and whatever the batch size, the seeder with -truncate exits with status 0
    and leaves the IP networks alone; and of the generated names Postgres then answers
    what the in-memory store seeded with the same number answers: the same domain
    records, nameserver and registrant included, the same entities but for their roles,
    the same nameservers but for their addresses, and [ErrNotFound] alike. *)
Theorem seeders_agree `{PgText} `{NetIPText} `{!Pgx} `{!PgJSON} `{!PgxLaws} `{GoUnicode} {W}
    (loader : Loader W) (pool : Pool W) (db : W → Database) dsn n batch w :
  loads loader db → serves pool db → schema_ok (db w) → UnmarshalExtras "{}" = ([], None) →
  (0 ≤ n ≤ 2 ^ 62)%Z → (0 ≤ batch)%Z → dsn ≠ "" →
  ∃ w', main loader dsn None true n batch w = Some (0%Z, w') ∧
    t_networks (db w') = t_networks (db w) ∧
    ∀ i, (0 ≤ i)%Z →
      let s := SeedSynthetic New n in
      Provider_GetDomain pool (DomainName i) w' = (Store_GetDomain (DomainName i) s, w') ∧
      Provider_GetEntity pool (EntityHandle i) w' =
        (res_map (with_roles []) (Store_GetEntity (EntityHandle i) s), w') ∧
      Provider_GetNameserver pool (NameserverName i) w' =
        (res_map (λ h, synth_host i []) (Store_GetNameserver (NameserverName i) s), w').
Proof.
  intros Hl Hp (Hk & Hr & Hv) Hempty Hn Hb Hdsn.
  assert (Hnets : networks_ok (t_networks (db w))).
  { split; [apply Hk|apply Hv]. }
  destruct (main_seeds loader db Hl _ Hnets n batch Hn Hb dsn w Hdsn eq_refl) as (w' & E & Hw').
  exists w'. split; [done|]. split; [by rewrite Hw'|]. intros i Hi s. subst s.
  destruct (seeded_lookups Hempty _ n Hn pool db w' i Hp Hnets Hw' Hi) as (-> & -> & ->).
  destruct (SeedSynthetic_predicts n i Hn Hi) as (Ed & Ee & Es & _). rewrite Ed, Ee, Es.
  by destruct (i <? n)%Z, (10 * i <? n)%Z.
Qed.

(** ** A loader over a database at rest *)
#[local] Existing Instance unicode_default.
#[local] Existing Instance pg_text.
#[local] Existing Instance netip_bits.
#[local] Existing Instance pgx_values.
#[local] Existing Instance pg_json.
#[local] Existing Instance pgx_values_laws.

Definition truncate_sql (t : string) : string := "TRUNCATE TABLE " +:+ t +:+ " CASCADE".
Definition db_exec (sql : string) (db : Database) : option error * Database :=
  match list_find (λ t, truncate_sql t = sql) truncate_order with
  | Some (_, t) => (None, truncated t db)
  | None => (Some no_answer, db)
  end.
Definition db_copy (table : string) (cols : list string) (rows : list (list cell)) (db : Database)
    : option error * Database :=
  match copied table cols rows db with
  | Some db' =>
      if decide (schema_ok db') then (None, db')
      else (Some (ErrOther "ERROR: constraint violated"), db)
  | None => (Some no_answer, db)
  end.
Definition db_loader : Loader Database := {| Exec := db_exec; CopyFrom := db_copy |}.

Lemma db_loader_loads : loads db_loader (λ db, db).
Proof.
  split; cbn [db_loader Exec CopyFrom].
  - intros table cols rows w db' E Hs. unfold db_copy. rewrite E. by rewrite decide_True.
  - intros table cols rows w Hn. unfold db_copy. destruct (copied table cols rows w) as [db'|]; [|done].
    by rewrite decide_False by (by apply Hn).
  - intros t w Ht. cbv zeta. unfold truncate_order in Ht. set_unfold in Ht.
    repeat (destruct Ht as [->|Ht]; [by split|]). by subst.
Qed.

Lemma seed_batches_witness :
  (∀ w, seed_table db_loader "entity_emails" email_cols email_cells 3 (-1) w = None) ∧
  ∃ chunks, concat chunks = email_cells <$> indices 3 ∧
    Forall (λ c, 1 ≤ Z.of_nat (length c) ≤ 2)%Z chunks.
Proof.
  destruct (seed_batches db_loader "entity_emails" email_cols email_cells 3 (-1)) as [Hneg _].
  destruct (seed_batches db_loader "entity_emails" email_cols email_cells 3 2) as [_ Hpos].
  split; [by apply Hneg|].
  destruct (Hpos ltac:(lia)) as (chunks & E & Hsz & _). by exists chunks.
Defined.

Lemma seeders_agree_witness :
  (loads db_loader (λ db, db) ∧ serves db_pool (λ db, db) ∧ schema_ok demo_db) ∧
  ∃ w', main db_loader "postgres://" None true 3 2 demo_db = Some (0%Z, w') ∧
    Provider_GetDomain db_pool "syn-2.de" w' =
      (Store_GetDomain "syn-2.de" (SeedSynthetic New 3), w').
Proof.
  split; [split_and!; [exact db_loader_loads|exact db_pool_serves|exact demo_db_ok]|].
  destruct (seeders_agree db_loader db_pool (λ db, db) "postgres://" 3 2 demo_db
    db_loader_loads db_pool_serves demo_db_ok) as (w' & E & _ & Hi); [done|lia|lia|done|].
  exists w'. split; [exact E|]. apply (Hi 2%Z). lia.
Defined.

(** A second run without -truncate is refused, and a third with it is not. *)
Example rerun_ex :
  let run truncate db := main db_loader "postgres://" None truncate 1 5 db in
  match run true demo_db with
  | Some (s1, db1) =>
      match run false db1, run true db1 with
      | Some (s2, db2), Some (s3, db3) =>
          (s1, s2, s3, length (t_domains db2), length (t_domains db3)) = (0%Z, 1%Z, 0%Z, 6%nat, 6%nat)
      | _, _ => False
      end
  | None => False
  end.
Proof. vm_compute. reflexivity. Qed.
