(* ===== verification/Deploy.v ===== *)
(** * cmd/gordap: the process.

    What main puts together from the flags: the provider (in-memory data or Postgres),
    the record cache over it and the response cache, with the contexts their calls run in.
    The state types of the parts differ with the configuration, so a process carries its
    own; what it does once it runs is in Lifecycle.v. *)
From S2P Require Import Prelude GoStrings NetIP DataSource Auth Validate Search Synth Memory LRU Cache ResponseCache Http Middleware Float64 RateLimit Handlers SearchHandlers Router Config Server Metrics Pgx Postgres PgSchema PgPool PgFacts.

(** ** Parts of a larger state *)
Section over.
Context {W W' : Type} (get : W' → W) (set : W → W' → W').

Definition over {A} (f : W → A * W) (w : W') : A * W' :=
  let '(a, x) := f (get w) in (a, set x w).
Definition over_source (ds : DataSource W) : DataSource W' :=
  {| GetDomain := λ k, over (GetDomain ds k); GetEntity := λ k, over (GetEntity ds k);
     GetNameserver := λ k, over (GetNameserver ds k); GetIPNetwork := λ ip, over (GetIPNetwork ds ip) |}.
Definition over_index (ix : Index W) : Index W' :=
  {| SearchDomains := λ q, over (SearchDomains ix q); SearchEntities := λ q, over (SearchEntities ix q);
     SearchNameservers := λ q, over (SearchNameservers ix q) |}.

Context (I : W → Prop) (J : W' → Prop).
Context (HJ : ∀ w, J w → I (get w)) (Hset : ∀ x w, I x → J w → J (set x w)).

Lemma over_call {A} (P : A → Prop) (f : W → A * W) w :
  P (f (get w)).1 ∧ I (f (get w)).2 → J w → P (over f w).1 ∧ J (over f w).2.
Proof. unfold over. destruct (f (get w)) as [a x]. cbn. intros [Ha Hx] Hw. auto. Qed.
Lemma over_source_laws ds : ProviderLaws ds I → ProviderLaws (over_source ds) J.
Proof.
  intros Hds. split; intros k w Hw; cbn; apply over_call; try done;
    [apply law_domain|apply law_entity|apply law_nameserver|apply law_network]; auto.
Qed.
Lemma over_index_laws ix : IndexLaws ix I → IndexLaws (over_index ix) J.
Proof.
  intros Hix. split; intros q w Hw; cbn; apply over_call; try done;
    [apply law_search_domains|apply law_search_entities|apply law_search_nameservers]; auto.
Qed.
End over.

(** ** main.go *)

(** The flags that the file does not set. *)
Record OwnFlags := {
  trustedProxies : string; demoSynthN : Z; cacheStaleTTL : Duration; respCacheSize : Z;
  respCacheTTL : Duration }.

(** The in-memory data, whatever a pool talks to, and the deadline of the context that the
    provider is called with. *)
Record World (P : Type) := { w_store : Store; w_pool : P; w_deadline : option Time }.
Arguments Build_World {P} _ _ _.
Arguments w_store {P} _.
Arguments w_pool {P} _.
Arguments w_deadline {P} _.
Definition set_store {P} (s : Store) (w : World P) : World P := Build_World s (w_pool w) (w_deadline w).
Definition set_pool {P} (p : P) (w : World P) : World P := Build_World (w_store w) p (w_deadline w).
Definition set_deadline {P} (d : option Time) (w : World P) : World P :=
  Build_World (w_store w) (w_pool w) d.
Definition world_ctx {P} : RequestContext (World P) :=
  {| ctx_Deadline := w_deadline; ctx_WithDeadline := set_deadline |}.

(** A provider called with a context of its own, [context.Background()] or one derived from it. *)
Definition in_context {P A} (d : World P → option Time) (f : World P → A * World P) (w : World P)
    : A * World P :=
  let '(a, w') := f (set_deadline (d w) w) in (a, set_deadline (w_deadline w) w').
Definition source_in_context {P} (d : World P → option Time) (ds : DataSource (World P))
    : DataSource (World P) :=
  {| GetDomain := λ k, in_context d (GetDomain ds k); GetEntity := λ k, in_context d (GetEntity ds k);
     GetNameserver := λ k, in_context d (GetNameserver ds k);
     GetIPNetwork := λ ip, in_context d (GetIPNetwork ds ip) |}.
(** The record cache calls the provider without a deadline in [getOrLoad], and with ten
    seconds in [refreshAsync]. *)
Definition background {P} : DataSource (World P) → DataSource (World P) := source_in_context (λ _, None).
Definition ten_seconds {P} (now : World P → Time) : DataSource (World P) → DataSource (World P) :=
  source_in_context (λ w, Some (now w + 10 * Second)%Z).
Definition set_inner {W} (w : W) (c : Cache W) : Cache W :=
  {| ch_cfg := ch_cfg c; ch_domains := ch_domains c; ch_entities := ch_entities c;
     ch_nameserver := ch_nameserver c; ch_networks := ch_networks c; ch_pending := ch_pending c;
     ch_inner := w |}.
Definition cache_ctx {P} : RequestContext (Cache (World P)) :=
  {| ctx_Deadline := λ c, w_deadline (ch_inner c);
     ctx_WithDeadline := λ d c, set_inner (set_deadline d (ch_inner c)) c |}.

Section main.
Context `{Pgx} `{PgJSON} `{NetIPText} `{GoUnicode} `{GoMapRange} {P : Type} (pool : Pool P).

(** A panic of the seeder is [None]; the connection fails with an error. *)
Definition buildDataSource (demo : bool) (dsn : string) (synthN : Z) (connect : option error)
    (w : World P) : option ((DataSource (World P) * Index (World P) * World P) + error) :=
  if demo || (dsn =? "")%string then
    store ← (if (0 <? synthN)%Z then Some (SeedSynthetic Memory.New synthN) else Seed Memory.New);
    Some (inl (over_source w_store set_store store_source, over_index w_store set_store store_index,
               set_store store w))
  else match connect with
       | Some err => Some (inr err)
       | None => Some (inl (over_source w_pool set_pool (postgres_source pool),
                            over_index w_pool set_pool (postgres_index pool), w))
       end.

(** The running process: the server of the handlers over a world of its own. *)
Record process := {
  p_W : Type; p_now : p_W → Time; p_ctx : RequestContext p_W; p_server : Server p_W; p_world : p_W;
  p_cache : option ResponseCache;
  p_elapse : Duration → p_W → p_W;         (* time passes between two calls *)
  p_refresh : nat → p_W → option p_W;    (* a background refresh of the record cache *)
  p_pending : p_W → list task            (* those that wait to run *) }.

(** [main] until it listens, or the status it exits with. *)
Definition start (f : Flags) (o : OwnFlags) (cfg : Config.Config) (now : World P → Time)
    (elapse : Duration → World P → World P) (reg : option BootstrapRegistry) (connect : option error) (w : World P) : option (process + Z) :=
  src ← buildDataSource (demo f) (dsn f) (demoSynthN o) connect w;
  match src with
  | inr _ => Some (inr 1%Z)
  | inl (ds, ix, w) =>
      let rc := if (0 <? respCacheSize o)%Z && (0 <? respCacheTTL o)%Z
                then Some (NewResponseCache (respCacheSize o) (respCacheTTL o)) else None in
      if (0 <? cacheSize f)%Z && (0 <? cacheTTL f)%Z then
        c ← Cache.New w {| Size := cacheSize f; TTL := cacheTTL f; NegTTL := cacheNegTTL f;
                           StaleTTL := cacheStaleTTL o |};
        Some (inl {| p_W := Cache (World P); p_now := λ c, now (ch_inner c); p_ctx := cache_ctx;
          p_server := newServer (cache_source now (background ds))
                        (Some (over_index ch_inner set_inner ix)) reg f cfg;
          p_world := c; p_cache := rc; p_elapse := λ d c, set_inner (elapse d (ch_inner c)) c;
          p_refresh := run_pending now (ten_seconds now ds);
          p_pending := ch_pending |})
      else Some (inl {| p_W := World P; p_now := now; p_ctx := world_ctx; p_server := newServer ds (Some ix) reg f cfg;
                        p_world := w; p_cache := rc; p_elapse := elapse; p_refresh := λ _ w, Some w;
                        p_pending := λ _, [] |})
  end.
End main.

(** * Theorems *)
Section facts.
Context `{JSONEncoder} `{GoUnicode} `{GoMapRange} `{NetIPText} `{IDNA} `{MuxRedirect} `{GzipCodec}.

(** ** One status line *)
Section status.
Context {W V : Type} (s : Server W) (verifier : Auth.Verifier V) (now : W → Time).
Context (ctx : RequestContext (rstate W V)) (f : Flags) (trusted : string) (I : W → Prop).
Context (Hctx : context_ok ctx I).

Lemma handler_one_status r rl st ops st' :
  ProviderLaws (s_DS s) I → (∀ ix, s_Search s = Some ix → IndexLaws ix I) →
  I (st_world st) → cache_ok (st_cache st) →
  handler s verifier now ctx f trusted ∅ r (rl, st) = Some (ops, st') → one_status ops.
Proof using Hctx.
  intros Hds Hix Hw Hrc.
  set (st0 := timed now ctx f st).
  assert (Hr : ∀ h ops st', NewRouter s verifier now h r st0 = Some (ops, st') → one_status ops).
  { intros h ops1 st1 E. assert (Hw0 : I (st_world st0)) by by apply Hctx.
    assert (Hrc0 : cache_ok (st_cache st0)) by (unfold st0, timed, WithTimeout; by rewrite (cx_cache _ _ Hctx)).
    destruct (router_answer s verifier now I h r st0 Hds Hix Hw0 Hrc0) as (ops2 & st2 & E2 & _ & _ & Ht & _).
    rewrite E in E2. injection E2 as -> _. by apply tame_one_status. }
  assert (Hm : ∀ h ops st', bounded s verifier now ctx f h r st = Some (ops, st') → one_status ops).
  { intros h ops1 st1. unfold bounded, MaxRequestBody. destruct (_ <? _)%Z.
    - intros [= <- _]. apply http_Error_one_status.
    - unfold Middleware.RequestTimeout. fold (timed now ctx f st). fold st0.
      destruct (Gzip _ _ h r st0) as [[ops2 st2]|] eqn:Eg; [|done]. intros [= <- _].
      by eapply Gzip_one_status. }
  unfold handler, SecurityHeaders, CORS. intros E.
  destruct (r_Method r =? "OPTIONS")%string.
  { injection E as <- _. apply (one_status_end (security_headers ++ cors_headers)). by repeat constructor. }
  unfold limited, RateLimit, unlimited in E. cbv zeta in E. fold (bounded s verifier now ctx f) in E.
  destruct (flt _ _).
  - destruct (Allow _ _ rl) as [ok rl']. destruct ok; cbn [negb] in E.
    + destruct (bounded _ _ _ _ _ _ r st) as [[ops1 st1]|] eqn:Em; [|done]. injection E as <- _.
      repeat (apply one_status_cons; [done|]). by eapply Hm.
    + injection E as <- _. repeat (apply one_status_cons; [done|]).
      by eexists [], _, [_]; split_and!; [reflexivity|constructor|repeat constructor].
  - destruct (bounded _ _ _ _ _ _ r st) as [[ops1 st1]|] eqn:Em; [|done]. injection E as <- _.
    repeat (apply one_status_cons; [done|]). by eapply Hm.
Qed.
End status.

(** ** Deadlines and the record cache *)
Section deadlines.
Context {P : Type} (now : World P → Time) (ds : DataSource (World P)).
Context (Hnow : ∀ d w, now (set_deadline d w) = now w).

Lemma in_context_deadline {A} (f : World P → A * World P) d w :
  in_context (λ _, None) f (set_deadline d w) =
  let '(a, w') := in_context (λ _, None) f w in (a, set_deadline d w').
Proof. unfold in_context. cbn. by destruct (f _). Qed.

Lemma getOrLoad_deadline {R} cfg (f : World P → res R * World P) key (b : Cache.bucket R) d w :
  getOrLoad now cfg (in_context (λ _, None) f) key b (set_deadline d w) =
  (λ '(r, s, b, w), (r, s, b, set_deadline d w)) <$> getOrLoad now cfg (in_context (λ _, None) f) key b w.
Proof using Hnow.
  unfold getOrLoad. rewrite Hnow. destruct (LRU.get key b) as [[raw b1]|]; [|done]. cbn [mbind option_bind].
  assert (Hl : ∀ b, load now cfg (in_context (λ _, None) f) key b (set_deadline d w) =
    (λ '(r, b, w), (r, b, set_deadline d w)) <$> load now cfg (in_context (λ _, None) f) key b w).
  { intros b2. unfold load. rewrite in_context_deadline. destruct (in_context _ f w) as [[v e] w'].
    rewrite Hnow. by destruct (LRU.put _ _ b2). }
  destruct raw as [c|]; [destruct (Before _ _); [done|]; destruct (_ && _); [done|]|]; rewrite Hl;
    by destruct (load _ _ _ _ _ w) as [[[r b2] w2]|].
Qed.

(** A lookup through the record cache does not depend on the deadline of the request that
    makes it, and leaves it alone: whatever the provider does about deadlines, the timeout
    of a request does not end its lookups. *)
Theorem lookups_ignore_deadlines `{NetIPText} d c :
  let set := ctx_WithDeadline cache_ctx d in let src := cache_source now (background ds) in
  let same {A} (m : Cache (World P) → A * Cache (World P)) :=
    m (set c) = let '(a, c') := m c in (a, set c') in
  (∀ k, same (GetDomain src k)) ∧ (∀ k, same (GetEntity src k)) ∧
  (∀ k, same (GetNameserver src k)) ∧ (∀ ip, same (GetIPNetwork src ip)).
Proof using Hnow.
  destruct c as [cf dm en ns ip pe w]. cbv zeta.
  split_and!; intros k; cbn [cache_source GetDomain GetEntity GetNameserver GetIPNetwork];
    unfold or_panic, Cache_GetDomain, Cache_GetEntity, Cache_GetNameserver, Cache_GetIPNetwork;
    cbn [cache_ctx ctx_WithDeadline set_inner ch_cfg ch_domains ch_entities ch_nameserver ch_networks
         ch_pending ch_inner background source_in_context GetDomain GetEntity GetNameserver GetIPNetwork];
    rewrite getOrLoad_deadline; by destruct (getOrLoad _ _ _ _ _ w) as [[[[r s] b] w']|].
Qed.
End deadlines.

(** ** The process *)
Section process.
Context `{!Pgx} `{!PgJSON} {P V : Type} (pool : Pool P).
Context (f : Flags) (o : OwnFlags) (cfg : Config.Config) (now : World P → Time).
Context (elapse : Duration → World P → World P).
Context (reg : option BootstrapRegistry) (connect : option error) (w : World P).
Context (verifier : Auth.Verifier V) (v : V).

Lemma newServer_DS {W} (ds : DataSource W) ix reg' : s_DS (newServer ds ix reg' f cfg) = ds.
Proof. unfold newServer, applyProfile. by destruct (icannGTLD f). Qed.
Lemma newServer_Search {W} (ds : DataSource W) ix reg' : s_Search (newServer ds ix reg' f cfg) = ix.
Proof. unfold newServer, applyProfile. by destruct (icannGTLD f). Qed.

(** A process whose parts keep their contracts. *)
Definition sound_process (p : process) : Prop :=
  ∃ I : p_W p → Prop,
    ProviderLaws (s_DS (p_server p)) I ∧ (∀ ix, s_Search (p_server p) = Some ix → IndexLaws ix I) ∧
    I (p_world p) ∧ cache_ok (p_cache p) ∧
    (∀ i x, I x → ∃ x', p_refresh p i x = Some x' ∧ I x') ∧
    (∀ d x, I x → I (ctx_WithDeadline (p_ctx p) d x)) ∧ (∀ d x, I x → I (p_elapse p d x)).

Lemma source_in_context_laws d (ds : DataSource (World P)) :
  ProviderLaws ds (λ _, True) → ProviderLaws (source_in_context d ds) (λ _, True).
Proof.
  intros Hds. split; intros k x _; cbn; unfold in_context; (split; [|done]).
  - pose proof (law_domain k (set_deadline (d x) x) I) as [Hr _]. by destruct (GetDomain _ _ _).
  - pose proof (law_entity k (set_deadline (d x) x) I) as [Hr _]. by destruct (GetEntity _ _ _).
  - pose proof (law_nameserver k (set_deadline (d x) x) I) as [Hr _]. by destruct (GetNameserver _ _ _).
  - pose proof (law_network k (set_deadline (d x) x) I) as [Hr _]. by destruct (GetIPNetwork _ _ _).
Qed.

Lemma Seed_New : ∃ s, Seed Memory.New = Some s.
Proof. by eexists. Qed.

Lemma buildDataSource_cases :
  match buildDataSource pool (demo f) (dsn f) (demoSynthN o) connect w with
  | None => False
  | Some (inr e) => demo f = false ∧ dsn f ≠ "" ∧ connect ≠ None
  | Some (inl (ds, ix, w')) => ProviderLaws ds (λ _, True) ∧ IndexLaws ix (λ _, True)
  end.
Proof.
  assert (Hstore : ProviderLaws (over_source (W' := World P) w_store set_store store_source) (λ _, True) ∧
                   IndexLaws (over_index (W' := World P) w_store set_store store_index) (λ _, True)).
  { split; [eapply (over_source_laws _ _ (λ _, True))|eapply (over_index_laws _ _ (λ _, True))]; try done;
      (split; intros; (split; [|done])); first [apply ok_or_notfound_ok|done]. }
  unfold buildDataSource. destruct (demo f); cbn [orb].
  2: destruct (String.eqb_spec (dsn f) "") as [Ed|Ed].
  1,2: destruct Seed_New as [s Es]; destruct (0 <? demoSynthN o)%Z; rewrite ?Es; cbn [mbind option_bind];
    exact Hstore.
  destruct connect; [done|]. split.
  - eapply over_source_laws; [..|apply postgres_source_laws]; done.
  - eapply over_index_laws; [..|apply postgres_index_laws]; done.
Qed.

Lemma response_cache_ok size ttl :
  cache_ok (if (0 <? size)%Z && (0 <? ttl)%Z then Some (NewResponseCache size ttl) else None).
Proof.
  destruct (Z.ltb_spec 0 size); [|done]. destruct (Z.ltb_spec 0 ttl); [|done].
  split; [exists size; by apply NewResponseCache_inv; lia|constructor].
Qed.

Lemma start_cases :
  match start pool f o cfg now elapse reg connect w with
  | None => False
  | Some (inr code) => code = 1%Z ∧ demo f = false ∧ dsn f ≠ "" ∧ connect ≠ None
  | Some (inl p) => sound_process p
  end.
Proof.
  unfold start. pose proof buildDataSource_cases as Hc.
  destruct (buildDataSource _ _ _ _ _ _) as [[[[ds ix] w']|e]|]; [|by split|done]. cbn [mbind option_bind].
  destruct Hc as [Hds Hix]. destruct (_ && _) eqn:Ec.
  - bool_hyps.
    set (ccfg := {| Size := cacheSize f; TTL := cacheTTL f; NegTTL := cacheNegTTL f;
                    StaleTTL := cacheStaleTTL o |}).
    destruct (Cache.New w' ccfg) as [c|] eqn:En.
    2: { apply New_None in En as [En|En]; cbn in En; lia. }
    cbn [mbind option_bind]. exists (cache_inv (λ _, True)). cbn.
    rewrite newServer_DS, newServer_Search. split_and!.
    + by apply cache_provider, source_in_context_laws.
    + intros ix' [= <-]. eapply over_index_laws; [..|exact Hix]; [done|]. intros x y _ [].
      by split.
    + by eapply New_inv.
    + apply response_cache_ok.
    + pose proof (source_in_context_laws (λ w, Some (now w + 10 * Second)%Z) ds Hds) as Hten.
      fold (ten_seconds now ds) in Hten.
      intros i x Hx. unfold run_pending. destruct (ch_pending x !! i) as [t|]; [|by exists x].
      destruct x as [cf d e n ip pe wo].
      destruct (run_task_good now (ten_seconds now ds) (λ _, True) t
        (Build_Cache cf d e n ip (take i pe ++ drop (S i) pe) wo)) as (c' & -> & Hc'); [by destruct Hx|].
      by exists c'.
    + by intros d x [].
    + by intros d x [].
  - exists (λ _, True). cbn. rewrite newServer_DS, newServer_Search. split_and!; try done.
    + by intros ix' [= <-].
    + apply response_cache_ok.
    + intros i x _. by exists x.
Qed.
End process.
End facts.
