(* ===== verification/Command.v ===== *)
(** * cmd/gordap: from the command line to the process.

    The flags of main.go, internal/config's [Load], their merge (Config.v), and what main
    does with the result: a status to exit with, or the process of Deploy.v and the servers
    it listens with.  The environment, the reading of a file and gopkg.in/yaml.v3 are
    arguments. *)
From S2P Require Import Prelude GoStrings NetIP DataSource Auth Validate Search Synth Memory LRU Cache ResponseCache Bootstrap Http Middleware Float64 Strconv Flag RateLimit Handlers SearchHandlers Router Config Server Metrics Pgx Postgres PgSchema PgPool PgFacts Deploy.

(** [Load], with the zero [Config] for an empty path. *)
Definition no_config : Config := {|
  Addr := ""; DatabaseURL := ""; Demo := None; SelfLinkBase := ""; ReadHeaderTimo := 0%Z;
  ShutdownTimo := 0%Z; Config.RequestTimeout := 0%Z; MaxBodyBytes := None; RateLimitRPS := None;
  RateLimitBurst := None; GzipMinSize := None; CacheSize := None; CacheTTL := 0%Z;
  CacheNegTTL := 0%Z; TLSCert := ""; TLSKey := ""; EnableBootstrap := None; BootstrapEvery := 0%Z;
  Profile := {| p_ICANNgTLD := false; p_ToSURL := ""; p_ExtraNotices := [] |};
  Config.Auth := {| a_JWKSURL := ""; a_Issuer := ""; a_Audience := ""; a_ScopeMap := ∅ |} |}.

Section command.
Context (Getenv : string → string) (ReadFile : string → string + error).
Context (yaml_Unmarshal : string → Config + error).

Definition Load (path : string) : Config + error :=
  if (path =? "")%string then inl no_config else
  match ReadFile path with
  | inr err => inr (Wrap ("config: read " +:+ path +:+ ": ") err)
  | inl data =>
      match yaml_Unmarshal data with
      | inr err => inr (Wrap ("config: parse " +:+ path +:+ ": ") err)
      | inl c => inl c
      end
  end.

Definition main_flags : flags := [
  ("config", FString "");
  ("addr", FString ":8080");
  ("database-url", FString (Getenv "DATABASE_URL"));
  ("demo", FBool false);
  ("demo-synth", FInt 0);
  ("self-link-base", FString (Getenv "GORDAP_SELF_LINK_BASE"));
  ("icann-gtld", FBool false);
  ("tos-url", FString "");
  ("jwks-url", FString "");
  ("jwks-issuer", FString "");
  ("jwks-audience", FString "");
  ("bootstrap", FBool false);
  ("bootstrap-refresh", FDuration (24 * (60 * Minute)));
  ("read-header-timeout", FDuration (5 * Second));
  ("read-timeout", FDuration (15 * Second));
  ("write-timeout", FDuration (30 * Second));
  ("idle-timeout", FDuration (120 * Second));
  ("shutdown-timeout", FDuration (15 * Second));
  ("request-timeout", FDuration (10 * Second));
  ("max-body-bytes", FInt64 (4 * 2 ^ 10));
  ("rate-limit-rps", FFloat (float_Z 50));
  ("rate-limit-burst", FFloat (float_Z 100));
  ("trusted-proxies", FString "");
  ("gzip-min-size", FInt 128);
  ("cache-size", FInt 50000);
  ("cache-ttl", FDuration (60 * Second));
  ("cache-neg-ttl", FDuration (5 * Second));
  ("cache-stale-ttl", FDuration (30 * Second));
  ("response-cache-size", FInt 50000);
  ("response-cache-ttl", FDuration (60 * Second));
  ("tls-cert", FString "");
  ("tls-key", FString "");
  ("debug-addr", FString "")]%Z.

(** The variables of main after [flag.Parse]. *)
Definition flags_of (actual : gmap string flag_value) : Flags :=
  let str := get_string main_flags actual in let dur := get_duration main_flags actual in
  let int := get_int main_flags actual in let bool := get_bool main_flags actual in
  let float := get_float main_flags actual in {|
  addr := str "addr"; dsn := str "database-url"; selfLinkBase := str "self-link-base";
  icannGTLD := bool "icann-gtld"; tosURL := str "tos-url"; jwksURL := str "jwks-url";
  jwksIssuer := str "jwks-issuer"; jwksAudience := str "jwks-audience";
  cacheSize := int "cache-size"; cacheTTL := dur "cache-ttl"; cacheNegTTL := dur "cache-neg-ttl";
  rateLimitRPS := float "rate-limit-rps"; rateLimitBurst := float "rate-limit-burst";
  gzipMinSize := int "gzip-min-size"; maxBodyBytes := int "max-body-bytes";
  tlsCert := str "tls-cert"; tlsKey := str "tls-key"; requestTimeout := dur "request-timeout";
  readHeaderTimeo := dur "read-header-timeout"; shutdownTimeo := dur "shutdown-timeout";
  enableBootstrap := bool "bootstrap"; bootstrapEvery := dur "bootstrap-refresh"; demo := bool "demo" |}.
Definition own_flags_of (actual : gmap string flag_value) : OwnFlags := {|
  trustedProxies := get_string main_flags actual "trusted-proxies";
  demoSynthN := get_int main_flags actual "demo-synth";
  cacheStaleTTL := get_duration main_flags actual "cache-stale-ttl";
  respCacheSize := get_int main_flags actual "response-cache-size";
  respCacheTTL := get_duration main_flags actual "response-cache-ttl" |}.

(** The settings of a run, or the status it exits with. *)
Definition settings (args : list string) : (gmap string flag_value * Flags * Config) + Z :=
  match Parse main_flags ∅ args with
  | inr code => inr code
  | inl (actual, _) =>
      match Load (get_string main_flags actual "config") with
      | inr _ => inr 2%Z
      | inl cfg => inl (actual, applyYAMLDefaults (Visit actual) cfg (flags_of actual), cfg)
      end
  end.

(** ** The servers *)
Record http_Server := {
  srv_Addr : string; srv_ReadHeaderTimeout : Duration; srv_ReadTimeout : Duration;
  srv_WriteTimeout : Duration; srv_IdleTimeout : Duration }.
(** What the process serves: the RDAP routes, over TLS or not, and the diagnostic ones. *)
Inductive served :=
  | ServeRDAP (srv : http_Server) (tls : option (string * string))
  | ServeDebug (srv : http_Server) (routes : list string).
Definition listeners (actual : gmap string flag_value) (f : Flags) : list served :=
  let debugAddr := get_string main_flags actual "debug-addr" in
  (if negb (debugAddr =? "")%string
   then [ServeDebug {| srv_Addr := debugAddr; srv_ReadHeaderTimeout := (5 * Second)%Z; srv_ReadTimeout := 0%Z;
                       srv_WriteTimeout := 0%Z; srv_IdleTimeout := 0%Z |}
           ["/debug/vars"; "/debug/pprof/"; "/debug/pprof/cmdline"; "/debug/pprof/profile";
            "/debug/pprof/symbol"; "/debug/pprof/trace"]]
   else []) ++
  [ServeRDAP {| srv_Addr := addr f; srv_ReadHeaderTimeout := readHeaderTimeo f;
                srv_ReadTimeout := get_duration main_flags actual "read-timeout";
                srv_WriteTimeout := get_duration main_flags actual "write-timeout";
                srv_IdleTimeout := get_duration main_flags actual "idle-timeout" |}
     (if negb (tlsCert f =? "")%string then Some (tlsCert f, tlsKey f) else None)].

(** ** main *)
Section main.
Context `{Pgx} `{PgJSON} `{NetIPText} `{GoUnicode} `{GoMapRange} {P : Type} (pool : Pool P).
(** [main] until it listens: [connect] is what pgxpool makes of a DSN. *)
Definition main (args : list string) (now : World P → Time) (elapse : Duration → World P → World P)
    (connect : string → option error) (w : World P) : option ((process * list served) + Z) :=
  match settings args with
  | inr code => Some (inr code)
  | inl (actual, f, cfg) =>
      p ← start pool f (own_flags_of actual) cfg now elapse None (connect (dsn f)) w;
      Some (match p with inl p => inl (p, listeners actual f) | inr code => inr code end)
  end.
End main.
End command.

(** * Theorems *)

(** ** The table of settings *)

(** The value of a flag in the terms of Config.v. *)
Definition as_setting (v : flag_value) : Config.value :=
  match v with
  | FString s => VString s | FBool b => VBool b | FInt z | FInt64 z | FDuration z => VInt z
  | FFloat x => VFloat x
  end.
(** What a file asks for, flag by flag, in the order of [flag_names]. *)
Definition file_values (cfg : Config) : list (option Config.value) := [
  VString <$> nonempty (Addr cfg); VString <$> nonempty (DatabaseURL cfg);
  VString <$> nonempty (SelfLinkBase cfg); VBool <$> if_true (p_ICANNgTLD (Profile cfg));
  VString <$> nonempty (p_ToSURL (Profile cfg)); VString <$> nonempty (a_JWKSURL (Config.Auth cfg));
  VString <$> nonempty (a_Issuer (Config.Auth cfg)); VString <$> nonempty (a_Audience (Config.Auth cfg));
  VInt <$> CacheSize cfg; VInt <$> positive (CacheTTL cfg); VInt <$> positive (CacheNegTTL cfg);
  VFloat <$> RateLimitRPS cfg; VFloat <$> RateLimitBurst cfg; VInt <$> GzipMinSize cfg;
  VInt <$> MaxBodyBytes cfg; VString <$> nonempty (TLSCert cfg); VString <$> nonempty (TLSKey cfg);
  VInt <$> positive (Config.RequestTimeout cfg); VInt <$> positive (ReadHeaderTimo cfg);
  VInt <$> positive (ShutdownTimo cfg); VBool <$> EnableBootstrap cfg;
  VInt <$> positive (BootstrapEvery cfg); VBool <$> Demo cfg].
Definition file_value (cfg : Config) (name : string) : option Config.value :=
  i ← fst <$> list_find (eq name) flag_names; mjoin (file_values cfg !! i).

Section facts.
Context (Getenv : string → string) (ReadFile : string → string + error).
Context (yaml_Unmarshal : string → Config + error).
#[local] Abbreviation table := (main_flags Getenv).

Definition same_type (v w : flag_value) : Prop :=
  match v, w with
  | FString _, FString _ | FBool _, FBool _ | FInt _, FInt _ | FInt64 _, FInt64 _
  | FFloat _, FFloat _ | FDuration _, FDuration _ => True
  | _, _ => False
  end.
Lemma Set_value_type v s v' : Set_value v s = Some v' → same_type v v'.
Proof.
  destruct v; cbn; [by intros [= <-]|..];
    [destruct (ParseBool s)|destruct (ParseInt s)|destruct (ParseInt s)|destruct (ParseFloat s)
    |destruct (ParseDuration s)]; by intros [= <-].
Qed.
Lemma given_type fs l name v v0 : formal fs name = Some v0 → given fs l name = Some v → same_type v0 v.
Proof.
  intros Hf. induction l as [|s l IH]; cbn [given]; [done|].
  destruct (given fs l name); [by intros [= ->]; apply IH|]. destruct (decide _) as [<-|]; [|done].
  unfold setting_value. rewrite Hf. cbn. destruct (se_spelling s); [apply Set_value_type| |].
  - destruct (IsBoolFlag v0); [done|apply Set_value_type].
  - destruct v0; try done. by intros [= <-].
Qed.
Lemma elem_of_Visit actual name : name ∈ Visit actual ↔ is_Some (actual !! name).
Proof.
  unfold Visit. rewrite list_elem_of_fmap. split.
  - intros ([n v] & -> & Hin%elem_of_map_to_list). by exists v.
  - intros [v Hv]. exists (name, v). split; [done|by apply elem_of_map_to_list].
Qed.

(** A flag after the merge: what was set on the command line, else what the file asks for,
    else the default. *)
Definition merged (g file : option Config.value) (d : Config.value) : Config.value :=
  default (default d file) g.
Lemma overlay_merged {A} (C : A → Config.value) fs actual name d (y : option A) (v : A) :
  formal fs name = Some d → C v = as_setting (default d (actual !! name)) →
  C (overlay (Visit actual) name y v) = merged (as_setting <$> actual !! name) (C <$> y) (as_setting d).
Proof.
  intros Hf Hv. unfold merged. destruct (actual !! name) as [u|] eqn:Ea.
  - rewrite overlay_set; [done|]. apply elem_of_Visit. by exists u.
  - rewrite overlay_unset; [by destruct y|]. rewrite elem_of_Visit, Ea. by intros [? ?].
Qed.

Section merged.
Context (l : list setting) (actual : gmap string flag_value) (cfg : Config).
Context (Ha : ∀ name, actual !! name = given table l name).

(** The getters agree with the type of their flag. *)
Lemma got {A} (C : A → Config.value) (get : flags → gmap string flag_value → string → A) name d :
  formal table name = Some d →
  (∀ fs a v, lookup_flag fs a name = Some v → same_type d v → C (get fs a name) = as_setting v) →
  C (get table actual name) = as_setting (default d (actual !! name)).
Proof using Ha.
  intros Hf Hg. apply Hg; unfold lookup_flag; rewrite Ha; destruct (given table l name) as [v|] eqn:E; try done.
  - by eapply given_type.
  - by destruct d.
Qed.

(** One row of the table. *)
Lemma flag_row {A} (C : A → Config.value) (get : flags → gmap string flag_value → string → A) name d y :
  formal table name = Some d →
  (∀ fs a v, lookup_flag fs a name = Some v → same_type d v → C (get fs a name) = as_setting v) →
  Some (C (overlay (Visit actual) name y (get table actual name))) =
  merged (as_setting <$> given table l name) (C <$> y) <$> (as_setting <$> formal table name).
Proof using Ha.
  intros Hf Hg. rewrite Hf. cbn [fmap option_fmap option_map]. f_equal.
  rewrite <-Ha. eapply overlay_merged; [done|]. by apply got.
Qed.
End merged.

(** The getters of the types. *)
#[local] Ltac getter := intros ? ? v ?Hv ?Ht; unfold get_string, get_bool, get_int, get_duration, get_float;
  rewrite Hv; by destruct v.
#[local] Ltac row l actual Ha :=
  first [eapply (flag_row l actual Ha VString get_string)|eapply (flag_row l actual Ha VBool get_bool)
        |eapply (flag_row l actual Ha VFloat get_float)|eapply (flag_row l actual Ha VInt get_int)
        |eapply (flag_row l actual Ha VInt get_duration)]; [reflexivity|getter].

(** The file a command line names. *)
Definition config_path (l : list setting) : string :=
  match given table l "config" with Some (FString s) => s | _ => "" end.
(** Arguments that begin with one that is not a flag, or that ends the flags. *)
Definition no_flags (rest : list string) : Prop :=
  ∀ a r, rest = a :: r → dashes a = None ∨ dashes a = Some None.

(** C37: the configuration of a run.  Take any command line of settings of the flags of main,
    each spelled with one dash or two, with its value behind an equals sign or in the next
    argument, booleans bare, followed by any arguments that are not flags; and let the file
    it names load.  Then main goes on with a configuration in which every flag that a file
    can set has the value of its last setting on the command line; if there is none, what
    the file asks for; and if it asks for nothing, its default (of two flags, a variable of
    the environment).  A file that does not load exits with status 2.  So does, after any such
    settings and whatever follows, one that is faulty, with one dash or two: an unknown flag in
    any spelling, a value that does not parse behind the equals sign or in the next argument,
    a flag other than a boolean at the end of the line without its value, or an argument of
    three dashes or an empty name; but asking for help ([-h], [-help], with or without a
    value) exits with 0. *)
Theorem settings_precedence l rest : Forall (valid table) l →
  (∀ cfg, no_flags rest → Load ReadFile yaml_Unmarshal (config_path l) = inl cfg →
     ∃ actual f, settings Getenv ReadFile yaml_Unmarshal ((l ≫= spell) ++ rest) = inl (actual, f, cfg) ∧
       ∀ name, name ∈ flag_names →
         Config.flag_of f name = merged (as_setting <$> given table l name) (file_value cfg name) <$>
                                   (as_setting <$> formal table name)) ∧
  (∀ err, no_flags rest → Load ReadFile yaml_Unmarshal (config_path l) = inr err →
     settings Getenv ReadFile yaml_Unmarshal ((l ≫= spell) ++ rest) = inr 2%Z) ∧
  (∀ s, plain_name (se_name s) → faulty table s rest →
     settings Getenv ReadFile yaml_Unmarshal ((l ≫= spell) ++ spell s ++ rest) =
     inr (if bool_decide (se_name s ∈ ["help"; "h"]) then 0%Z else 2%Z)) ∧
  (∀ a text, dashes a = Some (Some text) → flag_text text = None →
     settings Getenv ReadFile yaml_Unmarshal ((l ≫= spell) ++ a :: rest) = inr 2%Z).
Proof.
  intros Hl.
  assert (Hp : ∃ actual, (∀ name, actual !! name = given table l name) ∧
    ∀ rest, Parse table ∅ ((l ≫= spell) ++ rest) = Parse table actual rest).
  { destruct (Parse_settings table l Hl ∅ []) as (actual & E & Ha). exists actual. split.
    - intros n. rewrite Ha, lookup_empty. by destruct (given table l n).
    - intros rest'. destruct (Parse_settings table l Hl ∅ rest') as (actual' & -> & Ha').
      f_equal. apply map_eq. intros n. by rewrite Ha, Ha'. }
  destruct Hp as (actual & Ha & Hp).
  assert (Hc : get_string table actual "config" = config_path l).
  { unfold get_string, lookup_flag, config_path. rewrite Ha. by destruct (given table l "config"). }
  assert (Hr : no_flags rest → ∃ r, Parse table actual rest = inl (actual, r)).
  { intros Hrest. destruct rest as [|a r]; [by eexists|]. cbn [Parse].
    destruct (Hrest a r eq_refl) as [-> | ->]; by eexists. }
  unfold settings. rewrite !Hp. split_and!.
  - intros cfg [r ->]%Hr Hload. rewrite Hc, Hload. eexists _, _. split; [done|]. intros name Hn.
    unfold flag_of, file_value. destruct (list_find (eq name) flag_names) as [[i x]|] eqn:Ei.
    2: { apply list_find_None in Ei. rewrite Forall_forall in Ei. by destruct (Ei name Hn). }
    apply list_find_Some in Ei as (Hi & <- & _). cbn [fmap option_fmap option_map fst mbind option_bind].
    do 23 (destruct i as [|i]; [injection Hi as <-; row l actual Ha|]). done.
  - intros err [r ->]%Hr Hload. by rewrite Hc, Hload.
  - intros s Hn Hf. rewrite Hp, Parse_bad by done. f_equal.
    destruct (formal table (se_name s)) as [v|] eqn:Ef; [|done].
    rewrite bool_decide_false; [done|]. intros Hin. rewrite !elem_of_cons, elem_of_nil in Hin.
    destruct Hin as [E|[E|[]]]; by rewrite E in Ef.
  - intros a text Hd Ht. by rewrite Hp, (Parse_malformed _ _ _ _ _ Hd Ht).
Qed.
End facts.

(** * Witnesses *)

(** A file that sets the rate and the address. *)
Definition no_env (_ : string) : string := "".
Definition one_file (path : string) : string + error :=
  if (path =? "rdap.yaml")%string then inl "addr: :9090" else inr (ErrOther "no such file").
Definition file_config : Config := {|
  Addr := ":9090"; DatabaseURL := ""; Demo := None; SelfLinkBase := ""; ReadHeaderTimo := 0%Z;
  ShutdownTimo := 0%Z; Config.RequestTimeout := 0%Z; MaxBodyBytes := None;
  RateLimitRPS := Some (float_Z 5); RateLimitBurst := None; GzipMinSize := None; CacheSize := None;
  CacheTTL := 0%Z; CacheNegTTL := 0%Z; TLSCert := ""; TLSKey := ""; EnableBootstrap := None;
  BootstrapEvery := 0%Z; Profile := {| p_ICANNgTLD := false; p_ToSURL := ""; p_ExtraNotices := [] |};
  Config.Auth := {| a_JWKSURL := ""; a_Issuer := ""; a_Audience := ""; a_ScopeMap := ∅ |} |}.
Definition one_config (_ : string) : Config + error := inl file_config.
Definition some_settings : list setting := [
  {| se_two := true; se_spelling := SNext; se_name := "config"; se_text := "rdap.yaml" |};
  {| se_two := false; se_spelling := SBare; se_name := "demo"; se_text := "" |};
  {| se_two := false; se_spelling := SEquals; se_name := "rate-limit-rps"; se_text := "0" |};
  {| se_two := true; se_spelling := SEquals; se_name := "cache-ttl"; se_text := "1m30s" |}].

(** A stray argument ends the flags: what follows it is ignored. *)
Example stray_argument_ex :
  match settings no_env one_file one_config ["serve"; "-demo"; "-addr=:1"] with
  | inl (_, f, _) => (demo f, addr f) = (false, ":8080")
  | inr _ => False
  end ∧
  settings no_env one_file one_config ["-h"] = inr 0%Z ∧
  settings no_env one_file one_config ["-demo"; "--help"; "x"] = inr 0%Z ∧
  settings no_env one_file one_config ["-cache-ttl"] = inr 2%Z ∧
  settings no_env one_file one_config ["-cache-ttl"; "soon"] = inr 2%Z ∧
  settings no_env one_file one_config ["-nothing"; "-h"] = inr 2%Z ∧
  settings no_env one_file one_config ["---demo"] = inr 2%Z.
Proof. vm_compute. done. Qed.

Lemma settings_precedence_witness :
  (some_settings ≫= spell) = ["--config"; "rdap.yaml"; "-demo"; "-rate-limit-rps=0"; "--cache-ttl=1m30s"] ∧
  ∃ actual f, settings no_env one_file one_config ((some_settings ≫= spell) ++ []) = inl (actual, f, file_config) ∧
    flag_of f "rate-limit-rps" = Some (VFloat (float_Z 0)) ∧ flag_of f "addr" = Some (VString ":9090") ∧
    flag_of f "cache-ttl" = Some (VInt (90 * Second)%Z) ∧ flag_of f "gzip-min-size" = Some (VInt 128%Z) ∧
    settings no_env one_file one_config ((some_settings ≫= spell) ++ ["-h"]) = inr 0%Z.
Proof.
  split; [reflexivity|].
  assert (Hv : Forall (valid (main_flags no_env)) some_settings).
  { repeat (apply Forall_cons; split); [..|constructor];
      (split; [split; [discriminate|reflexivity]|eexists; vm_compute; reflexivity]). }
  destruct (settings_precedence no_env one_file one_config some_settings [] Hv) as (H & _ & Hbad & _).
  destruct (H file_config ltac:(intros a r E; discriminate E) eq_refl) as (actual & f & E & Hf).
  exists actual, f. split; [exact E|].
  assert (Hn : ∀ n, bool_decide (n ∈ flag_names) = true → n ∈ flag_names) by (intros n; apply bool_decide_eq_true).
  split_and!; [rewrite Hf by (apply Hn; vm_compute; reflexivity); vm_compute; reflexivity..|].
  apply (Hbad {| se_two := false; se_spelling := SBare; se_name := "h"; se_text := "" |}).
  - split; [discriminate|reflexivity].
  - apply faulty_unknown. vm_compute. reflexivity.
Defined.
