(* ===== verification/Lifecycle.v ===== *)
(** * cmd/gordap: the life of the process.

    What runs once main has put the server together (Deploy.v): the requests, the two loops
    on their tickers, the listener, the signal and the shutdown.  A step of a goroutine is one
    [event]; requests and refreshes of the record cache are events too, in any order, each from
    its start to its end: what overlapping lookups of the record cache do is in CacheRun.v, and
    of that only the panic of a background refresh, which ends the process, is an event here.
    While main shuts down, the requests are those that were in flight. *)
From S2P Require Import Prelude GoStrings NetIP DataSource Auth Validate Search Synth Memory LRU Cache ResponseCache Bootstrap Http Middleware Float64 RateLimit Handlers SearchHandlers Router Config Server Metrics Pgx Postgres PgSchema PgPool PgFacts Deploy Command.

Definition ErrServerClosed : error := ErrOther "http: Server closed".

(** ** The loops *)

(** A goroutine with a ticker: before [time.NewTicker], in its [select], or returned. *)
Inductive loop := LAbsent | LStarting | LWaiting | LEnded.
Inductive which := RefreshLoop | CleanupLoop.
(** Where main stands: at [<-ctx.Done()], in [srv.Shutdown], or gone with a status. *)
Inductive main_point := MWaiting | MShutdown | MExited (code : Z).

Inductive event :=
  | ERequest (r : Request)          (* a request is served *)
  | ECacheRefresh (i : nat)         (* a background refresh of the record cache *)
  | ERefreshPanic (i : nat)         (* one that waited has met a call for another kind of record *)
  | EElapse (d : Duration)          (* time passes *)
  | ESignal                         (* SIGINT or SIGTERM *)
  | EListen (err : error)           (* ListenAndServe returns *)
  | ELoopStart (l : which) | ETick (l : which) | ELoopDone (l : which)
  | EWake                           (* main sees the end of its context *)
  | EShutdown (err : option error)  (* srv.Shutdown returns *).

(** The registry as the handlers see it, each lookup with the lock held. *)
Definition as_registry `{GoUnicode} (reg : Registry) : BootstrapRegistry :=
  {| br_DomainServers := λ name, DomainServers name reg; br_IPServers := λ ip, IPServers ip reg |}.
Definition set_Bootstrap {W} (reg : option BootstrapRegistry) (s : Server W) : Server W :=
  {| s_DS := s_DS s; s_Bootstrap := reg; s_Search := s_Search s; s_SelfLinkBase := s_SelfLinkBase s;
     s_ExtraConformance := s_ExtraConformance s; s_Notices := s_Notices s;
     s_EmitJCard := s_EmitJCard s; s_RedactionReason := s_RedactionReason s |}.

Section life.
Context `{JSONEncoder} `{GoUnicode} `{GoMapRange} `{NetIPText} `{IDNA} `{MuxRedirect} `{GzipCodec} `{Tracing}.
Context {N V : Type} (http_Do : string → N → (Bootstrap.response + error) * N).
Context (decode_json : string → services + error).
Context (verifier : Auth.Verifier V) (v_ctx : option Time → V → V) (f : Flags) (o : OwnFlags) (p : process).

(** The access log, the limiter, and what the router works on. *)
Definition pstate : Type := list AccessRecord * (RateLimiter * rstate (p_W p) V).
(** The context of a request reaches the provider and the verifier. *)
Definition request_ctx : RequestContext (rstate (p_W p) V) :=
  {| ctx_Deadline := λ st, ctx_Deadline (p_ctx p) (st_world st);
     ctx_WithDeadline := λ d st, Build_rstate (ctx_WithDeadline (p_ctx p) d (st_world st))
                                   (v_ctx d (st_verifier st)) (st_cache st) |}.
(** The whole chain, the access log outermost, with the registry of the moment. *)
Definition serve_request (reg : option Registry) : Middleware pstate :=
  AccessLog (λ st : RateLimiter * rstate (p_W p) V, p_now p (st_world st.2))
    (handler (set_Bootstrap (as_registry <$> reg) (p_server p)) verifier (p_now p) request_ctx f
       (trustedProxies o)).
Definition init_state (v : V) : pstate :=
  ([], (NewRateLimiter (rateLimitRPS f) (rateLimitBurst f), Build_rstate (p_world p) v (p_cache p))).

Record life := {
  lf_done : bool;                (* the context of main has ended *)
  lf_main : main_point;
  lf_listener : bool;            (* ListenAndServe has not returned *)
  lf_refresh : loop; lf_cleanup : loop;
  lf_registry : option Registry; lf_http : N;
  lf_state : pstate;
  lf_crashed : bool              (* a goroutine has panicked, and with it the process *) }.

(** The registry main starts with: a registry whose first refresh fails is not used. *)
Definition first_registry (w : N) : option Registry * N :=
  if enableBootstrap f then
    let '(err, reg, w) := Refresh http_Do decode_json Bootstrap.New w in
    (match err with None => Some reg | Some _ => None end, w)
  else (None, w).
Definition init_life (v : V) (w : N) : life :=
  let '(reg, w) := first_registry w in
  {| lf_done := false; lf_main := MWaiting; lf_listener := true;
     lf_refresh := match reg with Some _ => LStarting | None => LAbsent end;
     lf_cleanup := if flt (float_Z 0) (rateLimitRPS f) then LStarting else LAbsent;
     lf_registry := reg; lf_http := w; lf_state := init_state v; lf_crashed := false |}.

Definition set_loop (l : which) (x : loop) (s : life) : life :=
  {| lf_done := lf_done s; lf_main := lf_main s; lf_listener := lf_listener s;
     lf_refresh := match l with RefreshLoop => x | CleanupLoop => lf_refresh s end;
     lf_cleanup := match l with RefreshLoop => lf_cleanup s | CleanupLoop => x end;
     lf_registry := lf_registry s; lf_http := lf_http s; lf_state := lf_state s;
     lf_crashed := lf_crashed s |}.
Definition loop_of (l : which) (s : life) : loop :=
  match l with RefreshLoop => lf_refresh s | CleanupLoop => lf_cleanup s end.
Definition set_state (st : pstate) (s : life) : life :=
  {| lf_done := lf_done s; lf_main := lf_main s; lf_listener := lf_listener s;
     lf_refresh := lf_refresh s; lf_cleanup := lf_cleanup s; lf_registry := lf_registry s;
     lf_http := lf_http s; lf_state := st; lf_crashed := lf_crashed s |}.
Definition set_main (m : main_point) (listener : bool) (done : bool) (s : life) : life :=
  {| lf_done := done; lf_main := m; lf_listener := listener;
     lf_refresh := lf_refresh s; lf_cleanup := lf_cleanup s; lf_registry := lf_registry s;
     lf_http := lf_http s; lf_state := lf_state s; lf_crashed := lf_crashed s |}.
Definition crash (s : life) : life :=
  {| lf_done := lf_done s; lf_main := lf_main s; lf_listener := lf_listener s;
     lf_refresh := lf_refresh s; lf_cleanup := lf_cleanup s; lf_registry := lf_registry s;
     lf_http := lf_http s; lf_state := lf_state s; lf_crashed := true |}.

(** [time.NewTicker] panics on an interval that is not positive. *)
Definition interval (l : which) : Duration :=
  match l with RefreshLoop => bootstrapEvery f | CleanupLoop => (2 * Minute)%Z end.
(** One round of [refreshLoop] or [rateLimitCleanup]; a refresh that fails is logged. *)
Definition tick (l : which) (s : life) : life :=
  match l with
  | RefreshLoop =>
      match lf_registry s with
      | Some reg =>
          let '(_, reg, w) := Refresh http_Do decode_json reg (lf_http s) in
          {| lf_done := lf_done s; lf_main := lf_main s; lf_listener := lf_listener s;
             lf_refresh := lf_refresh s; lf_cleanup := lf_cleanup s; lf_registry := Some reg;
             lf_http := w; lf_state := lf_state s; lf_crashed := lf_crashed s |}
      | None => s
      end
  | CleanupLoop =>
      let '(log, (rl, rs)) := lf_state s in
      set_state (log, (CleanupIdle (p_now p (st_world rs)) rl, rs)) s
  end.

Definition with_world (w : p_W p) (st : pstate) : pstate :=
  let '(log, (rl, rs)) := st in (log, (rl, Build_rstate w (st_verifier rs) (st_cache rs))).

(** [main] has returned, or called [os.Exit], or a goroutine has panicked. *)
Definition ended (s : life) : bool :=
  lf_crashed s || match lf_main s with MExited _ => true | _ => false end.

Definition life_step (e : event) (s : life) : option life :=
  if ended s then None else
  match e with
  | ERequest r => '(ops, st) ← serve_request (lf_registry s) ∅ r (lf_state s); Some (set_state st s)
  | ECacheRefresh i =>
      w ← p_refresh p i (st_world (lf_state s).2.2); Some (set_state (with_world w (lf_state s)) s)
  | ERefreshPanic i =>
      (* the failed type assertion of [refreshAsync]: nothing recovers it *)
      match p_pending p (st_world (lf_state s).2.2) !! i with
      | Some _ => Some (crash s)
      | None => None
      end
  | EElapse d =>
      Some (set_state (with_world (p_elapse p d (st_world (lf_state s).2.2)) (lf_state s)) s)
  | ESignal => Some (set_main (lf_main s) (lf_listener s) true s)
  | EListen err =>
      if lf_listener s
      then Some (set_main (lf_main s) false (lf_done s || negb (errors_Is err ErrServerClosed)) s)
      else None
  | ELoopStart l =>
      match loop_of l s with
      | LStarting => Some (if (0 <? interval l)%Z then set_loop l LWaiting s else crash s)
      | _ => None
      end
  | ETick l => match loop_of l s with LWaiting => Some (tick l s) | _ => None end
  | ELoopDone l =>
      match loop_of l s with
      | LWaiting => if lf_done s then Some (set_loop l LEnded s) else None
      | _ => None
      end
  | EWake =>
      match lf_main s with
      | MWaiting => if lf_done s then Some (set_main MShutdown (lf_listener s) true s) else None
      | _ => None
      end
  | EShutdown err =>
      match lf_main s with
      | MShutdown =>
          Some (set_main (MExited (match err with None => 0 | Some _ => 1 end)%Z) (lf_listener s) true s)
      | _ => None
      end
  end.
Fixpoint life_run (es : list event) (s : life) : option life :=
  match es with [] => Some s | e :: es => s ← life_step e s; life_run es s end.
End life.
Arguments life N V p : clear implicits.
Arguments lf_done {N V p} _.
Arguments lf_main {N V p} _.
Arguments lf_listener {N V p} _.
Arguments lf_refresh {N V p} _.
Arguments lf_cleanup {N V p} _.
Arguments lf_registry {N V p} _.
Arguments lf_http {N V p} _.
Arguments lf_state {N V p} _.
Arguments lf_crashed {N V p} _.
Arguments loop_of {N V p} _ _.
Arguments ended {N V p} _.
Arguments with_world {V p} _ _.

(** * Theorems *)
Section facts.
Context `{JSONEncoder} `{GoUnicode} `{GoMapRange} `{NetIPText} `{IDNA} `{MuxRedirect} `{GzipCodec} `{Tracing}.
Context {N V : Type} (http_Do : string → N → (Bootstrap.response + error) * N).
Context (decode_json : string → services + error) (verifier : Auth.Verifier V).
Context (v_ctx : option Time → V → V) (f : Flags) (o : OwnFlags).

Section steps.
Context (p : process) (v : V) (w : N).
#[local] Abbreviation step := (life_step http_Do decode_json verifier v_ctx f o p).
#[local] Abbreviation run := (life_run http_Do decode_json verifier v_ctx f o p).
#[local] Abbreviation init := (init_life http_Do decode_json f p v w).

Lemma life_run_app es es' s : run (es ++ es') s = s' ← run es s; run es' s'.
Proof.
  revert s. induction es as [|e es IH]; intros s; cbn; [done|].
  destruct (step e s) as [s1|]; cbn; [apply IH|done].
Qed.
Lemma life_run_snoc es e s : run (es ++ [e]) s = s' ← run es s; step e s'.
Proof. rewrite life_run_app. destruct (run es s) as [s'|]; cbn; [by destruct (step e s')|done]. Qed.

(** An invariant of the runs from the start of the process. *)
Lemma life_invariant (Inv : list event → life N V p → Prop) :
  Inv [] init →
  (∀ es s e s', run es init = Some s → Inv es s → step e s = Some s' → Inv (es ++ [e]) s') →
  ∀ es s, run es init = Some s → Inv es s.
Proof.
  intros Hi Hs es. induction es as [|e es IH] using rev_ind; intros s; [by intros [= <-]|].
  rewrite life_run_snoc. destruct (run es init) as [s1|] eqn:E; [|done]. cbn. intros E'.
  by eapply Hs, E'; [|apply IH].
Qed.

(** The parts of the state a step works on: the requests and the refreshes of the record
    cache on the data, the refresh loop on the registry, the rest on neither. *)
Lemma step_state e s s' : step e s = Some s' →
  match e with
  | ERequest r => ∃ ops, serve_request verifier v_ctx f o p (lf_registry s) ∅ r (lf_state s) = Some (ops, lf_state s')
  | ECacheRefresh i => ∃ x, p_refresh p i (st_world (lf_state s).2.2) = Some x ∧
                            lf_state s' = with_world x (lf_state s)
  | EElapse d => lf_state s' = with_world (p_elapse p d (st_world (lf_state s).2.2)) (lf_state s)
  | _ => (lf_state s').2.2 = (lf_state s).2.2 ∧ (lf_state s').1 = (lf_state s).1
  end.
Proof.
  unfold life_step. destruct (ended s); [done|]. destruct e; cbn.
  - destruct (serve_request _ _ _ _ _ _ _ _ _) as [[ops st]|]; [|done]. intros [= <-]. by exists ops.
  - destruct (p_refresh _ _ _) as [x|]; [|done]. intros [= <-]. by exists x.
  - destruct (_ !! i); [|done]. by intros [= <-].
  - by intros [= <-].
  - by intros [= <-].
  - destruct (lf_listener s); [|done]. by intros [= <-].
  - destruct (loop_of l s); try done. destruct (_ <? _)%Z; by intros [= <-].
  - destruct (loop_of l s); try done. intros [= <-]. unfold tick. destruct l.
    + destruct (lf_registry s) as [reg|]; [|done]. by destruct (Refresh _ _ _ _) as [[??]?].
    + by destruct (lf_state s) as [log [rl rs]].
  - destruct (loop_of l s); try done. destruct (lf_done s); [|done]. by intros [= <-].
  - destruct (lf_main s); try done. destruct (lf_done s); [|done]. by intros [= <-].
  - destruct (lf_main s); try done. by intros [= <-].
Qed.

(** The context of a request changes the deadlines and nothing else. *)
Lemma request_ctx_ok (I : p_W p → Prop) :
  (∀ d x, I x → I (ctx_WithDeadline (p_ctx p) d x)) → context_ok (request_ctx v_ctx p) I.
Proof. intros Hd. split; [|done]. intros d st. apply Hd. Qed.

(** What the process is in after a run from its start: sound data. *)
Lemma run_sound I es s :
  run es init = Some s →
  ProviderLaws (s_DS (p_server p)) I → (∀ ix, s_Search (p_server p) = Some ix → IndexLaws ix I) →
  I (p_world p) → cache_ok (p_cache p) →
  (∀ i x, I x → ∃ x', p_refresh p i x = Some x' ∧ I x') →
  (∀ d x, I x → I (ctx_WithDeadline (p_ctx p) d x)) → (∀ d x, I x → I (p_elapse p d x)) →
  I (st_world (lf_state s).2.2) ∧ cache_ok (st_cache (lf_state s).2.2).
Proof.
  intros Hrun Hds Hix Hw Hrc Href Hd Hel. revert es s Hrun.
  apply (life_invariant (λ _ s, I (st_world (lf_state s).2.2) ∧ cache_ok (st_cache (lf_state s).2.2))).
  { unfold init_life. by destruct (first_registry _ _ _ _) as [??]. }
  intros es s e s' _ [Hw' Hrc'] E. apply step_state in E.
  destruct e as [r|i|i|d| | | | | | |]; [| |by destruct E as [-> _]| |by destruct E as [-> _]..].
  - destruct E as [ops E]. destruct (lf_state s) as [log [rl rs]].
    unfold serve_request, AccessLog in E. cbn in E.
    destruct (handler_answers (set_Bootstrap (as_registry <$> lf_registry s) (p_server p)) verifier (p_now p)
      (request_ctx v_ctx p) f (trustedProxies o) I (request_ctx_ok I Hd) r rl rs)
      as (ops1 & rl' & rs' & E1 & Hw1 & Hrc1 & _); [done..|].
    rewrite E1 in E. by injection E as _ <-.
  - destruct E as (x & Ex & ->). destruct (lf_state s) as [log [rl rs]]. cbn in *.
    destruct (Href i _ Hw') as (x' & Ex' & Hx'). rewrite Ex in Ex'. by injection Ex' as ->.
  - rewrite E. destruct (lf_state s) as [log [rl rs]]. cbn in *. auto.
Qed.

(** ** Registry and end *)

(** What ends the context of main. *)
Definition stop_event (e : event) : Prop :=
  match e with ESignal => True | EListen err => errors_Is err ErrServerClosed = false | _ => False end.
Definition exit_code (err : option error) : Z := match err with None => 0 | Some _ => 1 end.
(** [e1] then [e2], with whatever before, between and after. *)
Definition in_turn (P Q : event → Prop) (es : list event) : Prop :=
  ∃ es1 e1 es2 e2 es3, es = es1 ++ e1 :: es2 ++ e2 :: es3 ∧ P e1 ∧ Q e2.

(** The registry comes from a refresh that succeeded, and a loop over it exists then only. *)
Definition loaded (s : life N V p) : Prop :=
  match lf_registry s with
  | Some reg => enableBootstrap f = true ∧
                ∃ reg0 x y, Refresh http_Do decode_json reg0 x = (None, reg, y)
  | None => lf_refresh s = LAbsent
  end.
(** What has happened when main, a loop or the process is where it is. *)
Definition accounted (es : list event) (s : life N V p) : Prop :=
  (lf_done s = true → Exists stop_event es) ∧
  (lf_main s = MShutdown → lf_done s = true ∧ in_turn stop_event (eq EWake) es) ∧
  (∀ l, loop_of l s = LEnded → lf_done s = true) ∧
  (∀ code, lf_main s = MExited code →
     ∃ es0 err, es = es0 ++ [EShutdown err] ∧ code = exit_code err ∧ in_turn stop_event (eq EWake) es0) ∧
  (lf_crashed s = true →
     ((bootstrapEvery f ≤ 0)%Z ∧ lf_registry s ≠ None ∧ ∃ es0, es = es0 ++ [ELoopStart RefreshLoop]) ∨
     ∃ es0 i s0 t, es = es0 ++ [ERefreshPanic i] ∧ run es0 init = Some s0 ∧
       p_pending p (st_world (lf_state s0).2.2) !! i = Some t).

Lemma Refresh_failed reg x : match Refresh http_Do decode_json reg x with
  | (Some _, reg', _) => reg' = reg | _ => True end.
Proof.
  pose proof (Refresh_loads http_Do decode_json reg x) as Hr.
  by destruct (Refresh _ _ _ _) as [[[e|] reg'] y].
Qed.

(** A step leaves the registry alone or refreshes it, and starts no refresh loop. *)
Lemma step_registry e s s' : step e s = Some s' →
  (lf_registry s' = lf_registry s ∨
   ∃ reg x reg' y, lf_registry s = Some reg ∧ lf_registry s' = Some reg' ∧
     Refresh http_Do decode_json reg (lf_http s) = (x, reg', y)) ∧
  (lf_refresh s = LAbsent → lf_refresh s' = LAbsent).
Proof.
  unfold life_step. destruct (ended s); [done|]. destruct e; cbn; intros E.
  - destruct (serve_request _ _ _ _ _ _ _ _ _) as [[ops st]|]; [|done]. injection E as <-. auto.
  - destruct (p_refresh _ _ _) as [x|]; [|done]. injection E as <-. auto.
  - destruct (_ !! i); [|done]. injection E as <-. auto.
  - injection E as <-. auto.
  - injection E as <-. auto.
  - destruct (lf_listener s); [|done]. injection E as <-. auto.
  - destruct (loop_of l s) eqn:El; try done.
    destruct (_ <? _)%Z; injection E as <-; destruct l; cbn in *; (split; [by left|congruence]).
  - destruct (loop_of l s) eqn:El; try done. injection E as <-. unfold tick. destruct l.
    + destruct (lf_registry s) as [reg|] eqn:Er; [|rewrite Er; auto].
      destruct (Refresh _ _ _ _) as [[x reg'] y] eqn:E. cbn. split; [right|done]. by eexists _, _, _, _.
    + destruct (lf_state s) as [log [rl rs]]. auto.
  - destruct (loop_of l s) eqn:El; try done. destruct (lf_done s); [|done].
    injection E as <-; destruct l; cbn in *; (split; [by left|congruence]).
  - destruct (lf_main s); try done. destruct (lf_done s); [|done]. injection E as <-. auto.
  - destruct (lf_main s); try done. injection E as <-. auto.
Qed.

Lemma run_loaded es s : run es init = Some s → loaded s.
Proof.
  revert es s. apply (life_invariant (λ _, loaded)).
  - unfold init_life, first_registry, loaded. destruct (enableBootstrap f); [|done].
    destruct (Refresh _ _ _ _) as [[[e|] reg] y] eqn:E; [done|]. cbn. split; [done|]. by eexists _, _, _.
  - unfold loaded. intros es s e s' _ Hs E.
    apply step_registry in E as [[->|(reg & x & reg' & y & Er & -> & Ef)] Hl].
    + destruct (lf_registry s); auto.
    + rewrite Er in Hs. pose proof (Refresh_failed reg (lf_http s)) as Hf. rewrite Ef in Hf.
      destruct x; [by subst|]. destruct Hs as [Hb _]. split; [done|]. by eexists _, _, _.
Qed.
Lemma run_registry es s : run es init = Some s →
  lf_registry s = None ↔ (first_registry http_Do decode_json f w).1 = None.
Proof.
  revert es s. apply life_invariant.
  - unfold init_life. by destruct (first_registry _ _ _ _) as [? ?].
  - intros es s e s' _ <- E. by apply step_registry in E as [[->|(? & ? & ? & ? & -> & -> & _)] _].
Qed.

Lemma in_turn_snoc P Q es e : in_turn P Q es → in_turn P Q (es ++ [e]).
Proof.
  intros (es1 & e1 & es2 & e2 & es3 & -> & H1' & H2'). exists es1, e1, es2, e2, (es3 ++ [e]).
  by rewrite <-app_assoc, app_comm_cons, <-app_assoc, app_comm_cons.
Qed.
Lemma in_turn_last (P Q : event → Prop) es e : Exists P es → Q e → in_turn P Q (es ++ [e]).
Proof.
  intros (e1 & Hi & Hp)%Exists_exists Hq. apply list_elem_of_split in Hi as (es1 & es2 & ->).
  exists es1, e1, es2, e, []. by rewrite <-app_assoc.
Qed.
Lemma not_ended s : @ended N V p s = false → lf_crashed s = false ∧ ∀ code, lf_main s ≠ MExited code.
Proof. unfold ended. by destruct (lf_crashed s), (lf_main s). Qed.

(** What a step does to the threads of control. *)
#[local] Ltac parts := split_and!; auto; try congruence; try (intros []; by left); try by destruct (lf_done _).
Lemma step_control e s s' : step e s = Some s' →
  ended s = false ∧
  lf_done s' = (match e with
    | ESignal => true | EListen err => lf_done s || negb (errors_Is err ErrServerClosed)
    | _ => lf_done s || match e with EShutdown _ => true | _ => false end end) ∧
  match e with
  | EWake => lf_main s = MWaiting ∧ lf_done s = true ∧ lf_main s' = MShutdown
  | EShutdown err => lf_main s = MShutdown ∧ lf_main s' = MExited (exit_code err)
  | _ => lf_main s' = lf_main s
  end ∧
  (∀ l, loop_of l s' = loop_of l s ∨ loop_of l s' = LWaiting ∨ lf_done s = true) ∧
  (lf_crashed s' = true →
     (∃ l, e = ELoopStart l ∧ loop_of l s = LStarting ∧
       (interval f l ≤ 0)%Z ∧ lf_registry s' = lf_registry s) ∨
     ∃ i t, e = ERefreshPanic i ∧ p_pending p (st_world (lf_state s).2.2) !! i = Some t).
Proof.
  unfold life_step. destruct (ended s) eqn:Hn; [done|]. apply not_ended in Hn as Hc. destruct Hc as [Hc Hm].
  assert (Hd : ∀ b, b = b || false) by by intros [].
  intros E. split; [done|]. destruct e; cbn in E.
  - destruct (serve_request _ _ _ _ _ _ _ _ _) as [[ops st]|]; [|done]. injection E as <-. cbn.
    parts.
  - destruct (p_refresh _ _ _) as [x|]; [|done]. injection E as <-. cbn. split_and!; auto. congruence.
  - destruct (_ !! i) as [t|] eqn:Et; [|done]. injection E as <-. cbn. split_and!; auto.
    intros _. right. by exists i, t.
  - injection E as <-. cbn. split_and!; auto. congruence.
  - injection E as <-. cbn. parts.
  - destruct (lf_listener s); [|done]. injection E as <-. cbn. parts.
  - destruct (loop_of l s) eqn:El; try done. destruct (Z.ltb_spec 0 (interval f l)); injection E as <-; cbn.
    + parts; intros []; destruct l; cbn; auto.
    + split_and!; auto. intros _. left. by exists l.
  - destruct (loop_of l s) eqn:El; try done. injection E as <-. unfold tick. destruct l.
    + destruct (lf_registry s) as [reg|]; [|parts].
      destruct (Refresh _ _ _ _) as [[??]?]. cbn. parts.
    + destruct (lf_state s) as [log [rl rs]]. cbn. parts.
  - destruct (loop_of l s) eqn:El; try done. destruct (lf_done s) eqn:Ed; [|done]. injection E as <-. cbn.
    parts.
  - destruct (lf_main s) eqn:Em; try done. destruct (lf_done s) eqn:Ed; [|done]. injection E as <-. cbn.
    parts.
  - destruct (lf_main s) eqn:Em; try done. injection E as <-. cbn.
    parts.
Qed.

Lemma life_accounted es s : run es init = Some s → accounted es s.
Proof.
  revert es s. apply life_invariant.
  - unfold init_life, accounted. destruct (first_registry _ _ _ _) as [[reg|] y]; cbn;
      (split_and!; try done; intros []; cbn; try done; by destruct (flt _ _)).
  - intros es s e s' Hrun (Hd & Hm & Hl & _ & _) E. pose proof (run_loaded es s Hrun) as Hr.
    apply step_control in E as (Hn & Ed & Em & El & Ec). apply not_ended in Hn as [_ Hx].
    assert (Hd' : lf_done s' = true → Exists stop_event (es ++ [e]) ∧ (lf_done s = true ∨ stop_event e)).
    { intros Ht. rewrite Exists_app, Exists_cons. rewrite Ed in Ht. destruct e; cbn in *;
        rewrite ?orb_false_r in Ht; try (split; [left|left]; auto; fail); try by split; [right; left|right].
      - destruct (errors_Is err ErrServerClosed) eqn:Ee; cbn in Ht; rewrite ?orb_false_r in Ht; split; auto.
      - destruct Em as [Em _]. destruct (Hm Em) as [Hdd _]. split; auto. }
    assert (Hmono : lf_done s = true → lf_done s' = true).
    { intros Ht. rewrite Ed, Ht. by destruct e. }
    split_and!.
    + intros Ht. by apply Hd'.
    + intros Ht. destruct e; try (rewrite Em in Ht; destruct (Hm Ht); split; [auto|by apply in_turn_snoc]).
      * destruct Em as (_ & Ht' & _). split; [auto|]. apply in_turn_last; auto.
      * destruct Em as [_ Em]. congruence.
    + intros l Ht. destruct (El l) as [Ht'|[Ht'|Ht']]; [|congruence|auto]. apply Hmono, (Hl l). congruence.
    + intros code Ht. destruct e; try (rewrite Em in Ht; by destruct (Hx code)).
      * destruct Em as (_ & _ & Em). congruence.
      * destruct Em as [Em Em']. exists es, err. split_and!; [done|congruence|by apply Hm].
    + intros Ht. destruct (Ec Ht) as [([] & -> & Hs & Hi & Hreg')|(i & t & -> & Et)];
        [|done|right; by exists es, i, s, t].
      left. split_and!; [done| |by exists es]. unfold loaded in Hr. intros Hreg. rewrite Hreg' in Hreg. rewrite Hreg in Hr. cbn in Hs. congruence.
Qed.

(** C33: the end of the process, its requests and background refreshes taken one at a time.
    Whatever happens after main has started (requests, refreshes, ticks, signals, a listener
    that fails, in any order), main exits only after a signal or a failure of the listener,
    then its own wake-up, then the shutdown of the server, with the status of that shutdown: a
    listener that fails gives 0 like any other end.  A loop returns only once the context has
    ended.  The process ends in two other ways, and both are panics: that of the refresh loop
    at its start, under a refresh interval that is not positive, and that of a background
    refresh of the record cache, one that was pending, when it shares the call of a lookup of
    another kind of record.  As long as the process has not ended it can be brought to its
    end, and at every moment the handlers consult a registry exactly if the first refresh of
    an enabled bootstrap succeeded, loaded in full by one successful refresh: a failed one
    changes nothing. *)
Theorem process_ends es s : run es init = Some s →
  accounted es s ∧ loaded s ∧
  (lf_registry s = None ↔ (first_registry http_Do decode_json f w).1 = None) ∧
  (ended s = false → ∀ err, ∃ es' s', run (es ++ es') init = Some s' ∧ (length es' ≤ 3)%nat ∧
     lf_main s' = MExited (exit_code err)).
Proof.
  intros Hrun. split_and!; [by eapply life_accounted|by eapply run_loaded|by eapply run_registry|].
  intros Hn err. pose proof (life_accounted es s Hrun) as (_ & Hm & _). apply not_ended in Hn as Hx.
  destruct Hx as [Hc Hx]. destruct (lf_main s) eqn:Em; [..|by destruct (Hx code)].
  - exists [ESignal; EWake; EShutdown err]. rewrite life_run_app, Hrun. unfold life_run, life_step, ended.
    repeat (cbn; rewrite ?Hc, ?Em). eexists. split_and!; [done|lia|done].
  - exists [EShutdown err]. rewrite life_run_app, Hrun. unfold life_run, life_step, ended.
    repeat (cbn; rewrite ?Hc, ?Em). eexists. split_and!; [done|lia|done].
Qed.
End steps.

(** ** The requests *)
Section process.
Context `{!Pgx} `{!PgJSON} {P : Type} (pool : Pool P) (cfg : Config.Config) (now : World P → Time).
Context (elapse : Duration → World P → World P) (connect : option error) (world : World P) (v : V) (w : N).
#[local] Abbreviation the_server reg p := (set_Bootstrap (as_registry <$> reg) (p_server p)).

(** C13: a process that main starts, its requests and background refreshes taken one at a
    time, answers every request for as long as it lives: whatever it has done before (requests
    served, time passed, refreshes of its record cache and of its registry, sweeps of the
    limiter, a shutdown begun), the next request gets an answer of the chain (a preflight, a
    refusal of the rate limiter, a refusal of the body, or what the router answers under the
    deadline of the request and with the registry of the moment), the access log grows by
    exactly one record, with the request's method and path and the status the client
    received, and a background refresh of the record cache that meets no other call runs
    through.  (Lookups that overlap can panic on each other's calls: CacheRun.v says when.)
    main itself never panics on its way there, and exits then (with status 1) only when the
    connection to the configured database fails. *)
Theorem process_answers :
  match start pool f o cfg now elapse None connect world with
  | None => False
  | Some (inr code) => code = 1%Z ∧ demo f = false ∧ dsn f ≠ "" ∧ connect ≠ None
  | Some (inl p) =>
      let run := life_run http_Do decode_json verifier v_ctx f o p in
      ∀ es s, run es (init_life http_Do decode_json f p v w) = Some s → ended s = false →
      (∀ r, ∃ ops st' rec,
         serve_request verifier v_ctx f o p (lf_registry s) ∅ r (lf_state s) = Some (ops, st') ∧
         st'.1 = (lf_state s).1 ++ [rec] ∧ al_method rec = r_Method r ∧ al_path rec = r_Path r ∧
         al_trace_id rec = TraceID r ∧ rw_status (serve ops rw_new) = Some (al_status rec) ∧
         answered (the_server (lf_registry s) p) verifier (p_now p) (request_ctx v_ctx p) f (trustedProxies o)
           r (lf_state s).2.1 (lf_state s).2.2 st'.2.2 st'.2.1 (serve ops rw_new)) ∧
      (∀ r, is_Some (run (es ++ [ERequest r]) (init_life http_Do decode_json f p v w))) ∧
      (∀ i, is_Some (run (es ++ [ECacheRefresh i]) (init_life http_Do decode_json f p v w)))
  end.
Proof.
  pose proof (start_cases pool f o cfg now elapse None connect world) as Hs.
  destruct (start _ _ _ _ _ _ _ _ _) as [[p|code]|]; [|done..].
  intros run; subst run. intros es s Hrun Hn. destruct Hs as (I & Hds & Hix & Hw & Hrc & Href & Hd & Hel).
  destruct (run_sound p v w I es s) as [Hw' Hrc']; [done..|].
  assert (Hreq : ∀ r, ∃ ops st' rec,
    serve_request verifier v_ctx f o p (lf_registry s) ∅ r (lf_state s) = Some (ops, st') ∧
    st'.1 = (lf_state s).1 ++ [rec] ∧ al_method rec = r_Method r ∧ al_path rec = r_Path r ∧
    al_trace_id rec = TraceID r ∧ rw_status (serve ops rw_new) = Some (al_status rec) ∧
    answered (the_server (lf_registry s) p) verifier (p_now p) (request_ctx v_ctx p) f (trustedProxies o)
      r (lf_state s).2.1 (lf_state s).2.2 st'.2.2 st'.2.1 (serve ops rw_new)).
  { intros r. destruct (lf_state s) as [log [rl rs]].
    pose proof (request_ctx_ok p I Hd) as Hctx.
    destruct (handler_answers (the_server (lf_registry s) p) verifier (p_now p) (request_ctx v_ctx p) f
      (trustedProxies o) I Hctx r rl rs) as (ops & rl' & rs' & E & _ & _ & Ha); [done..|].
    unfold serve_request, AccessLog. rewrite E. cbn. eexists _, _, _. split_and!; try done.
    cbn. apply (logged_status _ ∅). eapply (handler_one_status _ _ _ _ _ _ I Hctx); [..|exact E]; try done. }
  split; [done|]. unfold run. split; intros x; rewrite life_run_snoc, Hrun; cbn; unfold life_step; rewrite Hn.
  - destruct (Hreq x) as (ops & st' & rec & -> & _). by eexists.
  - destruct (Href x _ Hw') as (x' & -> & _). by eexists.
Qed.
End process.
End facts.

(** * Witnesses *)
#[local] Existing Instance unicode_default.
#[local] Existing Instance map_range_default.
#[local] Existing Instance netip_bits.
#[local] Existing Instance idna_ldh.
#[local] Existing Instance json_names.
#[local] Existing Instance mux_demo.
#[local] Existing Instance gzip_mark.
#[local] Existing Instance no_span.
#[local] Existing Instance pgx_values.
#[local] Existing Instance pg_text.
#[local] Existing Instance pg_json.

Definition own_flags : OwnFlags := {|
  trustedProxies := "10.0.0.0/8"; demoSynthN := 25%Z; cacheStaleTTL := (300 * Second)%Z;
  respCacheSize := 1000%Z; respCacheTTL := (30 * Second)%Z |}.
Definition pg_flags (demo : bool) : Flags := {|
  addr := ":8080"; dsn := "postgres://rdap"; selfLinkBase := "https://rdap.example"; icannGTLD := true;
  tosURL := ""; jwksURL := ""; jwksIssuer := ""; jwksAudience := "";
  cacheSize := 50000%Z; cacheTTL := (60 * Second)%Z; cacheNegTTL := (5 * Second)%Z;
  rateLimitRPS := float_Z 0; rateLimitBurst := float_Z 0; gzipMinSize := 4%Z;
  maxBodyBytes := 4096%Z; tlsCert := ""; tlsKey := "";
  requestTimeout := (10 * Second)%Z; readHeaderTimeo := (5 * Second)%Z;
  shutdownTimeo := (15 * Second)%Z; enableBootstrap := false;
  bootstrapEvery := (86400 * Second)%Z; demo := demo |}.
(** A verifier without calls of its own; an IANA whose answers decode to no services. *)
Definition no_ctx (_ : option Time) (v : unit) : unit := v.
Definition iana_ok (url : string) (n : nat) : (Bootstrap.response + error) * nat :=
  (inl {| StatusCode := 200; Body := "{}" |}, S n).
Definition iana_empty (body : string) : services + error := inl [].
Definition life_flags (every : Duration) : Flags := {|
  addr := ":8080"; dsn := ""; selfLinkBase := ""; icannGTLD := false;
  tosURL := ""; jwksURL := ""; jwksIssuer := ""; jwksAudience := "";
  cacheSize := 0%Z; cacheTTL := 0%Z; cacheNegTTL := 0%Z;
  rateLimitRPS := float_Z 1; rateLimitBurst := float_Z 1; gzipMinSize := 4%Z;
  maxBodyBytes := 4096%Z; tlsCert := ""; tlsKey := "";
  requestTimeout := (10 * Second)%Z; readHeaderTimeo := (5 * Second)%Z;
  shutdownTimeo := (15 * Second)%Z; enableBootstrap := true;
  bootstrapEvery := every; demo := true |}.

(** The outcome of two requests in a row: statuses of the log and the last body. *)
Definition two_requests (fl : Flags) (r1 r2 : Request) : option (list Z * string) :=
  match start db_pool fl own_flags no_config (λ _, 0%Z) (λ _ w, w) None None (Build_World Memory.New demo_db None) with
  | Some (inl p) =>
      match serve_request token_verifier no_ctx fl own_flags p None ∅ r1 (init_state fl p tt) with
      | Some (_, st) =>
          match serve_request token_verifier no_ctx fl own_flags p None ∅ r2 st with
          | Some (ops, (log, _)) =>
              (λ body, (al_status <$> log, body)) <$> gzip_decompress (rw_body (serve ops rw_new))
          | None => None
          end
      | None => None
      end
  | _ => None
  end.

(** Out of Postgres and out of the synthetic data, the second time from the caches. *)
Example two_requests_ex :
  two_requests (pg_flags false) (gzip_get "/domain/example.nl") (gzip_get "/domain/example.nl") =
    Some ([200; 200]%Z, "domain example.nl") ∧
  two_requests (pg_flags true) (gzip_get "/domain/example.org") (gzip_get ("/domain/" +:+ DomainName 7)) =
    Some ([404; 200]%Z, "domain " +:+ DomainName 7).
Proof. vm_compute. done. Qed.

(** The seeded store, without caches. *)
Definition demo_process (fl : Flags) : process := {|
  p_W := Store; p_now := λ _, 0%Z; p_ctx := no_deadlines;
  p_server := newServer store_source (Some store_index) None fl no_config;
  p_world := replay demo_log; p_cache := None; p_elapse := λ _ w, w; p_refresh := λ _ w, Some w; p_pending := λ _, [] |}.
Definition demo_life (every : Duration) (es : list event) : option (life nat unit (demo_process (life_flags every))) :=
  life_run iana_ok iana_empty token_verifier no_ctx (life_flags every) own_flags _ es
    (init_life iana_ok iana_empty (life_flags every) _ tt 0%nat).
Definition outcome (every : Duration) (es : list event) : option (main_point * bool * nat * list Z) :=
  (λ s, (lf_main s, lf_crashed s, lf_http s, al_status <$> (lf_state s).1)) <$> demo_life every es.

(** Two refreshes of three files each, two requests of which the limiter takes one, and a
    listener that fails: main exits with status 0. *)
Example listen_failure_ex :
  outcome (86400 * Second)%Z [ELoopStart RefreshLoop; ERequest (gzip_get "/domain/example.nl");
    ETick RefreshLoop; ERequest (gzip_get "/domain/example.nl");
    EListen (ErrOther "bind: address already in use"); EWake; EShutdown None] =
  Some (MExited 0%Z, false, 6%nat, [200; 429]%Z).
Proof. vm_compute. reflexivity. Qed.

(** [-bootstrap-refresh 0] kills the process as soon as the loop starts. *)
Example refresh_interval_ex :
  outcome 0%Z [ERequest (gzip_get "/domain/example.nl"); ELoopStart RefreshLoop] =
    Some (MWaiting, true, 3%nat, [200]%Z) ∧
  outcome 0%Z [ELoopStart RefreshLoop; ERequest (gzip_get "/domain/example.nl")] = None.
Proof. vm_compute. done. Qed.

Definition shutting_down : list event := [ESignal; ELoopStart CleanupLoop; ELoopDone CleanupLoop].
Lemma process_ends_witness :
  (∃ s, demo_life 0%Z shutting_down = Some s ∧ lf_registry s ≠ None) ∧
  ∃ es' s', (length es' ≤ 3)%nat ∧ demo_life 0%Z (shutting_down ++ es') = Some s' ∧ lf_main s' = MExited 1%Z.
Proof.
  assert (Hn : (ended <$> demo_life 0%Z shutting_down = Some false)) by reflexivity.
  destruct (demo_life 0%Z shutting_down) as [s|] eqn:E; [injection Hn as Hn|done].
  destruct (process_ends iana_ok iana_empty token_verifier no_ctx (life_flags 0%Z) own_flags
    (demo_process (life_flags 0%Z)) tt 0%nat _ s E) as (_ & _ & Hr & He). split.
  - exists s. split; [done|]. intros Hx%Hr. discriminate Hx.
  - destruct (He Hn (Some (ErrOther "timeout"))) as (es' & s' & E' & Hl & Hm). by exists es', s'.
Defined.

Lemma process_answers_witness :
  match start db_pool (pg_flags false) own_flags no_config (λ _, 0%Z) (λ _ w, w) None None
          (Build_World Memory.New demo_db None) with
  | Some (inl p) =>
      let fl := pg_flags false in
      match life_run iana_ok iana_empty token_verifier no_ctx fl own_flags p [ESignal; EWake]
              (init_life iana_ok iana_empty fl p tt 0%nat) with
      | Some s => ∃ ops st' rec,
          serve_request token_verifier no_ctx fl own_flags p (lf_registry s) ∅
            (gzip_get "/domain/example.nl") (lf_state s) = Some (ops, st') ∧
          st'.1 = (lf_state s).1 ++ [rec] ∧ al_path rec = "/domain/example.nl"
      | None => False
      end
  | _ => False
  end.
Proof.
  pose proof (process_answers iana_ok iana_empty (V := unit) token_verifier no_ctx (pg_flags false) own_flags
    db_pool no_config (λ _, 0%Z) (λ _ w, w) None (Build_World Memory.New demo_db None) tt 0%nat) as Ha.
  destruct (start _ _ _ _ _ _ _ _ _) as [[p|c]|]; [|by destruct Ha as (_&_&_&[])|done].
  cbn in Ha. specialize (Ha [ESignal; EWake] _ eq_refl eq_refl).
  destruct Ha as [Hr _]. destruct (Hr (gzip_get "/domain/example.nl")) as (ops & st' & rec & E & El & _ & Ep & _).
  by exists ops, st', rec.
Defined.
