(* ===== verification/ProcessSecrecy.v ===== *)
(** * Two processes side by side.

    Processes that main starts with the same settings, over databases that differ in what a
    caller of level [lvl] may not know, are in step for as long as they live: the chain of
    middleware (Server.v), the caches, the loops and the shutdown (Lifecycle.v) go through
    related states, and show a caller of at most that level the same. *)
From S2P Require Import Prelude GoStrings NetIP DataSource Auth Validate Search Synth Types Redact Mapper Memory LRU Cache ResponseCache Bootstrap Http Middleware Float64 RateLimit Handlers SearchHandlers Secrecy Router Config Server Metrics Pgx Postgres PgSchema PgPool PgFacts PgSearch PgSecrecy Deploy Command Lifecycle.

(** ** The data *)
Lemma source_rel_refl {W} lvl (ds : DataSource W) : source_rel eq lvl ds ds.
Proof.
  split; intros k w ? <-; (split; [apply res_rel_refl|done]); try done. apply domain_indist_refl.
Qed.
Lemma index_rel_refl {W} lvl (ix : Index W) : index_rel eq lvl ix ix.
Proof.
  split; intros q w ? <-; (split; [try apply res_rel_refl|]); try done; intros.
  - apply page_rel_refl, domain_indist_refl.
  - apply res_rel_refl. intros. by apply page_rel_refl.
Qed.

Section over.
Context {W1 W2 X1 X2 : Type} (get1 : X1 → W1) (set1 : W1 → X1 → X1) (get2 : X2 → W2) (set2 : W2 → X2 → X2).
Context (R : W1 → W2 → Prop) (J : X1 → X2 → Prop).
Context (Hget : ∀ x1 x2, J x1 x2 → R (get1 x1) (get2 x2)).
Context (Hset : ∀ w1 w2 x1 x2, R w1 w2 → J x1 x2 → J (set1 w1 x1) (set2 w2 x2)).

(** A call on a part of two states: the results as before, and the states in relation. *)
Lemma over_rel {A} (P : A → A → Prop) (f1 : W1 → A * W1) (f2 : W2 → A * W2) x1 x2 :
  J x1 x2 → (∀ w1 w2, R w1 w2 → P (f1 w1).1 (f2 w2).1 ∧ R (f1 w1).2 (f2 w2).2) →
  P (over get1 set1 f1 x1).1 (over get2 set2 f2 x2).1 ∧ J (over get1 set1 f1 x1).2 (over get2 set2 f2 x2).2.
Proof using Hget Hset.
  intros Hx Hf. unfold over. destruct (Hf _ _ (Hget _ _ Hx)) as [Ha Hw].
  destruct (f1 (get1 x1)), (f2 (get2 x2)). cbn in *. auto.
Qed.

Lemma over_source_rel lvl ds1 ds2 : source_rel R lvl ds1 ds2 →
  source_rel J lvl (over_source get1 set1 ds1) (over_source get2 set2 ds2).
Proof using Hget Hset.
  intros [Hd He Hn Hi]. split; intros k x1 x2 Hx; cbn; apply (over_rel _ _ _ _ _ Hx);
    [apply Hd|apply He|apply Hn|apply Hi].
Qed.
Lemma over_index_rel lvl ix1 ix2 : index_rel R lvl ix1 ix2 →
  index_rel J lvl (over_index get1 set1 ix1) (over_index get2 set2 ix2).
Proof using Hget Hset.
  intros [Hd He Hn]. split; intros q x1 x2 Hx; cbn; [by apply (over_rel _ _ _ _ _ Hx), Hd| |
    by apply (over_rel _ _ _ _ _ Hx), Hn].
  pose proof (over_rel (λ a b, public_terms (Terms q) → res_rel (page_rel (indist lvl)) a b)
    (SearchEntities ix1 q) (SearchEntities ix2 q) x1 x2 Hx) as Ho. apply and_comm, Ho.
  intros w1 w2 Hw. by apply and_comm, He.
Qed.
End over.

(** Worlds with the same in-memory data and deadline, over related pools. *)
Definition worlds_rel {P} (RP : P → P → Prop) (w1 w2 : World P) : Prop :=
  w_store w1 = w_store w2 ∧ RP (w_pool w1) (w_pool w2) ∧ w_deadline w1 = w_deadline w2.

Lemma context_rel {P} (RP : P → P → Prop) d1 d2 lvl ds1 ds2 :
  (∀ w1 w2, worlds_rel RP w1 w2 → d1 w1 = d2 w2) →
  source_rel (worlds_rel RP) lvl ds1 ds2 →
  source_rel (worlds_rel RP) lvl (source_in_context d1 ds1) (source_in_context d2 ds2).
Proof.
  intros Hd Hds.
  assert (Hc : ∀ V (Q : V → V → Prop) (f1 f2 : World P → res V * World P) w1 w2,
    worlds_rel RP w1 w2 →
    (∀ w1 w2, worlds_rel RP w1 w2 → call_rel (worlds_rel RP) Q (f1 w1) (f2 w2)) →
    call_rel (worlds_rel RP) Q (in_context d1 f1 w1) (in_context d2 f2 w2)).
  { intros V Q f1 f2 w1 w2 Hw Hf. unfold in_context. rewrite (Hd w1 w2 Hw).
    destruct (Hf (set_deadline (d2 w2) w1) (set_deadline (d2 w2) w2)) as [Hr Hw'];
      [destruct Hw as (?&?&?); by split_and!|].
    destruct (f1 _), (f2 _). split; [done|]. destruct Hw as (?&?&?), Hw' as (?&?&?). by split_and!. }
  destruct Hds as [H1 H2 H3 H4]. split; intros k w1 w2 Hw; apply Hc; auto.
Qed.

(** ** The chain *)
Section chain.
Context {S1 S2 : Type} (S : S1 → S2 → Prop) (Q : Prop).

(** Two answers and the states they leave; when [Q] holds the answers are the same. *)
Definition served_rel (a1 : option (list wop * S1)) (a2 : option (list wop * S2)) : Prop :=
  ∃ ops1 ops2 t1 t2, a1 = Some (ops1, t1) ∧ a2 = Some (ops2, t2) ∧ S t1 t2 ∧ (Q → ops1 = ops2).

Lemma served_same ops t1 t2 : S t1 t2 → served_rel (Some (ops, t1)) (Some (ops, t2)).
Proof. intros Ht. by exists ops, ops, t1, t2. Qed.
Lemma served_map (g : list wop → list wop) a1 a2 : served_rel a1 a2 →
  served_rel ('(ops, t) ← a1; Some (g ops, t)) ('(ops, t) ← a2; Some (g ops, t)).
Proof.
  intros (ops1 & ops2 & t1 & t2 & -> & -> & Ht & Ho). cbn. eexists _, _, t1, t2. split_and!; [done..|].
  intros HQ. by rewrite (Ho HQ).
Qed.

Context (next1 : Middleware S1) (next2 : Middleware S2) (r : Request).
#[local] Abbreviation agree t1 t2 := (∀ h, served_rel (next1 h r t1) (next2 h r t2)).

Lemma Gzip_rel `{GoUnicode} `{GzipCodec} minSize h t1 t2 :
  agree t1 t2 → served_rel (Gzip minSize next1 h r t1) (Gzip minSize next2 h r t2).
Proof. intros Hn. unfold Gzip. apply (served_map _ _ _ (Hn _)). Qed.
Lemma SecurityHeaders_rel h t1 t2 :
  agree t1 t2 → served_rel (SecurityHeaders next1 h r t1) (SecurityHeaders next2 h r t2).
Proof. intros Hn. apply (served_map _ _ _ (Hn _)). Qed.
Lemma CORS_rel h t1 t2 : S t1 t2 →
  agree t1 t2 → served_rel (CORS next1 h r t1) (CORS next2 h r t2).
Proof.
  intros Ht Hn. unfold CORS. destruct (_ =? _)%string; [by apply served_same|].
  apply (served_map _ _ _ (Hn _)).
Qed.
Lemma MaxRequestBody_rel maxBytes h t1 t2 : S t1 t2 →
  agree t1 t2 → served_rel (MaxRequestBody maxBytes next1 h r t1) (MaxRequestBody maxBytes next2 h r t2).
Proof. intros Ht Hn. unfold MaxRequestBody. destruct (_ <? _)%Z; [by apply served_same|apply Hn]. Qed.

Lemma RequestTimeout_rel ctx1 ctx2 now1 now2 d h t1 t2 :
  (∀ d t1 t2, S t1 t2 → S (ctx_WithDeadline ctx1 d t1) (ctx_WithDeadline ctx2 d t2)) →
  ctx_Deadline ctx1 t1 = ctx_Deadline ctx2 t2 → now1 t1 = now2 t2 →
  agree (WithTimeout ctx1 now1 d t1) (WithTimeout ctx2 now2 d t2) →
  served_rel (Middleware.RequestTimeout ctx1 now1 d next1 h r t1)
             (Middleware.RequestTimeout ctx2 now2 d next2 h r t2).
Proof.
  intros HS Hd Hnow Hn. unfold Middleware.RequestTimeout. rewrite <-Hd.
  destruct (Hn h) as (ops1 & ops2 & t1' & t2' & -> & -> & Ht & Ho). cbn.
  eexists ops1, ops2, _, _. split_and!; [done..|by apply HS|done].
Qed.
End chain.

(** The limiter has a state of its own, the same on both sides. *)
Definition limited_rel {S1 S2} (S : S1 → S2 → Prop) (a : RateLimiter * S1) (b : RateLimiter * S2) : Prop :=
  a.1 = b.1 ∧ S a.2 b.2.
Lemma RateLimit_rel {S1 S2} (S : S1 → S2 → Prop) Q now1 now2 key next1 next2 h r rl t1 t2 :
  S t1 t2 → now1 t1 = now2 t2 → served_rel S Q (next1 h r t1) (next2 h r t2) →
  served_rel (limited_rel S) Q (RateLimit now1 key next1 h r (rl, t1)) (RateLimit now2 key next2 h r (rl, t2)).
Proof.
  intros Ht Hnow (ops1 & ops2 & t1' & t2' & E1 & E2 & Ht' & Ho). unfold RateLimit. rewrite Hnow, E1, E2.
  destruct (Allow _ _ _) as [[] rl']; cbn; eexists _, _, _, _; by split_and!.
Qed.
Lemma unlimited_rel {S1 S2} (S : S1 → S2 → Prop) Q next1 next2 h r rl t1 t2 :
  served_rel S Q (next1 h r t1) (next2 h r t2) →
  served_rel (limited_rel S) Q (unlimited next1 h r (rl, t1)) (unlimited next2 h r (rl, t2)).
Proof.
  intros (ops1 & ops2 & t1' & t2' & E1 & E2 & Ht' & Ho). unfold unlimited. rewrite E1, E2.
  eexists _, _, _, _. by split_and!.
Qed.

(** ** The process *)
Record process_rel (lvl : AccessLevel) (p1 p2 : process) (R : p_W p1 → p_W p2 → Prop) : Prop := {
  pr_now w1 w2 : R w1 w2 → p_now p1 w1 = p_now p2 w2;
  pr_deadline w1 w2 : R w1 w2 → ctx_Deadline (p_ctx p1) w1 = ctx_Deadline (p_ctx p2) w2;
  pr_with d w1 w2 : R w1 w2 → R (ctx_WithDeadline (p_ctx p1) d w1) (ctx_WithDeadline (p_ctx p2) d w2);
  pr_server : server_rel R lvl (p_server p1) (p_server p2);
  pr_world : R (p_world p1) (p_world p2);
  pr_cache : p_cache p1 = p_cache p2 ∧ cache_ready (p_cache p1);
  pr_elapse d w1 w2 : R w1 w2 → R (p_elapse p1 d w1) (p_elapse p2 d w2);
  pr_refresh i w1 w2 : R w1 w2 → option_Forall2 R (p_refresh p1 i w1) (p_refresh p2 i w2);
  pr_pending w1 w2 : R w1 w2 → p_pending p1 w1 = p_pending p2 w2 }.

Lemma set_Bootstrap_rel {W1 W2} (R : W1 → W2 → Prop) lvl reg s1 s2 :
  server_rel R lvl s1 s2 → server_rel R lvl (set_Bootstrap reg s1) (set_Bootstrap reg s2).
Proof. intros [Hset Hds Hix]. split; try done. unfold server_settings in *. cbn. injection Hset. congruence. Qed.
Lemma newServer_rel {W1 W2} (R : W1 → W2 → Prop) lvl ds1 ds2 ix1 ix2 reg f cfg :
  source_rel R lvl ds1 ds2 → index_rel R lvl ix1 ix2 →
  server_rel R lvl (newServer ds1 (Some ix1) reg f cfg) (newServer ds2 (Some ix2) reg f cfg).
Proof.
  intros Hds Hix. unfold newServer, applyProfile. destruct (icannGTLD f); (split; [done|done|cbn; by constructor]).
Qed.

Section life.
Context `{JSONEncoder} `{GoUnicode} `{GoMapRange} `{NetIPText} `{IDNA} `{MuxRedirect} `{GzipCodec} `{Tracing}.
Context (Hjson : ∀ c, json_Encode c ≠ "").
Context {N V : Type} (http_Do : string → N → (Bootstrap.response + error) * N).
Context (decode_json : string → services + error) (verifier : Auth.Verifier V).
Context (v_ctx : option Time → V → V) (f : Flags) (o : OwnFlags) (lvl : AccessLevel).
Context (p1 p2 : process) (R : p_W p1 → p_W p2 → Prop) (Hp : process_rel lvl p1 p2 R).

(** The level a request is granted when it comes to the verifier. *)
Definition request_level (p : process) (st : pstate (V := V) p) (r : Request) : AccessLevel :=
  granted verifier r (st_verifier (timed (p_now p) (request_ctx v_ctx p) f st.2.2)).
(** The logs are left out: they hold the statuses of all callers. *)
Definition pstate_rel (st1 : pstate (V := V) p1) (st2 : pstate (V := V) p2) : Prop :=
  limited_rel (state_rel R lvl) st1.2 st2.2.

Lemma serve_request_rel reg r st1 st2 : pstate_rel st1 st2 →
  request_level p1 st1 r = request_level p2 st2 r ∧
  served_rel pstate_rel (shielded lvl (r, request_level p1 st1 r))
    (serve_request verifier v_ctx f o p1 reg ∅ r st1) (serve_request verifier v_ctx f o p2 reg ∅ r st2).
Proof using Hjson Hp.
  destruct st1 as [log1 [rl rs1]], st2 as [log2 [rl2 rs2]]. intros [E Hst]. cbn in E. subst rl2.
  set (ctx1 := request_ctx v_ctx p1). set (ctx2 := request_ctx v_ctx p2).
  assert (Hctx : ∀ d t1 t2, state_rel R lvl t1 t2 →
    state_rel R lvl (ctx_WithDeadline ctx1 d t1) (ctx_WithDeadline ctx2 d t2)).
  { intros d t1 t2 (Hw & Hv & Hc). split_and!; [by apply (pr_with _ _ _ _ Hp)|cbn; by rewrite Hv|done]. }
  assert (Hnow : p_now p1 (st_world rs1) = p_now p2 (st_world rs2)) by apply (pr_now _ _ _ _ Hp), Hst.
  assert (Hdl : ctx_Deadline ctx1 rs1 = ctx_Deadline ctx2 rs2) by apply (pr_deadline _ _ _ _ Hp), Hst.
  set (t1 := timed (p_now p1) ctx1 f rs1). set (t2 := timed (p_now p2) ctx2 f rs2).
  assert (Ht : state_rel R lvl t1 t2).
  { unfold t1, t2, timed, WithTimeout. rewrite Hdl, Hnow. by apply Hctx. }
  assert (Hl : request_level p1 (log1, (rl, rs1)) r = request_level p2 (log2, (rl, rs2)) r).
  { unfold request_level. cbn [snd]. fold ctx1 ctx2 t1 t2. by destruct Ht as (_ & -> & _). }
  split; [exact Hl|].
  set (srv1 := set_Bootstrap (as_registry <$> reg) (p_server p1)).
  set (srv2 := set_Bootstrap (as_registry <$> reg) (p_server p2)).
  set (Q := shielded lvl (r, request_level p1 (log1, (rl, rs1)) r)).
  assert (Hr : ∀ h, served_rel (state_rel R lvl) Q
    (NewRouter srv1 verifier (p_now p1) h r t1) (NewRouter srv2 verifier (p_now p2) h r t2)).
  { intros h. destruct (NewRouter_rel Hjson R (p_now p1) (p_now p2) (pr_now _ _ _ _ Hp) lvl verifier srv1 srv2
      (set_Bootstrap_rel _ _ _ _ _ (pr_server _ _ _ _ Hp)) h r t1 t2 Ht)
      as (ops1 & ops2 & t1' & t2' & E1 & E2 & Ht' & Ho).
    exists ops1, ops2, t1', t2'. by split_and!. }
  assert (Hb : ∀ h, served_rel (state_rel R lvl) Q
    (bounded srv1 verifier (p_now p1) ctx1 f h r rs1) (bounded srv2 verifier (p_now p2) ctx2 f h r rs2)).
  { intros h. apply MaxRequestBody_rel; [done|]. intros h'. apply RequestTimeout_rel; [done..|].
    intros h''. by apply Gzip_rel. }
  assert (Hh : served_rel (limited_rel (state_rel R lvl)) Q
    (handler srv1 verifier (p_now p1) ctx1 f (trustedProxies o) ∅ r (rl, rs1))
    (handler srv2 verifier (p_now p2) ctx2 f (trustedProxies o) ∅ r (rl, rs2))).
  { unfold handler. apply SecurityHeaders_rel. intros h. apply CORS_rel; [done|]. intros h'.
    unfold limited. destruct (flt _ _); [by apply RateLimit_rel; [| |apply Hb]|by apply unlimited_rel, Hb]. }
  unfold serve_request, AccessLog. fold srv1 srv2 ctx1 ctx2.
  destruct Hh as (ops1 & ops2 & u1 & u2 & -> & -> & Hu & Ho). cbn. by eexists _, _, _, _; split_and!.
Qed.

(** Everything but the data and the logs is the same. *)
Definition control {p} (s : life N V p) :=
  (lf_done s, lf_main s, lf_listener s, lf_refresh s, lf_cleanup s, lf_registry s, lf_http s, lf_crashed s).
Definition life_rel (s1 : life N V p1) (s2 : life N V p2) : Prop :=
  control s1 = control s2 ∧ pstate_rel (lf_state s1) (lf_state s2).
#[local] Abbreviation step p := (life_step http_Do decode_json verifier v_ctx f o p).
#[local] Abbreviation run p := (life_run http_Do decode_json verifier v_ctx f o p).
#[local] Abbreviation init p := (init_life http_Do decode_json f p).

Lemma tick_rel l s1 s2 : life_rel s1 s2 → life_rel (tick http_Do decode_json p1 l s1) (tick http_Do decode_json p2 l s2).
Proof using Hp.
  destruct s1 as [d1 m1 li1 rf1 cl1 rg1 n1 [log1 [rl1 rs1]] cr1], s2 as [d2 m2 li2 rf2 cl2 rg2 n2 [log2 [rl2 rs2]] cr2].
  intros [Hc [Hrl Hst]]. unfold control in Hc. cbn in Hc, Hrl, Hst. simplify_eq.
  destruct l; cbn [tick lf_registry lf_state lf_http].
  - destruct rg2 as [reg|]; [|by split]. destruct (Refresh _ _ _ _) as [[e reg'] n']. by split.
  - rewrite (pr_now _ _ _ _ Hp (st_world rs1) (st_world rs2)) by apply Hst. by split.
Qed.

(** The setters keep the relation. *)
Lemma set_state_rel st1 st2 s1 s2 : pstate_rel st1 st2 → life_rel s1 s2 →
  life_rel (set_state p1 st1 s1) (set_state p2 st2 s2).
Proof using Type. intros Hst [Hc _]. split; [exact Hc|exact Hst]. Qed.
Lemma set_main_rel m li d s1 s2 : life_rel s1 s2 → life_rel (set_main p1 m li d s1) (set_main p2 m li d s2).
Proof using Type. intros [Hc Hst]. split; [|exact Hst]. unfold control in *. cbn. injection Hc. congruence. Qed.
Lemma set_loop_rel l x s1 s2 : life_rel s1 s2 → life_rel (set_loop p1 l x s1) (set_loop p2 l x s2).
Proof using Type. intros [Hc Hst]. split; [|exact Hst]. unfold control in *. injection Hc. destruct l; cbn; congruence. Qed.
Lemma crash_rel s1 s2 : life_rel s1 s2 → life_rel (crash p1 s1) (crash p2 s2).
Proof using Type. intros [Hc Hst]. split; [|exact Hst]. unfold control in *. cbn. injection Hc. congruence. Qed.

Lemma step_rel e s1 s2 : life_rel s1 s2 → option_Forall2 life_rel (step p1 e s1) (step p2 e s2).
Proof using Hjson Hp.
  intros Hs. pose proof Hs as [Hc Hst]. unfold control in Hc. injection Hc as Hd Hm Hl Hrf Hcl Hrg _ Hcr.
  assert (Hloop : ∀ l, loop_of l s1 = loop_of l s2) by (by intros []).
  unfold life_step, ended. rewrite Hcr, Hm. destruct (_ || _); [constructor|].
  destruct e as [r|i|i|d| |err|l|l|l| |err]; rewrite ?Hrg, ?Hl, ?Hd, ?Hloop.
  - destruct (serve_request_rel (lf_registry s2) r _ _ Hst) as [_ (ops1 & ops2 & t1 & t2 & -> & -> & Ht' & _)].
    cbn. constructor. by apply set_state_rel.
  - destruct (lf_state s1) as [log1 [rl1 rs1]], (lf_state s2) as [log2 [rl2 rs2]].
    destruct Hst as [Hrl (Hw & Hv & Hrc)]. cbn in *.
    destruct (pr_refresh _ _ _ _ Hp i _ _ Hw) as [x1 x2 Hx|]; cbn; constructor.
    apply set_state_rel; [|done]. split; [exact Hrl|]. by split_and!.
  - rewrite (pr_pending _ _ _ _ Hp _ (st_world (lf_state s2).2.2)) by apply Hst.
    destruct (_ !! i); constructor. by apply crash_rel.
  - constructor. apply set_state_rel; [|done].
    destruct (lf_state s1) as [log1 [rl1 rs1]], (lf_state s2) as [log2 [rl2 rs2]].
    destruct Hst as [Hrl (Hw & Hv & Hrc)]. split; [exact Hrl|]. split_and!; [|done|done].
    by apply (pr_elapse _ _ _ _ Hp).
  - constructor. by apply set_main_rel.
  - destruct (lf_listener s2); constructor. by apply set_main_rel.
  - destruct (loop_of l s2); constructor. destruct (_ <? _)%Z; [by apply set_loop_rel|by apply crash_rel].
  - destruct (loop_of l s2); constructor. by apply tick_rel.
  - destruct (loop_of l s2), (lf_done s2); constructor. by apply set_loop_rel.
  - destruct (lf_main s2), (lf_done s2); constructor. by apply set_main_rel.
  - destruct (lf_main s2); constructor. by apply set_main_rel.
Qed.

Lemma run_rel es s1 s2 : life_rel s1 s2 → option_Forall2 life_rel (run p1 es s1) (run p2 es s2).
Proof using Hjson Hp.
  revert s1 s2. induction es as [|e es IH]; intros s1 s2 Hs; cbn; [by constructor|].
  destruct (step_rel e s1 s2 Hs); cbn; [by apply IH|constructor].
Qed.
Lemma init_rel v w : life_rel (init p1 v w) (init p2 v w).
Proof using Hp.
  unfold init_life. destruct (first_registry _ _ _ _) as [reg w']. split; [done|]. split; [done|].
  destruct (pr_cache _ _ _ _ Hp) as [Hc Hr]. split_and!; [apply Hp|done|]. cbn. rewrite <-Hc. by apply cache_rel_refl.
Qed.
End life.

Section process.
Context `{JSONEncoder} `{GoUnicode} `{GoMapRange} `{NetIPText} `{IDNA} `{MuxRedirect} `{GzipCodec} `{Tracing}.
Context `{!Pgx} `{!PgJSON} {P : Type} (pool : Pool P) (lvl : AccessLevel) (RP : P → P → Prop).
Context (Hsource : source_rel RP lvl (postgres_source pool) (postgres_source pool)).
Context (Hindex : index_rel RP lvl (postgres_index pool) (postgres_index pool)).
Context (now : World P → Time) (elapse : Duration → World P → World P).
Context (Hnow : ∀ w1 w2, worlds_rel RP w1 w2 → now w1 = now w2).
Context (Helapse : ∀ d w1 w2, worlds_rel RP w1 w2 → worlds_rel RP (elapse d w1) (elapse d w2)).

Lemma buildDataSource_rel demo dsn synthN connect w1 w2 : worlds_rel RP w1 w2 →
  match buildDataSource pool demo dsn synthN connect w1, buildDataSource pool demo dsn synthN connect w2 with
  | Some (inl (ds1, ix1, w1')), Some (inl (ds2, ix2, w2')) =>
      source_rel (worlds_rel RP) lvl ds1 ds2 ∧ index_rel (worlds_rel RP) lvl ix1 ix2 ∧ worlds_rel RP w1' w2'
  | Some (inr _), Some (inr _) | None, None => True
  | _, _ => False
  end.
Proof using Hsource Hindex.
  intros Hw. unfold buildDataSource. destruct (demo || _).
  - destruct (if (0 <? synthN)%Z then _ else _) as [s|]; [|done]. cbn. destruct Hw as (? & ? & ?).
    split_and!; [eapply over_source_rel; [..|apply source_rel_refl]
                |eapply over_index_rel; [..|apply index_rel_refl]|by split_and!];
      try (by intros ?? (? & ? & ?)); by intros ???? -> (? & ? & ?).
  - destruct connect; [done|].
    split_and!; [eapply over_source_rel; [..|exact Hsource]|eapply over_index_rel; [..|exact Hindex]|done];
      try (by intros ?? (? & ? & ?)); by intros ????? (? & ? & ?).
Qed.

Lemma start_rel f o cfg reg connect w1 w2 : worlds_rel RP w1 w2 →
  match start pool f o cfg now elapse reg connect w1, start pool f o cfg now elapse reg connect w2 with
  | Some (inl p1), Some (inl p2) => ∃ R, process_rel lvl p1 p2 R
  | Some (inr c1), Some (inr c2) => c1 = c2
  | None, None => True
  | _, _ => False
  end.
Proof.
  intros Hw. unfold start. pose proof (buildDataSource_rel (demo f) (dsn f) (demoSynthN o) connect w1 w2 Hw) as Hb.
  destruct (buildDataSource _ _ _ _ _ w1) as [[[[ds1 ix1] x1]|]|], (buildDataSource _ _ _ _ _ w2) as [[[[ds2 ix2] x2]|]|];
    cbn [mbind option_bind]; try done. destruct Hb as (Hds & Hix & Hx).
  assert (Hrc : cache_ready (if (0 <? respCacheSize o)%Z && (0 <? respCacheTTL o)%Z
    then Some (NewResponseCache (respCacheSize o) (respCacheTTL o)) else None)).
  { pose proof (response_cache_ok (respCacheSize o) (respCacheTTL o)) as Hr. destruct (_ && _); [apply Hr|done]. }
  revert Hrc. generalize (if (0 <? respCacheSize o)%Z && (0 <? respCacheTTL o)%Z
    then Some (NewResponseCache (respCacheSize o) (respCacheTTL o)) else None). intros rc Hrc.
  assert (Hset : ∀ d w1 w2, worlds_rel RP w1 w2 → worlds_rel RP (set_deadline d w1) (set_deadline d w2))
    by (intros d y1 y2 (? & ? & ?); by split_and!).
  destruct ((0 <? cacheSize f)%Z && _).
  - destruct (New_rel (worlds_rel RP) lvl x1 x2
      {| Size := cacheSize f; TTL := cacheTTL f; NegTTL := cacheNegTTL f; StaleTTL := cacheStaleTTL o |} Hx)
      as [c1 c2 Hc|]; cbn; [|done].
    assert (Hin : ∀ (g : World P → World P) c1 c2,
      (∀ w1 w2, worlds_rel RP w1 w2 → worlds_rel RP (g w1) (g w2)) → caches_rel (worlds_rel RP) lvl c1 c2 →
      caches_rel (worlds_rel RP) lvl (set_inner (g (ch_inner c1)) c1) (set_inner (g (ch_inner c2)) c2)).
    { intros g e1 e2 Hg []. split; try done. by apply Hg. }
    exists (caches_rel (worlds_rel RP) lvl). split; cbn.
    + intros y1 y2 Hy. apply Hnow, Hy.
    + intros y1 y2 Hy. apply (cs_inner _ _ _ _ Hy).
    + intros d y1 y2. apply (Hin (set_deadline d)), Hset.
    + apply newServer_rel.
      * apply cache_source_rel; [done|]. by apply context_rel.
      * eapply over_index_rel; [..|exact Hix]; [by intros ?? []|]. intros v1 v2 y1 y2 Hv []. by split.
    + exact Hc.
    + done.
    + intros d y1 y2. apply (Hin (elapse d)), Helapse.
    + intros i y1 y2. apply run_pending_rel; [done|]. apply context_rel; [|done].
      intros v1 v2 Hv. by rewrite (Hnow _ _ Hv).
    + intros y1 y2 Hy. apply (cs_pending _ _ _ _ Hy).
  - exists (worlds_rel RP). split; cbn; try done.
    + by intros y1 y2 (_ & _ & Hy).
    + by apply newServer_rel.
    + intros i y1 y2 Hy. by constructor.
Qed.
End process.

(** ** Confidentiality of the process *)
Section confidential.
Context `{JSONEncoder} `{GoUnicode} `{GoMapRange} `{NetIPText} `{IDNA} `{MuxRedirect} `{GzipCodec} `{Tracing}.
Context `{PgText} `{!Pgx} `{!PgJSON} `{!PgxLaws} {P N V : Type} (pool : Pool P) (db : P → Database).
Context (http_Do : string → N → (Bootstrap.response + error) * N).
Context (decode_json : string → services + error) (verifier : Auth.Verifier V).
Context (v_ctx : option Time → V → V) (f : Flags) (o : OwnFlags) (cfg : Config.Config).
Context (now : World P → Time) (elapse : Duration → World P → World P) (connect : option error).

(** C2: confidentiality of the process, caches included.  main starts two processes with the
    same settings, over databases with the same rows except for what a caller of level [lvl]
    may not know of the entities.  Then both start or exit alike, and whatever happens to
    both (requests of callers of any tier, time, background refreshes of the record cache and
    of the registry, signals, the end of the listener, the shutdown), they run through the
    same states but for the withheld data: both go on or both stop, the limiters admit the
    same, and the next request is granted the same level and answered by both, with the same
    bytes when that level is at most [lvl], unless it searches entities by name or email. *)
Theorem process_confidential lvl rest (w1 w2 : World P) (v : V) (w : N) :
  let RP := pools_rel db lvl rest in
  (∀ c, json_Encode c ≠ "") → serves pool db →
  (∀ ip x1 x2, t_networks (db x1) = t_networks (db x2) →
     ∃ row, QueryRow pool sql_ip [ArgString (addr_String ip)] x1 = (row, x1) ∧
            QueryRow pool sql_ip [ArgString (addr_String ip)] x2 = (row, x2)) →
  (∀ x1 x2, worlds_rel RP x1 x2 → now x1 = now x2 ∧ ∀ d, worlds_rel RP (elapse d x1) (elapse d x2)) →
  worlds_rel RP w1 w2 →
  match start pool f o cfg now elapse None connect w1, start pool f o cfg now elapse None connect w2 with
  | Some (inl p1), Some (inl p2) =>
      let run p es := life_run http_Do decode_json verifier v_ctx f o p es (init_life http_Do decode_json f p v w) in
      ∀ es, match run p1 es, run p2 es with
      | Some s1, Some s2 =>
          control s1 = control s2 ∧ (lf_state s1).2.1 = (lf_state s2).2.1 ∧
          ∀ r, request_level verifier v_ctx f p1 (lf_state s1) r = request_level verifier v_ctx f p2 (lf_state s2) r ∧
            ∃ ops1 ops2 st1 st2,
              serve_request verifier v_ctx f o p1 (lf_registry s1) ∅ r (lf_state s1) = Some (ops1, st1) ∧
              serve_request verifier v_ctx f o p2 (lf_registry s2) ∅ r (lf_state s2) = Some (ops2, st2) ∧
              (shielded lvl (r, request_level verifier v_ctx f p1 (lf_state s1) r) → ops1 = ops2)
      | None, None => True
      | _, _ => False
      end
  | Some (inr c1), Some (inr c2) => c1 = c2
  | _, _ => False
  end.
Proof.
  intros RP Hjson Hp Hip Hclock Hw. pose proof (start_cases pool f o cfg now elapse None connect w1) as Hok.
  pose proof (start_rel pool lvl RP (postgres_source_rel pool db Hp Hip lvl rest)
    (postgres_index_rel pool db Hp lvl rest) now elapse (λ x1 x2 Hx, proj1 (Hclock x1 x2 Hx))
    (λ d x1 x2 Hx, proj2 (Hclock x1 x2 Hx) d) f o cfg None connect w1 w2 Hw) as Hs.
  destruct (start _ _ _ _ _ _ _ _ w1) as [[p1|]|], (start _ _ _ _ _ _ _ _ w2) as [[p2|]|]; try done.
  destruct Hs as [R Hpr]. intros run es. unfold run.
  destruct (run_rel Hjson http_Do decode_json verifier v_ctx f o lvl p1 p2 R Hpr es _ _
    (init_rel http_Do decode_json f lvl p1 p2 R Hpr v w)) as [s1 s2 [Hc Hst]|]; [|done].
  split; [done|]. split; [apply Hst|]. intros r.
  assert (lf_registry s1 = lf_registry s2) as -> by (unfold control in Hc; by simplify_eq).
  destruct (serve_request_rel Hjson verifier v_ctx f o lvl p1 p2 R Hpr (lf_registry s2) r _ _ Hst)
    as [Hl (ops1 & ops2 & t1 & t2 & E1 & E2 & _ & Ho)].
  split; [exact Hl|]. by exists ops1, ops2, t1, t2.
Qed.
End confidential.

(** * Witnesses *)
#[local] Existing Instance unicode_default.
#[local] Existing Instance map_range_default.
#[local] Existing Instance netip_bits.
#[local] Existing Instance idna_ldh.
#[local] Existing Instance json_names.
#[local] Existing Instance mux_demo.
#[local] Existing Instance gzip_mark.
#[local] Existing Instance no_span.
#[local] Existing Instance pgx_values.
#[local] Existing Instance pg_text.
#[local] Existing Instance pg_json.
#[local] Existing Instance pgx_values_laws.

(** A database at rest, and a clock. *)
Definition clocked_pool : Pool (Database * Time) :=
  {| QueryRow := λ sql args x, (db_row sql args x.1, x); QueryRows := λ sql args x, (db_rows sql args x.1, x) |}.
Definition clock (w : World (Database * Time)) : Time := (w_pool w).2.
Definition wait (d : Duration) (w : World (Database * Time)) : World (Database * Time) :=
  set_pool ((w_pool w).1, (w_pool w).2 + d)%Z w.

Lemma clocked_row sql args r x :
  QueryRow db_pool sql args x.1 = (r, x.1) → QueryRow clocked_pool sql args x = (r, x).
Proof. unfold clocked_pool, db_pool. cbn [QueryRow]. by intros [= ->]. Qed.
Lemma clocked_rows sql args r x :
  QueryRows db_pool sql args x.1 = (r, x.1) → QueryRows clocked_pool sql args x = (r, x).
Proof. unfold clocked_pool, db_pool. cbn [QueryRows]. by intros [= ->]. Qed.
Lemma clocked_serves : serves clocked_pool fst.
Proof.
  pose proof db_pool_serves as Hdb.
  split; intros; try (by apply clocked_row, Hdb); try (by apply clocked_rows, Hdb).
  destruct (serves_ip _ _ Hdb ip w.1) as [(n & Hn & E)|[Hn E]]; [done..| |]; [left; exists n|right];
    (split; [exact Hn|by apply clocked_row]).
Qed.
Lemma clocked_ip ip x1 x2 : t_networks x1.1 = t_networks x2.1 →
  ∃ row, QueryRow clocked_pool sql_ip [ArgString (addr_String ip)] x1 = (row, x1) ∧
         QueryRow clocked_pool sql_ip [ArgString (addr_String ip)] x2 = (row, x2).
Proof.
  intros E. eexists. split; [reflexivity|]. unfold clocked_pool. cbn [QueryRow]. f_equal.
  unfold db_row, networks_with. rewrite !decide_False by (by vm_compute). by rewrite E.
Qed.

(** The database of PgFacts, and the same with another person in it. *)
Definition other_entity : entity_row :=
  {| er_handle := "ENT-1"; er_kind := "individual"; er_full_name := "Piet"; er_organization := "";
     er_title := ""; er_country_code := Some "NL"; er_locality := "Delft"; er_region := "";
     er_postal_code := "2611"; er_street := ["Markt 1"]; er_created_at := 1%Z; er_updated_at := 2%Z;
     er_extras := "{}" |}.
Definition other_db : Database :=
  {| t_entities := [other_entity];
     t_emails := [{| em_entity := "ENT-1"; em_email := "piet@example.org" |};
                  {| em_entity := "ENT-1"; em_email := "p@example.nl" |}];
     t_phones := [{| pr_entity := "ENT-1"; pr_number := "+31.2"; pr_kinds := ["fax"] |}];
     t_domains := t_domains demo_db; t_contacts := t_contacts demo_db;
     t_nameservers := t_nameservers demo_db; t_domain_ns := t_domain_ns demo_db;
     t_networks := t_networks demo_db |}.
Lemma other_db_rel : db_rel AccessAnonymous demo_db other_db.
Proof.
  split; try done.
  - split; [exact demo_db_ok|]. by apply (bool_decide_unpack _); vm_compute.
  - repeat constructor.
Qed.

Example told_apart_ex : ¬ indist AccessPrivileged (entity_item demo_db demo_entity) (entity_item other_db other_entity).
Proof. by vm_compute. Qed.

(** A privileged caller fills the caches; then the anonymous one asks, after a minute too. *)
Definition ask (auth path : string) : event := ERequest (get_request auth path []).
Definition some_events : list event := [
  ask "Bearer root" "/entity/ENT-1"; ask "" "/domain/example.nl"; EElapse (61 * Second)%Z;
  ask "Bearer root" "/domain/example.nl"; ECacheRefresh 0].
Definition start_over (d : Database) : option (process + Z) :=
  start clocked_pool (pg_flags false) own_flags no_config clock wait None None
    (Build_World Memory.New (d, 0%Z) None).
Definition run_over (p : process) : option (life nat unit p) :=
  life_run iana_ok iana_empty token_verifier no_ctx (pg_flags false) own_flags p some_events
    (init_life iana_ok iana_empty (pg_flags false) p tt 0%nat).
Definition outcome_over (d : Database) : option (list Z) :=
  match start_over d with
  | Some (inl p) => (λ s, al_status <$> (lf_state s).1) <$> run_over p
  | _ => None
  end.

(** A refresh that waits may end the process; one that does not wait cannot. *)
Definition crashed_over (e : event) : option bool :=
  match start_over demo_db with
  | Some (inl p) =>
      lf_crashed <$> life_run iana_ok iana_empty token_verifier no_ctx (pg_flags false) own_flags p
        [ask "" "/domain/example.nl"; EElapse (61 * Second)%Z; ask "" "/domain/example.org";
         ask "Bearer root" "/domain/example.nl"; e]
        (init_life iana_ok iana_empty (pg_flags false) p tt 0%nat)
  | _ => None
  end.
Example refresh_panic_ex :
  (crashed_over (ERefreshPanic 0), crashed_over (ECacheRefresh 0), crashed_over (ERefreshPanic 1)) =
  (Some true, Some false, None).
Proof. vm_compute. reflexivity. Qed.

Lemma clock_rel lvl (x1 x2 : World (Database * Time)) :
  worlds_rel (pools_rel fst lvl (λ x y, x.2 = y.2)) x1 x2 →
  clock x1 = clock x2 ∧ ∀ d, worlds_rel (pools_rel fst lvl (λ x y, x.2 = y.2)) (wait d x1) (wait d x2).
Proof.
  intros (Hs & [Hd Ht] & Hl). split; [exact Ht|]. intros d. split_and!; [done|split; [exact Hd|]|done].
  cbn. by rewrite Ht.
Qed.
Lemma anonymous_shielded p st path :
  (path =? "/entities")%string = false → r_Path (get_request "" path []) = path →
  shielded AccessAnonymous
    (get_request "" path [], request_level token_verifier no_ctx (pg_flags false) p st (get_request "" path [])).
Proof.
  intros Hp E. unfold shielded, personal_search, request_level. cbn [fst snd]. rewrite E, Hp. split; [|done].
  by destruct (st_verifier _).
Qed.

Lemma process_confidential_witness :
  outcome_over demo_db = Some [200; 200; 200]%Z ∧
  match start_over demo_db, start_over other_db with
  | Some (inl p1), Some (inl p2) =>
      match run_over p1, run_over p2 with
      | Some s1, Some s2 => ∃ ops st1 st2,
          serve_request token_verifier no_ctx (pg_flags false) own_flags p1 (lf_registry s1) ∅
            (get_request "" "/entity/ENT-1" []) (lf_state s1) = Some (ops, st1) ∧
          serve_request token_verifier no_ctx (pg_flags false) own_flags p2 (lf_registry s2) ∅
            (get_request "" "/entity/ENT-1" []) (lf_state s2) = Some (ops, st2)
      | _, _ => False
      end
  | _, _ => False
  end.
Proof.
  assert (Ho : outcome_over demo_db = Some [200; 200; 200]%Z) by (vm_compute; reflexivity).
  split; [exact Ho|]. unfold outcome_over in Ho.
  pose proof (process_confidential clocked_pool fst iana_ok iana_empty token_verifier no_ctx (pg_flags false)
    own_flags no_config clock wait None AccessAnonymous (λ x y, x.2 = y.2)
    (Build_World Memory.New (demo_db, 0%Z) None) (Build_World Memory.New (other_db, 0%Z) None) tt 0%nat) as Hc.
  cbv zeta in Hc. specialize (Hc ltac:(by intros []) clocked_serves clocked_ip).
  fold (start_over demo_db) (start_over other_db) in Hc.
  assert (Hw : worlds_rel (pools_rel fst AccessAnonymous (λ x y : Database * Time, x.2 = y.2))
    (Build_World Memory.New (demo_db, 0%Z) None) (Build_World Memory.New (other_db, 0%Z) None))
    by (split_and!; [done|split; [exact other_db_rel|done]|done]).
  specialize (Hc (clock_rel AccessAnonymous) Hw).
  destruct (start_over demo_db) as [[p1|c1]|]; [|done..].
  destruct (start_over other_db) as [[p2|c2]|]; [|done..].
  specialize (Hc some_events). fold (run_over p1) (run_over p2) in Hc.
  destruct (run_over p1) as [s1|]; [|done]. destruct (run_over p2) as [s2|]; [|done].
  destruct Hc as (_ & _ & Hc).
  destruct (Hc (get_request "" "/entity/ENT-1" [])) as [_ (ops1 & ops2 & st1 & st2 & E1 & E2 & Ho')].
  exists ops1, st1, st2. split; [exact E1|]. rewrite E2. f_equal. rewrite Ho'; [done|]. by apply anonymous_shielded.
Defined.
