(* ===== verification/Stress.v ===== *)
(** * cmd/gordap-stress: the load generator.

    The planned requests with their expectations, the sampled latencies, and the accounting
    that the workers share.  Every operation on a shared counter, [sync.Map] or mutex is one
    atomic [action]; a worker is the list of the actions it has still to do, and a schedule
    interleaves the workers.  Outside the file: the random numbers ([GoRand]), [%q] and [%v]
    ([GoFmt]), JSON decoding ([JSONObject]), the parsing of a URL ([GoRequest]) and the network
    (a request's reply is an input). *)
From Stdlib Require Strings.String.
From S2P Require Import Prelude GoStrings Float64 Synth.

(** ** What the file does not define *)

(** math/rand/v2: a generator state to a draw and the next state. *)
Class GoRand (G : Type) := {
  rand_Int64N : Z → G → Z * G;      (* for a positive bound *)
  rand_Float64 : G → float64 * G;
  rand_Int64N_range n g : (0 < n)%Z → (0 ≤ (rand_Int64N n g).1 < n)%Z }.
Class GoFmt := {
  fmt_Quote : string → string;          (* %q *)
  fmt_Float : float64 → string }.       (* %v *)

(** A conversion of a float to an integer: truncation when it fits, otherwise whatever the
    implementation does. *)
Class FloatToInt := {
  float_int : float64 → Z;
  float_int_range x : in_int64 (float_int x);
  float_int_trunc x z : float_trunc x = Some z → in_int64 z → float_int x = z }.

(** The values of a decoded [map[string]any], as far as the code tells them apart. *)
Inductive any := AnyString (s : string) | AnyFloat (x : float64) | AnyInt64 (z : Z) | AnyInt (z : Z) | AnyOther.
Definition body := gmap string any.
(** [http.NewRequestWithContext] of a GET: the error of a URL that does not parse. *)
Class GoRequest := { http_NewRequest : string → option error }.
Class JSONObject := { json_Unmarshal : string → body + string (* the error's text *) }.

(** [s, _ := m[k].(string)] and [x, _ := m[k].(float64)] *)
Definition as_string (v : option any) : string := match v with Some (AnyString s) => s | _ => "" end.
Definition as_float (v : option any) : float64 := match v with Some (AnyFloat x) => x | _ => float_Z 0 end.

(** The decimal constant [n / 10^k]. *)
Definition decimal (n k : Z) : float64 := fdiv (float_Z n) (float_Z (10 ^ k)).

(** ** Workload *)
Abbreviation queryKind := string (only parsing).
Definition kDomain : queryKind := "domain".
Definition kDomainMissing : queryKind := "domain_missing".
Definition kEntity : queryKind := "entity".
Definition kEntityInvalid : queryKind := "entity_invalid".
Definition kNameserver : queryKind := "nameserver".
Definition kSearchDomains : queryKind := "search_domains".
Definition kSearchEntities : queryKind := "search_entities".
Definition kHelp : queryKind := "help".

(** A nil [validate] is [None]; the empty answer is a pass. *)
Record query := {
  q_kind : queryKind; q_path : string; q_wantStatus : Z; q_validate : option (body → string) }.
Definition no_query : query := {| q_kind := ""; q_path := ""; q_wantStatus := 0; q_validate := None |}.

Record weighted := { w_kind : queryKind; w_weight : Z }.
Definition defaultMix : list weighted := [
  Build_weighted kDomain 70; Build_weighted kDomainMissing 5;
  Build_weighted kEntity 10; Build_weighted kEntityInvalid 1;
  Build_weighted kNameserver 5;
  Build_weighted kSearchDomains 7; Build_weighted kSearchEntities 1;
  Build_weighted kHelp 1].
Definition total_weight (mix : list weighted) : Z := foldl (λ t m, t + w_weight m)%Z 0%Z mix.
(** The loop over the weights; the zero value when no weight is left. *)
Fixpoint roll_kind (mix : list weighted) (roll : Z) : queryKind :=
  match mix with
  | [] => ""
  | m :: mix => if (roll <? w_weight m)%Z then w_kind m else roll_kind mix (roll - w_weight m)%Z
  end.

Section pick.
Context `{GoFmt} `{FloatToInt} {G : Type} `{!GoRand G}.

(** [r.IntN(n)]: a panic unless [n] is positive. *)
Definition IntN (n : Z) (g : G) : option (Z * G) :=
  if (0 <? n)%Z then Some (rand_Int64N n g) else None.

Definition pickKey (r : G) (corpus : Z) (dist : string) : option (Z * G) :=
  if (dist =? "zipf")%string then
    let '(u, r) := rand_Float64 r in
    let idx := float_int (fmul (float_Z corpus) (fmul u u)) in
    let idx := if (idx <? 0)%Z then 0%Z else idx in
    let idx := if (corpus <=? idx)%Z then (corpus - 1)%Z else idx in
    Some (idx, r)
  else IntN corpus r.

(** A failed comparison of a member of the body. *)
Definition want_string (key want wanted : string) (b : body) : string :=
  let got := as_string (b !! key) in
  if (got =? want)%string then "" else key +:+ "=" +:+ fmt_Quote got +:+ " want " +:+ wanted.
(** A literal "..." of the format string. *)
Definition literal (s : string) : string := String "034" (s +:+ String "034" "").
Definition want_class (cls : string) : body → string := want_string "objectClassName" cls (literal cls).
Definition first_failure (v w : body → string) (b : body) : string :=
  if (v b =? "")%string then w b else v b.

Definition domain_query (kind : queryKind) (name : string) : query :=
  {| q_kind := kind; q_path := "/domain/" +:+ name; q_wantStatus := 200;
     q_validate := Some (first_failure (want_class "domain") (want_string "ldhName" name (fmt_Quote name))) |}.
Definition missing_query (kind : queryKind) (name : string) : query :=
  {| q_kind := kind; q_path := "/domain/" +:+ name; q_wantStatus := 404;
     q_validate := Some (λ b, let got := as_string (b !! "objectClassName") in
       if (got =? "error")%string then "" else "expected error envelope, got " +:+ fmt_Quote got) |}.
Definition entity_query (kind : queryKind) (h : string) : query :=
  {| q_kind := kind; q_path := "/entity/" +:+ h; q_wantStatus := 200;
     q_validate := Some (first_failure (want_class "entity") (want_string "handle" h (fmt_Quote h))) |}.
Definition invalid_query (kind : queryKind) : query :=
  {| q_kind := kind; q_path := "/entity/..%2Fetc%2Fpasswd"; q_wantStatus := 400;
     q_validate := Some (λ b, let got := as_float (b !! "errorCode") in
       if SFeqb got (float_Z 400) then "" else "errorCode=" +:+ fmt_Float got +:+ " want 400") |}.
(** The other kinds check the class only. *)
Definition class_query (kind : queryKind) (path cls : string) : query :=
  {| q_kind := kind; q_path := path; q_wantStatus := 200; q_validate := Some (want_class cls) |}.

Definition pickQuery (r : G) (corpus : Z) (dist : string) : option (query * G) :=
  '(roll, r) ← IntN (total_weight defaultMix) r;
  let kind := roll_kind defaultMix roll in
  if (kind =? kDomain)%string then
    '(i, r) ← pickKey r corpus dist; Some (domain_query kind (DomainName i), r)
  else if (kind =? kDomainMissing)%string then
    '(x, r) ← IntN 1000000 r; Some (missing_query kind (DomainName (wrap64 (corpus + x))), r)
  else if (kind =? kEntity)%string then
    '(i, r) ← pickKey r corpus dist; Some (entity_query kind (EntityHandle i), r)
  else if (kind =? kEntityInvalid)%string then Some (invalid_query kind, r)
  else if (kind =? kNameserver)%string then
    '(i, r) ← IntN (Z.quot corpus 10) r;
    let i := if (i <? 1)%Z then 1%Z else i in
    Some (class_query kind ("/nameserver/" +:+ NameserverName i) "nameserver", r)
  else if (kind =? kSearchDomains)%string then
    '(x, r) ← IntN 10 r;
    Some (class_query kind ("/domains?name=syn-" +:+ Itoa (x * 10) +:+ "*") "domainSearchResults", r)
  else if (kind =? kSearchEntities)%string then
    '(x, r) ← IntN (Z.of_nat (length Countries)) r;
    Some (class_query kind ("/entities?countryCode=" +:+ at_index Countries x) "entitySearchResults", r)
  else if (kind =? kHelp)%string then Some (class_query kind "/help" "help", r)
  else Some (no_query, r).
End pick.

Definition mixSummary : string :=
  Join ((λ m, w_kind m +:+ "=" +:+ Itoa (Z.quot (w_weight m * 100) (total_weight defaultMix)) +:+ "%")
          <$> defaultMix) " ".

(** [truncate]: on bytes. *)
Definition truncate (b : string) : string :=
  if (String.length b <=? 200)%nat then b else String.substring 0 200 b +:+ "...[truncated]".

(** ** Metrics *)
Record latencies := {
  l_samples : list Duration; l_cap : Z; l_seen : Z; l_min : Duration; l_max : Duration }.
Definition sampleCap : Z := 100000.
Definition newLatencies : latencies :=
  {| l_samples := []; l_cap := sampleCap; l_seen := 0%Z; l_min := (3600 * Second)%Z; l_max := 0%Z |}.

Section latencies.
Context `{FloatToInt} {G : Type} `{!GoRand G}.

(** The draw is the process-wide generator's; its bound wraps to a negative number after
    2^63 calls, and a bound that is not positive is a panic. *)
Definition Add (d : Duration) (l : latencies) (g : G) : option (latencies * G) :=
  let seen := wrap64 (l_seen l + 1) in
  let mn := if (d <? l_min l)%Z then d else l_min l in
  let mx := if (l_max l <? d)%Z then d else l_max l in
  let set samples := {| l_samples := samples; l_cap := l_cap l; l_seen := seen; l_min := mn; l_max := mx |} in
  if (Z.of_nat (length (l_samples l)) <? l_cap l)%Z then Some (set (l_samples l ++ [d]), g)
  else
    '(idx, g) ← IntN seen g;
    Some (set (if (idx <? l_cap l)%Z then <[Z.to_nat idx := d]> (l_samples l) else l_samples l), g).

(** One percentile of the sorted samples; 0 without a sample. *)
Definition percentile (cp : list Duration) (p : float64) : Duration :=
  let n := Z.of_nat (length cp) in
  if (n =? 0)%Z then 0%Z
  else
    let idx := wrap64 (float_int (fmul (float_Z n) p) - 1) in
    let idx := if (idx <? 0)%Z then 0%Z else idx in
    let idx := if (n <=? idx)%Z then (n - 1)%Z else idx in
    default 0%Z (cp !! Z.to_nat idx).
Definition percentiles (l : latencies) (ps : list float64) : list Duration :=
  percentile (merge_sort Z.le (l_samples l)) <$> ps.
End latencies.

Record bucket := { b_count : Z; b_failures : Z; b_lat : latencies }.
Definition newBucket : bucket := {| b_count := 0; b_failures := 0; b_lat := newLatencies |}.
Record stats := {
  startedAt : Time; overall : bucket; byKind : gmap queryKind bucket; byStatus : gmap Z Z;
  cacheHit : Z; cacheMiss : Z; transErr : Z; mismatches : list string }.
Definition newStats (now : Time) : stats :=
  {| startedAt := now; overall := newBucket; byKind := ∅; byStatus := ∅; cacheHit := 0;
     cacheMiss := 0; transErr := 0; mismatches := [] |}.
Definition maxRecordedMismatches : nat := 10.

(** ** The shared operations, each one atomic

    [bucketFor] and [recordStatus] are two: a load, and a store that a failed load leads to. *)
Inductive action :=
  | BucketLoad (k : queryKind) | BucketStore (k : queryKind)
  | LatAdd (k : option queryKind) (d : Duration)      (* [None] is the overall bucket *)
  | CountAdd (k : option queryKind) | FailuresAdd (k : option queryKind)
  | TransErrAdd | HitAdd | MissAdd
  | StatusLoad (code : Z) | StatusAdd (code : Z) | StatusStore (code : Z)
  | MismatchAdd (line : string).

Definition bucketFor (k : queryKind) : list action := [BucketLoad k].
Definition recordStatus (code : Z) : list action := [StatusLoad code].

Definition inc (z : Z) : Z := wrap64 (z + 1).
Definition count_one (b : bucket) : bucket :=
  {| b_count := inc (b_count b); b_failures := b_failures b; b_lat := b_lat b |}.
Definition fail_one (b : bucket) : bucket :=
  {| b_count := b_count b; b_failures := inc (b_failures b); b_lat := b_lat b |}.
Definition set_lat (b : bucket) (l : latencies) : bucket :=
  {| b_count := b_count b; b_failures := b_failures b; b_lat := l |}.

Definition with_overall (b : bucket) (s : stats) : stats :=
  {| startedAt := startedAt s; overall := b; byKind := byKind s; byStatus := byStatus s;
     cacheHit := cacheHit s; cacheMiss := cacheMiss s; transErr := transErr s;
     mismatches := mismatches s |}.
Definition with_byKind (m : gmap queryKind bucket) (s : stats) : stats :=
  {| startedAt := startedAt s; overall := overall s; byKind := m; byStatus := byStatus s;
     cacheHit := cacheHit s; cacheMiss := cacheMiss s; transErr := transErr s;
     mismatches := mismatches s |}.
Definition with_byStatus (m : gmap Z Z) (s : stats) : stats :=
  {| startedAt := startedAt s; overall := overall s; byKind := byKind s; byStatus := m;
     cacheHit := cacheHit s; cacheMiss := cacheMiss s; transErr := transErr s;
     mismatches := mismatches s |}.
Definition with_counts (hit miss err : Z) (s : stats) : stats :=
  {| startedAt := startedAt s; overall := overall s; byKind := byKind s; byStatus := byStatus s;
     cacheHit := hit; cacheMiss := miss; transErr := err; mismatches := mismatches s |}.
Definition with_mismatches (l : list string) (s : stats) : stats :=
  {| startedAt := startedAt s; overall := overall s; byKind := byKind s; byStatus := byStatus s;
     cacheHit := cacheHit s; cacheMiss := cacheMiss s; transErr := transErr s; mismatches := l |}.
(** The bucket a worker holds a pointer to: the one in the map, which never loses an entry. *)
Definition bucket_of (k : option queryKind) (s : stats) : option bucket :=
  match k with None => Some (overall s) | Some k => byKind s !! k end.
Definition set_bucket (k : option queryKind) (b : bucket) (s : stats) : stats :=
  match k with None => with_overall b s | Some k => with_byKind (<[k := b]> (byKind s)) s end.

(** The body of [recordMismatch], under its mutex. *)
Definition add_mismatch (line : string) (s : stats) : stats :=
  if (maxRecordedMismatches <=? length (mismatches s))%nat then s
  else with_mismatches (mismatches s ++ [line]) s.

Section act.
Context {G : Type} `{!GoRand G}.

(** What is left to do of the operation, and the next state; [None] is a panic. *)
Definition act (a : action) (s : stats) (g : G) : option (list action * stats * G) :=
  match a with
  | BucketLoad k => Some (match byKind s !! k with Some _ => [] | None => [BucketStore k] end, s, g)
  | BucketStore k =>
      Some ([], match byKind s !! k with
                | Some _ => s | None => set_bucket (Some k) newBucket s end, g)
  | LatAdd k d =>
      b ← bucket_of k s; '(l, g) ← Add d (b_lat b) g; Some ([], set_bucket k (set_lat b l) s, g)
  | CountAdd k => b ← bucket_of k s; Some ([], set_bucket k (count_one b) s, g)
  | FailuresAdd k => b ← bucket_of k s; Some ([], set_bucket k (fail_one b) s, g)
  | TransErrAdd => Some ([], with_counts (cacheHit s) (cacheMiss s) (inc (transErr s)) s, g)
  | HitAdd => Some ([], with_counts (inc (cacheHit s)) (cacheMiss s) (transErr s) s, g)
  | MissAdd => Some ([], with_counts (cacheHit s) (inc (cacheMiss s)) (transErr s) s, g)
  | StatusLoad code =>
      Some ([match byStatus s !! code with Some _ => StatusAdd code | None => StatusStore code end], s, g)
  | StatusAdd code => n ← byStatus s !! code; Some ([], with_byStatus (<[code := inc n]> (byStatus s)) s, g)
  | StatusStore code =>
      (* LoadOrStore keeps a counter that is there, and with it the one stored is lost *)
      Some ([], match byStatus s !! code with
                | Some _ => s | None => with_byStatus (<[code := 1%Z]> (byStatus s)) s end, g)
  | MismatchAdd line => Some ([], add_mismatch line s, g)
  end.
End act.

(** ** One request *)

(** What [client.Do] and reading the body give: an error's text, or status, cache header and body. *)
Inductive reply := NoReply (err : string) | Reply (status : Z) (cache : string) (body : string).
Record exchange := { x_query : query; x_took : Duration; x_reply : reply }.

Section exec.
Context `{GoRequest} `{JSONObject}.

Definition recordMismatch (q : query) (code : Z) (reason : string) : action :=
  MismatchAdd ("[" +:+ q_kind q +:+ "] " +:+ q_path q +:+ " → status=" +:+ Itoa code +:+ ": " +:+ reason).
Definition failed_with (q : query) (code : Z) (reason : string) : list action :=
  [FailuresAdd (Some (q_kind q)); FailuresAdd None; recordMismatch q code reason].

(** The check of a reply: [None] is a call of a nil function. *)
Definition verdict (q : query) (code : Z) (bytes : string) : option (option string) :=
  if negb (code =? q_wantStatus q)%Z then
    Some (Some ("status=" +:+ Itoa code +:+ " want=" +:+ Itoa (q_wantStatus q) +:+ " body=" +:+ truncate bytes))
  else match json_Unmarshal bytes with
  | inr err => Some (Some ("body not JSON: " +:+ err))
  | inl parsed =>
      validate ← q_validate q;
      let reason := validate parsed in
      Some (if (reason =? "")%string then None else Some reason)
  end.

(** The error of [NewRequestWithContext] is dropped: without a request, [client.Do] is a nil
    dereference. *)
Definition exec (base : string) (x : exchange) : option (list action) :=
  let q := x_query x in
  if http_NewRequest (base +:+ q_path q) is Some _ then None else
  let counted := bucketFor (q_kind q) ++
    [LatAdd None (x_took x); LatAdd (Some (q_kind q)) (x_took x); CountAdd None; CountAdd (Some (q_kind q))] in
  match x_reply x with
  | NoReply err =>
      Some (counted ++ [TransErrAdd; FailuresAdd None; FailuresAdd (Some (q_kind q)); recordMismatch q 0 err])
  | Reply code cache bytes =>
      v ← verdict q code bytes;
      Some (counted ++ [if (cache =? "HIT")%string then HitAdd else MissAdd] ++ recordStatus code ++
            match v with None => [] | Some reason => failed_with q code reason end)
  end.
End exec.

(** ** The workers *)
Section workers.
Context `{GoFmt} `{FloatToInt} `{GoRequest} `{JSONObject} {G : Type} `{!GoRand G}.

(** The loop of a worker: a query per iteration, as many as the replies it gets before the
    test ends, from a generator of its own. *)
Fixpoint worker (corpus : Z) (dist : string) (r : G) (replies : list (Duration * reply))
    : option (list exchange) :=
  match replies with
  | [] => Some []
  | (d, rep) :: replies =>
      '(q, r) ← pickQuery r corpus dist;
      xs ← worker corpus dist r replies;
      Some ({| x_query := q; x_took := d; x_reply := rep |} :: xs)
  end.
Definition program (base : string) (xs : list exchange) : option (list action) :=
  (λ ls, concat ls) <$> mapM (exec base) xs.

Definition system : Type := list (list action) * stats * G.
(** Worker [i] does its next action; nothing when it has finished. *)
Definition step (i : nat) (sys : system) : option system :=
  let '(ts, s, g) := sys in
  match ts !! i with
  | Some (a :: rest) => '(k, s, g) ← act a s g; Some (<[i := k ++ rest]> ts, s, g)
  | _ => Some sys
  end.
Fixpoint run (sched : list nat) (sys : system) : option system :=
  match sched with
  | [] => Some sys
  | i :: sched => sys ← step i sys; run sched sys
  end.
Definition finished (sys : system) : bool := forallb is_empty sys.1.1.

(** The exchanges of all workers, and the system before any of them has run. *)
Definition plan (corpus : Z) (dist : string) (workers : list (G * list (Duration * reply)))
    : option (list (list exchange)) :=
  mapM (λ w : G * list (Duration * reply), worker corpus dist w.1 w.2) workers.
Definition runStress (base : string) (corpus : Z) (dist : string)
    (workers : list (G * list (Duration * reply))) (sched : list nat) (st : stats) (g : G) : option system :=
  xss ← plan corpus dist workers; ts ← mapM (program base) xss; run sched (ts, st, g).
End workers.

(** ** The report *)
Definition millis (d : Duration) : float64 := fmul (Seconds d) (float_Z 1000).

Record json_report := {
  j_target : string; j_concurrency : Z; j_duration_seconds : float64; j_seed_corpus : Z;
  j_total_requests : Z; j_throughput_rps : float64; j_transport_errors : Z;
  j_validation_failures : Z; j_latency_ms : gmap string float64; j_cache : gmap string Z;
  j_by_endpoint : gmap string (gmap string any); j_status_codes : gmap Z Z;
  j_mismatches : option (list string) }.

(** [emitJSON], before the encoder: the keys of the map are the fields. *)
Definition emitJSON `{FloatToInt} (st : stats) (concurrency : Z) (dur : Duration) (corpus : Z)
    (url : string) (now : Time) : json_report :=
  let elapsed := (now - startedAt st)%Z in
  let total := b_count (overall st) in
  let lat := b_lat (overall st) in
  let p := percentiles lat [decimal 50 2; decimal 90 2; decimal 95 2; decimal 99 2; decimal 999 3] in
  let nth l i := millis (default 0%Z (l !! i)) in
  {| j_target := url; j_concurrency := concurrency; j_duration_seconds := Seconds dur;
     j_seed_corpus := corpus; j_total_requests := total;
     j_throughput_rps := fdiv (float_Z total) (Seconds elapsed);
     j_transport_errors := transErr st; j_validation_failures := b_failures (overall st);
     j_latency_ms := {[ "p50" := nth p 0%nat; "p90" := nth p 1%nat; "p95" := nth p 2%nat;
                        "p99" := nth p 3%nat; "p999" := nth p 4%nat; "max" := millis (l_max lat) ]};
     j_cache := {[ "hits" := cacheHit st; "misses" := cacheMiss st ]};
     j_by_endpoint := (λ b, let ps := percentiles (b_lat b) [decimal 50 2; decimal 95 2; decimal 99 2] in
       {[ "count" := AnyInt64 (b_count b); "failures" := AnyInt64 (b_failures b);
          "p50_ms" := AnyFloat (nth ps 0%nat); "p95_ms" := AnyFloat (nth ps 1%nat);
          "p99_ms" := AnyFloat (nth ps 2%nat) ]}) <$> byKind st;
     j_status_codes := byStatus st;
     j_mismatches := if (0 <? b_failures (overall st))%Z then Some (mismatches st) else None |}.

(** * Theorems *)

(** ** Latencies *)
Section latency_facts.
Context `{FloatToInt} {G : Type} `{!GoRand G}.

Fixpoint add_all (ds : list Duration) (l : latencies) (g : G) : option (latencies * G) :=
  match ds with
  | [] => Some (l, g)
  | d :: ds => '(l, g) ← Add d l g; add_all ds l g
  end.

(** After the durations [ds]. *)
Record lat_of (ds : list Duration) (l : latencies) : Prop := {
  lo_cap : l_cap l = sampleCap;
  lo_seen : l_seen l = Z.of_nat (length ds);
  lo_min : l_min l = foldr Z.min (3600 * Second)%Z ds;
  lo_max : l_max l = foldr Z.max 0%Z ds;
  lo_samples : l_samples l ⊆+ ds;
  lo_length : Z.of_nat (length (l_samples l)) = Z.min sampleCap (Z.of_nat (length ds));
  lo_all : (Z.of_nat (length ds) ≤ sampleCap)%Z → l_samples l = ds }.

Lemma newLatencies_of : lat_of [] newLatencies.
Proof. by split. Qed.

Lemma foldr_snoc (f : Z → Z → Z) z ds d :
  (∀ x y, f x y = f y x) → (∀ x y w, f x (f y w) = f (f x y) w) →
  foldr f z (ds ++ [d]) = f d (foldr f z ds).
Proof.
  intros Hc Ha. induction ds as [|x ds IH]; [done|]. cbn. rewrite IH, !Ha. by rewrite (Hc x d).
Qed.

Lemma insert_submseteq (i : nat) (d : Duration) samples ds :
  samples ⊆+ ds → <[i := d]> samples ⊆+ ds ++ [d].
Proof.
  intros Hs. destruct (decide (i < length samples)%nat) as [Hi|Hi].
  - destruct (lookup_lt_is_Some_2 samples i Hi) as [x Hx].
    rewrite insert_take_drop by done. rewrite (Permutation_app_comm ds), <-Permutation_middle.
    cbn. apply submseteq_skip. etrans; [|exact Hs].
    rewrite <-(take_drop_middle samples i x Hx) at 3. apply submseteq_skips_l.
    by apply submseteq_cons.
  - rewrite list_insert_ge by lia. etrans; [exact Hs|]. apply submseteq_inserts_r. done.
Qed.

Lemma Add_of ds d l g : lat_of ds l → (Z.of_nat (length ds) < int64_max)%Z →
  ∃ l' g', Add d l g = Some (l', g') ∧ lat_of (ds ++ [d]) l'.
Proof.
  intros [Hc Hn Hmin Hmax Hs Hl Ha] Hlen. unfold Add.
  assert (Hseen : wrap64 (l_seen l + 1) = Z.of_nat (length (ds ++ [d]))).
  { rewrite length_app, Hn, wrap64_id; [cbn; lia|]. unfold in_int64, int64_min, int64_max in *. lia. }
  assert (Em : (if (d <? l_min l)%Z then d else l_min l) = foldr Z.min (3600 * Second)%Z (ds ++ [d])).
  { rewrite foldr_snoc by (intros; lia). rewrite <-Hmin. destruct (Z.ltb_spec d (l_min l)); lia. }
  assert (Ex : (if (l_max l <? d)%Z then d else l_max l) = foldr Z.max 0%Z (ds ++ [d])).
  { rewrite foldr_snoc by (intros; lia). rewrite <-Hmax. destruct (Z.ltb_spec (l_max l) d); lia. }
  rewrite Hseen, Em, Ex, Hc, Hl. destruct (Z.ltb_spec (Z.min sampleCap (Z.of_nat (length ds))) sampleCap).
  - eexists _, g. split; [reflexivity|]. assert (E : l_samples l = ds) by (apply Ha; lia).
    rewrite E. split; cbn; try done; rewrite length_app; cbn; lia.
  - unfold IntN. rewrite (proj2 (Z.ltb_lt _ _)) by (rewrite length_app; cbn; lia). cbn [mbind option_bind].
    destruct (rand_Int64N _ g) as [idx g'] eqn:Er. eexists _, g'. split; [reflexivity|].
    split; cbn; try done.
    + destruct (idx <? sampleCap)%Z; [by apply insert_submseteq|].
      etrans; [exact Hs|]. by apply submseteq_inserts_r.
    + rewrite length_app. cbn. destruct (idx <? sampleCap)%Z; rewrite ?length_insert; lia.
    + rewrite length_app. cbn. lia.
Qed.

Lemma add_all_of ds : ∀ ds0 l g, lat_of ds0 l → (Z.of_nat (length (ds0 ++ ds)) ≤ int64_max)%Z →
  ∃ l' g', add_all ds l g = Some (l', g') ∧ lat_of (ds0 ++ ds) l'.
Proof.
  induction ds as [|d ds IH]; intros ds0 l g Hl Hlen; cbn.
  - exists l, g. by rewrite app_nil_r.
  - rewrite length_app in Hlen. cbn in Hlen.
    destruct (Add_of ds0 d l g) as (l1 & g1 & -> & Hl1); [done|lia|]. cbn [mbind option_bind].
    replace (ds0 ++ d :: ds) with ((ds0 ++ [d]) ++ ds) by (by rewrite <-app_assoc).
    apply IH; [done|]. rewrite !length_app. cbn. lia.
Qed.

(** *** Percentiles are order statistics *)
Lemma filter_length_le_app (P : Z → Prop) `{∀ x, Decision (P x)} (l1 l2 : list Z) :
  (∀ x, x ∈ l2 → ¬ P x) → (length (filter P (l1 ++ l2)) ≤ length l1)%nat.
Proof.
  intros Hn. rewrite filter_app, length_app, (filter_nil P l2) by done. cbn.
  pose proof (length_filter P l1). lia.
Qed.
Lemma sorted_rank (cp : list Z) i x : StronglySorted Z.le cp → cp !! i = Some x →
  (length (filter (λ y, y < x)%Z cp) ≤ i < length (filter (λ y, y ≤ x)%Z cp))%nat.
Proof.
  intros Hs Hi. pose proof (lookup_lt_Some cp i x Hi) as Hlt.
  rewrite <-(take_drop_middle cp i x Hi) in Hs |- *.
  assert (Hlt' : length (take i cp) = i) by (rewrite length_take; lia).
  apply StronglySorted_app in Hs as (Hle & _ & [_ Hge]%StronglySorted_inv).
  rewrite Forall_forall in Hge. split.
  - rewrite <-Hlt' at 3. apply filter_length_le_app. intros y [->|Hy]%elem_of_cons; [lia|].
    specialize (Hge y Hy). lia.
  - rewrite filter_app, filter_cons_True by lia. rewrite length_app. cbn.
    rewrite (filter_all (λ y, y ≤ x)%Z (take i cp)); [lia|]. intros y Hy. apply Hle; [done|left].
Qed.

(** C35: the latency recorder.  After any number of requests (below 2^63), whatever the random
    draws, it has counted them all, knows the exact least and greatest duration (the least
    from an hour down), and holds min(100000, n) of them as samples, all of them while there
    are no more than that; adding never panics.  Every percentile is an order statistic of the
    samples: the sample of rank int(n p) - 1, brought into range, with no more than rank
    samples below it and more than rank samples up to it. *)
Theorem percentiles_correct (ds : list Duration) (g : G) :
  (Z.of_nat (length ds) ≤ int64_max)%Z →
  ∃ l g', add_all ds newLatencies g = Some (l, g') ∧ lat_of ds l ∧
    ∀ p, ds ≠ [] →
      let n := Z.of_nat (length (l_samples l)) in
      let rank := Z.min (n - 1) (Z.max 0 (wrap64 (float_int (fmul (float_Z n) p) - 1))) in
      ∃ x, percentiles l [p] = [x] ∧ x ∈ ds ∧
        (Z.of_nat (length (filter (λ y, y < x) (l_samples l))) ≤ rank <
         Z.of_nat (length (filter (λ y, y ≤ x) (l_samples l))))%Z.
Proof.
  intros Hlen. destruct (add_all_of ds [] newLatencies g newLatencies_of Hlen) as (l & g' & E & Hl).
  exists l, g'. split; [done|]. split; [done|]. intros p Hds n rank. destruct Hl as [_ _ _ _ Hs Hn _].
  assert (Hpos : (0 < length ds)%nat) by (destruct ds; [done|cbn; lia]).
  fold n in Hn. change ([] ++ ds) with ds in Hn, Hs. change sampleCap with 100000%Z in Hn. cbn [percentiles fmap list_fmap].
  set (cp := merge_sort Z.le (l_samples l)).
  assert (Hcp : cp ≡ₚ l_samples l) by apply merge_sort_Permutation.
  assert (Hn0 : (0 < n)%Z) by (clearbody n; lia).
  assert (Er : (0 ≤ rank < n)%Z) by (unfold rank; clearbody n; lia).
  destruct (lookup_lt_is_Some_2 cp (Z.to_nat rank)) as [x Hx].
  { rewrite Hcp. clearbody rank. subst n. unfold Duration in *. lia. }
  exists x. split; [|split].
  - assert (En : Z.of_nat (length cp) = n) by (unfold n; by rewrite Hcp).
    unfold percentile. change (length (A := Duration) cp) with (length (A := Z) cp). rewrite En, (proj2 (Z.eqb_neq _ _)) by (clearbody n; lia). f_equal.
    replace (if (n <=? _)%Z then _ else _) with rank; [exact (f_equal (default 0%Z) Hx)|].
    unfold rank. set (z := wrap64 _). clearbody n z. clear -Hn0.
    destruct (Z.ltb_spec z 0) as [Hz|Hz]; [|destruct (Z.leb_spec n z)];
      rewrite ?(proj2 (Z.leb_gt _ _)) by lia; lia.
  - eapply elem_of_submseteq; [|exact Hs]. rewrite <-Hcp. by eapply list_elem_of_lookup_2.
  - rewrite <-Hcp. assert (Hsort : StronglySorted Z.le cp) by (apply StronglySorted_merge_sort; apply _).
    pose proof (sorted_rank cp _ x Hsort Hx) as Hr. clearbody rank. unfold Duration in *. lia.
Qed.
End latency_facts.

(** * Witnesses *)
Definition float_int_default : FloatToInt.
Proof.
  refine {| float_int := λ x, match float_trunc x with
                              | Some z => if bool_decide (in_int64 z) then z else int64_min
                              | None => int64_min end |}.
  - intros x. destruct (float_trunc x) as [z|]; [case_bool_decide; [done|]|]; done.
  - intros x z -> Hz. by rewrite bool_decide_true.
Defined.
(** A linear congruence. *)
Definition rand_lcg : GoRand Z.
Proof.
  refine {| rand_Int64N := λ n g, (Z.modulo g n, (g * 69069 + 1) mod 2 ^ 32)%Z;
            rand_Float64 := λ g, (fdiv (float_Z (Z.modulo g 1000)) (float_Z 1000),
                                  (g * 69069 + 1) mod 2 ^ 32)%Z |}.
  intros n g Hn. by apply Z.mod_pos_bound.
Defined.
#[local] Existing Instance float_int_default.
#[local] Existing Instance rand_lcg.

(** The percentiles of one to ten. *)
Example percentiles_ex :
  match add_all [3; 1; 4; 10; 5; 9; 2; 6; 8; 7]%Z newLatencies 0%Z with
  | Some (l, _) => percentiles l [decimal 50 2; decimal 90 2; decimal 99 2; decimal 999 3] = [5; 9; 9; 9]%Z
  | None => False
  end.
Proof. vm_compute. reflexivity. Qed.

Lemma percentiles_correct_witness :
  ∃ l g', add_all [30; 10; 20]%Z newLatencies 0%Z = Some (l, g') ∧ l_min l = 10%Z ∧
    ∃ x, percentiles l [decimal 99 2] = [x] ∧ x ∈ [30; 10; 20]%Z.
Proof.
  destruct (percentiles_correct [30; 10; 20]%Z 0%Z) as (l & g' & E & Hl & Hp); [by vm_compute|].
  exists l, g'. split; [done|]. split; [by rewrite (lo_min _ _ Hl)|].
  destruct (Hp (decimal 99 2)) as (x & Hx & Hin & _); [done|]. by exists x.
Defined.

Example mixSummary_ex : mixSummary =
  "domain=70% domain_missing=5% entity=10% entity_invalid=1% nameserver=5% search_domains=7% search_entities=1% help=1%".
Proof. vm_compute. reflexivity. Qed.
