(* ===== verification/StressRun.v ===== *)
(** * cmd/gordap-stress: the accounting of concurrent workers.

    The figures of a finished run against the list of its exchanges, for every interleaving
    of the workers, and where they differ. *)
From S2P Require Import Prelude GoStrings Float64 Synth Stress.

(** ** What is counted *)
Inductive measure :=
  | MSeen (k : option queryKind) | MCount (k : option queryKind) | MFailures (k : option queryKind)
  | MTransErr | MHit | MMiss.
#[global] Instance measure_eq_dec : EqDecision measure.
Proof. solve_decision. Defined.

(** The counter in the statistics. *)
Definition tally (m : measure) (s : stats) : Z :=
  match m with
  | MSeen k => default 0%Z ((l_seen ∘ b_lat) <$> bucket_of k s)
  | MCount k => default 0%Z (b_count <$> bucket_of k s)
  | MFailures k => default 0%Z (b_failures <$> bucket_of k s)
  | MTransErr => transErr s | MHit => cacheHit s | MMiss => cacheMiss s
  end.
(** The action that advances it. *)
Definition weighs (m : measure) (a : action) : bool :=
  match m, a with
  | MSeen k, LatAdd k' _ => bool_decide (k = k')
  | MCount k, CountAdd k' => bool_decide (k = k')
  | MFailures k, FailuresAdd k' => bool_decide (k = k')
  | MTransErr, TransErrAdd | MHit, HitAdd | MMiss, MissAdd => true
  | _, _ => false
  end.
(** The text an action adds to the list of mismatches. *)
Definition line_of (a : action) : option string :=
  match a with MismatchAdd line => Some line | _ => None end.
Definition on_status (c : Z) (a : action) : bool :=
  match a with StatusLoad d | StatusAdd d | StatusStore d => (c =? d)%Z | _ => false end.

(** The exchanges it should count. *)
Section holds.
Context `{JSONObject}.
Definition no_reply (x : exchange) : bool := match x_reply x with NoReply _ => true | _ => false end.
Definition of_kind (k : option queryKind) (x : exchange) : bool :=
  match k with None => true | Some k => bool_decide (k = q_kind (x_query x)) end.
Definition failed (x : exchange) : bool :=
  match x_reply x with
  | NoReply _ => true
  | Reply code _ bytes => match verdict (x_query x) code bytes with Some None => false | _ => true end
  end.
Definition hit (x : exchange) : bool :=
  match x_reply x with Reply _ cache _ => (cache =? "HIT")%string | _ => false end.
Definition has_status (c : Z) (x : exchange) : bool :=
  match x_reply x with Reply code _ _ => (c =? code)%Z | _ => false end.
Definition holds (m : measure) (x : exchange) : bool :=
  match m with
  | MSeen k | MCount k => of_kind k x
  | MFailures k => of_kind k x && failed x
  | MTransErr => no_reply x
  | MHit => hit x
  | MMiss => negb (no_reply x) && negb (hit x)
  end.
(** The line that says what was wrong with an exchange. *)
Definition mismatch_line (q : query) (code : Z) (reason : string) : string :=
  "[" +:+ q_kind q +:+ "] " +:+ q_path q +:+ " → status=" +:+ Itoa code +:+ ": " +:+ reason.
Definition failure_line (x : exchange) : option string :=
  match x_reply x with
  | NoReply err => Some (mismatch_line (x_query x) 0 err)
  | Reply code _ bytes => v ← verdict (x_query x) code bytes; mismatch_line (x_query x) code <$> v
  end.
End holds.

Definition count {A} (P : A → bool) (l : list A) : nat := length (List.filter P l).

Lemma count_app {A} (P : A → bool) l1 l2 : count P (l1 ++ l2) = (count P l1 + count P l2)%nat.
Proof. unfold count. by rewrite List.filter_app, length_app. Qed.
Lemma count_cons {A} (P : A → bool) x l : count P (x :: l) = ((if P x then 1 else 0) + count P l)%nat.
Proof. unfold count. cbn. by destruct (P x). Qed.
Lemma count_negb {A} (P : A → bool) l : (count P l + count (λ x, negb (P x)) l = length l)%nat.
Proof.
  induction l as [|x l IH]; [done|]. rewrite !count_cons. cbn [length]. destruct (P x); cbn [negb]; lia.
Qed.
Lemma count_le {A} (P : A → bool) l : (count P l ≤ length l)%nat.
Proof. apply filter_length_le. Qed.

(** The pending actions of all workers. *)
Definition pending (P : action → bool) (ts : list (list action)) : nat := count P (concat ts).
Lemma pending_step P ts i a rest k : ts !! i = Some (a :: rest) →
  (pending P (<[i := k ++ rest]> ts) + (if P a then 1 else 0) = pending P ts + count P k)%nat.
Proof.
  intros Hi. rewrite insert_take_drop by (by eapply lookup_lt_Some).
  rewrite <-(take_drop_middle ts i _ Hi) at 3. unfold pending.
  rewrite !concat_app. cbn [concat]. rewrite !count_app, count_cons. lia.
Qed.

(** The lines that are still to be recorded. *)
Definition pending_lines (ts : list (list action)) : list string := omap line_of (concat ts).
Lemma pending_lines_step ts i a rest k : ts !! i = Some (a :: rest) → omap line_of k = [] →
  option_list (line_of a) ++ pending_lines (<[i := k ++ rest]> ts) ≡ₚ pending_lines ts.
Proof.
  intros Hi Hk. rewrite insert_take_drop by (by eapply lookup_lt_Some).
  rewrite <-(take_drop_middle ts i _ Hi) at 3. unfold pending_lines.
  rewrite !concat_app. cbn [concat]. rewrite !omap_app, Hk, Permutation_app_swap_app.
  by destruct a.
Qed.

(** ** The actions of a request *)
Section program.
Context `{GoRequest} `{JSONObject}.

Lemma exec_lines base x l : exec base x = Some l →
  omap line_of l = option_list (failure_line x) ∧
  (failed x = match failure_line x with Some _ => true | None => false end).
Proof.
  unfold exec, failure_line, failed. destruct (http_NewRequest _); [done|].
  destruct x as [q d [err|code cache bytes]]; cbn [x_query x_reply x_took].
  - by intros [= <-].
  - destruct (verdict q code bytes) as [v|]; [|done]. intros [= <-].
    by destruct (cache =? "HIT")%string, v.
Qed.

Lemma exec_counts base x l : exec base x = Some l →
  (∀ m, count (weighs m) l = if holds m x then 1 else 0)%nat ∧
  (∀ c, count (on_status c) l = if has_status c x then 1 else 0)%nat.
Proof.
  unfold exec. destruct (http_NewRequest _); [done|].
  destruct x as [q d [err|code cache bytes]]; cbn [x_query x_reply x_took].
  - intros [= <-]. split_and!; [|done].
    intros [[k|]|[k|]|[k|]| | |]; cbn; rewrite ?count_cons; cbn; try done.
    all: unfold bool_decide; repeat destruct (decide_rel _ _ _); simplify_eq; cbn; done.
  - destruct (verdict q code bytes) as [v|] eqn:Ev; [|done]. intros [= <-].
    split_and!.
    + intros m. unfold holds, of_kind, failed, no_reply, hit. cbn [x_reply x_query]. rewrite Ev.
      unfold count. destruct (cache =? "HIT")%string, v, m as [[k|]|[k|]|[k|]| | |]; cbn; try done;
      rewrite ?bool_decide_eq_true_2 by done; repeat case_bool_decide; simplify_eq; done.
    + intros c. unfold has_status. cbn [x_reply]. unfold count.
      destruct (cache =? "HIT")%string, v; cbn; by destruct (c =? code)%Z.
Qed.
End program.

(** ** One action *)

(** The buckets and status counters a worker will point to exist by the time it does. *)
Fixpoint ready (ks : queryKind → Prop) (cs : Z → Prop) (l : list action) : Prop :=
  match l with
  | [] => True
  | a :: l =>
      match a with
      | LatAdd (Some k) _ | CountAdd (Some k) | FailuresAdd (Some k) => ks k
      | StatusAdd c => cs c
      | _ => True
      end ∧
      ready (match a with BucketLoad k | BucketStore k => λ k', k' = k ∨ ks k' | _ => ks end) cs l
  end.
Definition kinds (s : stats) (k : queryKind) : Prop := is_Some (byKind s !! k).
Definition codes (s : stats) (c : Z) : Prop := is_Some (byStatus s !! c).

Lemma ready_mono l : ∀ (ks ks' : queryKind → Prop) (cs cs' : Z → Prop),
  (∀ k, ks k → ks' k) → (∀ c, cs c → cs' c) → ready ks cs l → ready ks' cs' l.
Proof.
  induction l as [|a l IH]; intros ks ks' cs cs' Hk Hc; [done|]. cbn. intros [Ha Hl]. split.
  - destruct a as [| |[]|[]|[]| | | | | | |]; auto.
  - eapply IH; [|exact Hc|exact Hl]. destruct a; auto; intros k0 [->|?]; auto.
Qed.
Lemma ready_app l1 : ∀ ks cs l2, ready ks cs l1 → ready ks cs l2 → ready ks cs (l1 ++ l2).
Proof.
  induction l1 as [|a l1 IH]; intros ks cs l2 H1 H2; [done|]. destruct H1 as [Ha H1].
  split; [done|]. apply IH; [done|]. eapply ready_mono; [| |exact H2]; [|done].
  destruct a; auto.
Qed.
Lemma exec_ready `{GoRequest} `{JSONObject} base x l : exec base x = Some l → ready (λ _, False) (λ _, False) l.
Proof.
  unfold exec, bucketFor, recordStatus, failed_with, recordMismatch.
  destruct (http_NewRequest _); [done|]. destruct (x_reply x) as [err|code cache bytes].
  - intros [= <-]. repeat split; by left.
  - destruct (verdict _ _ _) as [[]|]; [| |done]; intros [= <-];
      destruct (cache =? "HIT")%string; repeat split; by left.
Qed.
Lemma program_ready `{GoRequest} `{JSONObject} base xs l : program base xs = Some l → ready (λ _, False) (λ _, False) l.
Proof.
  unfold program. revert l. induction xs as [|x xs IH]; cbn; intros l; [by intros [= <-]|].
  destruct (exec base x) as [lx|] eqn:Ex; [|done]. destruct (mapM (exec base) xs) as [ls|] eqn:E; [|done].
  cbn. intros [= <-]. apply ready_app; [by eapply exec_ready|by apply IH].
Qed.

Lemma bucket_of_set k k' b s :
  bucket_of k (set_bucket k' b s) = if decide (k = k') then Some b else bucket_of k s.
Proof.
  destruct k as [k|], k' as [k'|]; cbn; try done. rewrite lookup_insert.
  by repeat case_decide; simplify_eq.
Qed.
Lemma set_bucket_rest k b s :
  byStatus (set_bucket k b s) = byStatus s ∧ cacheHit (set_bucket k b s) = cacheHit s ∧
  cacheMiss (set_bucket k b s) = cacheMiss s ∧ transErr (set_bucket k b s) = transErr s ∧
  mismatches (set_bucket k b s) = mismatches s.
Proof. by destruct k. Qed.
Lemma kinds_set_bucket k b s k' : kinds s k' → kinds (set_bucket k b s) k'.
Proof.
  unfold kinds. destruct k as [k|]; [|done]. cbn. rewrite lookup_insert. by case_decide.
Qed.

Section act.
Context {G : Type} `{!GoRand G}.

Lemma Add_seen d l g l' g' : Add d l g = Some (l', g') → l_seen l' = inc (l_seen l).
Proof.
  unfold Add. destruct (_ <? _)%Z; [by intros [= <- <-]|].
  destruct (IntN _ g) as [[idx g1]|]; [|done]. by intros [= <- <-].
Qed.
Lemma Add_total d l g : (0 ≤ l_seen l < int64_max)%Z → ∃ l' g', Add d l g = Some (l', g').
Proof.
  intros Hs. unfold Add. destruct (_ <? _)%Z; [by eexists _, _|]. unfold IntN.
  rewrite wrap64_id by (unfold in_int64, int64_min, int64_max in *; lia).
  rewrite (proj2 (Z.ltb_lt 0 _)) by lia. cbn. destruct (rand_Int64N _ g). by eexists _, _.
Qed.

Lemma act_total a rest s g :
  ready (kinds s) (codes s) (a :: rest) →
  (∀ k, weighs (MSeen k) a = true → (0 ≤ tally (MSeen k) s < int64_max)%Z) →
  ∃ k s' g', act a s g = Some (k, s', g').
Proof.
  intros [Ha _] Hb.
  destruct a as [k|k|k d|k|k| | | |c|c|c|line]; cbn [act]; try by eexists _, _, _.
  2,3: destruct k as [k|]; cbn; [destruct Ha as [b ->]|]; by eexists _, _, _.
  2: destruct Ha as [n ->]; by eexists _, _, _.
  assert (E : ∃ b, bucket_of k s = Some b) by (destruct k; [by destruct Ha as [b ?]; exists b|by eexists]).
  destruct E as [b E]. specialize (Hb k). cbn in Hb. rewrite bool_decide_eq_true_2, E in Hb by done.
  rewrite E. cbn. destruct (Add_total d (b_lat b) g) as (l' & g' & ->); [by apply Hb|].
  by eexists _, _, _.
Qed.

Lemma act_ready a rest s g k s' g' :
  ready (kinds s) (codes s) (a :: rest) → act a s g = Some (k, s', g') →
  ready (kinds s') (codes s') (k ++ rest) ∧ (∀ x, kinds s x → kinds s' x) ∧ (∀ c, codes s c → codes s' c).
Proof.
  intros [Ha Hr] E.
  assert (Hm : (∀ x, kinds s x → kinds s' x) ∧ (∀ c, codes s c → codes s' c) →
               ready (kinds s) (codes s) rest → k = [] →
               ready (kinds s') (codes s') (k ++ rest) ∧ (∀ x, kinds s x → kinds s' x) ∧ (∀ c, codes s c → codes s' c)).
  { intros [Hk Hc] Hl ->. split; [|done]. by eapply ready_mono. }
  assert (Hset : ∀ k b, (∀ x, kinds s x → kinds (set_bucket k b s) x) ∧
                        (∀ c, codes s c → codes (set_bucket k b s) c)).
  { intros k0 b. split; [intros x; apply kinds_set_bucket|]. intros c. unfold codes.
    by rewrite (proj1 (set_bucket_rest k0 b s)). }
  destruct a as [k0|k0|k0 d|k0|k0| | | |c|c|c|line]; cbn [act] in E; cbn [ready] in Hr.
  - destruct (byKind s !! k0) as [b|] eqn:Eb; injection E as <- <- <-; (split; [|done]).
    + eapply ready_mono; [| |exact Hr]; [|done]. intros x [->|?]; [by exists b|done].
    + by split.
  - destruct (byKind s !! k0) as [b|] eqn:Eb; injection E as <- <- <-.
    + split; [|done]. eapply ready_mono; [| |exact Hr]; [|done]. intros x [->|?]; [by exists b|done].
    + split; [|apply (Hset (Some k0) newBucket)]. eapply ready_mono; [| |exact Hr]; [|done].
      unfold kinds. cbn. intros x Hx. rewrite lookup_insert. case_decide; [done|]. by destruct Hx as [->|?].
  - destruct (bucket_of k0 s) as [b|]; [|done]. cbn [mbind option_bind] in E.
    destruct (Add d (b_lat b) g) as [[l1 g1]|]; [|done]. injection E as <- <- <-. by apply Hm.
  - destruct (bucket_of k0 s) as [b|]; [|done]. injection E as <- <- <-. by apply Hm.
  - destruct (bucket_of k0 s) as [b|]; [|done]. injection E as <- <- <-. by apply Hm.
  - injection E as <- <- <-. by apply Hm.
  - injection E as <- <- <-. by apply Hm.
  - injection E as <- <- <-. by apply Hm.
  - injection E as <- <- <-. split; [|done]. destruct (byStatus s !! c) eqn:Ec; cbn; split; try done.
    by exists z.
  - destruct (byStatus s !! c) as [n|] eqn:Ec; [|done]. injection E as <- <- <-. apply Hm; [|done..].
    split; [done|]. unfold codes. cbn. intros c0. rewrite lookup_insert. by case_decide.
  - injection E as <- <- <-. apply Hm; [|done..]. destruct (byStatus s !! c) eqn:Ec; [done|].
    split; [done|]. unfold codes. cbn. intros c0. rewrite lookup_insert. by case_decide.
  - injection E as <- <- <-. apply Hm; [|done..]. unfold add_mismatch. by destruct (_ <=? _)%nat.
Qed.

(** A bucket changes one of its three figures. *)
Lemma set_bucket_tally m k b b' s : bucket_of k s = Some b →
  tally m (set_bucket k b' s) =
    match m with
    | MSeen k' => if bool_decide (k' = k) then l_seen (b_lat b') else tally m s
    | MCount k' => if bool_decide (k' = k) then b_count b' else tally m s
    | MFailures k' => if bool_decide (k' = k) then b_failures b' else tally m s
    | _ => tally m s
    end.
Proof.
  intros Hb. destruct (set_bucket_rest k b' s) as (_ & E1 & E2 & E3 & _).
  destruct m as [k2|k2|k2| | |]; unfold tally; rewrite ?bucket_of_set; first [congruence|by case_bool_decide; case_decide].
Qed.
Ltac bucket_tally Eb :=
  rewrite (set_bucket_tally _ _ _ _ _ Eb); cbn [weighs];
  try case_bool_decide; simplify_eq; cbn; rewrite ?Eb; cbn; try done.

Lemma act_tally a s g k s' g' m : act a s g = Some (k, s', g') →
  tally m s' = (if weighs m a then inc (tally m s) else tally m s) ∧ count (weighs m) k = 0%nat.
Proof.
  intros E. destruct a as [k0|k0|k0 d|k0|k0| | | |c|c|c|line]; cbn [act] in E.
  - destruct (byKind s !! k0); injection E as <- <- <-; by destruct m.
  - destruct (byKind s !! k0) eqn:Ek; injection E as <- <- <-; [by destruct m|].
    split; [|done].
    destruct m as [[k2|]|[k2|]|[k2|]| | |]; try done; cbn; rewrite lookup_insert;
      (case_decide; [subst; by rewrite Ek|done]).
  - destruct (bucket_of k0 s) as [b|] eqn:Eb; [|done]. cbn [mbind option_bind] in E.
    destruct (Add d (b_lat b) g) as [[l1 g1]|] eqn:Ea; [|done]. injection E as <- <- <-. split; [|done].
    destruct m as [k2|k2|k2| | |]; bucket_tally Eb. by eapply Add_seen.
  - destruct (bucket_of k0 s) as [b|] eqn:Eb; [|done]. injection E as <- <- <-. split; [|done].
    destruct m as [k2|k2|k2| | |]; bucket_tally Eb.
  - destruct (bucket_of k0 s) as [b|] eqn:Eb; [|done]. injection E as <- <- <-. split; [|done].
    destruct m as [k2|k2|k2| | |]; bucket_tally Eb.
  - injection E as <- <- <-. by destruct m as [[]|[]|[]| | |].
  - injection E as <- <- <-. by destruct m as [[]|[]|[]| | |].
  - injection E as <- <- <-. by destruct m as [[]|[]|[]| | |].
  - injection E as <- <- <-. split; [by destruct m|]. destruct (byStatus s !! c); by destruct m.
  - destruct (byStatus s !! c); [|done]. injection E as <- <- <-. by destruct m as [[]|[]|[]| | |].
  - injection E as <- <- <-. destruct (byStatus s !! c); by destruct m as [[]|[]|[]| | |].
  - injection E as <- <- <-. unfold add_mismatch. destruct (_ <=? _)%nat; by destruct m as [[]|[]|[]| | |].
Qed.
End act.

Definition is_load (a : action) : bool :=
  match a with BucketLoad _ | StatusLoad _ => true | _ => false end.

Definition is_store (a : action) : bool := match a with StatusStore _ => true | _ => false end.
Definition on_store (c : Z) (a : action) : bool := match a with StatusStore d => (c =? d)%Z | _ => false end.

Section act_more.
Context {G : Type} `{!GoRand G}.

Lemma act_mismatch a s g k s' g' : act a s g = Some (k, s', g') →
  omap line_of k = [] ∧
  mismatches s' = match line_of a with
                  | Some line => if (10 <=? length (mismatches s))%nat then mismatches s
                                 else mismatches s ++ [line]
                  | None => mismatches s
                  end.
Proof.
  intros E. destruct a as [k0|k0|k0 d|k0|k0| | | |c|c|c|line]; cbn [act] in E.
  - destruct (byKind s !! k0); injection E as <- <- <-; done.
  - destruct (byKind s !! k0); injection E as <- <- <-; done.
  - destruct (bucket_of k0 s) as [b|] eqn:Eb; [|done]. cbn [mbind option_bind] in E.
    destruct (Add d (b_lat b) g) as [[l1 g1]|] eqn:Ea; [|done]. injection E as <- <- <-. by destruct k0.
  - destruct (bucket_of k0 s) as [b|]; [|done]. injection E as <- <- <-. by destruct k0.
  - destruct (bucket_of k0 s) as [b|]; [|done]. injection E as <- <- <-. by destruct k0.
  - by injection E as <- <- <-.
  - by injection E as <- <- <-.
  - by injection E as <- <- <-.
  - injection E as <- <- <-. by destruct (byStatus s !! c).
  - destruct (byStatus s !! c); [|done]. by injection E as <- <- <-.
  - injection E as <- <- <-. by destruct (byStatus s !! c).
  - injection E as <- <- <-. split; [done|]. unfold add_mismatch, maxRecordedMismatches.
    cbn [line_of]. by destruct (10 <=? length (mismatches s))%nat.
Qed.

(** What an action does to the counter of a status. *)
Inductive status_effect (c : Z) (a : action) (k : list action) (v v' : option Z) : Prop :=
  | se_none : v' = v → (count (on_status c) k = if on_status c a then 1 else 0)%nat →
      on_store c a = false → (v ≠ None → count (on_store c) k = 0)%nat → status_effect c a k v v'
  | se_add u : a = StatusAdd c → k = [] → v = Some u → v' = Some (inc u) → status_effect c a k v v'
  | se_first : a = StatusStore c → k = [] → v = None → v' = Some 1%Z → status_effect c a k v v'
  | se_lost u : a = StatusStore c → k = [] → v = Some u → v' = Some u → status_effect c a k v v'.

Lemma act_status a s g k s' g' c : act a s g = Some (k, s', g') →
  status_effect c a k (byStatus s !! c) (byStatus s' !! c) ∧ (a ≠ StatusLoad c → count (on_store c) k = 0)%nat.
Proof.
  intros E. destruct a as [k0|k0|k0 d|k0|k0| | | |c0|c0|c0|line]; cbn [act] in E.
  - destruct (byKind s !! k0); injection E as <- <- <-; split; by try apply se_none.
  - destruct (byKind s !! k0); injection E as <- <- <-; split; by try apply se_none.
  - destruct (bucket_of k0 s) as [b|] eqn:Eb; [|done]. cbn [mbind option_bind] in E.
    destruct (Add d (b_lat b) g) as [[l1 g1]|] eqn:Ea; [|done]. injection E as <- <- <-.
    destruct k0; split; by try apply se_none.
  - destruct (bucket_of k0 s) as [b|]; [|done]. injection E as <- <- <-. destruct k0; split; by try apply se_none.
  - destruct (bucket_of k0 s) as [b|]; [|done]. injection E as <- <- <-. destruct k0; split; by try apply se_none.
  - injection E as <- <- <-. split; by try apply se_none.
  - injection E as <- <- <-. split; by try apply se_none.
  - injection E as <- <- <-. split; by try apply se_none.
  - injection E as <- <- <-. unfold count. destruct (Z.eqb_spec c c0) as [<-|Hne]; cbn.
    + split; [|done]. apply se_none; [done| |done|]; destruct (byStatus s !! c); cbn; by rewrite ?Z.eqb_refl.
    + apply Z.eqb_neq in Hne. split; [apply se_none; [done| |done|]|];
        destruct (byStatus s !! c0); cbn; by rewrite ?Hne.
  - destruct (byStatus s !! c0) as [u|] eqn:Eu; [|done]. injection E as <- <- <-. split; [|done].
    destruct (Z.eqb_spec c c0) as [<-|Hne].
    + rewrite Eu. cbn. rewrite lookup_insert_eq. by eapply se_add.
    + apply Z.eqb_neq in Hne as Hb. apply se_none; cbn; rewrite ?Hb, ?lookup_insert_ne; done.
  - injection E as <- <- <-. split; [|done]. destruct (Z.eqb_spec c c0) as [<-|Hne].
    + destruct (byStatus s !! c) as [u|] eqn:Eu; [rewrite Eu; by eapply se_lost|].
      cbn. rewrite lookup_insert_eq. by apply se_first.
    + apply Z.eqb_neq in Hne as Hb. apply se_none; cbn; rewrite ?Hb; try done.
      destruct (byStatus s !! c0); [done|]. cbn. by rewrite lookup_insert_ne.
  - injection E as <- <- <-. unfold add_mismatch. split; [|done]. destruct (_ <=? _)%nat; by apply se_none.
Qed.

Lemma act_shrinks a s g k s' g' : act a s g = Some (k, s', g') →
  (length k + count is_load k ≤ if is_load a then 1 else 0)%nat.
Proof.
  intros E. destruct a as [k0|k0|k0 d|k0|k0| | | |c0|c0|c0|line]; cbn [act] in E.
  - destruct (byKind s !! k0); injection E as <- <- <-; cbn; lia.
  - destruct (byKind s !! k0); injection E as <- <- <-; done.
  - destruct (bucket_of k0 s) as [b|] eqn:Eb; [|done]. cbn [mbind option_bind] in E.
    destruct (Add d (b_lat b) g) as [[l1 g1]|] eqn:Ea; [|done]. by injection E as <- <- <-.
  - destruct (bucket_of k0 s) as [b|]; [|done]. by injection E as <- <- <-.
  - destruct (bucket_of k0 s) as [b|]; [|done]. by injection E as <- <- <-.
  - by injection E as <- <- <-.
  - by injection E as <- <- <-.
  - by injection E as <- <- <-.
  - injection E as <- <- <-. destruct (byStatus s !! c0); cbn; lia.
  - destruct (byStatus s !! c0); [|done]. by injection E as <- <- <-.
  - by injection E as <- <- <-.
  - by injection E as <- <- <-.
Qed.
End act_more.

(** ** The invariant of a run *)
Lemma inc_id z : (0 ≤ z < int64_max)%Z → inc z = (z + 1)%Z.
Proof. intros Hz. apply wrap64_id. unfold in_int64, int64_min, int64_max in *. lia. Qed.
Lemma count_true {A} (l : list A) : count (λ _, true) l = length l.
Proof. unfold count. induction l; cbn; auto. Qed.
Section invariant.
Context `{JSONObject} {G : Type} `{!GoRand G}.
Context (xs : list exchange) (Hmany : (Z.of_nat (length xs) ≤ int64_max)%Z).

(** What the counters show is what is no longer pending. *)
Record inv (ts : list (list action)) (s : stats) : Prop := {
  inv_ready i l : ts !! i = Some l → ready (kinds s) (codes s) l;
  inv_tally m : (tally m s + Z.of_nat (pending (weighs m) ts) = Z.of_nat (count (holds m) xs))%Z;
  inv_nonneg m : (0 ≤ tally m s)%Z;
  inv_status c :
    match byStatus s !! c with
    | None => pending (on_status c) ts = count (has_status c) xs
    | Some v => (1 ≤ v ∧ v + Z.of_nat (pending (on_status c) ts) ≤ Z.of_nat (count (has_status c) xs))%Z
    end }.

Definition work (ts : list (list action)) : nat := pending (λ _, true) ts + pending is_load ts.


Lemma step_counts i ts s g a rest : inv ts s → ts !! i = Some (a :: rest) →
  ∃ ts' s' g', step i (ts, s, g) = Some (ts', s', g') ∧ inv ts' s' ∧
    (work ts' < work ts)%nat ∧ length ts' = length ts.
Proof.
  intros [Hr Ht Hn Hs] Hi.
  assert (Hle : ∀ P, (Z.of_nat (count P xs) ≤ int64_max)%Z).
  { intros P. pose proof (count_le P xs). lia. }
  assert (Hone : ∀ P, P a = true → (1 ≤ pending P ts)%nat).
  { intros P HP. pose proof (pending_step P ts i a rest [] Hi) as E. rewrite HP in E. cbn in E. lia. }
  destruct (act_total a rest s g) as (k & s' & g' & Ea); [by eapply Hr| |].
  { intros k Hw. split; [apply Hn|]. specialize (Ht (MSeen k)). specialize (Hone _ Hw).
    specialize (Hle (holds (MSeen k))). lia. }
  unfold step. rewrite Hi, Ea. cbn [mbind option_bind]. eexists _, s', g'. split; [reflexivity|].
  pose proof (λ P, pending_step P ts i a rest k Hi) as Hp.
  destruct (act_ready a rest s g k s' g') as (Hr' & Hk' & Hc'); [by eapply Hr|done|].
  split; [split|].
  - intros j l Hj. apply list_lookup_insert_Some in Hj as [(_&<-&_)|[_ Hj]]; [done|].
    eapply ready_mono; [exact Hk'|exact Hc'|by eapply Hr].
  - intros m. destruct (act_tally a s g k s' g' m Ea) as [-> Ek].
    specialize (Hp (weighs m)). rewrite Ek in Hp. specialize (Ht m). specialize (Hn m).
    specialize (Hle (holds m)). destruct (weighs m a) eqn:Ew; [|lia].
    specialize (Hone _ Ew). rewrite inc_id; lia.
  - intros m. destruct (act_tally a s g k s' g' m Ea) as [-> Ek]. specialize (Hn m).
    destruct (weighs m a) eqn:Ew; [|done]. specialize (Hone _ Ew). specialize (Ht m).
    specialize (Hle (holds m)). rewrite inc_id; lia.
  - intros c. specialize (Hs c). specialize (Hp (on_status c)). specialize (Hle (has_status c)).
    assert (Hlast : k = [] → on_status c a = true →
                    (pending (on_status c) (<[i := k ++ rest]> ts) + 1 = pending (on_status c) ts)%nat)
      by (intros Hk0 Ho; rewrite Ho, Hk0 in *; cbn [count List.filter length] in Hp; lia).
    assert (Hc : a = StatusAdd c ∨ a = StatusStore c → on_status c a = true)
      by (intros [->| ->]; cbn; apply Z.eqb_refl).
    destruct (act_status a s g k s' g' c Ea) as [[-> Ek _ _|u Ha Hk Ev ->|Ha Hk Ev ->|u Ha Hk Ev ->] _].
    + rewrite Ek in Hp. destruct (byStatus s !! c); destruct (on_status c a); lia.
    + rewrite Ev in Hs. rewrite inc_id; specialize (Hlast Hk (Hc (or_introl Ha))); lia.
    + rewrite Ev in Hs. specialize (Hlast Hk (Hc (or_intror Ha))). lia.
    + rewrite Ev in Hs. specialize (Hlast Hk (Hc (or_intror Ha))). lia.
  - split; [|by rewrite length_insert]. unfold work.
    pose proof (Hp (λ _, true)) as H1. pose proof (Hp is_load) as H2.
    pose proof (act_shrinks a s g k s' g' Ea). rewrite count_true in H1. destruct (is_load a); lia.
Qed.

Lemma run_counts sched : ∀ ts s g, inv ts s →
  ∃ ts' s' g', run sched (ts, s, g) = Some (ts', s', g') ∧ inv ts' s' ∧ length ts' = length ts.
Proof.
  induction sched as [|i sched IH]; intros ts s g Hi; cbn [run]; [by eexists _, _, _|].
  destruct (ts !! i) as [[|a rest]|] eqn:El.
  - unfold step. rewrite El. by apply IH.
  - destruct (step_counts i ts s g a rest Hi El) as (ts1 & s1 & g1 & -> & H1 & _ & <-).
    cbn [mbind option_bind]. by apply IH.
  - unfold step. rewrite El. by apply IH.
Qed.

Lemma unfinished ts s (g : G) : finished (ts, s, g) = false → ∃ i a rest, ts !! i = Some (a :: rest).
Proof.
  unfold finished. cbn [fst]. induction ts as [|[|a l] ts IH]; cbn; [done| |].
  - intros E. destruct (IH E) as (i & a & rest & Hi). by exists (S i), a, rest.
  - intros _. by exists 0%nat, a, l.
Qed.
Lemma can_finish n : ∀ ts s g, inv ts s → (work ts < n)%nat →
  ∃ sched sys', run sched (ts, s, g) = Some sys' ∧ finished sys' = true.
Proof.
  induction n as [|n IH]; intros ts s g Hi Hw; [lia|].
  destruct (finished (ts, s, g)) eqn:Ef; [by exists [], (ts, s, g)|].
  destruct (unfinished ts s g Ef) as (i & a & rest & El).
  destruct (step_counts i ts s g a rest Hi El) as (ts1 & s1 & g1 & E1 & H1 & Hd & _).
  destruct (IH ts1 s1 g1 H1) as (sched & sys' & E & Hf); [lia|].
  exists (i :: sched), sys'. cbn [run]. by rewrite E1.
Qed.
Lemma finished_pending P ts s (g : G) : finished (ts, s, g) = true → pending P ts = 0%nat.
Proof.
  unfold finished, pending. cbn [fst]. induction ts as [|[|a l] ts IH]; cbn; [done|done|discriminate].
Qed.
End invariant.

(** ** The mismatches, in the order of their recording *)
Section recorded.
Context {G : Type} `{!GoRand G}.

(** The lines that the workers record along a schedule. *)
Fixpoint recorded (sched : list nat) (sys : system (G := G)) : list string :=
  match sched with
  | [] => []
  | i :: sched =>
      match sys.1.1 !! i with Some (a :: _) => option_list (line_of a) | _ => [] end ++
      match step i sys with Some sys => recorded sched sys | None => [] end
  end.

Lemma take_snoc_10 (l : list string) x :
  take 10 (l ++ [x]) = if (10 <=? length (take 10 l))%nat then take 10 l else take 10 l ++ [x].
Proof.
  rewrite length_take. destruct (Nat.leb_spec 10 (10 `min` length l)).
  - by rewrite take_app_le by lia.
  - rewrite take_app_ge, (take_ge l), (take_ge [x]) by (cbn; lia). done.
Qed.

(** The first ten are kept, and what has been recorded is no longer pending. *)
Lemma run_recorded sched : ∀ ts s g ts' s' g' before,
  mismatches s = take 10 before → run sched (ts, s, g) = Some (ts', s', g') →
  mismatches s' = take 10 (before ++ recorded sched (ts, s, g)) ∧
  recorded sched (ts, s, g) ++ pending_lines ts' ≡ₚ pending_lines ts.
Proof.
  induction sched as [|i sched IH]; intros ts s g ts' s' g' before Hm; cbn [run recorded fst].
  { intros [= <- <- <-]. by rewrite app_nil_r. }
  unfold step. destruct (ts !! i) as [[|a rest]|] eqn:Hi; [by apply IH| |by apply IH].
  destruct (act a s g) as [[[k s1] g1]|] eqn:Ea; [|done]. cbn [mbind option_bind].
  destruct (act_mismatch a s g k s1 g1 Ea) as [Hk Hm1]. intros E.
  destruct (IH (<[i:=k ++ rest]> ts) s1 g1 ts' s' g' (before ++ option_list (line_of a))) as [E1 E2]; [|exact E|].
  - rewrite Hm1, Hm. destruct (line_of a) as [line|]; symmetry;
      [apply (take_snoc_10 before line)|exact (f_equal (take 10) (app_nil_r before))].
  - split; [by rewrite app_assoc|]. rewrite <-app_assoc, E2. by apply pending_lines_step.
Qed.
End recorded.

(** ** What races lose

    A worker that finds no counter for a status stores one of its own, and the count is
    lost when another worker was faster.  From then on every worker finds the counter. *)
Section lossy.
Context `{JSONObject} {G : Type} `{!GoRand G}.
Context (xs : list exchange) (Hmany : (Z.of_nat (length xs) ≤ int64_max)%Z).

Record lossy (ts : list (list action)) (s : stats) : Prop := {
  lo_tail i a rest : ts !! i = Some (a :: rest) → count is_store rest = 0%nat;
  lo_status c v : byStatus s !! c = Some v →
    ∃ lost : nat, (v + Z.of_nat (pending (on_status c) ts) + Z.of_nat lost =
                   Z.of_nat (count (has_status c) xs))%Z ∧
                  (lost + pending (on_store c) ts < length ts)%nat }.

Lemma on_store_le c l : (count (on_store c) l ≤ count is_store l)%nat.
Proof.
  induction l as [|a l IH]; [done|]. rewrite !count_cons. destruct a; cbn [on_store is_store]; try lia.
  destruct (c =? code)%Z; lia.
Qed.
(** At most one store is pending in each worker. *)
Lemma stores_le c ts : (∀ i a rest, ts !! i = Some (a :: rest) → count is_store rest = 0%nat) →
  (pending (on_store c) ts ≤ length ts)%nat.
Proof.
  unfold pending. induction ts as [|l ts IH]; intros Ht; [done|]. cbn [concat length].
  rewrite count_app. specialize (IH (λ i, Ht (S i))).
  destruct l as [|a rest]; [change (count (on_store c) []) with 0%nat; lia|].
  rewrite count_cons. pose proof (on_store_le c rest). specialize (Ht 0%nat a rest eq_refl).
  destruct (on_store c a); lia.
Qed.

Lemma lossy_step i ts s g ts' s' g' : inv xs ts s → lossy ts s →
  step i (ts, s, g) = Some (ts', s', g') → lossy ts' s'.
Proof.
  intros Hi [Ht Hs] E. unfold step in E.
  destruct (ts !! i) as [[|a rest]|] eqn:El; [by injection E as <- <- <-| |by injection E as <- <- <-].
  destruct (act a s g) as [[[k s1] g1]|] eqn:Ea; [|done]. cbn [mbind option_bind] in E.
  injection E as <- <- <-. pose proof (Ht i a rest El) as Hrest.
  assert (Ht' : ∀ j b r, <[i := k ++ rest]> ts !! j = Some (b :: r) → count is_store r = 0%nat).
  { intros j b r [(<- & E & _)|[_ Hj]]%list_lookup_insert_Some; [|by eapply Ht].
    pose proof (act_shrinks a s g k s1 g1 Ea) as Hl. destruct k as [|b' [|]]; cbn in E.
    - subst rest. rewrite count_cons in Hrest. lia.
    - by injection E as <- <-.
    - cbn in Hl. destruct (is_load a); lia. }
  split; [exact Ht'|]. intros c v Ev. rewrite length_insert.
  pose proof (pending_step (on_status c) ts i a rest k El) as Hp.
  pose proof (pending_step (on_store c) ts i a rest k El) as Hq.
  pose proof (stores_le c ts Ht) as Hall. pose proof (inv_status _ _ _ Hi c) as Hc.
  pose proof (count_le (has_status c) xs).
  destruct (act_status a s g k s1 g1 c Ea) as [[E1 Ek Eo Ez|u Ha Hk Eu E1|Ha Hk Eu E1|u Ha Hk Eu E1] _].
  - rewrite E1 in Ev. destruct (Hs c v Ev) as (lost & E2 & Hl). exists lost.
    rewrite Ez in Hq by (by rewrite Ev). rewrite Eo in Hq. rewrite Ek in Hp.
    destruct (on_status c a); lia.
  - rewrite Eu in Hc. destruct (Hs c u Eu) as (lost & E2 & Hl). exists lost. subst a k.
    cbn [on_status on_store count List.filter length] in Hp, Hq. rewrite Z.eqb_refl in Hp.
    rewrite E1 in Ev. injection Ev as <-. rewrite inc_id; lia.
  - rewrite Eu in Hc. exists 0%nat. subst a k.
    cbn [on_status on_store count List.filter length] in Hp, Hq. rewrite Z.eqb_refl in Hp, Hq.
    rewrite E1 in Ev. injection Ev as <-. lia.
  - destruct (Hs c u Eu) as (lost & E2 & Hl). exists (S lost). subst a k.
    cbn [on_status on_store count List.filter length] in Hp, Hq. rewrite Z.eqb_refl in Hp, Hq.
    rewrite E1 in Ev. injection Ev as <-. lia.
Qed.

Lemma lossy_run sched : ∀ ts s g ts' s' g', inv xs ts s → lossy ts s →
  run sched (ts, s, g) = Some (ts', s', g') → lossy ts' s'.
Proof.
  induction sched as [|i sched IH]; intros ts s g ts' s' g' Hi Hl; cbn [run]; [by intros [= <- <- <-]|].
  destruct (step i (ts, s, g)) as [[[ts1 s1] g1]|] eqn:E; [|done]. cbn [mbind option_bind].
  apply IH; [|by eapply lossy_step].
  destruct (run_counts xs Hmany [i] ts s g Hi) as (ts2 & s2 & g2 & E2 & H2 & _). cbn [run] in E2.
  rewrite E in E2. by injection E2 as -> -> ->.
Qed.
End lossy.

(** ** The planned requests *)
Section planned.
Context `{GoFmt} `{FloatToInt} `{GoRequest} `{JSONObject} {G : Type} `{!GoRand G}.

(** The requests for a corpus. *)
Inductive planned (corpus : Z) : query → Prop :=
  | pl_domain i : (0 ≤ i < corpus)%Z → planned corpus (domain_query kDomain (DomainName i))
  | pl_missing x : (0 ≤ x < 1000000)%Z →
      planned corpus (missing_query kDomainMissing (DomainName (wrap64 (corpus + x))))
  | pl_entity i : (0 ≤ i < corpus)%Z → planned corpus (entity_query kEntity (EntityHandle i))
  | pl_invalid : planned corpus (invalid_query kEntityInvalid)
  | pl_nameserver i : (1 ≤ i ≤ Z.max 1 (Z.quot corpus 10 - 1))%Z →
      planned corpus (class_query kNameserver ("/nameserver/" +:+ NameserverName i) "nameserver")
  | pl_domains x : (0 ≤ x < 10)%Z →
      planned corpus (class_query kSearchDomains ("/domains?name=syn-" +:+ Itoa (x * 10) +:+ "*") "domainSearchResults")
  | pl_entities x : (0 ≤ x < 6)%Z →
      planned corpus (class_query kSearchEntities ("/entities?countryCode=" +:+ at_index Countries x) "entitySearchResults")
  | pl_help : planned corpus (class_query kHelp "/help" "help").

Lemma IntN_range n (g : G) : (0 < n)%Z → ∃ x g', IntN n g = Some (x, g') ∧ (0 ≤ x < n)%Z.
Proof.
  intros Hn. unfold IntN. rewrite (proj2 (Z.ltb_lt 0 n) Hn).
  pose proof (rand_Int64N_range n g Hn) as Hr. destruct (rand_Int64N n g) as [x g']. by exists x, g'.
Qed.
Lemma pickKey_range r corpus dist : (0 < corpus)%Z →
  ∃ i r', pickKey r corpus dist = Some (i, r') ∧ (0 ≤ i < corpus)%Z.
Proof.
  intros Hc. unfold pickKey. destruct (dist =? "zipf")%string; [|by apply IntN_range].
  destruct (rand_Float64 r) as [u r']. eexists _, r'. split; [reflexivity|].
  break_goal; bool_hyps; lia.
Qed.

Lemma roll_kind_cases roll : (0 ≤ roll < 100)%Z →
  roll_kind defaultMix roll ∈ [kDomain; kDomainMissing; kEntity; kEntityInvalid; kNameserver;
                               kSearchDomains; kSearchEntities; kHelp].
Proof.
  intros Hr. unfold defaultMix. cbn [roll_kind w_weight w_kind].
  repeat match goal with |- context [if (?x <? ?y)%Z then _ else _] => destruct (Z.ltb_spec x y) end;
    set_solver by lia.
Qed.

Lemma pickQuery_planned r corpus dist : (10 ≤ corpus)%Z →
  ∃ q r', pickQuery r corpus dist = Some (q, r') ∧ planned corpus q.
Proof.
  intros Hc. unfold pickQuery. change (total_weight defaultMix) with 100%Z.
  destruct (IntN_range 100 r) as (roll & r1 & -> & Hroll); [done|]. cbn [mbind option_bind].
  pose proof (roll_kind_cases roll Hroll) as Hk. set (kind := roll_kind defaultMix roll) in *. clearbody kind.
  set_unfold in Hk. destruct Hk as [->|[->|[->|[->|[->|[->|[->|[->|[]]]]]]]]];
    repeat match goal with
    | |- context [(?a =? ?b)%string] =>
        let v := eval vm_compute in (String.eqb a b) in change (a =? b)%string with v
    end; cbv iota.
  - destruct (pickKey_range r1 corpus dist) as (i & r2 & -> & Hi); [lia|]. by eexists _, r2; split; [|apply pl_domain].
  - destruct (IntN_range 1000000 r1) as (x & r2 & -> & Hx); [done|]. by eexists _, r2; split; [|apply pl_missing].
  - destruct (pickKey_range r1 corpus dist) as (i & r2 & -> & Hi); [lia|]. by eexists _, r2; split; [|apply pl_entity].
  - by eexists _, r1; split; [|apply pl_invalid].
  - assert (Hq : (1 ≤ Z.quot corpus 10)%Z) by (rewrite Z.quot_div_nonneg by lia; apply Z.div_le_lower_bound; lia).
    destruct (IntN_range (Z.quot corpus 10) r1) as (i & r2 & -> & Hi); [lia|].
    eexists _, r2. split; [reflexivity|]. apply pl_nameserver. destruct (Z.ltb_spec i 1); lia.
  - destruct (IntN_range 10 r1) as (x & r2 & -> & Hx); [done|]. by eexists _, r2; split; [|apply pl_domains].
  - destruct (IntN_range 6 r1) as (x & r2 & E & Hx); [done|]. change (Z.of_nat (length Countries)) with 6%Z.
    rewrite E. by eexists _, r2; split; [|apply pl_entities].
  - by eexists _, r1; split; [|apply pl_help].
Qed.

Lemma planned_validate corpus q : planned corpus q → is_Some (q_validate q).
Proof. by destruct 1; eexists. Qed.

Definition replies_of (xs : list exchange) : list (Duration * reply) := (λ x, (x_took x, x_reply x)) <$> xs.
Lemma length_replies xss ls : replies_of <$> xss = ls → length (concat xss) = length (concat ls).
Proof.
  intros <-. induction xss as [|xs xss IH]; [done|]. cbn. unfold replies_of at 1.
  by rewrite !length_app, length_fmap, IH.
Qed.
Lemma worker_total corpus dist replies : (10 ≤ corpus)%Z → ∀ r,
  ∃ xs, worker corpus dist r replies = Some xs ∧
        replies_of xs = replies ∧ Forall (λ x, planned corpus (x_query x)) xs.
Proof.
  intros Hc. induction replies as [|[d rep] replies IH]; intros r; cbn [worker]; [by exists []|].
  destruct (pickQuery_planned r corpus dist Hc) as (q & r' & -> & Hq). cbn [mbind option_bind].
  destruct (IH r') as (xs & -> & E & Hxs). eexists. split; [reflexivity|]. unfold replies_of in *. cbn [fmap list_fmap x_took x_reply].
  split; [by f_equal|by constructor].
Qed.
(** The URLs of the requests for a corpus parse. *)
Definition base_ok (base : string) (corpus : Z) : Prop :=
  ∀ q, planned corpus q → http_NewRequest (base +:+ q_path q) = None.

Lemma exec_total base corpus x : base_ok base corpus → planned corpus (x_query x) →
  ∃ l, exec base x = Some l.
Proof.
  intros Hb Hx. unfold exec. rewrite (Hb _ Hx). apply planned_validate in Hx as [v Hv].
  destruct (x_reply x); [by eexists|].
  unfold verdict. destruct (negb _); [by eexists|]. destruct (json_Unmarshal _); [|by eexists].
  rewrite Hv. by eexists.
Qed.
Lemma program_total base corpus xs : base_ok base corpus →
  Forall (λ x, planned corpus (x_query x)) xs → ∃ l, program base xs = Some l.
Proof.
  intros Hb. unfold program. induction 1 as [|x xs Hx _ (l & El)]; cbn; [by eexists|].
  destruct (exec_total base corpus x Hb Hx) as [lx ->]. cbn. destruct (mapM _ xs); [|done]. by eexists.
Qed.

(** The actions of the workers, exchange by exchange. *)
Lemma program_concat base xs l : program base xs = Some l →
  ∃ ls, Forall2 (λ x l, exec base x = Some l) xs ls ∧ l = concat ls.
Proof.
  unfold program. destruct (mapM _ xs) as [ls|] eqn:E; [|done]. intros [= <-].
  apply mapM_Some_1 in E. by exists ls.
Qed.
Lemma programs_concat base xss : ∀ ts, mapM (program base) xss = Some ts →
  ∃ ls, Forall2 (λ x l, exec base x = Some l) (concat xss) ls ∧ concat ts = concat ls.
Proof.
  induction xss as [|xs xss IH]; intros ts; cbn [mapM]; [intros [= <-]; by exists []|].
  destruct (program base xs) as [l|] eqn:El; [|done]. cbn [mbind option_bind].
  destruct (mapM _ xss) as [ts'|] eqn:E; [|done]. cbn [mbind option_bind]. intros [= <-].
  destruct (program_concat base xs l El) as (ls & Hls & ->). destruct (IH _ eq_refl) as (ls' & Hls' & E').
  exists (ls ++ ls'). cbn [concat]. split; [by apply Forall2_app|]. by rewrite E', concat_app.
Qed.

Lemma program_pending base (P : action → bool) (Q : exchange → bool) xss ts :
  (∀ x l, exec base x = Some l → count P l = if Q x then 1 else 0)%nat →
  mapM (program base) xss = Some ts → pending P ts = count Q (concat xss).
Proof.
  intros Hx (ls & Hls & E)%programs_concat. unfold pending. rewrite E. clear E.
  induction Hls as [|x l xs ls Hl _ IH]; [done|]. cbn [concat].
  by rewrite count_app, count_cons, IH, (Hx x l Hl).
Qed.
Lemma program_lines base xss ts : mapM (program base) xss = Some ts →
  pending_lines ts = omap failure_line (concat xss) ∧
  length (omap failure_line (concat xss)) = count failed (concat xss).
Proof.
  intros (ls & Hls & E)%programs_concat. unfold pending_lines. rewrite E. clear E.
  induction Hls as [|x l xs ls Hl _ [IH1 IH2]]; [done|]. cbn [concat].
  destruct (exec_lines base x l Hl) as [E1 E2]. rewrite omap_app, E1, IH1, count_cons, E2.
  cbn [omap list_omap]. destruct (failure_line x); cbn [option_list length app]; [|done].
  split; [done|]. by rewrite IH2.
Qed.
End planned.

(** ** The figures of a run *)
Section accounts.
Context `{GoFmt} `{FloatToInt} `{GoRequest} `{JSONObject} {G : Type} `{!GoRand G}.

Lemma start_counts base xss ts now : mapM (program base) xss = Some ts → inv (concat xss) ts (newStats now).
Proof.
  intros E. split.
  - intros i l Hl. apply mapM_Some_1 in E. destruct (Forall2_lookup_r _ _ _ _ _ E Hl) as (xs & _ & Ep).
    eapply ready_mono; [| |by eapply program_ready]; done.
  - intros m. rewrite (program_pending base _ (holds m) xss ts) by (done || intros x l Ex; by apply (exec_counts base x l Ex)).
    destruct m as [[k|]|[k|]|[k|]| | |]; cbn; try done; by rewrite lookup_empty.
  - intros m. destruct m as [[k|]|[k|]|[k|]| | |]; cbn; try done; by rewrite lookup_empty.
  - intros c. cbn. rewrite lookup_empty.
    apply (program_pending base); [|done]. intros x l Ex. by apply (exec_counts base x l Ex).
Qed.
Lemma init_lossy base xss ts now : mapM (program base) xss = Some ts → lossy (concat xss) ts (newStats now).
Proof.
  intros E. split; [|intros c v; cbn; by rewrite lookup_empty].
  intros i a rest Hi.
  assert (Hno : pending is_store ts = 0%nat).
  { rewrite (program_pending base _ (λ _, false) xss ts).
    - unfold count. clear. by induction (concat xss).
    - intros x l. unfold exec, bucketFor, recordStatus, failed_with.
      destruct (http_NewRequest _); [done|]. destruct (x_reply x).
      + by intros [= <-].
      + destruct (verdict _ _ _) as [[]|]; [| |done]; intros [= <-]; by destruct (_ =? _)%string.
    - done. }
  pose proof (pending_step is_store ts i a rest [] Hi) as Hp. rewrite Hno in Hp.
  change (count is_store []) with 0%nat in Hp. cbn [app] in Hp.
  pose proof (lookup_lt_Some _ _ _ Hi) as Hlt.
  assert (Hins : <[i := rest]> ts !! i = Some rest) by (by rewrite list_lookup_insert_eq).
  rewrite <-(take_drop_middle _ i rest Hins) in Hp. unfold pending in Hp.
  rewrite concat_app in Hp. cbn [concat] in Hp. rewrite !count_app in Hp. lia.
Qed.

(** What the statistics say of the exchanges [xs], with [workers] of them at a time. *)
Record accounted (xs : list exchange) (workers : nat) (s : stats) : Prop := {
  ac_tally m : tally m s = Z.of_nat (count (holds m) xs);
  ac_total : (cacheHit s + cacheMiss s + transErr s = b_count (overall s))%Z;
  ac_mismatches : ∃ order, order ≡ₚ omap failure_line xs ∧ mismatches s = take 10 order ∧
                           length order = count failed xs;
  ac_listed c : byStatus s !! c = None ↔ count (has_status c) xs = 0%nat;
  ac_status c v : byStatus s !! c = Some v →
    (1 ≤ v ∧ Z.of_nat (count (has_status c) xs) - Z.of_nat workers < v ≤ Z.of_nat (count (has_status c) xs))%Z }.

Lemma count_replies xs :
  (count hit xs + count (λ x, negb (no_reply x) && negb (hit x)) xs + count no_reply xs = length xs)%nat.
Proof.
  induction xs as [|x xs IH]; [done|]. rewrite !count_cons. cbn [length]. unfold no_reply, hit in *.
  destruct (x_reply x) as [|code cache bytes]; cbn; [lia|]. destruct (cache =? "HIT")%string; cbn; lia.
Qed.

Lemma finished_accounts xs ts s (g : G) order : inv xs ts s → lossy xs ts s →
  order ≡ₚ omap failure_line xs → mismatches s = take 10 order → length order = count failed xs →
  finished (ts, s, g) = true → accounted xs (length ts) s.
Proof.
  intros [_ Ht _ Hs] [_ Hl] Ho Hm Hlen Hf.
  assert (Hp : ∀ P, pending P ts = 0%nat) by (intros P; by eapply finished_pending).
  assert (Htally : ∀ m, tally m s = Z.of_nat (count (holds m) xs)).
  { intros m. specialize (Ht m). rewrite Hp in Ht. lia. }
  split; [done| | | |].
  - pose proof (Htally MHit) as E1. pose proof (Htally MMiss) as E2. pose proof (Htally MTransErr) as E3.
    pose proof (Htally (MCount None)) as E4. pose proof (count_replies xs) as E.
    cbn in E1, E2, E3, E4. rewrite E1, E2, E3, E4. rewrite count_true.
    change (Z.of_nat (count hit xs) + Z.of_nat (count (λ x, negb (no_reply x) && negb (hit x)) xs) +
            Z.of_nat (count no_reply xs) = Z.of_nat (length xs))%Z. lia.
  - by exists order.
  - intros c. specialize (Hs c). rewrite Hp in Hs. destruct (byStatus s !! c); [|done].
    split; [done|]. lia.
  - intros c v Hv. destruct (Hl c v Hv) as (lost & E & Hlt). specialize (Hs c). rewrite Hv in Hs.
    rewrite Hp in E, Hlt. lia.
Qed.

Lemma finished_lines ts s (g : G) : finished (ts, s, g) = true → pending_lines ts = [].
Proof.
  unfold finished, pending_lines. cbn [fst]. induction ts as [|[|a l] ts IH]; cbn; [done|done|discriminate].
Qed.

Lemma program_accounts base xss ts sched now (g : G) :
  mapM (program base) xss = Some ts → (Z.of_nat (length (concat xss)) ≤ int64_max)%Z →
  ∃ sys, run sched (ts, newStats now, g) = Some sys ∧
    (∃ sched' sys', run sched' sys = Some sys' ∧ finished sys' = true) ∧
    mismatches sys.1.2 = take 10 (recorded sched (ts, newStats now, g)) ∧
    (finished sys = true →
       recorded sched (ts, newStats now, g) ≡ₚ omap failure_line (concat xss) ∧
       accounted (concat xss) (length ts) sys.1.2).
Proof.
  intros Hts Hlen.
  destruct (run_counts (concat xss) Hlen sched ts (newStats now) g) as (ts' & s' & g' & Er & Hi & Hlt);
    [by eapply start_counts|].
  destruct (run_recorded sched ts (newStats now) g ts' s' g' [] eq_refl Er) as [Hm Hrec].
  destruct (program_lines base xss ts Hts) as [Hl Hc]. rewrite Hl in Hrec.
  exists (ts', s', g'). split; [done|]. split; [|split; [exact Hm|]].
  - eapply (can_finish (concat xss) Hlen (S (work ts'))); [done|lia].
  - intros Hf. rewrite (finished_lines _ _ _ Hf), app_nil_r in Hrec. split; [exact Hrec|].
    rewrite <-Hlt. eapply finished_accounts; [done| |exact Hrec|exact Hm|by rewrite Hrec|done].
    eapply (lossy_run (concat xss) Hlen); [by eapply start_counts|by eapply init_lossy|done].
Qed.

(** C31: the figures of the load generator.  For a corpus of at least ten, and a base URL with
    which the URLs of the requests parse, whatever the random draws, the replies and the
    interleaving of the workers: no worker panics, any partial run can be completed, and when
    all workers are done the report agrees with the requests that were made.  Requests, failed
    expectations, network errors, cache hits and misses are counted exactly, in total and by
    kind; hits, misses and network errors add up to the requests.  The mismatches kept are at
    any moment the first ten in the order in which the workers recorded them, and in the end
    each failed exchange has recorded one line, with its kind, path, status and reason.  Of
    each status that occurred the count is at most the true one and falls short of it by less
    than the number of workers: a single worker counts exactly, several lose counts when they
    record a new status together.  (With a base URL that does not parse the first request is a
    nil dereference: [bad_base_ex].) *)
Theorem runStress_accounts base corpus dist (workers : list (G * list (Duration * reply))) sched now g :
  (10 ≤ corpus)%Z → base_ok base corpus →
  (Z.of_nat (length (concat workers.*2)) ≤ int64_max)%Z →
  ∃ xss ts, plan corpus dist workers = Some xss ∧ mapM (program base) xss = Some ts ∧
    replies_of <$> xss = workers.*2 ∧
    Forall (λ x, planned corpus (x_query x)) (concat xss) ∧
    ∃ sys, runStress base corpus dist workers sched (newStats now) g = Some sys ∧
      (∃ sched' sys', run sched' sys = Some sys' ∧ finished sys' = true) ∧
      mismatches sys.1.2 = take 10 (recorded sched (ts, newStats now, g)) ∧
      (finished sys = true →
         recorded sched (ts, newStats now, g) ≡ₚ omap failure_line (concat xss) ∧
         accounted (concat xss) (length workers) sys.1.2).
Proof.
  intros Hc Hb Hmany.
  assert (Hplan : ∃ xss, plan corpus dist workers = Some xss ∧
    replies_of <$> xss = workers.*2 ∧
    Forall (Forall (λ x, planned corpus (x_query x))) xss).
  { clear Hmany. unfold plan. induction workers as [|[r replies] ws (xss & E0 & E & Hx)]; [by exists []|].
    destruct (worker_total corpus dist replies Hc r) as (xs & E1 & E2 & Hxs).
    exists (xs :: xss). cbn [mapM fst snd]. rewrite E1. cbn [mbind option_bind]. rewrite E0.
    cbn [mbind option_bind fmap list_fmap snd]. split; [done|]. split; [by f_equal|by constructor]. }
  destruct Hplan as (xss & Hp & E & Hx).
  assert (Hts : ∃ ts, mapM (program base) xss = Some ts).
  { apply mapM_is_Some_2. eapply Forall_impl; [exact Hx|]. intros xs Hxs. by eapply program_total. }
  destruct Hts as [ts Hts]. exists xss, ts. split; [done|]. split; [done|]. split; [done|].
  split; [by apply Forall_concat|].
  unfold runStress. rewrite Hp. cbn [mbind option_bind]. rewrite Hts. cbn [mbind option_bind].
  pose proof (length_replies xss _ E) as Hlen.
  assert (Hw : length ts = length workers).
  { rewrite <-(length_mapM _ _ _ Hts). rewrite <-(length_fmap snd workers), <-E. by rewrite length_fmap. }
  rewrite <-Hw. eapply program_accounts; [done|lia].
Qed.
End accounts.

(** * Witnesses *)
#[local] Existing Instance float_int_default.
#[local] Existing Instance rand_lcg.
Definition fmt_plain : GoFmt := {| fmt_Quote := literal; fmt_Float := λ _, "?" |}.
Definition json_none : JSONObject := {| json_Unmarshal := λ _, inr "not an object" |}.
#[local] Existing Instance fmt_plain.
#[local] Existing Instance json_none.

(** A URL that starts with a colon does not parse. *)
Definition url_scheme : GoRequest :=
  {| http_NewRequest := λ u, if HasPrefix u ":" then Some (ErrOther "missing protocol scheme") else None |}.
#[local] Existing Instance url_scheme.
Definition local_base : string := "http://localhost:8080".
Lemma local_base_ok corpus : base_ok local_base corpus.
Proof. by intros q _. Qed.

Definition two_workers : list (Z * list (Duration * reply)) :=
  [(17%Z, [(5%Z, Reply 404 "MISS" "")]); (23%Z, [(7%Z, Reply 404 "HIT" "")])].

(** The workers in lock step: both find no counter for 404, and one count is lost; one after
    the other, none is.  The mismatches are in the order of their recording. *)
Example lost_status_ex :
  let figures sched :=
    (λ sys, (finished sys, b_count (overall sys.1.2), byStatus sys.1.2 !! 404%Z, length (mismatches sys.1.2)))
      <$> runStress local_base 100 "zipf" two_workers sched (newStats 0%Z) 0%Z in
  figures (concat (replicate 20 [0; 1])%nat) = Some (true, 2%Z, Some 1%Z, 2%nat) ∧
  figures (replicate 20 0 ++ replicate 20 1)%nat = Some (true, 2%Z, Some 2%Z, 2%nat).
Proof. vm_compute. done. Qed.

(** With [-url :8080], the first request of a worker is a nil dereference. *)
Example bad_base_ex :
  runStress ":8080" 100 "zipf" two_workers [0%nat] (newStats 0%Z) 0%Z = None.
Proof. vm_compute. reflexivity. Qed.

Lemma runStress_accounts_witness :
  ∃ xss sys order,
    runStress local_base 100 "zipf" two_workers (concat (replicate 20 [0; 1]%nat)) (newStats 0%Z) 0%Z = Some sys ∧
    finished sys = true ∧ b_count (overall sys.1.2) = 2%Z ∧
    mismatches sys.1.2 = take 10 order ∧ order ≡ₚ omap failure_line (concat xss).
Proof.
  destruct (runStress_accounts local_base 100 "zipf" two_workers (concat (replicate 20 [0; 1]%nat)) 0%Z 0%Z)
    as (xss & ts & Hp & _ & Hr & _ & sys & E & _ & Hm & Ha); [done|apply local_base_ok|by vm_compute|].
  assert (Ef : finished sys = true).
  { assert (E' : finished <$> runStress local_base 100 "zipf" two_workers (concat (replicate 20 [0; 1]%nat)) (newStats 0%Z) 0%Z = Some true)
      by (vm_compute; reflexivity).
    rewrite E in E'. by injection E'. }
  destruct (Ha Ef) as [Ho Hac]. exists xss, sys. eexists. split_and!; [done|done| |exact Hm|exact Ho].
  pose proof (ac_tally _ _ _ Hac (MCount None)) as Ht. cbn in Ht.
  rewrite Ht, count_true. assert (El : length (concat xss) = 2%nat); [|by rewrite El].
  by rewrite (length_replies xss _ Hr).
Defined.
