(* ===== verification/StressServer.v ===== *)
(** * cmd/gordap-stress against the server.

    The load generator derives from internal/synth what a server seeded from internal/synth
    should answer.  Here its requests meet the routes and handlers over the seeded store. *)
From Stdlib Require Import Numbers.DecimalFacts Numbers.DecimalString.
From S2P Require Import Prelude GoStrings Float64 Synth Stress StressRun NetIP DataSource Auth Validate Search JSContact Types Redact Mapper Memory LRU Cache ResponseCache Http Handlers SearchHandlers Router.

(** ** The length of a number *)
Lemma nb_digits_double d :
  (Decimal.nb_digits (Decimal.Little.double d) ≤ S (Decimal.nb_digits d))%nat ∧ (Decimal.nb_digits (Decimal.Little.succ_double d) ≤ S (Decimal.nb_digits d))%nat.
Proof. induction d; cbn; lia. Qed.
Lemma nb_digits_little p : (Z.of_nat (Decimal.nb_digits (Pos.to_little_uint p)) ≤ Z.log2 (Z.pos p) + 1)%Z.
Proof.
  induction p as [p IH|p IH|]; cbn [Pos.to_little_uint]; [| |done].
  - pose proof (proj2 (nb_digits_double (Pos.to_little_uint p))).
    rewrite Pos2Z.inj_xI, Z.log2_succ_double by lia. lia.
  - pose proof (proj1 (nb_digits_double (Pos.to_little_uint p))).
    rewrite Pos2Z.inj_xO, Z.log2_double by lia. lia.
Qed.
(** Fewer digits than bits. *)
Lemma Itoa_length z k : (0 ≤ z < 2 ^ k)%Z → (1 ≤ k)%Z → (len (Itoa z) ≤ k)%Z.
Proof.
  intros Hz Hk.
  assert (Hs : ∀ u, String.length (NilEmpty.string_of_uint u) = Decimal.nb_digits u) by (induction u; cbn; congruence).
  destruct z as [|p|p]; [unfold len; cbn; lia| |lia]. unfold Itoa, len. cbn [Z.to_int NilZero.string_of_int].
  assert (Hl : (Z.of_nat (Decimal.nb_digits (Pos.to_uint p)) ≤ k)%Z).
  { unfold Pos.to_uint. rewrite nb_digits_rev. pose proof (nb_digits_little p).
    assert (Z.log2 (Z.pos p) < k)%Z by (apply Z.log2_lt_pow2; lia). lia. }
  destruct (Pos.to_uint p) eqn:E; [unfold NilZero.string_of_uint; cbn; lia|..]; rewrite <-E in *;
    (replace (NilZero.string_of_uint (Pos.to_uint p)) with (NilEmpty.string_of_uint (Pos.to_uint p))
       by (by rewrite E)); by rewrite Hs.
Qed.
Lemma len_app s t : len (s +:+ t) = (len s + len t)%Z.
Proof. unfold len. rewrite str_length_app. lia. Qed.

(** ** The names of the corpus *)
Lemma Contains_mid u v t : Contains (u +:+ v +:+ t) v = true.
Proof.
  induction u as [|c u IH].
  - assert (Hp : ∀ s w, HasPrefix s w = true → Contains s w = true)
      by (intros [|a s] w Hw; cbn [Contains]; by rewrite Hw).
    apply Hp. exact (HasPrefix_app v t).
  - rewrite str_app_cons. cbn [Contains]. by rewrite IH, orb_true_r.
Qed.

Section names.
Context `{GoUnicode} `{IDNA}.

(** What normalising leaves alone. *)
Record settled (s : string) : Prop := {
  st_ldh : str_forall lower_ldh s = true;
  st_head : ∃ c r, s = String c r ∧ c ≠ "."%char;
  st_last : str_last s ≠ Some "."%char;
  st_dot : Contains s "." = true;
  st_ascii : ToASCII s = Some s }.

Lemma settled_Normalize s : settled s → Normalize s = Some s.
Proof.
  intros [Hl (c & r & E & Hc) Hlast Hdot Ha]. unfold Normalize.
  rewrite TrimSpace_plain by (eapply str_forall_impl; [apply lower_ldh_plain|done]).
  rewrite TrimRight_id by done.
  assert (Ht : (Trim s "." =? "")%string = false).
  { unfold Trim. rewrite E. cbn [TrimLeft]. apply Ascii.eqb_neq in Hc. rewrite Hc, TrimRight_id by (by rewrite <-E). done. }
  rewrite Ht, Ha, Ht, Hdot. rewrite (proj2 (String.eqb_neq s "")) by (by rewrite E). cbn [orb negb].
  f_equal. apply ToLower_stable. eapply str_forall_impl; [apply lower_ldh_stable|done].
Qed.
Lemma settled_plain s : settled s → plain_segment s ∧ str_forall (λ c, negb (Ascii.eqb c "?")) s = true.
Proof.
  intros [Hl (c & r & E & Hc) _ _ _]. split.
  - split_and!; [by rewrite E|by intros E'; rewrite E in E'; injection E' as ->|
                 by intros E'; rewrite E in E'; injection E' as ->|].
    eapply str_forall_impl; [|exact Hl]. by intros [[] [] [] [] [] [] [] []].
  - eapply str_forall_impl; [|exact Hl]. by intros [[] [] [] [] [] [] [] []].
Qed.

Lemma lower_ldh_digit d : is_digit d = true → lower_ldh d = true.
Proof. unfold lower_ldh. by intros ->. Qed.
Lemma TLD_cases i : at_index TLDs (Z.rem i 4) ∈ ["nl"; "com"; "de"; "test"; ""].
Proof.
  unfold at_index. destruct (TLDs !! _) as [t|] eqn:E; [|set_solver].
  apply list_elem_of_lookup_2 in E. unfold TLDs in E. cbn. set_solver.
Qed.
Lemma TLD_nonneg i : (0 ≤ i)%Z → let t := at_index TLDs (Z.rem i 4) in
  t = "nl" ∨ t = "com" ∨ t = "de" ∨ t = "test".
Proof.
  intros Hi. pose proof (Z.rem_bound_pos i 4 Hi ltac:(done)) as Hr. unfold at_index.
  destruct (lookup_lt_is_Some_2 TLDs (Z.to_nat (Z.rem i 4))) as [t E]; [cbn; lia|].
  rewrite E. cbn. apply list_elem_of_lookup_2 in E. unfold TLDs in E. set_unfold in E. naive_solver.
Qed.
Lemma str_last_char s c : str_last (s +:+ String c "") = Some c.
Proof. apply str_last_snoc. Qed.

Lemma DomainName_settled i : (0 ≤ i)%Z → ToASCII (DomainName i) = Some (DomainName i) → settled (DomainName i).
Proof.
  intros Hi Ha. pose proof (TLD_nonneg i Hi) as Ht. cbn zeta in Ht. split; [| | | |done]; unfold DomainName.
  - rewrite !str_forall_app, Itoa_chars by (done || apply lower_ldh_digit).
    by destruct Ht as [->|[->|[->| ->]]].
  - by eexists _, _.
  - assert (Hl : ∃ u c, at_index TLDs (Z.rem i 4) = u +:+ String c "" ∧ c ≠ "."%char).
    { destruct Ht as [->|[->|[->| ->]]];
        [by exists "n", "l"%char|by exists "co", "m"%char|by exists "d", "e"%char|by exists "tes", "t"%char]. }
    destruct Hl as (u & c & -> & Hc). rewrite !str_app_assoc, str_last_snoc. by intros [= ->].
  - rewrite str_app_assoc. apply Contains_mid.
Qed.
Lemma NameserverName_settled i : ToASCII (NameserverName i) = Some (NameserverName i) → settled (NameserverName i).
Proof.
  intros Ha. split; [| | | |done]; unfold NameserverName.
  - by rewrite !str_forall_app, Itoa_chars by (done || apply lower_ldh_digit).
  - by eexists _, _.
  - replace ".synthetic.example" with (".synthetic.exampl" +:+ String "e" "") by done.
    by rewrite !str_app_assoc, str_last_snoc.
  - replace ".synthetic.example" with ("." +:+ "synthetic.example") by done. rewrite str_app_assoc. apply Contains_mid.
Qed.
Lemma DomainName_len i : (0 ≤ i < 2 ^ 51)%Z → (1 ≤ len (DomainName i) ≤ 253)%Z.
Proof.
  intros Hi. unfold DomainName. rewrite !len_app. pose proof (Itoa_length i 51 Hi ltac:(done)).
  assert (len (at_index TLDs (Z.rem i 4)) ≤ 4)%Z.
  { pose proof (TLD_cases i) as Ht. set_unfold in Ht. by destruct Ht as [->|[->|[->|[->|[->|[]]]]]]. }
  change (len "syn-") with 4%Z. change (len ".") with 1%Z.
  assert (0 ≤ len (Itoa i))%Z by (unfold len; lia).
  assert (0 ≤ len (at_index TLDs (Z.rem i 4)))%Z by (unfold len; lia). lia.
Qed.
Lemma NameserverName_len i : (0 ≤ i < 2 ^ 51)%Z → (1 ≤ len (NameserverName i) ≤ 253)%Z.
Proof.
  intros Hi. unfold NameserverName. rewrite !len_app. pose proof (Itoa_length i 51 Hi ltac:(done)).
  change (len "ns") with 2%Z. change (len ".synthetic.example") with 18%Z.
  assert (0 ≤ len (Itoa i))%Z by (unfold len; lia). lia.
Qed.
Lemma Itoa_ascii i : is_ascii (Itoa i) = true.
Proof. apply Itoa_chars; [by intros [[] [] [] [] [] [] [] []]|done]. Qed.
Lemma DomainName_ascii i : (0 ≤ i)%Z → is_ascii (DomainName i) = true.
Proof.
  intros Hi. pose proof (TLD_nonneg i Hi) as Ht. unfold DomainName, is_ascii.
  rewrite !str_forall_app. change (str_forall is_ascii_byte (Itoa i)) with (is_ascii (Itoa i)).
  rewrite Itoa_ascii. by destruct Ht as [->|[->|[->| ->]]].
Qed.
Lemma EntityHandle_ascii i : is_ascii (EntityHandle i) = true.
Proof. unfold EntityHandle, is_ascii. rewrite str_forall_app. apply Itoa_ascii. Qed.
Lemma EntityHandle_ok i : (0 ≤ i < 2 ^ 50)%Z →
  Validate.Handle (EntityHandle i) = None ∧ plain_segment (EntityHandle i) ∧
  str_forall (λ c, negb (Ascii.eqb c "?")) (EntityHandle i) = true.
Proof.
  intros Hi.
  assert (Hc : str_forall (λ c, handle_byte c && negb (Ascii.eqb c ".")) (EntityHandle i) = true).
  { unfold EntityHandle. rewrite str_forall_app, Itoa_chars; [done| |done].
    by intros [[] [] [] [] [] [] [] []]. }
  split; [|split].
  - unfold Validate.Handle, MaxHandleLength. rewrite (proj2 (String.eqb_neq _ _)) by done.
    assert (Hl : (len (EntityHandle i) ≤ 58)%Z).
    { unfold EntityHandle. rewrite len_app. pose proof (Itoa_length i 50 Hi ltac:(done)).
      change (len "SYN-ENT-") with 8%Z. lia. }
    rewrite (proj2 (Z.ltb_ge _ _)) by lia.
    rewrite (str_forall_impl _ handle_byte _ ltac:(intros c Hx; by apply andb_true_iff in Hx as [? _]) Hc).
    cbn [negb]. assert (Hs : HasSuffix (EntityHandle i) "." = false).
    { apply not_true_iff_false. intros [r Hr]%HasSuffix_spec. rewrite Hr, str_forall_app in Hc.
      by apply andb_true_iff in Hc as [_ Hc]. }
    by rewrite Hs.
  - split_and!; [done..|]. eapply str_forall_impl; [|exact Hc]. by intros [[] [] [] [] [] [] [] []].
  - eapply str_forall_impl; [|exact Hc]. by intros [[] [] [] [] [] [] [] []].
Qed.
End names.

(** ** Bodies as the generator reads them *)
Definition content_common (c : content) : Common :=
  match c with
  | CDomain d => Domain_Common d | CEntity e => Entity_Common e | CNameserver n => Nameserver_Common n
  | CIPNetwork n => IPNetwork_Common n | CError e => Error_Common e | CHelp c _ => c
  | CDomainSearch r => DSR_Common r | CEntitySearch r => ESR_Common r | CNameserverSearch r => NSR_Common r
  end.

(** What decoding an encoded object gives, of the members the generator looks at: texts come
    back as they were if they are ASCII (encoding/json replaces what is not UTF-8).  The
    encoder is one that has a text for each of these objects; none of them has a time that
    encoding/json refuses. *)
Class JSONMembers `{JSONEncoder} `{JSONObject} := {
  members : content → body;
  members_decoded c : json_Unmarshal (json_Encode c) = inl (members c);
  members_class c : is_ascii (Common_ObjectClassName (content_common c)) = true →
    as_string (members c !! "objectClassName") = Common_ObjectClassName (content_common c);
  members_handle c : is_ascii (Common_Handle (content_common c)) = true →
    as_string (members c !! "handle") = Common_Handle (content_common c);
  members_ldhName d : is_ascii (Domain_LDHName d) = true →
    as_string (members (CDomain d) !! "ldhName") = Domain_LDHName d;
  members_errorCode e : as_float (members (CError e) !! "errorCode") = float_Z (Error_ErrorCode e) }.

Section server.
Context `{GoFmt} `{FloatToInt} `{JSONMembers} `{GoUnicode} `{GoMapRange} `{NetIPText} `{IDNA} `{MuxRedirect}.
Context (s : Server Store) (corpus : Z).

(** The request the client sends for the path of a query: a parameter after the question mark. *)
Definition url_request (p : string) : Request :=
  match Split p "?" with
  | path :: qs :: _ =>
      get_request "" path (match Split qs "=" with k :: v :: _ => [(k, v)] | _ => [] end)
  | _ => get_request "" p []
  end.

Definition ok_body (code : Z) (c : content) : list wop → Prop := λ ops,
  rw_status (serve ops rw_new) = Some code ∧ rw_body (serve ops rw_new) = json_Encode c.
Lemma writeJSON_body code c : ok_body code c (writeJSON code c).
Proof. done. Qed.
Lemma writeError_body code title : ok_body code (CError (error_object code title (s_Notices s) [])) (writeError code title (s_Notices s)).
Proof. done. Qed.

(** An answer that satisfies a query. *)
Definition satisfied (q : query) (ops : list wop) : Prop :=
  ∃ code, rw_status (serve ops rw_new) = Some code ∧ code = q_wantStatus q ∧
          verdict q code (rw_body (serve ops rw_new)) = Some None.
Lemma satisfied_by q ops code c v : ok_body code c ops → code = q_wantStatus q → q_validate q = Some v →
  v (members c) = "" → satisfied q ops.
Proof.
  intros [Hc Hb] Hq Hv Hm. exists code. split; [done|]. split; [done|]. unfold verdict.
  by rewrite Hb, Hq, Z.eqb_refl, members_decoded, Hv; cbn; rewrite Hm.
Qed.
Lemma want_string_ok key want wanted b : as_string (b !! key) = want → want_string key want wanted b = "".
Proof. intros E. unfold want_string. by rewrite E, String.eqb_refl. Qed.
Lemma want_class_ok c : is_ascii (Common_ObjectClassName (content_common c)) = true →
  want_class (Common_ObjectClassName (content_common c)) (members c) = "".
Proof. intros Ha. by apply want_string_ok, members_class. Qed.

(** A canonical path is handed to the handler of its route. *)
Lemma mux_routed path qs t w :
  cleanPath path = path → slash_redirect "GET" path = false → route_of "GET" path = t →
  (path =? "*")%string = false →
  mux_serve s (get_request "" path qs) w = serve_route s t (get_request "" path qs) w.
Proof.
  intros Hc Hs Hr Hstar. unfold mux_serve. cbn [r_RequestURI get_request r_EscapedPath r_Method].
  by rewrite Hstar, Hc, Hs, String.eqb_refl, Hr.
Qed.

(** A path of one class and one plain value reaches its handler. *)
Lemma object_request cls v e w :
  plain_segment v → str_forall (λ c, negb (Ascii.eqb c "?")) v = true →
  (cls, e) ∈ [("domain", EDomain v); ("entity", EEntity v); ("nameserver", ENameserver v); ("ip", EIP v)] →
  let p := "/" +:+ cls +:+ "/" +:+ v in
  url_request p = get_request "" p [] ∧ mux_serve s (get_request "" p []) w = handle s e (get_request "" p []) w.
Proof.
  intros Hv Hq Hin p. destruct (object_path_routes cls v e Hv Hin) as (Hc & Hs & Hr & _). fold p in Hc, Hs, Hr.
  assert (Hp : str_forall (λ c, negb (Ascii.eqb c "?")) p = true).
  { unfold p. rewrite !str_forall_app, Hq.
    repeat (apply elem_of_cons in Hin as [[= -> _]|Hin]; [done|]). by apply not_elem_of_nil in Hin. }
  split.
  - unfold url_request. by rewrite (Split_plain p "?" Hp).
  - by rewrite (mux_routed p [] _ w Hc Hs Hr).
Qed.

(** ** Every expectation is met *)
Context (Hsource : s_DS s = store_source) (Hindex : s_Search s = Some store_index) (Hboot : s_Bootstrap s = None).
Context (HDomain : ∀ i, (0 ≤ i)%Z → ToASCII (DomainName i) = Some (DomainName i)).
Context (HNameserver : ∀ i, (0 ≤ i)%Z → ToASCII (NameserverName i) = Some (NameserverName i)).

Definition seeded : Store := SeedSynthetic Memory.New corpus.
Definition answers_to (q : query) : Prop :=
  ∃ ops, mux_serve s (url_request (q_path q)) seeded = (ops, seeded) ∧ satisfied q ops.

Lemma accepts_plain p q : accepts (get_request "" p q) = true.
Proof. done. Qed.

Lemma domain_handled i w : (0 ≤ i < 2 ^ 51)%Z →
  let r := get_request "" ("/domain/" +:+ DomainName i) [] in
  url_request ("/domain/" +:+ DomainName i) = r ∧
  mux_serve s r w =
    (on_result (Store_GetDomain (DomainName i) w)
       (write_failure s) (λ d, writeJSON StatusOK (CDomain (Mapper.Domain d (opts s r)))), w).
Proof.
  intros Hi r. pose proof (DomainName_settled i ltac:(lia) (HDomain i ltac:(lia))) as Hset.
  destruct (settled_plain _ Hset) as [Hp Hq].
  destruct (object_request "domain" (DomainName i) (EDomain (DomainName i)) w Hp Hq ltac:(set_solver)) as [E1 E2].
  cbn [String.append] in E1, E2. split; [exact E1|]. unfold r.
  etrans; [exact E2|]. cbn [handle]. unfold HandleDomain. rewrite accepts_plain. cbn [negb].
  pose proof (DomainName_len i Hi) as Hl.
  rewrite (proj2 (PathSegment_None _)) by lia. rewrite settled_Normalize by done.
  rewrite (proj2 (DomainLength_None _)) by done. rewrite Hsource. cbn [GetDomain store_source].
  unfold redirect_or_error. by rewrite Hboot.
Qed.

Lemma nameserver_handled i w : (0 ≤ i < 2 ^ 51)%Z →
  let r := get_request "" ("/nameserver/" +:+ NameserverName i) [] in
  url_request ("/nameserver/" +:+ NameserverName i) = r ∧
  mux_serve s r w =
    (on_result (Store_GetNameserver (NameserverName i) w)
       (write_failure s) (λ n, writeJSON StatusOK (CNameserver (NameserverTopLevel n (opts s r)))), w).
Proof.
  intros Hi r. pose proof (NameserverName_settled i (HNameserver i ltac:(lia))) as Hset.
  destruct (settled_plain _ Hset) as [Hp Hq].
  destruct (object_request "nameserver" (NameserverName i) (ENameserver (NameserverName i)) w Hp Hq ltac:(set_solver)) as [E1 E2].
  cbn [String.append] in E1, E2. split; [exact E1|]. unfold r.
  etrans; [exact E2|]. cbn [handle]. unfold HandleNameserver. rewrite accepts_plain. cbn [negb].
  pose proof (NameserverName_len i Hi) as Hl.
  rewrite (proj2 (PathSegment_None _)) by lia. rewrite settled_Normalize by done.
  rewrite (proj2 (DomainLength_None _)) by done. by rewrite Hsource.
Qed.
Lemma entity_handled i w : (0 ≤ i < 2 ^ 50)%Z →
  let r := get_request "" ("/entity/" +:+ EntityHandle i) [] in
  url_request ("/entity/" +:+ EntityHandle i) = r ∧
  mux_serve s r w =
    (on_result (Store_GetEntity (EntityHandle i) w)
       (write_failure s) (λ c, writeJSON StatusOK (CEntity (EntityTopLevel c (opts s r)))), w).
Proof.
  intros Hi r. destruct (EntityHandle_ok i Hi) as (Hv & Hp & Hq).
  destruct (object_request "entity" (EntityHandle i) (EEntity (EntityHandle i)) w Hp Hq ltac:(set_solver)) as [E1 E2].
  cbn [String.append] in E1, E2. split; [exact E1|]. unfold r.
  etrans; [exact E2|]. cbn [handle]. unfold HandleEntity. rewrite accepts_plain, Hv. cbn [negb]. by rewrite Hsource.
Qed.

(** A search by one parameter, which the index of the store answers. *)
Lemma domains_searched v w : v ≠ "" → ∃ res,
  mux_serve s (get_request "" "/domains" [("name", v)]) w = (writeJSON StatusOK (CDomainSearch res), w) ∧
  Common_ObjectClassName (DSR_Common res) = "domainSearchResults".
Proof.
  intros Hv. eexists. split.
  - rewrite (mux_routed "/domains" [_] (RSearch SDomains)) by done. cbn [serve_route].
    unfold HandleDomainsSearch, handle_search. rewrite Hindex, accepts_plain. cbn [negb].
    unfold buildQuery, terms_of. cbn [r_Query get_request Terms domainSearchFields foldl query_Get String.eqb Ascii.eqb Bool.eqb andb].
    rewrite (proj2 (String.eqb_neq v "") Hv), bool_decide_eq_false_2 by apply insert_non_empty.
    cbn [SearchDomains store_index]. unfold Store_SearchDomains, found. cbn [on_result]. reflexivity.
  - reflexivity.
Qed.
Lemma entities_searched v w : v ≠ "" → ∃ res,
  mux_serve s (get_request "" "/entities" [("countryCode", v)]) w = (writeJSON StatusOK (CEntitySearch res), w) ∧
  Common_ObjectClassName (ESR_Common res) = "entitySearchResults".
Proof.
  intros Hv. eexists. split.
  - rewrite (mux_routed "/entities" [_] (RSearch SEntities)) by done. cbn [serve_route].
    unfold HandleEntitiesSearch, handle_search. rewrite Hindex, accepts_plain. cbn [negb].
    unfold buildQuery, terms_of. cbn [r_Query get_request Terms entitySearchFields foldl query_Get String.eqb Ascii.eqb Bool.eqb andb].
    rewrite (proj2 (String.eqb_neq v "") Hv), bool_decide_eq_false_2 by apply insert_non_empty.
    cbn [SearchEntities store_index]. unfold Store_SearchEntities, found. cbn [on_result]. reflexivity.
  - reflexivity.
Qed.
Lemma small_cases n x : (0 ≤ x < n)%Z → x ∈ Z.of_nat <$> seq 0 (Z.to_nat n).
Proof.
  intros Hx. apply list_elem_of_fmap. exists (Z.to_nat x). split; [lia|]. apply elem_of_seq. lia.
Qed.

Lemma entity_envelope c o :
  Common_ObjectClassName (Entity_Common (EntityTopLevel c o)) = "entity" ∧
  Common_Handle (Entity_Common (EntityTopLevel c o)) = c_Handle c.
Proof.
  unfold EntityTopLevel. unfold entityWithMarks. by destruct (card_members _ _).
Qed.

(** The answer with content [c] satisfies [q]. *)
Lemma answered_with q r ops code c v :
  url_request (q_path q) = r → mux_serve s r seeded = (ops, seeded) →
  ok_body code c ops → code = q_wantStatus q → q_validate q = Some v → v (members c) = "" → answers_to q.
Proof. intros Er E Hb Hc Hv Hm. exists ops. rewrite Er. split; [done|]. by eapply satisfied_by. Qed.
Lemma class_ok cls c : Common_ObjectClassName (content_common c) = cls → is_ascii cls = true →
  want_class cls (members c) = "".
Proof. intros <-. apply want_class_ok. Qed.

(** *** Kind by kind *)
Context (Hn : (11 ≤ corpus ≤ 2 ^ 50 - 1)%Z).

Lemma predicted i : (0 ≤ i)%Z →
  Store_GetDomain (DomainName i) seeded =
    (if (i <? corpus)%Z then found (synth_domain i) else DataSource.failed ErrNotFound) ∧
  Store_GetEntity (EntityHandle i) seeded =
    (if (i <? corpus)%Z then found (buildEntity i) else DataSource.failed ErrNotFound) ∧
  Store_GetNameserver (NameserverName i) seeded =
    (if (10 * i <? corpus)%Z then found (synth_nameserver i) else DataSource.failed ErrNotFound).
Proof. intros Hi. by destruct (SeedSynthetic_predicts corpus i ltac:(lia) Hi) as (? & ? & ? & _). Qed.

Lemma domain_met kind i : (0 ≤ i < corpus)%Z → answers_to (domain_query kind (DomainName i)).
Proof.
  intros Hi. destruct (domain_handled i seeded ltac:(lia)) as [E1 E2].
  destruct (predicted i ltac:(lia)) as (Ed & _). rewrite (proj2 (Z.ltb_lt i corpus)) in Ed by lia. rewrite Ed in E2.
  eapply answered_with; [exact E1|exact E2|apply writeJSON_body|done|reflexivity|].
  unfold first_failure. rewrite class_ok by done. apply want_string_ok. rewrite members_ldhName; [done|].
  apply (DomainName_ascii i). lia.
Qed.
Lemma missing_met kind i : (corpus ≤ i < 2 ^ 51)%Z → answers_to (missing_query kind (DomainName i)).
Proof.
  intros Hi. destruct (domain_handled i seeded ltac:(lia)) as [E1 E2].
  destruct (predicted i ltac:(lia)) as (Ed & _). rewrite (proj2 (Z.ltb_ge i corpus)) in Ed by lia. rewrite Ed in E2.
  eapply answered_with; [exact E1|exact E2|apply writeError_body|done|reflexivity|].
  cbn beta zeta. by rewrite members_class.
Qed.
Lemma entity_met kind i : (0 ≤ i < corpus)%Z → answers_to (entity_query kind (EntityHandle i)).
Proof.
  intros Hi. destruct (entity_handled i seeded ltac:(lia)) as [E1 E2].
  destruct (predicted i ltac:(lia)) as (_ & Ed & _). rewrite (proj2 (Z.ltb_lt i corpus)) in Ed by lia. rewrite Ed in E2.
  destruct (entity_envelope (buildEntity i) (opts s (get_request "" ("/entity/" +:+ EntityHandle i) []))) as [Hc Hh].
  eapply answered_with; [exact E1|exact E2|apply writeJSON_body|done|reflexivity|].
  unfold first_failure. rewrite class_ok by done. apply want_string_ok.
  rewrite members_handle by (cbn [content_common]; rewrite Hh; apply EntityHandle_ascii). exact Hh.
Qed.
Lemma invalid_met kind : answers_to (invalid_query kind).
Proof.
  eapply (answered_with _ (get_request "" "/entity/..%2Fetc%2Fpasswd" []));
    [reflexivity| |apply writeError_body|done|reflexivity|].
  - by rewrite (mux_routed _ [] (RLookup (EEntity "../etc/passwd"))).
  - cbn beta zeta. by rewrite members_errorCode.
Qed.
Lemma nameserver_met kind i : (1 ≤ i)%Z → (10 * i < corpus)%Z →
  answers_to (class_query kind ("/nameserver/" +:+ NameserverName i) "nameserver").
Proof.
  intros Hi Hlt. destruct (nameserver_handled i seeded ltac:(lia)) as [E1 E2].
  destruct (predicted i ltac:(lia)) as (_ & _ & Ed). rewrite (proj2 (Z.ltb_lt (10 * i) corpus)) in Ed by lia.
  rewrite Ed in E2.
  eapply answered_with; [exact E1|exact E2|apply writeJSON_body|done|reflexivity|]. by apply class_ok.
Qed.
Lemma domains_met kind x : (0 ≤ x < 10)%Z →
  answers_to (class_query kind ("/domains?name=syn-" +:+ Itoa (x * 10) +:+ "*") "domainSearchResults").
Proof.
  intros Hx.
  assert (E1 : url_request ("/domains?name=syn-" +:+ Itoa (x * 10) +:+ "*") =
               get_request "" "/domains" [("name", "syn-" +:+ Itoa (x * 10) +:+ "*")]).
  { apply (small_cases 10) in Hx. cbn in Hx.
    repeat (apply elem_of_cons in Hx as [->|Hx]; [reflexivity|]). by apply not_elem_of_nil in Hx. }
  destruct (domains_searched ("syn-" +:+ Itoa (x * 10) +:+ "*") seeded) as (res & E2 & Hc); [done|].
  eapply answered_with; [exact E1|exact E2|apply writeJSON_body|done|reflexivity|]. by apply class_ok.
Qed.
Lemma entities_met kind x : (0 ≤ x < 6)%Z →
  answers_to (class_query kind ("/entities?countryCode=" +:+ at_index Countries x) "entitySearchResults").
Proof.
  intros Hx.
  assert (E1 : url_request ("/entities?countryCode=" +:+ at_index Countries x) =
               get_request "" "/entities" [("countryCode", at_index Countries x)] ∧ at_index Countries x ≠ "").
  { apply (small_cases 6) in Hx. cbn in Hx.
    repeat (apply elem_of_cons in Hx as [->|Hx]; [split; [reflexivity|discriminate]|]).
    by apply not_elem_of_nil in Hx. }
  destruct (entities_searched (at_index Countries x) seeded (proj2 E1)) as (res & E2 & Hc).
  eapply answered_with; [exact (proj1 E1)|exact E2|apply writeJSON_body|done|reflexivity|]. by apply class_ok.
Qed.
Lemma help_met kind : answers_to (class_query kind "/help" "help").
Proof.
  eapply (answered_with _ (get_request "" "/help" [])); [reflexivity| |apply writeJSON_body|done|reflexivity|].
  - by rewrite (mux_routed _ [] (RLookup EHelp)).
  - by apply class_ok.
Qed.

(** C16: the load generator's expectations are what the server does.  Against a server over
    the in-memory data seeded with the same number of records (eleven or more), without a
    bootstrap registry, every request the generator can plan is answered with the status it
    wants and a body that passes its check: 200 and the right object for names, handles and
    nameservers of the corpus, 404 and an error object for names outside it, 400 for the path
    traversal, and the right class for searches and help. *)
Theorem expectations_met q : planned corpus q → answers_to q.
Proof.
  intros [i Hi|x Hx|i Hi| |i Hi|x Hx|x Hx|].
  - by apply domain_met.
  - rewrite wrap64_id by (unfold in_int64, int64_min, int64_max; lia). apply missing_met. lia.
  - by apply entity_met.
  - apply invalid_met.
  - rewrite Z.quot_div_nonneg in Hi by lia. apply nameserver_met; div_lia.
  - by apply domains_met.
  - by apply entities_met.
  - apply help_met.
Qed.
End server.

(** * Witnesses *)
#[local] Existing Instance float_int_default.
#[local] Existing Instance rand_lcg.
#[local] Existing Instance fmt_plain.
#[local] Existing Instance unicode_default.
#[local] Existing Instance map_range_default.
#[local] Existing Instance netip_text.
#[local] Existing Instance idna_ldh.
#[local] Existing Instance mux_demo.

(** A toy encoding of the members the generator looks at. *)
Definition shown (c : content) : string * string * string * Z :=
  (Common_ObjectClassName (content_common c), Common_Handle (content_common c),
   match c with CDomain d => Domain_LDHName d | _ => "" end,
   match c with CError e => Error_ErrorCode e | _ => 0%Z end).
Fixpoint bits (p : positive) : string :=
  match p with xH => "" | xO p => String "0" (bits p) | xI p => String "1" (bits p) end.
Fixpoint unbits (s : string) : positive :=
  match s with
  | "" => xH
  | String c s => if Ascii.eqb c "0" then xO (unbits s) else xI (unbits s)
  end.
Lemma unbits_bits p : unbits (bits p) = p.
Proof. induction p as [p IH|p IH|]; cbn; by rewrite ?IH. Qed.
Definition object_of (m : string * string * string * Z) : body :=
  let '(cls, handle, ldh, code) := m in
  {[ "objectClassName" := AnyString cls; "handle" := AnyString handle; "ldhName" := AnyString ldh;
     "errorCode" := AnyFloat (float_Z code) ]}.
Definition json_bits : JSONEncoder := {| json_Encode := λ c, bits (encode (shown c)) |}.
Definition json_unbits : JSONObject :=
  {| json_Unmarshal := λ s, match decode (unbits s) with Some m => inl (object_of m) | None => inr "" end |}.
#[local] Existing Instance json_bits.
#[local] Existing Instance json_unbits.
Lemma json_bits_members : JSONMembers.
Proof.
  refine {| members := λ c, object_of (shown c) |}; [|done..].
  intros c. cbn [json_Unmarshal json_unbits json_Encode json_bits].
  by rewrite unbits_bits, (decode_encode (shown c)).
Defined.
#[local] Existing Instance json_bits_members.

Lemma idna_ldh_settled s : str_forall lower_ldh s = true → @ToASCII idna_ldh s = Some s.
Proof.
  intros Hs. cbn.
  assert (Hb : str_forall ldh_byte s = true)
    by (eapply str_forall_impl; [|exact Hs]; by intros [[] [] [] [] [] [] [] []]).
  rewrite Hb. f_equal. clear Hb. induction s as [|c s IH]; [done|]. cbn [str_forall str_map] in *.
  apply andb_true_iff in Hs as [Hc Hs]. rewrite IH by done. f_equal. by destruct c as [[] [] [] [] [] [] [] []].
Qed.

Definition seeded_server : Server Store :=
  {| s_DS := store_source; s_Bootstrap := None; s_Search := Some store_index;
     s_SelfLinkBase := "https://rdap.example"; s_ExtraConformance := []; s_Notices := [];
     s_EmitJCard := true; s_RedactionReason := "" |}.

(** With ten records the one nameserver asked for is not seeded. *)
Example corpus_ten_ex :
  let q := class_query kNameserver ("/nameserver/" +:+ NameserverName 1) "nameserver" in
  let st := SeedSynthetic Memory.New 10 in
  q_wantStatus q = 200%Z ∧
  rw_status (serve (mux_serve seeded_server (url_request (q_path q)) st).1 rw_new) = Some 404%Z.
Proof. vm_compute. done. Qed.

Lemma expectations_met_witness :
  answers_to seeded_server 25 (domain_query kDomain (DomainName 24)) ∧
  answers_to seeded_server 25 (class_query kNameserver ("/nameserver/" +:+ NameserverName 1) "nameserver").
Proof.
  assert (Hd : ∀ i, (0 ≤ i)%Z → @ToASCII idna_ldh (DomainName i) = Some (DomainName i)).
  { intros i Hi. apply idna_ldh_settled. unfold DomainName.
    rewrite !str_forall_app, Itoa_chars by (done || apply lower_ldh_digit).
    by destruct (TLD_nonneg i Hi) as [->|[->|[->| ->]]]. }
  assert (Hn : ∀ i, (0 ≤ i)%Z → @ToASCII idna_ldh (NameserverName i) = Some (NameserverName i)).
  { intros i Hi. apply idna_ldh_settled. unfold NameserverName.
    by rewrite !str_forall_app, Itoa_chars by (done || apply lower_ldh_digit). }
  split; apply (expectations_met seeded_server 25 eq_refl eq_refl eq_refl Hd Hn); [lia| |lia|].
  - by apply pl_domain.
  - by apply pl_nameserver.
Defined.
