(* ===== verification/StressMain.v ===== *)
(** * cmd/gordap-stress: the command.

    The flags, the checks of main, the warm-up, and the two reports.  The runs themselves are
    [runStress] (Stress.v), whose final statistics are an argument here.  Maps are printed
    in the order in which [sync.Map.Range] enumerates them: any order, an argument. *)
From S2P Require Import Prelude GoStrings Float64 Strconv Flag Synth Stress StressRun.

Section report.
Context `{FloatToInt}.

(** [100*float64(a)/float64(b)] *)
Definition percent (a b : Z) : float64 := fdiv (fmul (float_Z 100) (float_Z a)) (float_Z b).

Definition endpoint_line (elapsed : Duration) (kb : queryKind * bucket) : string :=
  let ps := percentiles (b_lat kb.2) [decimal 50 2; decimal 99 2] in
  "  " +:+ pad_right 22 kb.1 +:+ " " +:+ pad_left 10 (Itoa (b_count kb.2)) +:+ " " +:+
  pad_left 8 (fmt_f 0 (fdiv (float_Z (b_count kb.2)) (Seconds elapsed))) +:+ " " +:+
  pad_left 10 (Duration_String (default 0%Z (ps !! 0%nat))) +:+ " " +:+
  pad_left 10 (Duration_String (default 0%Z (ps !! 1%nat))).
Definition status_line (total : Z) (kc : Z * Z) : string :=
  "  " +:+ pad_left 3 (Itoa kc.1) +:+ ":  " +:+ pad_left 10 (Itoa kc.2) +:+ "  (" +:+
  pad_left 5 (fmt_f 2 (percent kc.2 total)) +:+ "%)".
Definition cache_lines (hit miss : Z) : list string :=
  if (wrap64 (hit + miss) =? 0)%Z then
    ["  No X-Gordap-Cache header observed (response cache disabled?)"]
  else
    ["  HIT:   " +:+ Itoa hit +:+ " (" +:+ fmt_f 1 (percent hit (wrap64 (hit + miss))) +:+ "%)";
     "  MISS:  " +:+ Itoa miss +:+ " (" +:+ fmt_f 1 (percent miss (wrap64 (hit + miss))) +:+ "%)"].
Definition correctness_lines (failed total : Z) (mismatches : list string) : list string :=
  if (failed =? 0)%Z then
    ["  Validation passed:  " +:+ Itoa total +:+ " / " +:+ Itoa total +:+ " (100.00%)"]
  else
    ["  Validation failed:  " +:+ Itoa failed +:+ " / " +:+ Itoa total +:+ " (" +:+
       fmt_f 2 (percent failed total) +:+ "%)";
     "  First mismatches:"] ++ ((λ m, "    - " +:+ m) <$> mismatches).

(** The lines of the report, for an enumeration of the kinds and one of the statuses. *)
Definition emitText (kinds : list (queryKind * bucket)) (codes : list (Z * Z)) (st : stats)
    (concurrency : Z) (dur : Duration) (corpus : Z) (url : string) (now : Time) : list string :=
  let elapsed := (now - startedAt st)%Z in
  let total := b_count (overall st) in
  let lat := b_lat (overall st) in
  let ps := percentiles lat [decimal 50 2; decimal 90 2; decimal 95 2; decimal 99 2; decimal 999 3] in
  let p i := Duration_String (default 0%Z (ps !! i)) in
  ["=== gordap stress test ===";
   "Target:        " +:+ url;
   "Concurrency:   " +:+ Itoa concurrency;
   "Duration:      " +:+ Duration_String dur;
   "Seed corpus:   " +:+ Itoa corpus;
   "Mix:           " +:+ mixSummary;
   ""; "=== Performance ===";
   "Total requests:     " +:+ Itoa total;
   "Throughput:         " +:+ fmt_f 0 (fdiv (float_Z total) (Seconds elapsed)) +:+ " req/s";
   "Transport errors:   " +:+ Itoa (transErr st);
   ""; "Latency (overall)";
   "  p50:  " +:+ pad_right 9 (p 0%nat) +:+ "  p99:   " +:+ p 3%nat;
   "  p90:  " +:+ pad_right 9 (p 1%nat) +:+ "  p999:  " +:+ p 4%nat;
   "  p95:  " +:+ pad_right 9 (p 2%nat) +:+ "  max:   " +:+ Duration_String (l_max lat);
   "  min:  " +:+ Duration_String (l_min lat);
   ""; "By endpoint";
   "  " +:+ pad_right 22 "kind" +:+ " " +:+ pad_left 10 "count" +:+ " " +:+ pad_left 8 "rps" +:+ " " +:+
     pad_left 10 "p50" +:+ " " +:+ pad_left 10 "p99"] ++
  (endpoint_line elapsed <$> kinds) ++
  [""; "Status codes"] ++ (status_line total <$> codes) ++
  [""; "=== Cache ==="] ++ cache_lines (cacheHit st) (cacheMiss st) ++
  [""; "=== Correctness ==="] ++ correctness_lines (b_failures (overall st)) total (mismatches st).
End report.

(** ** main *)
Definition main_flags : flags := [
  ("url", FString "http://localhost:8080"); ("c", FInt 50); ("d", FDuration (30 * Second));
  ("n", FInt 10000); ("timeout", FDuration (5 * Second)); ("json", FBool false);
  ("warmup", FDuration 0); ("dist", FString "uniform")]%Z.

(** What main does after its checks: a run for each duration, the last one measured, and the
    form of its report. *)
Record job := {
  jb_url : string; jb_concurrency : Z; jb_corpus : Z; jb_timeout : Duration; jb_dist : string;
  jb_runs : list Duration; jb_json : bool }.
Definition main (args : list string) : job + Z :=
  match Parse main_flags ∅ args with
  | inr code => inr code
  | inl (actual, _) =>
      let int := get_int main_flags actual in let dur := get_duration main_flags actual in
      let str := get_string main_flags actual in
      if (int "c" <=? 0)%Z || (dur "d" <=? 0)%Z || (int "n" <=? 0)%Z then inr 2%Z
      else if bool_decide (str "dist" ∈ ["uniform"; "zipf"]) then
        inl {| jb_url := str "url"; jb_concurrency := int "c"; jb_corpus := int "n";
               jb_timeout := dur "timeout"; jb_dist := str "dist";
               jb_runs := (if (0 <? dur "warmup")%Z then [dur "warmup"] else []) ++ [dur "d"];
               jb_json := get_bool main_flags actual "json" |}
      else inr 2%Z
  end.
(** The report of a job, in text or as the object that encoding/json prints. *)
Definition emit `{FloatToInt} (jb : job) (kinds : list (queryKind * bucket)) (codes : list (Z * Z)) (st : stats)
    (now : Time) : json_report + list string :=
  let dur := default 0%Z (last (jb_runs jb)) in
  if jb_json jb then inl (emitJSON st (jb_concurrency jb) dur (jb_corpus jb) (jb_url jb) now)
  else inr (emitText kinds codes st (jb_concurrency jb) dur (jb_corpus jb) (jb_url jb) now).

(** * Theorems *)

Section verdict.
Context `{FloatToInt} `{JSONObject}.

(** The last line of a report. *)
Definition passed_line (n : nat) : string :=
  "  Validation passed:  " +:+ Itoa (Z.of_nat n) +:+ " / " +:+ Itoa (Z.of_nat n) +:+ " (100.00%)".

Lemma correctness_last failed total ms :
  last (correctness_lines failed total ms) = Some ("  Validation passed:  " +:+ Itoa total +:+ " / " +:+ Itoa total +:+ " (100.00%)")
  ↔ failed = 0%Z.
Proof.
  unfold correctness_lines. destruct (Z.eqb_spec failed 0) as [->|Hne]; [done|]. split; [|done].
  intros E. exfalso. destruct ms as [|m ms] using rev_ind; [done|].
  rewrite fmap_app, app_assoc, last_app in E. by injection E.
Qed.
Lemma emitText_last kinds codes st c dur corpus url now :
  last (emitText kinds codes st c dur corpus url now) =
  last (correctness_lines (b_failures (overall st)) (b_count (overall st)) (mismatches st)).
Proof.
  unfold emitText. cbv zeta. rewrite !app_assoc, last_app. unfold correctness_lines.
  destruct (_ =? _)%Z; [done|]. by destruct (mismatches st) as [|m ms _] using rev_ind; [|rewrite fmap_app, app_assoc, last_app].
Qed.

(** The verdict of the report: of a finished run, both reports say that every request passed,
    with their number, exactly when every request got a reply with the expected status and a
    body that passed its check; in whatever order the maps are enumerated. *)
Theorem report_verdict xs workers s kinds codes c dur corpus url now : accounted xs workers s →
  (last (emitText kinds codes s c dur corpus url now) = Some (passed_line (length xs)) ↔
   Forall (λ x, failed x = false) xs) ∧
  (j_validation_failures (emitJSON s c dur corpus url now) = 0%Z ↔ Forall (λ x, failed x = false) xs) ∧
  j_total_requests (emitJSON s c dur corpus url now) = Z.of_nat (length xs).
Proof.
  intros Ha. pose proof (ac_tally _ _ _ Ha (MFailures None)) as Ef. pose proof (ac_tally _ _ _ Ha (MCount None)) as Ec.
  cbn in Ef, Ec. rewrite count_true in Ec.
  assert (Hz : b_failures (overall s) = 0%Z ↔ Forall (λ x, failed x = false) xs).
  { rewrite Ef. change (λ x : exchange, failed x) with failed. clear. unfold count. induction xs as [|x xs IH]; [by split; [constructor|]|].
    rewrite Forall_cons, <-IH. cbn. destruct (failed x); cbn; [|naive_solver]. split; [lia|by intros [? _]]. }
  split_and!; [|done|done]. rewrite emitText_last. unfold passed_line. rewrite <-Ec, <-Hz. apply correctness_last.
Qed.
End verdict.

#[local] Existing Instance float_int_default.
(** The checks of main come before any request; the warm-up is a run whose report is lost. *)
Example stress_main_ex :
  main ["-c=0"] = inr 2%Z ∧ main ["-dist"; "normal"] = inr 2%Z ∧ main ["-help"] = inr 0%Z ∧
  main ["-warmup"; "5s"; "-json"] = inl {|
    jb_url := "http://localhost:8080"; jb_concurrency := 50; jb_corpus := 10000; jb_timeout := 5 * Second;
    jb_dist := "uniform"; jb_runs := [5 * Second; 30 * Second]; jb_json := true |}%Z ∧
  last (emitText [] [] (newStats 0%Z) 50 Second 100 "" Second) = Some "  Validation passed:  0 / 0 (100.00%)".
Proof. vm_compute. done. Qed.
