(* ===== verification/Aggregate.v ===== *)
(** * cmd/gordap-stress-aggregate: one report out of many.

    The reports as decoded from the files that gordap-stress writes, and their combination.
    Reading the files and printing the result are in AggregateMain.v. *)
From S2P Require Import Prelude GoStrings Float64 FloatBound Synth Stress StressRun.

Record report := {
  Target : string; Concurrency : Z; DurationSeconds : float64; SeedCorpus : Z;
  TotalRequests : Z; ThroughputRPS : float64; TransportErrors : Z; ValidationFails : Z;
  LatencyMs : gmap string float64; Cache : gmap string Z;
  ByEndpoint : gmap string (gmap string any); StatusCodes : gmap string Z;
  Mismatches : list string }.

(** What encoding/json makes of a report of gordap-stress: the keys of [status_codes] become
    text, and every number under [by_endpoint] a float64. *)
Definition decoded_any (v : any) : any :=
  match v with AnyInt64 z | AnyInt z => AnyFloat (float_Z z) | _ => v end.
Definition decoded (j : json_report) : report :=
  {| Target := j_target j; Concurrency := j_concurrency j; DurationSeconds := j_duration_seconds j;
     SeedCorpus := j_seed_corpus j; TotalRequests := j_total_requests j;
     ThroughputRPS := j_throughput_rps j; TransportErrors := j_transport_errors j;
     ValidationFails := j_validation_failures j; LatencyMs := j_latency_ms j; Cache := j_cache j;
     ByEndpoint := (λ v : gmap string any, decoded_any <$> v) <$> j_by_endpoint j;
     StatusCodes := kmap (M2 := gmap string) Itoa (j_status_codes j);
     Mismatches := default [] (j_mismatches j) |}.

Section aggregate.
Context `{FloatToInt} `{GoMapRange}.

Definition toInt (v : option any) : Z :=
  match v with
  | Some (AnyInt64 n) => n | Some (AnyFloat n) => float_int n | Some (AnyInt n) => n
  | _ => 0
  end%Z.
Definition toFloat (v : option any) : float64 :=
  match v with
  | Some (AnyFloat n) => n | Some (AnyInt64 n) => float_Z n | Some (AnyInt n) => float_Z n
  | _ => float_Z 0
  end.

(** [for k, v := range m { out[k] += v }] *)
Definition add_counts (m out : gmap string Z) : gmap string Z :=
  foldl (λ out kv, <[kv.1 := wrap64 (default 0%Z (out !! kv.1) + kv.2)]> out) out (map_range m).

Definition empty_report : report :=
  {| Target := ""; Concurrency := 0; DurationSeconds := float_Z 0; SeedCorpus := 0;
     TotalRequests := 0; ThroughputRPS := float_Z 0; TransportErrors := 0; ValidationFails := 0;
     LatencyMs := ∅; Cache := ∅; ByEndpoint := ∅; StatusCodes := ∅; Mismatches := [] |}.

Definition add_report (out r : report) : report :=
  {| Target := Target out; Concurrency := Concurrency out; DurationSeconds := DurationSeconds out;
     SeedCorpus := SeedCorpus out;
     TotalRequests := wrap64 (TotalRequests out + TotalRequests r);
     ThroughputRPS := fadd (ThroughputRPS out) (ThroughputRPS r);
     TransportErrors := wrap64 (TransportErrors out + TransportErrors r);
     ValidationFails := wrap64 (ValidationFails out + ValidationFails r);
     LatencyMs := LatencyMs out; Cache := add_counts (Cache r) (Cache out);
     ByEndpoint := ByEndpoint out; StatusCodes := add_counts (StatusCodes r) (StatusCodes out);
     Mismatches := Mismatches out ++ Mismatches r |}.

(** The request-weighted mean of one percentile. *)
Definition weighted_mean (rs : list report) (totalReq : float64) (p : string) : float64 :=
  fdiv (foldl (λ sum r, fadd sum (fmul (default (float_Z 0) (LatencyMs r !! p)) (float_Z (TotalRequests r))))
              (float_Z 0) rs) totalReq.

Definition new_endpoint : gmap string any :=
  {[ "count" := AnyInt64 0; "failures" := AnyInt64 0; "p50_ms" := AnyFloat (float_Z 0);
     "p95_ms" := AnyFloat (float_Z 0); "p99_ms" := AnyFloat (float_Z 0) ]}.
Definition add_weighted (c : Z) (v : gmap string any) (key : string) (cur : gmap string any) : gmap string any :=
  <[key := AnyFloat (fadd (toFloat (cur !! key)) (fmul (toFloat (v !! key)) (float_Z c)))]> cur.
Definition add_endpoint (cur v : gmap string any) : gmap string any :=
  let c := toInt (v !! "count") in
  let cur := <["count" := AnyInt64 (wrap64 (toInt (cur !! "count") + c))]> cur in
  let cur := <["failures" := AnyInt64 (wrap64 (toInt (cur !! "failures") + toInt (v !! "failures")))]> cur in
  add_weighted c v "p99_ms" (add_weighted c v "p95_ms" (add_weighted c v "p50_ms" cur)).
Definition add_endpoints (out : gmap string (gmap string any)) (r : report) : gmap string (gmap string any) :=
  foldl (λ out kv, <[kv.1 := add_endpoint (default new_endpoint (out !! kv.1)) kv.2]> out)
        out (map_range (ByEndpoint r)).
Definition div_key (c : Z) (key : string) (v : gmap string any) : gmap string any :=
  <[key := AnyFloat (fdiv (toFloat (v !! key)) (float_Z c))]> v.
Definition mean_endpoint (v : gmap string any) : gmap string any :=
  let c := toInt (v !! "count") in
  if (0 <? c)%Z then div_key c "p99_ms" (div_key c "p95_ms" (div_key c "p50_ms" v)) else v.

Definition percentile_keys : list string := ["p50"; "p90"; "p95"; "p99"; "p999"; "max"].

Definition aggregate (rs : list report) : report :=
  let out := foldl add_report empty_report rs in
  let totalReq := float_Z (TotalRequests out) in
  if SFeqb totalReq (float_Z 0) then out
  else
    {| Target := Target out; Concurrency := Concurrency out; DurationSeconds := DurationSeconds out;
       SeedCorpus := SeedCorpus out; TotalRequests := TotalRequests out;
       ThroughputRPS := ThroughputRPS out; TransportErrors := TransportErrors out;
       ValidationFails := ValidationFails out;
       LatencyMs := foldl (λ m p, <[p := weighted_mean rs totalReq p]> m) (LatencyMs out) percentile_keys;
       Cache := Cache out;
       ByEndpoint := mean_endpoint <$> foldl add_endpoints (ByEndpoint out) rs;
       StatusCodes := StatusCodes out; Mismatches := Mismatches out |}.
End aggregate.

(** * Theorems *)

(** ** Folds over maps *)
Section folds.
Context `{GoMapRange} {V W : Type} (f : option W → V → W).

Lemma keyed_fold_list (l : list (string * V)) : NoDup l.*1 → ∀ (out : gmap string W) k,
  foldl (λ out kv, <[kv.1 := f (out !! kv.1) kv.2]> out) out l !! k =
    match list_find (λ kv, kv.1 = k) l with
    | Some (_, kv) => Some (f (out !! k) kv.2) | None => out !! k end.
Proof.
  induction l as [|[k' v] l IH]; intros Hnd out k; [done|].
  apply NoDup_cons in Hnd as [Hn Hnd]. cbn [foldl fst snd list_find]. rewrite IH by done.
  destruct (decide (k' = k)) as [->|Hne]; cbn [fst snd].
  - destruct (list_find _ l) as [[i kv]|] eqn:E; [|by rewrite lookup_insert_eq].
    apply list_find_Some in E as (Hi & E & _). destruct Hn. rewrite <-E.
    change (kv.1 ∈ fst <$> l). apply list_elem_of_fmap_2. by eapply list_elem_of_lookup_2.
  - destruct (list_find _ l) as [[i kv]|]; cbn; by rewrite lookup_insert_ne.
Qed.
Lemma keyed_fold (m : gmap string V) (out : gmap string W) k :
  foldl (λ out kv, <[kv.1 := f (out !! kv.1) kv.2]> out) out (map_range m) !! k =
    match m !! k with Some v => Some (f (out !! k) v) | None => out !! k end.
Proof.
  rewrite keyed_fold_list by apply NoDup_map_range_fst.
  destruct (list_find _ _) as [[i [k' v]]|] eqn:E.
  - apply list_find_Some in E as (Hi & <- & _). cbn [fst snd].
    apply list_elem_of_lookup_2, elem_of_map_range in Hi. cbn. by rewrite Hi.
  - apply list_find_None in E. rewrite Forall_forall in E.
    destruct (m !! k) as [v|] eqn:Ek; [|done]. apply elem_of_map_range in Ek. by destruct (E _ Ek).
Qed.
End folds.

(** ** Sums *)
Definition sum_of {A} (f : A → Z) (l : list A) : Z := foldr (λ x, Z.add (f x)) 0%Z l.
Lemma sum_of_cons {A} (f : A → Z) x l : sum_of f (x :: l) = (f x + sum_of f l)%Z.
Proof. done. Qed.
Lemma sum_of_nonneg {A} (f : A → Z) l : (∀ x, 0 ≤ f x)%Z → (0 ≤ sum_of f l)%Z.
Proof. intros Hf. induction l as [|x l IH]; [done|]. rewrite sum_of_cons. specialize (Hf x). lia. Qed.
Lemma wrapped_sum {A} (f : A → Z) l : ∀ a, in_int64 a →
  foldl (λ a x, wrap64 (a + f x)) a l = wrap64 (a + sum_of f l).
Proof.
  induction l as [|x l IH]; intros a Ha; cbn [foldl].
  - cbn. by rewrite Z.add_0_r, wrap64_id.
  - rewrite IH by apply wrap64_range. rewrite sum_of_cons, wrap64_add. f_equal. lia.
Qed.

(** A sum of floats, from the left. *)
Definition float_sum (l : list float64) : float64 := foldl fadd (float_Z 0) l.
Lemma float_sum_fold {A} (g : A → option float64) l :
  foldl (λ a x, match g x with Some v => fadd a v | None => a end) (float_Z 0) l = float_sum (omap g l).
Proof.
  unfold float_sum. generalize (float_Z 0). induction l as [|x l IH]; intros a; [done|]. cbn.
  destruct (g x); apply IH.
Qed.
Lemma float_sum_map {A} (g : A → float64) l :
  foldl (λ a x, fadd a (g x)) (float_Z 0) l = float_sum (g <$> l).
Proof. unfold float_sum. generalize (float_Z 0). induction l as [|x l IH]; intros a; [done|]. apply IH. Qed.

Section aggregate_facts.
Context `{FloatToInt} `{GoMapRange}.

(** ** The sums *)
Lemma add_reports_fields rs : ∀ out,
  let o := foldl add_report out rs in
  TotalRequests o = foldl (λ a r, wrap64 (a + TotalRequests r)) (TotalRequests out) rs ∧
  TransportErrors o = foldl (λ a r, wrap64 (a + TransportErrors r)) (TransportErrors out) rs ∧
  ValidationFails o = foldl (λ a r, wrap64 (a + ValidationFails r)) (ValidationFails out) rs ∧
  Mismatches o = Mismatches out ++ (rs ≫= Mismatches) ∧
  ByEndpoint o = ByEndpoint out ∧ LatencyMs o = LatencyMs out ∧
  ThroughputRPS o = foldl (λ a r, fadd a (ThroughputRPS r)) (ThroughputRPS out) rs.
Proof.
  induction rs as [|r rs IH]; intros out; cbn [foldl]; [by rewrite app_nil_r|].
  destruct (IH (add_report out r)) as (-> & -> & -> & -> & -> & -> & ->).
  cbn [mbind list_bind]. by rewrite app_assoc.
Qed.

Lemma add_counts_lookup m out k : in_int64 (default 0%Z (out !! k)) →
  default 0%Z (add_counts m out !! k) = wrap64 (default 0%Z (out !! k) + default 0%Z (m !! k)).
Proof.
  intros Ho. unfold add_counts.
  rewrite (keyed_fold (λ o v, wrap64 (default 0%Z o + v))). destruct (m !! k); [done|].
  cbn [default]. by rewrite Z.add_0_r, wrap64_id.
Qed.
Lemma counts_sum (get : report → gmap string Z) rs :
  (∀ out r, get (add_report out r) = add_counts (get r) (get out)) → ∀ out k,
  in_int64 (default 0%Z (get out !! k)) →
  default 0%Z (get (foldl add_report out rs) !! k) =
    wrap64 (default 0%Z (get out !! k) + sum_of (λ r, default 0%Z (get r !! k)) rs).
Proof.
  intros Hg. induction rs as [|r rs IH]; intros out k Ho; cbn [foldl].
  - cbn. by rewrite Z.add_0_r, wrap64_id.
  - rewrite IH; rewrite Hg, add_counts_lookup by done; [|apply wrap64_range].
    rewrite wrap64_add, sum_of_cons. f_equal. lia.
Qed.

(** ** The endpoints *)

(** One number of one endpoint of a report. *)
Definition endpoint_int (k key : string) (r : report) : Z := toInt (default ∅ (ByEndpoint r !! k) !! key).
Definition weighted_sum (k key : string) (a : float64) (rs : list report) : float64 :=
  foldl (λ a r, match ByEndpoint r !! k with
                | Some v => fadd a (fmul (toFloat (v !! key)) (float_Z (toInt (v !! "count"))))
                | None => a end) a rs.
Definition percentile_members : list string := ["p50_ms"; "p95_ms"; "p99_ms"].

Lemma add_endpoint_members cur v :
  toInt (add_endpoint cur v !! "count") = wrap64 (toInt (cur !! "count") + toInt (v !! "count")) ∧
  toInt (add_endpoint cur v !! "failures") = wrap64 (toInt (cur !! "failures") + toInt (v !! "failures")) ∧
  ∀ key, key ∈ percentile_members → toFloat (add_endpoint cur v !! key) =
    fadd (toFloat (cur !! key)) (fmul (toFloat (v !! key)) (float_Z (toInt (v !! "count")))).
Proof.
  unfold add_endpoint, add_weighted. split_and!.
  - by rewrite !lookup_insert_ne, lookup_insert_eq by done.
  - by rewrite !lookup_insert_ne, lookup_insert_eq, lookup_insert_ne by done.
  - intros key Hk. unfold percentile_members in Hk. set_unfold in Hk.
    destruct Hk as [->|[->|[->|[]]]]; repeat first [rewrite lookup_insert_eq|rewrite lookup_insert_ne by done]; done.
Qed.
Lemma mean_endpoint_members cur :
  toInt (mean_endpoint cur !! "count") = toInt (cur !! "count") ∧
  toInt (mean_endpoint cur !! "failures") = toInt (cur !! "failures") ∧
  ∀ key, key ∈ percentile_members → toFloat (mean_endpoint cur !! key) =
    if (0 <? toInt (cur !! "count"))%Z
    then fdiv (toFloat (cur !! key)) (float_Z (toInt (cur !! "count"))) else toFloat (cur !! key).
Proof.
  unfold mean_endpoint, div_key. split_and!.
  - destruct (0 <? _)%Z; [|done]. by rewrite !lookup_insert_ne by done.
  - destruct (0 <? _)%Z; [|done]. by rewrite !lookup_insert_ne by done.
  - intros key Hk. destruct (0 <? _)%Z; [|done]. unfold percentile_members in Hk. set_unfold in Hk.
    destruct Hk as [->|[->|[->|[]]]]; repeat first [rewrite lookup_insert_eq|rewrite lookup_insert_ne by done]; done.
Qed.

Lemma add_endpoints_lookup out r k :
  add_endpoints out r !! k =
    match ByEndpoint r !! k with
    | Some v => Some (add_endpoint (default new_endpoint (out !! k)) v) | None => out !! k end.
Proof. apply (keyed_fold (λ o v, add_endpoint (default new_endpoint o) v)). Qed.

(** What the fold over the reports leaves under one key. *)
Lemma endpoints_fold k rs : ∀ out,
  in_int64 (toInt (default new_endpoint (out !! k) !! "count")) →
  in_int64 (toInt (default new_endpoint (out !! k) !! "failures")) →
  let o := foldl add_endpoints out rs in
  (is_Some (o !! k) ↔ is_Some (out !! k) ∨ ∃ r, r ∈ rs ∧ is_Some (ByEndpoint r !! k)) ∧
  let before := default new_endpoint (out !! k) in let after := default new_endpoint (o !! k) in
  toInt (after !! "count") = wrap64 (toInt (before !! "count") + sum_of (endpoint_int k "count") rs) ∧
  toInt (after !! "failures") = wrap64 (toInt (before !! "failures") + sum_of (endpoint_int k "failures") rs) ∧
  ∀ key, key ∈ percentile_members → toFloat (after !! key) = weighted_sum k key (toFloat (before !! key)) rs.
Proof.
  induction rs as [|r rs IH]; intros out Hc Hf; cbn [foldl].
  - split; [split; [by left|by intros [?|(r & ?%not_elem_of_nil & _)]]|]. cbn.
    rewrite !Z.add_0_r, !wrap64_id by done. done.
  - pose proof (add_endpoints_lookup out r k) as E.
    assert (Hstep : default new_endpoint (add_endpoints out r !! k) =
      match ByEndpoint r !! k with
      | Some v => add_endpoint (default new_endpoint (out !! k)) v
      | None => default new_endpoint (out !! k) end) by (rewrite E; by destruct (ByEndpoint r !! k)).
    assert (Hr : in_int64 (toInt (default new_endpoint (add_endpoints out r !! k) !! "count")) ∧
                 in_int64 (toInt (default new_endpoint (add_endpoints out r !! k) !! "failures"))).
    { rewrite Hstep. destruct (ByEndpoint r !! k) as [v|]; [|done].
      destruct (add_endpoint_members (default new_endpoint (out !! k)) v) as (-> & -> & _).
      split; apply wrap64_range. }
    destruct (IH (add_endpoints out r) (proj1 Hr) (proj2 Hr)) as (Hin & E1 & E2 & E3).
    split.
    + rewrite Hin, E. destruct (ByEndpoint r !! k) as [v|] eqn:Er.
      * split; [|intros _; left; by eexists]. intros _. right. exists r. rewrite Er. split; [left|by eexists].
      * setoid_rewrite elem_of_cons. split; [naive_solver|]. intros [?|(r' & [->|?] & Hr1)]; [by left| |by right; exists r'].
        rewrite Er in Hr1. by destruct Hr1.
    + cbn zeta. rewrite E1, E2, !sum_of_cons, Hstep.
      assert (E3' : ∀ key, key ∈ percentile_members →
        toFloat (default new_endpoint (foldl add_endpoints (add_endpoints out r) rs !! k) !! key) =
        weighted_sum k key (toFloat (match ByEndpoint r !! k with
          | Some v => add_endpoint (default new_endpoint (out !! k)) v
          | None => default new_endpoint (out !! k) end !! key)) rs)
        by (intros key Hk; by rewrite E3, Hstep).
      clear IH E Hin E1 E2 E3 Hstep.
      assert (Ei : ∀ key, endpoint_int k key r = toInt (default ∅ (ByEndpoint r !! k) !! key)) by done.
      rewrite !Ei. clear Ei. unfold weighted_sum in *. cbn [foldl].
      destruct (ByEndpoint r !! k) as [v|]; cbn [from_option id].
      * destruct (add_endpoint_members (default new_endpoint (out !! k)) v) as (-> & -> & E6).
        rewrite !wrap64_add. split_and!; [f_equal; lia|f_equal; lia|].
        intros key Hk. by rewrite E3', E6.
      * rewrite !lookup_empty. cbn [toInt]. split_and!; [f_equal; lia|f_equal; lia|done].
Qed.

(** ** Counts as floats *)
Lemma float_Z_small z : (0 < z < 2 ^ 53)%Z → ∃ m e, (e ≤ 0)%Z ∧
  float_Z z = S754_finite false m e ∧ Z.shiftl (Z.pos m) e = z.
Proof.
  intros [Hz Hlt]. destruct z as [|n|n]; try lia. set (l := Z.log2 (Z.pos n)).
  assert (Hl : (0 ≤ l ≤ 52)%Z).
  { split; [apply Z.log2_nonneg|]. unfold l. apply Z.log2_lt_pow2 in Hlt; lia. }
  destruct (mantissa_exists n 0 (Z.divide_1_l _) ltac:(fold l; lia)) as [M HM]. fold l in HM.
  exists M, (l - 52)%Z. split; [lia|]. split.
  - unfold float_Z. cbn [binary_normalize]. rewrite (round_exact n 0 M HM) by (fold l; lia). fold l.
    by rewrite Z.add_0_r.
  - rewrite shiftl_div by lia. rewrite (Z.max_l 0 (l - 52)), (Z.max_r 0 (52 - l)) in HM by lia.
    rewrite Z.pow_0_r, Z.mul_1_r in HM. rewrite HM. replace (- (l - 52))%Z with (52 - l)%Z by lia.
    apply Z.div_mul. apply Z.pow_nonzero; lia.
Qed.
Lemma float_int_Z z : (0 ≤ z < 2 ^ 53)%Z → float_int (float_Z z) = z.
Proof.
  intros Hz. apply float_int_trunc; [|unfold in_int64, int64_min, int64_max; lia].
  destruct (decide (z = 0%Z)) as [->|Hne]; [done|].
  destruct (float_Z_small z) as (m & e & _ & -> & Es); [lia|]. cbn [float_trunc].
  by rewrite Es, Z.mul_1_l.
Qed.
(** ** The combination *)
Lemma in_int64_0 : in_int64 0. Proof. done. Qed.
Lemma total_requests rs : TotalRequests (foldl add_report empty_report rs) = wrap64 (sum_of TotalRequests rs).
Proof. destruct (add_reports_fields rs empty_report) as (-> & _). by rewrite wrapped_sum. Qed.

Section sums.
Context (rs : list report).

(** The total of requests, as the program adds it up. *)
Definition total_of : Z := wrap64 (sum_of TotalRequests rs).

Lemma aggregate_sums : let a := aggregate rs in
  TotalRequests a = total_of ∧
  TransportErrors a = wrap64 (sum_of TransportErrors rs) ∧
  ValidationFails a = wrap64 (sum_of ValidationFails rs) ∧
  ThroughputRPS a = float_sum (ThroughputRPS <$> rs) ∧
  Mismatches a = (rs ≫= Mismatches) ∧
  (∀ k, default 0%Z (Cache a !! k) = wrap64 (sum_of (λ r, default 0%Z (Cache r !! k)) rs)) ∧
  (∀ k, default 0%Z (StatusCodes a !! k) = wrap64 (sum_of (λ r, default 0%Z (StatusCodes r !! k)) rs)).
Proof.
  intros a. set (o := foldl add_report empty_report rs).
  assert (Ea : TotalRequests a = TotalRequests o ∧ TransportErrors a = TransportErrors o ∧
    ValidationFails a = ValidationFails o ∧ Mismatches a = Mismatches o ∧ Cache a = Cache o ∧
    StatusCodes a = StatusCodes o ∧ ThroughputRPS a = ThroughputRPS o)
    by (unfold a, aggregate; fold o; by destruct (SFeqb _ _)).
  destruct Ea as (-> & -> & -> & -> & -> & -> & ->).
  destruct (add_reports_fields rs empty_report) as (_ & E2 & E3 & E4 & _ & _ & E7). fold o in E2, E3, E4, E7.
  split_and!.
  - apply total_requests.
  - rewrite E2. by rewrite wrapped_sum.
  - rewrite E3. by rewrite wrapped_sum.
  - rewrite E7. apply float_sum_map.
  - exact E4.
  - intros k. unfold o. rewrite (counts_sum Cache); [|done|]; cbn; by rewrite lookup_empty.
  - intros k. unfold o. rewrite (counts_sum StatusCodes); [|done|]; cbn; by rewrite lookup_empty.
Qed.

Lemma aggregate_none : total_of = 0%Z →
  LatencyMs (aggregate rs) = ∅ ∧ ByEndpoint (aggregate rs) = ∅.
Proof.
  unfold total_of. intros E. unfold aggregate. rewrite total_requests, E, float_Z_eqb, Z.eqb_refl.
  by destruct (add_reports_fields rs empty_report) as (_ & _ & _ & _ & -> & -> & _).
Qed.

(** The weight of a report in an overall percentile, and in one of an endpoint it lists. *)
Definition overall_share (p : string) (r : report) : float64 :=
  fmul (default (float_Z 0) (LatencyMs r !! p)) (float_Z (TotalRequests r)).
Definition endpoint_share (k key : string) (r : report) : option float64 :=
  (λ v : gmap string any, fmul (toFloat (v !! key)) (float_Z (toInt (v !! "count")))) <$> ByEndpoint r !! k.

Context (Hne : total_of ≠ 0%Z).
Lemma aggregate_latency p :
  LatencyMs (aggregate rs) !! p =
    if decide (p ∈ percentile_keys)
    then Some (fdiv (float_sum (overall_share p <$> rs)) (float_Z total_of)) else None.
Proof.
  unfold aggregate. rewrite total_requests. fold total_of.
  rewrite float_Z_eqb, (proj2 (Z.eqb_neq _ _) Hne). cbn [LatencyMs].
  destruct (add_reports_fields rs empty_report) as (_ & _ & _ & _ & _ & -> & _).
  assert (Em : ∀ p, weighted_mean rs (float_Z total_of) p =
    fdiv (float_sum (overall_share p <$> rs)) (float_Z total_of))
    by (intros q; unfold weighted_mean; by rewrite <-float_sum_map).
  destruct (decide (p ∈ percentile_keys)) as [Hp|Hp].
  - rewrite <-Em. unfold percentile_keys in Hp |- *. set_unfold in Hp.
    destruct Hp as [->|[->|[->|[->|[->|[->|[]]]]]]]; cbn [foldl];
      repeat first [rewrite lookup_insert_eq|rewrite lookup_insert_ne by done]; done.
  - unfold percentile_keys in Hp |- *. set_unfold in Hp. cbn [foldl].
    by rewrite !lookup_insert_ne by naive_solver.
Qed.
Lemma aggregate_endpoint k :
  (is_Some (ByEndpoint (aggregate rs) !! k) ↔ ∃ r, r ∈ rs ∧ is_Some (ByEndpoint r !! k)) ∧
  ∀ v, ByEndpoint (aggregate rs) !! k = Some v →
    let n := wrap64 (sum_of (endpoint_int k "count") rs) in
    toInt (v !! "count") = n ∧
    toInt (v !! "failures") = wrap64 (sum_of (endpoint_int k "failures") rs) ∧
    ∀ key, key ∈ percentile_members →
      let s := float_sum (omap (endpoint_share k key) rs) in
      toFloat (v !! key) = if (0 <? n)%Z then fdiv s (float_Z n) else s.
Proof.
  unfold aggregate. rewrite total_requests. fold total_of.
  rewrite float_Z_eqb, (proj2 (Z.eqb_neq _ _) Hne). cbn [ByEndpoint].
  destruct (add_reports_fields rs empty_report) as (_ & _ & _ & _ & -> & _).
  change (ByEndpoint empty_report) with (∅ : gmap string (gmap string any)). rewrite lookup_fmap.
  destruct (endpoints_fold k rs ∅) as (Hin & Ec & Ef & Ep); [done..|].
  rewrite lookup_empty in Ec, Ef, Ep, Hin. cbn [from_option id] in Ec, Ef, Ep.
  set (m := foldl add_endpoints ∅ rs) in *. split.
  - rewrite fmap_is_Some, Hin. split; [intros [[? [=]]|?]; done|by right].
  - intros v Hv. apply fmap_Some in Hv as (cur & Hcur & ->). rewrite Hcur in Ec, Ef, Ep.
    cbn [from_option id] in Ec, Ef, Ep. destruct (mean_endpoint_members cur) as (M1 & M2 & M3).
    cbv zeta. rewrite M1, M2, Ec, Ef. split_and!; [done..|]. intros key Hk.
    rewrite M3, Ep by done. rewrite Ec.
    assert (E0 : toFloat (new_endpoint !! key) = float_Z 0)
      by (unfold percentile_members in Hk; set_unfold in Hk; by destruct Hk as [->|[->|[->|[]]]]).
    assert (Es : weighted_sum k key (toFloat (new_endpoint !! key)) rs =
                 float_sum (omap (endpoint_share k key) rs)); [|by rewrite Es].
    rewrite E0, <-float_sum_fold. unfold weighted_sum, endpoint_share.
    generalize (float_Z 0). clear. induction rs as [|r l IH]; intros a; [done|]. cbn [foldl].
    destruct (ByEndpoint r !! k); apply IH.
Qed.
(** The members of an endpoint, absent or not. *)
Lemma aggregate_endpoint_int k key : key ∈ ["count"; "failures"] →
  toInt (default ∅ (ByEndpoint (aggregate rs) !! k) !! key) = wrap64 (sum_of (endpoint_int k key) rs).
Proof.
  intros Hk. destruct (aggregate_endpoint k) as [Hin Hv].
  destruct (ByEndpoint (aggregate rs) !! k) as [v|] eqn:E.
  - destruct (Hv v eq_refl) as (Ec & Ef & _). set_unfold in Hk. by destruct Hk as [->|[->|[]]].
  - assert (Hs : sum_of (endpoint_int k key) rs = 0%Z); [|by rewrite Hs].
    assert (Hno : ∀ r, r ∈ rs → ByEndpoint r !! k = None).
    { intros r Hr. apply eq_None_not_Some. intros Hx. destruct (proj2 Hin) as [? [=]]. by exists r. }
    clear -Hno. induction rs as [|r l IH]; [done|]. rewrite sum_of_cons, IH by (intros; apply Hno; by right).
    unfold endpoint_int. by rewrite Hno by left.
Qed.
End sums.

(** C36: a combined report, of any reports.  Requests, network errors, failed expectations,
    and the counts of the cache, of every status and of every endpoint are the sums over the
    reports, modulo 2^64; the throughput is the sum of theirs, in float64, and the mismatches
    are put together in order.  When the total of the requests is zero, no percentile and no
    endpoint is reported.  Otherwise the overall percentiles are p50, p90, p95, p99, p999 and
    max: the sum of the reports' values, each weighted by the report's requests, divided by the
    total (a missing value counts as zero).  An endpoint is listed exactly when a report lists
    it, and its p50, p95 and p99 are the sum of the values of the reports that list it, each
    weighted by that report's count for the endpoint, divided by the endpoint's count; the sum
    is left undivided when the count is not positive. *)
Theorem aggregate_correct rs :
  let a := aggregate rs in let total := wrap64 (sum_of TotalRequests rs) in
  TotalRequests a = total ∧
  TransportErrors a = wrap64 (sum_of TransportErrors rs) ∧
  ValidationFails a = wrap64 (sum_of ValidationFails rs) ∧
  ThroughputRPS a = float_sum (ThroughputRPS <$> rs) ∧
  Mismatches a = (rs ≫= Mismatches) ∧
  (∀ k, default 0%Z (Cache a !! k) = wrap64 (sum_of (λ r, default 0%Z (Cache r !! k)) rs)) ∧
  (∀ k, default 0%Z (StatusCodes a !! k) = wrap64 (sum_of (λ r, default 0%Z (StatusCodes r !! k)) rs)) ∧
  (total = 0%Z → LatencyMs a = ∅ ∧ ByEndpoint a = ∅) ∧
  (total ≠ 0%Z →
    (∀ p, LatencyMs a !! p =
       if decide (p ∈ ["p50"; "p90"; "p95"; "p99"; "p999"; "max"]) then
         Some (fdiv (float_sum ((λ r, fmul (default (float_Z 0) (LatencyMs r !! p))
                                           (float_Z (TotalRequests r))) <$> rs)) (float_Z total))
       else None) ∧
    ∀ k, (is_Some (ByEndpoint a !! k) ↔ ∃ r, r ∈ rs ∧ is_Some (ByEndpoint r !! k)) ∧
      ∀ v, ByEndpoint a !! k = Some v →
        let n := wrap64 (sum_of (endpoint_int k "count") rs) in
        toInt (v !! "count") = n ∧
        toInt (v !! "failures") = wrap64 (sum_of (endpoint_int k "failures") rs) ∧
        ∀ key, key ∈ ["p50_ms"; "p95_ms"; "p99_ms"] →
          let s := float_sum (omap (λ r, (λ v : gmap string any,
                     fmul (toFloat (v !! key)) (float_Z (toInt (v !! "count")))) <$> ByEndpoint r !! k) rs) in
          toFloat (v !! key) = if (0 <? n)%Z then fdiv s (float_Z n) else s).
Proof.
  intros a total. pose proof (aggregate_sums rs) as (E1 & E2 & E3 & E4 & E5 & E6 & E7).
  split_and!; try done.
  - by apply aggregate_none.
  - intros Hne. split; [by apply aggregate_latency|]. by apply aggregate_endpoint.
Qed.
End aggregate_facts.

(** ** From the workers to the combined report *)
(** A run of the load generator: its exchanges, workers and figures, its settings, and the time
    at which it reports. *)
Record load_run := {
  lr_exchanges : list exchange; lr_workers : nat; lr_stats : stats;
  lr_concurrency : Z; lr_dur : Duration; lr_corpus : Z; lr_url : string; lr_now : Time }.
Section runs.
Context `{FloatToInt} `{GoMapRange} `{JSONObject}.

Definition emitted (x : load_run) : report :=
  decoded (emitJSON (lr_stats x) (lr_concurrency x) (lr_dur x) (lr_corpus x) (lr_url x) (lr_now x)).
(** The run is over, and its figures are those of its exchanges (StressRun.v). *)
Definition run_done (x : load_run) : Prop := accounted (lr_exchanges x) (lr_workers x) (lr_stats x).

Context (runs : list load_run).

Definition run_exchanges : list exchange := concat (lr_exchanges <$> runs).
Definition run_reports : list report := emitted <$> runs.

Lemma runs_sum (f : report → Z) (Q : exchange → bool) :
  (∀ run, run ∈ runs → f (emitted run) = Z.of_nat (count Q (lr_exchanges run))) →
  sum_of f run_reports = Z.of_nat (count Q run_exchanges).
Proof.
  unfold run_reports, run_exchanges. induction runs as [|run l IH]; intros E; [done|].
  rewrite !fmap_cons, sum_of_cons. cbn [concat]. rewrite count_app, E by left.
  rewrite IH by (intros r Hr; apply E; by right). lia.
Qed.
Lemma runs_sum_le (f : report → Z) (Q : exchange → bool) :
  (∀ run, run ∈ runs → 0 ≤ f (emitted run) ≤ Z.of_nat (count Q (lr_exchanges run)))%Z →
  (0 ≤ sum_of f run_reports ≤ Z.of_nat (count Q run_exchanges))%Z.
Proof.
  unfold run_reports, run_exchanges. induction runs as [|run l IH]; intros E; [done|].
  rewrite !fmap_cons, sum_of_cons. cbn [concat]. rewrite count_app.
  assert (E1 : (0 ≤ f (emitted run) ≤ Z.of_nat (count Q (lr_exchanges run)))%Z) by (apply E; left).
  assert (E2 := IH (λ r Hr, E r (proj2 (elem_of_cons _ _ _) (or_intror Hr)))). lia.
Qed.
Lemma wrap_count (Q : exchange → bool) : (Z.of_nat (length run_exchanges) < 2 ^ 53)%Z →
  wrap64 (Z.of_nat (count Q run_exchanges)) = Z.of_nat (count Q run_exchanges).
Proof.
  intros Hl. pose proof (count_le Q run_exchanges). apply wrap64_id.
  unfold in_int64, int64_min, int64_max. lia.
Qed.

Lemma emitted_endpoint x k :
  (0 ≤ tally (MCount (Some k)) (lr_stats x) < 2 ^ 53)%Z → (0 ≤ tally (MFailures (Some k)) (lr_stats x) < 2 ^ 53)%Z →
  endpoint_int k "count" (emitted x) = tally (MCount (Some k)) (lr_stats x) ∧
  endpoint_int k "failures" (emitted x) = tally (MFailures (Some k)) (lr_stats x).
Proof.
  unfold endpoint_int, emitted, decoded, emitJSON, tally.
  cbn [ByEndpoint j_by_endpoint bucket_of]. rewrite !lookup_fmap.
  destruct (byKind (lr_stats x) !! k) as [b|]; cbn [fmap option_fmap option_map from_option id]; [|done].
  intros Hc Hf. rewrite !lookup_fmap.
  repeat first [rewrite lookup_insert_eq|rewrite lookup_insert_ne by done].
  cbn [fmap option_fmap option_map decoded_any toInt]. by rewrite !float_int_Z.
Qed.

Lemma emitted_status x c : StatusCodes (emitted x) !! Itoa c = byStatus (lr_stats x) !! c.
Proof.
  unfold emitted, decoded, emitJSON. cbn [StatusCodes j_status_codes].
  assert (Hinj : Inj eq eq Itoa) by (intros ???; by apply Itoa_inj).
  apply (lookup_kmap (M2 := gmap string) Itoa).
Qed.
Lemma emitted_mismatches x : run_done x →
  Mismatches (emitted x) = [] ↔ count failed (lr_exchanges x) = 0%nat.
Proof.
  intros Ha. pose proof (ac_tally _ _ _ Ha (MFailures None)) as Hf.
  destruct (ac_mismatches _ _ _ Ha) as (order & _ & Hm & Hlen).
  unfold emitted, decoded, emitJSON. cbn [Mismatches j_mismatches].
  change (b_failures (overall (lr_stats x))) with (tally (MFailures None) (lr_stats x)). rewrite Hf.
  change (count (holds (MFailures None)) (lr_exchanges x)) with (count failed (lr_exchanges x)).
  destruct (count failed (lr_exchanges x)) as [|n]; [done|].
  rewrite (proj2 (Z.ltb_lt 0 (Z.of_nat (S n)))) by lia.
  cbn [from_option id]. split; [|done]. rewrite Hm. by destruct order.
Qed.

Section finished.
(** The reports are those of finished runs with fewer than 2^53 requests in all. *)
Context (Hacc : Forall run_done runs).

Lemma run_accounted run : run ∈ runs → run_done run.
Proof. rewrite Forall_forall in Hacc. apply Hacc. Qed.

Lemma reports_sum f m : (∀ run, run ∈ runs → f (emitted run) = tally m (lr_stats run)) →
  sum_of f run_reports = Z.of_nat (count (holds m) run_exchanges).
Proof.
  intros E. apply runs_sum. intros run Hr. rewrite E by done. by apply (ac_tally _ _ _ (run_accounted _ Hr)).
Qed.

Lemma reports_total : sum_of TotalRequests run_reports = Z.of_nat (length run_exchanges).
Proof. rewrite (reports_sum _ (MCount None)) by done. by rewrite count_true. Qed.

Lemma reports_mismatches :
  run_reports ≫= Mismatches = [] ↔ count failed run_exchanges = 0%nat.
Proof.
  unfold run_reports, run_exchanges.
  induction runs as [|run l IH]; [done|]. apply Forall_cons in Hacc as [Ha Hl].
  rewrite !fmap_cons. cbn [mbind list_bind concat].
  rewrite count_app, app_nil, (emitted_mismatches _ Ha), (IH Hl). lia.
Qed.

Context (Hlen : (Z.of_nat (length run_exchanges) < 2 ^ 53)%Z).

Lemma reports_wrapped : total_of run_reports = Z.of_nat (length run_exchanges).
Proof using Hacc Hlen.
  unfold total_of. rewrite reports_total. apply wrap64_id.
  unfold in_int64, int64_min, int64_max. lia.
Qed.

Lemma tally_bound run m : run ∈ runs → (0 ≤ tally m (lr_stats run) < 2 ^ 53)%Z.
Proof using Hacc Hlen.
  intros Hr. rewrite (ac_tally _ _ _ (run_accounted _ Hr)).
  assert (Hle : (count (holds m) (lr_exchanges run) ≤ count (holds m) run_exchanges)%nat).
  { unfold run_exchanges. apply (list_elem_of_fmap_2 lr_exchanges) in Hr.
    apply list_elem_of_split in Hr as (l1 & l2 & ->). rewrite concat_app. cbn [concat].
    rewrite !count_app. lia. }
  pose proof (count_le (holds m) run_exchanges). lia.
Qed.

Lemma reports_status c :
  (0 ≤ wrap64 (sum_of (λ r, default 0 (StatusCodes r !! Itoa c)) run_reports) ≤
     Z.of_nat (count (has_status c) run_exchanges))%Z.
Proof using Hacc Hlen.
  assert (Hs : (0 ≤ sum_of (λ r, default 0 (StatusCodes r !! Itoa c)) run_reports ≤
    Z.of_nat (count (has_status c) run_exchanges))%Z).
  { apply runs_sum_le. intros run Hr. rewrite emitted_status.
    pose proof (ac_status _ _ _ (run_accounted _ Hr) c) as Hc.
    destruct (byStatus (lr_stats run) !! c) as [v|]; cbn; [|lia]. specialize (Hc v eq_refl). lia. }
  pose proof (count_le (has_status c) run_exchanges). rewrite wrap64_id; [done|].
  unfold in_int64, int64_min, int64_max. lia.
Qed.
End finished.

(** From the workers to the combined report.  When the reports combined are those of
    finished runs of the load generator (fewer than 2^53 requests in all), the combination
    gives the figures of all requests of all runs taken together: the requests, the failed
    expectations, the network errors, the hits and misses, and the requests and failures by
    kind are counted exactly, although every number by kind passes through a float; no status
    is overcounted; and mismatches are shown when an expectation failed and only then. *)
Theorem aggregate_of_runs :
  Forall run_done runs →
  (Z.of_nat (length run_exchanges) < 2 ^ 53)%Z →
  let xs := run_exchanges in let a := aggregate run_reports in
  let n Q := Z.of_nat (count Q xs) in
  TotalRequests a = Z.of_nat (length xs) ∧ ValidationFails a = n failed ∧ TransportErrors a = n no_reply ∧
  default 0%Z (Cache a !! "hits") = n hit ∧
  default 0%Z (Cache a !! "misses") = n (λ x, negb (no_reply x) && negb (hit x)) ∧
  (∀ c, 0 ≤ default 0 (StatusCodes a !! Itoa c) ≤ n (has_status c))%Z ∧
  (xs ≠ [] → ∀ k,
    toInt (default ∅ (ByEndpoint a !! k) !! "count") = n (of_kind (Some k)) ∧
    toInt (default ∅ (ByEndpoint a !! k) !! "failures") = n (λ x, of_kind (Some k) x && failed x)) ∧
  (Mismatches a = [] ↔ count failed xs = 0%nat).
Proof.
  intros Hacc Hlen xs a n.
  destruct (aggregate_sums run_reports) as (E1 & E2 & E3 & _ & E4 & E5 & E6).
  fold a in E1, E2, E3, E4, E5, E6.
  split_and!.
  - by rewrite E1, (reports_wrapped Hacc Hlen).
  - rewrite E3, (reports_sum Hacc _ (MFailures None)) by done. by apply wrap_count.
  - rewrite E2, (reports_sum Hacc _ MTransErr) by done. by apply wrap_count.
  - rewrite E5, (reports_sum Hacc _ MHit) by done. by apply wrap_count.
  - rewrite E5, (reports_sum Hacc _ MMiss) by done. by apply wrap_count.
  - intros c. rewrite E6. by apply reports_status.
  - intros Hne k.
    assert (Hnz : total_of run_reports ≠ 0%Z) by (rewrite (reports_wrapped Hacc Hlen); by destruct run_exchanges).
    pose proof (λ run (Hr : run ∈ runs), emitted_endpoint run k
      (tally_bound Hacc Hlen run _ Hr) (tally_bound Hacc Hlen run _ Hr)) as He.
    unfold a. rewrite !(aggregate_endpoint_int run_reports Hnz) by set_solver.
    rewrite (reports_sum Hacc (endpoint_int k "count") (MCount (Some k))) by (intros run Hr; by apply He).
    rewrite (reports_sum Hacc (endpoint_int k "failures") (MFailures (Some k))) by (intros run Hr; by apply He).
    split; by apply wrap_count.
  - rewrite E4. by apply reports_mismatches.
Qed.
End runs.

(** * Witnesses *)
#[local] Existing Instance float_int_default.
#[local] Existing Instance map_range_default.
#[local] Existing Instance rand_lcg.
#[local] Existing Instance fmt_plain.
#[local] Existing Instance json_none.
#[local] Existing Instance url_scheme.

Definition report_ex (n : Z) (p50 : Z) : report :=
  {| Target := ""; Concurrency := 1; DurationSeconds := float_Z 1; SeedCorpus := 100;
     TotalRequests := n; ThroughputRPS := float_Z n; TransportErrors := 0; ValidationFails := 1;
     LatencyMs := {[ "p50" := float_Z p50; "max" := float_Z (10 * p50) ]}; Cache := {[ "hits" := n ]};
     ByEndpoint := {[ "help" := {[ "count" := AnyFloat (float_Z n); "p50_ms" := AnyFloat (float_Z p50) ]} ]};
     StatusCodes := {[ "200" := n ]}; Mismatches := [] |}.

(** Ten requests at 2 ms and thirty at 4 ms: the mean is 3.5 ms, and so is what is called the
    maximum, which was 40 ms, a mean: 35 ms. *)
Example aggregate_ex :
  let a := aggregate [report_ex 10 2; report_ex 30 4] in
  (TotalRequests a, StatusCodes a !! "200", LatencyMs a !! "p50", LatencyMs a !! "max") =
  (40%Z, Some 40%Z, Some (decimal 35 1), Some (float_Z 35)).
Proof. vm_compute. reflexivity. Qed.

(** The request total wraps, and with a total of zero nothing else is reported. *)
Example aggregate_wrap_ex :
  let a := aggregate [report_ex int64_max 2; report_ex 1 4] in
  let b := aggregate [report_ex 5 2; report_ex (-5) 4] in
  (TotalRequests a, LatencyMs a !! "p90", TotalRequests b, LatencyMs b !! "p50", Cache b !! "hits") =
  (int64_min, Some (S754_zero true), 0%Z, None, Some 0%Z).
Proof. vm_compute. reflexivity. Qed.

Lemma aggregate_correct_witness :
  let a := aggregate [report_ex 10 2; report_ex 30 4] in
  TotalRequests a = 40%Z ∧ is_Some (ByEndpoint a !! "help") ∧
  LatencyMs a !! "p50" = Some (fdiv (fadd (fadd (float_Z 0) (fmul (float_Z 2) (float_Z 10)))
                                          (fmul (float_Z 4) (float_Z 30))) (float_Z 40)).
Proof.
  destruct (aggregate_correct [report_ex 10 2; report_ex 30 4]) as (E & _ & _ & _ & _ & _ & _ & _ & Hn).
  destruct (Hn ltac:(done)) as [Hp He]. split_and!; [exact E| |exact (Hp "p50")].
  destruct (He "help") as [[_ Hin] _]. apply Hin. exists (report_ex 10 2). split; [left|by eexists].
Defined.

(** A finished run of two workers. *)
Lemma two_workers_accounted : ∃ xs n s, length xs = 2%nat ∧ accounted xs n s.
Proof.
  set (sched := concat (replicate 20 [0; 1]%nat)).
  assert (E : (xss ← plan 100 "zipf" two_workers; ts ← mapM (program local_base) xss;
               sys ← run sched (ts, newStats 0%Z, 0%Z); Some (length (concat xss), finished sys)) =
              Some (2%nat, true)) by (vm_compute; reflexivity).
  destruct (plan _ _ _) as [xss|]; [|done]. cbn [mbind option_bind] in E.
  destruct (mapM (program local_base) xss) as [ts|] eqn:Ets; [|done]. cbn [mbind option_bind] in E.
  destruct (run sched _) as [sys|] eqn:Er; [|done]. cbn [mbind option_bind] in E. injection E as El Ef.
  destruct (program_accounts local_base xss ts sched 0%Z 0%Z Ets) as (sys' & Er' & _ & _ & Ha); [by rewrite El|].
  rewrite Er in Er'. injection Er' as <-. exists (concat xss), (length ts), sys.1.2. split; [done|by apply Ha].
Qed.

(** The run, from two machines with other settings. *)
Definition here (xs : list exchange) (n : nat) (s : stats) : load_run :=
  {| lr_exchanges := xs; lr_workers := n; lr_stats := s; lr_concurrency := 50%Z; lr_dur := Second;
     lr_corpus := 100%Z; lr_url := "http://one"; lr_now := 0%Z |}.
Definition there (xs : list exchange) (n : nat) (s : stats) : load_run :=
  {| lr_exchanges := xs; lr_workers := n; lr_stats := s; lr_concurrency := 8%Z; lr_dur := Minute;
     lr_corpus := 25%Z; lr_url := "http://two"; lr_now := 99%Z |}.

Lemma aggregate_of_runs_witness : ∃ xs n s, length xs = 2%nat ∧
  TotalRequests (aggregate (run_reports [here xs n s; there xs n s])) = 4%Z.
Proof.
  destruct two_workers_accounted as (xs & n & s & Hl & Ha).
  exists xs, n, s. split; [done|].
  destruct (aggregate_of_runs [here xs n s; there xs n s]) as [E _].
  - apply Forall_cons; split; [done|]. by apply Forall_cons.
  - unfold run_exchanges. cbn. rewrite app_nil_r, length_app, Hl. done.
  - rewrite E. unfold run_exchanges. cbn. by rewrite app_nil_r, length_app, Hl.
Defined.
