(* ===== verification/AggregateMain.v ===== *)
(** * cmd/gordap-stress-aggregate: the command.

    Reading the reports in the order of the arguments, and the text that main prints of their
    combination.  Opening a file and decoding its JSON are arguments. *)
From S2P Require Import Prelude GoStrings Float64 Strconv Synth Memory Stress StressRun Aggregate StressMain.

Section command.
Context `{FloatToInt} `{GoMapRange}.

(** The keys of a map, [sort.Strings]. *)
Definition sorted_keys {V} (m : gmap string V) : list string := sort_by id (map_range m).*1.

Definition latency_line (a : report) (p : string) : string :=
  "  " +:+ pad_right 5 p +:+ " " +:+ pad_left 8 (fmt_f 2 (default (float_Z 0) (LatencyMs a !! p))) +:+ " ms".
Definition ratio_lines (a : report) : list string :=
  let count k := default 0%Z (Cache a !! k) in
  let total := wrap64 (count "hits" + count "misses") in
  if (0 <? total)%Z then
    [""; "Cache hit ratio: " +:+ fmt_f 1 (percent (count "hits") total) +:+ "% (" +:+ Itoa (count "hits") +:+
         " / " +:+ Itoa total +:+ ")"]
  else [].
Definition kind_line (a : report) (k : string) : string :=
  let v := default ∅ (ByEndpoint a !! k) in
  let ms key := pad_left 10 (fmt_f 2 (toFloat (v !! key))) in
  "  " +:+ pad_right 22 k +:+ " " +:+ pad_left 12 (Itoa (toInt (v !! "count"))) +:+ " " +:+
  ms "p50_ms" +:+ " " +:+ ms "p95_ms" +:+ " " +:+ ms "p99_ms".
Definition code_line (a : report) (k : string) : string :=
  let v := default 0%Z (StatusCodes a !! k) in
  "  " +:+ k +:+ ": " +:+ pad_left 12 (Itoa v) +:+ " (" +:+ fmt_f 2 (percent v (TotalRequests a)) +:+ "%)".
Definition mismatch_lines (a : report) : list string :=
  match Mismatches a with
  | [] => []
  | ms => [""; "First mismatches across all runs:"] ++ ((λ m, "  - " +:+ m) <$> take 10 ms)
  end.

(** The text of [n] runs combined to [a], line by line. *)
Definition report_lines (n : nat) (a : report) : list string :=
  ["=== aggregate of " +:+ Itoa (Z.of_nat n) +:+ " runs ===";
   "Total requests:       " +:+ Itoa (TotalRequests a);
   "Combined throughput:  " +:+ fmt_f 0 (ThroughputRPS a) +:+ " req/s (sum across runs)";
   "Transport errors:     " +:+ Itoa (TransportErrors a);
   "Validation failures:  " +:+ Itoa (ValidationFails a);
   ""; "Latency (request-weighted average of per-run percentiles):"] ++
  (latency_line a <$> percentile_keys) ++
  ratio_lines a ++
  [""; "By endpoint (counts summed, percentiles averaged)";
   "  " +:+ pad_right 22 "kind" +:+ " " +:+ pad_left 12 "count" +:+ " " +:+ pad_left 10 "p50_ms" +:+ " " +:+
     pad_left 10 "p95_ms" +:+ " " +:+ pad_left 10 "p99_ms"] ++
  (kind_line a <$> sorted_keys (ByEndpoint a)) ++
  [""; "Status codes"] ++ (code_line a <$> sorted_keys (StatusCodes a)) ++
  mismatch_lines a.

(** A file's content, or the text of the error; a report out of a content, or the text. *)
Context (Open : string → string + string) (Decode : string → report + string).
Fixpoint read_reports (paths : list string) : list report + string :=
  match paths with
  | [] => inl []
  | path :: paths =>
      match Open path with
      | inr err => inr ("open " +:+ path +:+ ": " +:+ err)
      | inl f =>
          match Decode f with
          | inr err => inr ("decode " +:+ path +:+ ": " +:+ err)
          | inl r => match read_reports paths with inl rs => inl (r :: rs) | inr err => inr err end
          end
      end
  end.
(** The lines of standard output, or the status and the line of standard error. *)
Definition main (args : list string) : list string + Z * string :=
  match args with
  | [] => inr (2%Z, "usage: gordap-stress-aggregate REPORT.json [REPORT.json ...]")
  | _ =>
      match read_reports args with
      | inr err => inr (1%Z, err)
      | inl rs => inl (report_lines (length rs) (aggregate rs))
      end
  end.
End command.

(** * Theorems *)

(** ** Maps in any order *)
Section order.
Context `{FloatToInt} (R1 R2 : GoMapRange).

Lemma sorted_keys_order {V} (m : gmap string V) : @sorted_keys R1 V m = @sorted_keys R2 V m.
Proof.
  apply sort_by_unique; [|done]. apply fmap_Permutation.
  by rewrite (@map_range_perm R1), (@map_range_perm R2).
Qed.
Lemma add_counts_order m out : @add_counts R1 m out = @add_counts R2 m out.
Proof.
  apply map_eq. intros k. unfold add_counts.
  by rewrite !(keyed_fold (λ o v, wrap64 (default 0%Z o + v))).
Qed.
Lemma add_endpoints_order out r : @add_endpoints _ R1 out r = @add_endpoints _ R2 out r.
Proof.
  apply map_eq. intros k. unfold add_endpoints.
  by rewrite !(keyed_fold (λ o v, add_endpoint (default new_endpoint o) v)).
Qed.
Lemma foldl_order {A B} (f g : A → B → A) (Hfg : ∀ a b, f a b = g a b) l : ∀ a, foldl f a l = foldl g a l.
Proof. induction l as [|b l IH]; intros a; [done|]. cbn. by rewrite Hfg. Qed.
Lemma aggregate_order rs : @aggregate _ R1 rs = @aggregate _ R2 rs.
Proof.
  unfold aggregate.
  rewrite (foldl_order (@add_report R1) (@add_report R2)) by (intros; unfold add_report; by rewrite !add_counts_order).
  by rewrite (foldl_order (@add_endpoints _ R1) (@add_endpoints _ R2)) by apply add_endpoints_order.
Qed.
Lemma report_lines_order n a : @report_lines _ R1 n a = @report_lines _ R2 n a.
Proof. unfold report_lines. by rewrite !(sorted_keys_order (ByEndpoint a)), !(sorted_keys_order (StatusCodes a)). Qed.
Lemma main_order Open Decode args : @main _ R1 Open Decode args = @main _ R2 Open Decode args.
Proof.
  unfold main. destruct args; [done|]. destruct (read_reports _ _ _); [|done].
  by rewrite aggregate_order, report_lines_order.
Qed.
End order.

(** ** Files *)
Section files.
Context `{FloatToInt} `{GoMapRange} (Open : string → string + string) (Decode : string → report + string).

(** The report in a file. *)
Definition holds_report (path : string) (r : report) : Prop := ∃ f, Open path = inl f ∧ Decode f = inl r.

Lemma read_reports_good paths rs rest : Forall2 holds_report paths rs →
  read_reports Open Decode (paths ++ rest) =
  match read_reports Open Decode rest with inl rs' => inl (rs ++ rs') | inr err => inr err end.
Proof.
  induction 1 as [|path r paths rs (f & Ef & Er) _ IH]; cbn; [by destruct (read_reports _ _ _)|].
  rewrite Ef, Er, IH. by destruct (read_reports _ _ rest).
Qed.

(** The first file that cannot be read or decoded is named, with status 1, whatever follows;
    without arguments the status is 2. *)
Lemma first_bad_file paths rs bad rest err : Forall2 holds_report paths rs →
  Open bad = inr err →
  main Open Decode (paths ++ bad :: rest) = inr (1%Z, "open " +:+ bad +:+ ": " +:+ err).
Proof.
  intros Hp Hb. unfold main. rewrite (read_reports_good paths rs) by done. cbn [read_reports]. rewrite Hb.
  by destruct paths.
Qed.
Lemma first_bad_report paths rs bad f rest err : Forall2 holds_report paths rs →
  Open bad = inl f → Decode f = inr err →
  main Open Decode (paths ++ bad :: rest) = inr (1%Z, "decode " +:+ bad +:+ ": " +:+ err).
Proof.
  intros Hp Hb Hd. unfold main. rewrite (read_reports_good paths rs) by done. cbn [read_reports]. rewrite Hb, Hd.
  by destruct paths.
Qed.
Lemma main_good paths rs : paths ≠ [] → Forall2 holds_report paths rs →
  main Open Decode paths = inl (report_lines (length rs) (aggregate rs)).
Proof.
  intros Hne Hp. unfold main. pose proof (read_reports_good paths rs [] Hp) as E. rewrite !app_nil_r in E.
  rewrite E. cbn. rewrite app_nil_r. by destruct paths.
Qed.
End files.

(** The lines of the kinds and the hit ratio are among those of the report. *)
Lemma kind_line_printed `{FloatToInt} `{GoMapRange} n a k : is_Some (ByEndpoint a !! k) →
  kind_line a k ∈ report_lines n a.
Proof.
  intros [v Hv]. unfold report_lines. rewrite !elem_of_app. do 4 right. left.
  apply list_elem_of_fmap_2. unfold sorted_keys. rewrite sort_by_perm. apply list_elem_of_fmap.
  exists (k, v). split; [done|by apply elem_of_map_range].
Qed.
Lemma ratio_printed `{FloatToInt} `{GoMapRange} n a x : x ∈ ratio_lines a → x ∈ report_lines n a.
Proof. intros Hx. unfold report_lines. rewrite !elem_of_app. by do 2 right; left. Qed.

(** * Theorem *)
Section printed.
Context `{FloatToInt} `{GoMapRange} `{JSONObject} (Open : string → string + string) (Decode : string → report + string).
Context (runs : list load_run).

(** C32: from the workers to the printed report.  When the files named on the command line
    hold the JSON reports of finished runs of the load generator, each with settings of its
    own (fewer than 2^53 requests in all), the aggregator prints a report, the same one in
    whatever order Go enumerates its maps, whose lines give the exact figures of all requests
    of all runs together: the requests, the network errors, the failed expectations, the
    requests of every kind that occurred, and, if there was any reply, the replies from the
    server's cache out of all replies. *)
Theorem printed_report paths :
  Forall run_done runs →
  (Z.of_nat (length (run_exchanges runs)) < 2 ^ 53)%Z →
  paths ≠ [] → Forall2 (holds_report Open Decode) paths (run_reports runs) →
  let xs := run_exchanges runs in let n Q := Itoa (Z.of_nat (count Q xs)) in
  ∃ lines, main Open Decode paths = inl lines ∧
    (∀ R : GoMapRange, @main _ R Open Decode paths = inl lines) ∧
    lines !! 1%nat = Some ("Total requests:       " +:+ Itoa (Z.of_nat (length xs))) ∧
    lines !! 3%nat = Some ("Transport errors:     " +:+ n no_reply) ∧
    lines !! 4%nat = Some ("Validation failures:  " +:+ n failed) ∧
    (∀ k, count (of_kind (Some k)) xs ≠ 0%nat → ∃ rest,
       "  " +:+ pad_right 22 k +:+ " " +:+ pad_left 12 (n (of_kind (Some k))) +:+ rest ∈ lines) ∧
    (count no_reply xs ≠ length xs → ∃ ratio,
       "Cache hit ratio: " +:+ ratio +:+ "% (" +:+ n hit +:+ " / " +:+ n (λ x, negb (no_reply x)) +:+ ")" ∈ lines).
Proof.
  intros Hacc Hlen Hne Hp xs n.
  destruct (aggregate_of_runs runs Hacc Hlen)
    as (E1 & E2 & E3 & E4 & E5 & _ & E7 & _). fold xs in E1, E2, E3, E4, E5, E7.
  set (rs := run_reports runs) in *. set (a := aggregate rs) in *.
  pose proof (main_good Open Decode paths rs Hne Hp) as E. fold a in E.
  exists (report_lines (length rs) a). split_and!; [done|..].
  - intros R. rewrite <-E. apply main_order.
  - cbn. by rewrite E1.
  - cbn. by rewrite E3.
  - cbn. by rewrite E2.
  - intros k Hk. assert (Hx : xs ≠ []) by (by intros Hx; rewrite Hx in Hk).
    destruct (E7 Hx k) as [Hc _].
    assert (Hs : is_Some (ByEndpoint a !! k)).
    { destruct (ByEndpoint a !! k); [by eexists|]. cbn [default] in Hc.
      rewrite lookup_empty in Hc. cbn [toInt] in Hc. lia. }
    pose proof (kind_line_printed (length rs) a k Hs) as Hin. unfold kind_line in Hin. rewrite Hc in Hin.
    by eexists.
  - intros Hr. fold xs in Hlen.
    pose proof (count_replies xs) as Hcr. pose proof (count_le hit xs) as Hh.
    assert (Hnr : count (λ x, negb (no_reply x)) xs = (count hit xs + count (λ x, negb (no_reply x) && negb (hit x)) xs)%nat).
    { pose proof (count_negb no_reply xs). lia. }
    assert (Hsum : wrap64 (default 0 (Cache a !! "hits") + default 0 (Cache a !! "misses"))%Z =
      Z.of_nat (count (λ x, negb (no_reply x)) xs)).
    { rewrite E4, E5, Hnr, Nat2Z.inj_add. apply wrap64_id. unfold in_int64, int64_min, int64_max. lia. }
    eexists. apply ratio_printed. unfold ratio_lines. rewrite Hsum, E4.
    destruct (Z.ltb_spec 0 (Z.of_nat (count (λ x, negb (no_reply x)) xs))); [|lia].
    right. left.
Qed.
End printed.

(** * Witnesses *)
#[local] Existing Instance float_int_default.
#[local] Existing Instance map_range_default.
#[local] Existing Instance rand_lcg.
#[local] Existing Instance fmt_plain.
#[local] Existing Instance json_none.
#[local] Existing Instance url_scheme.

Example aggregate_main_ex :
  let files path := if (path =? "a")%string then inl "10" else if (path =? "b")%string then inl "30"
                    else inr "open c: no such file or directory" in
  let reports f := inl (if (f =? "10")%string then report_ex 10 2 else report_ex 30 4) in
  match main files reports ["a"; "b"] with
  | inl lines => (lines !! 1%nat, lines !! 7%nat, lines !! 18%nat, lines !! 21%nat) =
      (Some "Total requests:       40", Some "  p50       3.50 ms",
       Some "  help                             40       3.50       0.00       0.00",
       Some "  200:           40 (100.00%)")
  | inr _ => False
  end ∧
  main files reports ["a"; "c"; "d"] = inr (1%Z, "open c: open c: no such file or directory").
Proof. vm_compute. done. Qed.

(** Two files, of runs with different settings. *)
Definition two_files (x y : load_run) (f : string) : report + string :=
  if (f =? "one.json")%string then inl (emitted x) else inl (emitted y).
Lemma printed_report_witness : ∃ xs n s lines,
  main (λ path, inl path) (two_files (here xs n s) (there xs n s)) ["one.json"; "two.json"] = inl lines ∧
  lines !! 1%nat = Some "Total requests:       4".
Proof.
  destruct two_workers_accounted as (xs & n & s & Hl & Ha). exists xs, n, s.
  destruct (printed_report (λ path, inl path) (two_files (here xs n s) (there xs n s))
    [here xs n s; there xs n s] ["one.json"; "two.json"]) as (lines & E & _ & E1 & _).
  - apply Forall_cons; split; [done|]. by apply Forall_cons.
  - unfold run_exchanges. cbn. by rewrite app_nil_r, length_app, Hl.
  - done.
  - repeat constructor; by eexists.
  - exists lines. split; [exact E|]. rewrite E1. unfold run_exchanges. cbn.
    by rewrite app_nil_r, length_app, Hl.
Defined.
